(* ===== verification/_CoqProject ===== *)
-Q . S2P
Prelude.v
Bytes.v
Layout.v
Records.v
Common.v
Json.v
Utf8.v
Event.v
Usdt.v
Deserializer.v
Lifecycle.v
Sequencer.v
Ranges.v
Serializer.v
Health.v
Tasks.v
Daemon.v
Admission.v
Wire.v
Bpf.v
Task.v
HookFacts.v
Entries.v
Rich.v
RichFacts.v
PathFacts.v
Loss.v
Raw.v
ProcLifecycle.v
Exec.v
Tty.v
UsdtProbes.v
Lsm.v
Network.v
Interleave.v
Btf.v
BtfFacts.v
BtfFormat.v
BtfSound.v
Loader.v
LoaderFacts.v
Elf.v
ElfFacts.v
UsdtRegistry.v
PerfAttach.v
Programs.v
CollectorFacts.v
CollectorDemo.v
Startup.v
StartupFacts.v
StartupDemo.v
Demo.v
Witnesses.v
Viewer.v
ViewerFacts.v
ViewerApp.v
ViewerAppFacts.v
ViewerSummary.v
ExecTreeFacts.v
ViewerUi.v
ViewerUiFacts.v
ViewerRun.v
ReadBack.v
ViewerDemo.v
ReadBackDemo.v
