(* ===== verification/Prelude.v ===== *)
(** * Bloodhound: a verification development

    Bloodhound traces what the processes of one login do.  BPF programs in the
    kernel filter by audit id and put binary records on a ring buffer; a daemon
    turns the records into JSON lines on stdout, adds lifecycle events and
    accounts for everything that was lost; a terminal viewer reads the lines
    back and shows commands, processes and output.

    ** How the parts correspond to the code

    Shared by kernel and daemon (crate bloodhound-common):
    - [Layout] models [repr(C)]: field offsets, padding, sizes, encoding and
      [read_unaligned].  [Records] has every wire struct (lib.rs), [Common] the
      event kinds, statuses, syscall tables, exit claims (exit_claim.rs) and
      map-outcome classification (syscall_collection.rs).
    - [Bytes]: slices and words of a byte string.  [Json] is the part of
      serde_json the code uses, [Utf8] [from_utf8] and [from_utf8_lossy],
      [Event] the event types and text helpers of deserializer.rs.

    The daemon (crate bloodhound):
    - [Usdt] and [Deserializer]: payload parsers, header conversion and dispatch
      (usdt.rs [decode_payload], deserializer.rs).
    - [Lifecycle]: the synthesizer of process starts (lifecycle.rs);
      [Sequencer]: the one ordered writer (sequencer.rs); [Ranges]: the types
      of the integers the viewer parses; [Serializer]: the line-buffered bytes on stdout
      (serializer.rs); [Health]: the drop bridge, the heartbeats and the
      collection monitors (drop_counter.rs, heartbeat.rs, capture_health.rs);
      [Tasks]: the maps of the object (maps.rs of the BPF side), the tasks
      [main] starts on them, and the signal task (main.rs, shutdown.rs);
      [Daemon]: the [select!] loop, the bounded drain and the final accounting
      (main.rs).
    - [Admission]: the ring-buffer consumer, the bounded channel and [main] as
      concurrent tasks (consumer.rs, main.rs).  [Startup], [StartupFacts]: what
      [main] does before that (main.rs, cli.rs, ready.rs, clock.rs).
    - [Btf], [BtfFacts]: the reader of the kernel's type information
      (btf_offsets.rs); [BtfFormat]: that format as the kernel documents it, and
      the reader against it; [BtfSound]: what its answer says of any bytes.  [Loader], [LoaderFacts]: attaching the programs, the
      report, the suppression bitmaps (loader.rs, cli.rs, ready.rs).
    - [Elf], [ElfFacts], [UsdtRegistry], [CollectorFacts]: the ELF and note
      reader, collector selections, target verification and attachment
      (usdt.rs).  [PerfAttach]: one probe attached through [perf_event_open]
      (usdt.rs).  [Programs]: the programs of the object by name and that the
      loader asks only for those.
    - [Wire]: what the deserializer accepts and what accepted records mean.

    The BPF side (crate bloodhound-ebpf):
    - [Bpf]: the state (maps, counters, per-CPU scratch, ring) as a record, the
      kernel's answers during one invocation as the record [Hook], and the
      state-and-error monad of the handlers (maps.rs, helpers.rs, filter.rs).
      [Task]: headers, namespaces (ns.rs), descriptors (fd_ident.rs) and the
      filesystem view (exec_view.rs).  [HookFacts]: what every kernel answer
      satisfies, and buffer lemmas.
    - [Entries], [Rich]: the Tier 2 handlers (layer3_rich.rs); [RichFacts],
      [PathFacts], [Network]: those handlers end to end; [Loss]: that no call is
      lost silently.  [Raw]: Tier 1 (layer3_raw.rs).  [ProcLifecycle]: fork,
      exit, free and signals (lifecycle.rs, signal.rs).  [Exec]: exec capture
      (layer2_exec.rs).  [Tty]: terminal capture (layer1_tty.rs).  [Lsm]: the
      security hooks (lsm_hooks.rs).  [UsdtProbes]: the USDT programs (usdt.rs).
    - [Interleave]: all programs as steps on the shared state, in any order.

    The viewer (crate bloodhound-tui):
    - [Viewer], [ViewerFacts]: events, command reconstruction, correlation
      (event_model.rs, command_reconstructor.rs, correlator.rs).  [ViewerApp],
      [ViewerAppFacts], [ExecTreeFacts]: terminal output, descriptor table,
      process trees, navigation (main.rs, app.rs, keybinds.rs).
      [ViewerSummary]: the line of an event and the time zone.  [ViewerUi],
      [ViewerUiFacts]: what the panes show (ui.rs) and the clock.  [ViewerRun]:
      [main], reading a file, and the terminal loop (main.rs).
    - [ReadBack]: the serialization of the daemon's records and the
      deserialization of the viewer's (the derives of deserializer.rs and
      event_model.rs), and the two programs joined by a file.

    [Demo], [Witnesses], [CollectorDemo], [StartupDemo], [ViewerDemo],
    [ReadBackDemo]: concrete
    kernels, binaries, schedules and traces on which the theorems with
    hypotheses are instantiated, and inputs on which the code misbehaves.

    ** Reading the model

    A w-bit integer is a [Z] with its wrap-around written out ([wrap], [swrap]);
    bytes are coqutil's; the cadence option is a [spec_float].  A fallible
    function of the daemon returns [result] with the message of its [bail!]
    (without the values the message quotes); where the source can panic the
    panic is a value too ([Panic], [None]).  A BPF handler is a function of the
    state whose [None] is the source's [Err].  Maps are gmaps; a failed
    insertion or removal, a missing per-CPU slot, a failed read or a full ring
    is whatever the [Hook] says, so theorems over all hooks cover every such
    failure.  Async code is a function of the sequence of [select!] branches it
    took ([Health], [Daemon]) or a labelled transition system ([Admission],
    [Tasks]).
    Scratch buffers keep their bytes between invocations.

    Recursion that is not structural has fuel, and theorems say that it is
    enough: the argument loop of exec runs over the source's bound of 20; the
    walk over the type section of the BTF and over a note section has as much
    fuel as the section has bytes, each item consuming at least one; trimming
    has as much fuel as the text has bytes.  The walk over process trees is the
    exception: the source recurses without a bound, the fuel is explicit, it is
    enough when parents are older than their children, and there are traces for
    which none is.

    ** What is shown

    - End to end: a traced syscall, exec, fork, exit, terminal read or write,
      security decision or USDT probe becomes exactly one record whose decoding
      is the event that names it, its arguments and its result, whatever runs in
      between (RichFacts, PathFacts, Network, Raw, ProcLifecycle, Exec, Tty,
      Lsm, UsdtProbes, Interleave).
    - No silent loss: every handler emits, or counts, but for the calls it
      skips on purpose and one mapping it cannot read (Loss); every count and
      every drop is reported, once (Health); every record of the ring reaches
      the sequencer once and in order, without lost wakeups (Admission); a
      successful exit of the daemon has written everything that was admitted
      (Sequencer, Daemon).
    - Order: stdout begins with the readiness event, is a prefix of the stream
      the admitted sequence determines, and every observation follows a start of
      its process (StartupFacts, Sequencer, Lifecycle).  This holds of the bytes
      too, whatever stdout does: whole lines and at most the beginning of one
      (Serializer).
    - Shutdown: [main] is told of a signal only after one was caught, and of
      every one unless it was handled before [main] subscribed (Tasks).
    - Honesty: a status of complete is never given to a partial capture, a field
      is present only when it was validated, and the readiness report says true
      only of what is attached (Wire, Exec, HookFacts, LoaderFacts).
    - Refusal: the hooks refuse only attacks on the daemon (Lsm); a collector is
      attached only to the binary it was compiled for, and wholly or not at all
      when its programs load (CollectorFacts); every program asked for exists
      (Programs).
    - Readers: the BTF reader finds in an encoding of every kind of type the
      offsets the structures have, and on any bytes answers only with offsets
      that are there; the note reader reads back what is encoded (BtfFormat,
      BtfSound, ElfFacts).
    - The viewer: commands are those an escape-aware reading of the terminal
      gives, every event belongs to one command, every execve is shown, and no
      key leaves the screen undrawable (ViewerFacts, ViewerAppFacts,
      ExecTreeFacts, ViewerUiFacts); a session ends on a quit key with the
      terminal restored (ViewerRun); the viewer reads back what the daemon wrote
      (ReadBack).

    ** Not modelled

    The layout and painting of panels (ratatui and crossterm), logging,
    command-line syntax (clap), the build scripts.  The text of a JSON value is
    serde_json's: a parameter of the writer and an interface of the reader, with
    a concrete instance; that serde's derives also accept an array in place of
    an object is left out, since the daemon never writes one.  base64 is an
    interface with its round-trip law.  What the kernel, stdout and the terminal
    answer is a parameter everywhere.  The payload structs of lib.rs that no
    code uses have no model: those named after chmod, fchmod, chown, fchown,
    truncate, ftruncate, mount and umount2, whose events travel in the path and
    descriptor payloads.  The BPF verifier, the ring buffer, signals and the scheduler of tokio appear by their
    documented behaviour only. *)

From stdpp Require Export base tactics list list_numbers gmap strings numbers option pretty.
From coqutil Require Export Byte Word.LittleEndianList.
From Stdlib Require Export ZArith Lia.

Open Scope Z_scope.

(** ** Fallible code

    [anyhow::Result]: a value, or an error carrying the message that the code
    passes to [bail!] or [context]. *)
Inductive result (A : Type) : Type :=
| Ok (a : A)
| Err (msg : string).
Arguments Ok {A} _.
Arguments Err {A} _.

#[export] Instance result_ret : MRet result := @Ok.
#[export] Instance result_bind : MBind result :=
  fun A B f r => match r with Ok a => f a | Err e => Err e end.
#[export] Instance result_fmap : FMap result :=
  fun A B f r => match r with Ok a => Ok (f a) | Err e => Err e end.
#[export] Instance result_eq_dec `{EqDecision A} : EqDecision (result A).
Proof. solve_decision. Defined.

Definition is_ok {A} (r : result A) : bool :=
  match r with Ok _ => true | Err _ => false end.

(** [if cond { bail!(msg) }] followed by the rest of the body. *)
Definition bail_if (cond : bool) (msg : string) : result unit :=
  if cond then Err msg else Ok tt.

(** [option.context(msg)?] *)
Definition with_context {A} (o : option A) (msg : string) : result A :=
  match o with Some a => Ok a | None => Err msg end.

Lemma result_bind_ok {A B} (r : result A) (f : A -> result B) b :
  mbind f r = Ok b <-> exists a, r = Ok a /\ f a = Ok b.
Proof.
  destruct r as [a|e]; cbn; split.
  - intros H; exists a; auto.
  - intros (a' & [= <-] & H); exact H.
  - discriminate.
  - intros (a' & H & _); discriminate.
Qed.

Lemma Ok_inj {A} (a b : A) : Ok a = Ok b -> a = b.
Proof. congruence. Qed.

Lemma bail_if_ok c m u : bail_if c m = Ok u <-> c = false.
Proof. destruct c, u; cbn; split; congruence. Qed.

Lemma with_context_ok {A} (o : option A) m a : with_context o m = Ok a <-> o = Some a.
Proof. destruct o; cbn; split; congruence. Qed.

(** ** Machine integers

    A [w]-bit unsigned integer is a [Z] in [0 <= z < 2^w]; a signed one is in
    [-2^(w-1) <= z < 2^(w-1)].  Rust's [as] conversions reduce modulo [2^w]. *)
Definition wrap (w z : Z) : Z := z mod 2 ^ w.
Definition swrap (w z : Z) : Z := (z + 2 ^ (w - 1)) mod 2 ^ w - 2 ^ (w - 1).

Definition in_u (w z : Z) : Prop := 0 <= z < 2 ^ w.
Definition in_s (w z : Z) : Prop := - 2 ^ (w - 1) <= z < 2 ^ (w - 1).

#[export] Instance in_u_dec w z : Decision (in_u w z).
Proof. unfold in_u. apply _. Defined.

Definition U64_MAX : Z := 18446744073709551615.
Definition U32_MAX : Z := 4294967295.

(** [u64::saturating_sub], [u64::saturating_add], [u64::wrapping_add] and
    [u64::wrapping_sub]. *)
Definition saturating_sub (a b : Z) : Z := Z.max 0 (a - b).
Definition saturating_add (a b : Z) : Z := Z.min U64_MAX (a + b).
Definition wrapping_add (a b : Z) : Z := wrap 64 (a + b).
Definition wrapping_sub (a b : Z) : Z := wrap 64 (a - b).

Lemma wrap_bounds w z : 0 <= w -> in_u w (wrap w z).
Proof. intros; apply Z.mod_pos_bound; lia. Qed.

Lemma wrap_id w z : in_u w z -> wrap w z = z.
Proof. apply Z.mod_small. Qed.

Lemma pow_half w : 0 < w -> 2 ^ w = 2 * 2 ^ (w - 1).
Proof. intros; rewrite <- (Z.pow_succ_r 2 (w - 1)) by lia; f_equal; lia. Qed.

Lemma swrap_bounds w z : 0 < w -> in_s w (swrap w z).
Proof.
  intros Hw; unfold in_s, swrap.
  pose proof (Z.mod_pos_bound (z + 2 ^ (w - 1)) (2 ^ w) ltac:(lia)).
  rewrite (pow_half w) in * by lia; lia.
Qed.

Lemma swrap_id w z : 0 < w -> in_s w z -> swrap w z = z.
Proof.
  intros Hw Hz; unfold in_s, swrap in *.
  rewrite Z.mod_small; [lia|]. rewrite (pow_half w) by lia; lia.
Qed.

Lemma swrap_wrap w z : 0 < w -> swrap w (wrap w z) = swrap w z.
Proof. intros Hw; unfold swrap, wrap. now rewrite Zplus_mod_idemp_l. Qed.

(** ** Byte strings *)
Definition len {A} (l : list A) : Z := Z.of_nat (length l).

Lemma len_nonneg {A} (l : list A) : 0 <= len l.
Proof. unfold len; lia. Qed.

Lemma len_app {A} (l k : list A) : len (l ++ k) = len l + len k.
Proof. unfold len; rewrite length_app; lia. Qed.

Lemma len_zero {A} (l : list A) : len l = 0 <-> l = [].
Proof. unfold len; destruct l; cbn; split; (congruence || lia). Qed.

#[export] Instance byte_eq_dec : EqDecision Init.Byte.byte := Byte.byte_eq_dec.

Definition byte_eqb (a b : byte) : bool := bool_decide (a = b).
Definition NUL : byte := Byte.x00.

Definition bstr (bs : list byte) : string := String.string_of_list_byte bs.
Definition str_bytes (s : string) : list byte := String.list_byte_of_string s.

Lemma str_bytes_bstr bs : str_bytes (bstr bs) = bs.
Proof. apply String.list_byte_of_string_of_list_byte. Qed.

Lemma bstr_inj a b : bstr a = bstr b -> a = b.
Proof. intros H; rewrite <- (str_bytes_bstr a), <- (str_bytes_bstr b), H; reflexivity. Qed.

(** [iter().position(|&b| b == 0).unwrap_or(len)]: the prefix before the
    first NUL. *)
Fixpoint until_nul (bs : list byte) : list byte :=
  match bs with
  | [] => []
  | b :: r => if byte_eqb b NUL then [] else b :: until_nul r
  end.

Lemma until_nul_no_nul bs : NUL ∉ bs -> until_nul bs = bs.
Proof.
  induction bs as [|b r IH]; [done|]; intros H; cbn.
  apply not_elem_of_cons in H as [H1 H2]. unfold byte_eqb.
  rewrite bool_decide_false by congruence. f_equal; auto.
Qed.

Lemma until_nul_app_nul bs r : NUL ∉ bs -> until_nul (bs ++ NUL :: r) = bs.
Proof.
  induction bs as [|b bs IH]; cbn.
  - intros _. unfold byte_eqb. by rewrite bool_decide_true.
  - intros H. apply not_elem_of_cons in H as [H1 H2]. unfold byte_eqb.
    rewrite bool_decide_false by congruence. f_equal; auto.
Qed.

Lemma until_nul_prefix bs : until_nul bs `prefix_of` bs.
Proof.
  induction bs as [|b r IH]; cbn; [done|].
  destruct (byte_eqb b NUL); [apply prefix_nil|by apply prefix_cons].
Qed.

Lemma elem_of_concat {A} (x : A) (ls : list (list A)) : x ∈ concat ls <-> exists l, x ∈ l /\ l ∈ ls.
Proof. rewrite list_elem_of_In, in_concat. setoid_rewrite list_elem_of_In. firstorder. Qed.

(** ** Number formatting *)

(** [u64::to_string] and [i32::to_string] *)
Definition dec_string (z : Z) : string := pretty z.

Definition hex_digit (d : Z) : string :=
  nth (Z.to_nat d)
    ["0";"1";"2";"3";"4";"5";"6";"7";"8";"9";"a";"b";"c";"d";"e";"f"]%string ""%string.

(** [{:02x}] of a byte *)
Definition hex02 (b : byte) : string :=
  (hex_digit (byte.unsigned b / 16) +:+ hex_digit (byte.unsigned b mod 16))%string.

(** [{:x}] of an unsigned integer of at most 64 bits: sixteen digits of fuel
    are enough. *)
Fixpoint hex_string_fuel (fuel : nat) (z : Z) : string :=
  match fuel with
  | O => ""
  | S f =>
      if z <? 16 then hex_digit z
      else (hex_string_fuel f (z / 16) +:+ hex_digit (z mod 16))%string
  end.
Definition hex_string (z : Z) : string := hex_string_fuel 16 z.

(** [parts.join(sep)] *)
Definition join (sep : string) (parts : list string) : string :=
  String.concat sep parts.

(** ** Automation *)
Create HintDb bloodhound discriminated.
#[export] Hint Resolve wrap_bounds swrap_bounds len_nonneg : bloodhound.
Create Rewrite HintDb lens.
#[export] Hint Rewrite @len_app @length_app @length_take @length_drop : lens.

(** Invert [_ = Ok _] chains of binds in the hypotheses. *)
Ltac ok_inv :=
  repeat match goal with
  | H : mbind _ _ = Ok _ |- _ =>
      let a := fresh "a" in let H1 := fresh "Hok" in let H2 := fresh "Hok" in
      apply result_bind_ok in H as (a & H1 & H2)
  | H : bail_if _ _ = Ok _ |- _ => apply bail_if_ok in H
  | H : with_context _ _ = Ok _ |- _ => apply with_context_ok in H
  | H : Ok _ = Ok _ |- _ => apply Ok_inj in H
  | H : Err _ = Ok _ |- _ => discriminate H
  end.

(** Case analysis on the scrutinee of an [if] or [match] in the goal. *)
Ltac case_goal :=
  match goal with
  | |- context [if ?b then _ else _] => let E := fresh "E" in destruct b eqn:E
  | |- context [match ?x with _ => _ end] => let E := fresh "E" in destruct x eqn:E
  end.

(** Boolean guards as propositions. *)
Ltac bool_inv :=
  repeat match goal with
  | H : negb _ = false |- _ => apply negb_false_iff in H
  | H : negb _ = true |- _ => apply negb_true_iff in H
  | H : _ || _ = false |- _ =>
      let H1 := fresh H in let H2 := fresh H in apply orb_false_iff in H as [H1 H2]
  | H : _ && _ = true |- _ =>
      let H1 := fresh H in let H2 := fresh H in apply andb_true_iff in H as [H1 H2]
  | H : (_ =? _) = true |- _ => apply Z.eqb_eq in H
  | H : (_ =? _) = false |- _ => apply Z.eqb_neq in H
  | H : (_ <? _) = true |- _ => apply Z.ltb_lt in H
  | H : (_ <? _) = false |- _ => apply Z.ltb_ge in H
  | H : (_ <=? _) = true |- _ => apply Z.leb_le in H
  | H : (_ <=? _) = false |- _ => apply Z.leb_gt in H
  | H : bool_decide _ = true |- _ => apply bool_decide_eq_true in H
  | H : bool_decide _ = false |- _ => apply bool_decide_eq_false in H
  end.
