(* ===== verification/Bytes.v ===== *)
(** * Reading words at positions of a buffer

    Bounds-checked slices and words of either byte order, shared by the two
    readers of binary files, and what is at a position of a buffer. *)

From S2P Require Import Prelude.

Local Open Scope Z_scope.
Local Open Scope list_scope.

(** [buf.get(off..off + n)] *)
Definition slice (buf : list byte) (off n : Z) : option (list byte) :=
  if (0 <=? off) && (off + n <=? len buf) then Some (take (Z.to_nat n) (drop (Z.to_nat off) buf)) else None.

(** [from_le_bytes] or [from_be_bytes] *)
Definition word_of (le : bool) (b : list byte) : Z := le_combine (if le then b else reverse b).

Lemma word_bounds le b : 0 <= word_of le b < 2 ^ (len b * 8).
Proof.
  assert (Hc : forall b, 0 <= le_combine b < 2 ^ (len b * 8)).
  { intros l. rewrite <- (LittleEndianList.split_le_combine l), LittleEndianList.le_combine_split.
    unfold len. rewrite length_le_split. apply Z.mod_pos_bound. lia. }
  unfold word_of. destruct le; [apply Hc|]. specialize (Hc (reverse b)). unfold len in *.
  by rewrite length_reverse in Hc.
Qed.

Lemma slice_inv buf off n b : slice buf off n = Some b -> 0 <= off /\ off + n <= len buf /\ (0 <= n -> len b = n).
Proof.
  unfold slice, len. intros H. destruct (Z.leb_spec 0 off); [|done]. destruct (Z.leb_spec (off + n) (Z.of_nat (length buf))); [|done].
  injection H as <-. rewrite length_take, length_drop. lia.
Qed.

(** The word [z] in [n] bytes. *)
Definition enc_word (le : bool) (n : nat) (z : Z) : list byte :=
  if le then le_split n z else reverse (le_split n z).

Lemma length_enc_word le n z : length (enc_word le n z) = n.
Proof. unfold enc_word. destruct le; rewrite ?length_reverse; apply length_le_split. Qed.

Lemma len_enc_word le n z : len (enc_word le n z) = Z.of_nat n.
Proof. unfold len. by rewrite length_enc_word. Qed.

Lemma word_enc le n z : in_u (Z.of_nat n * 8) z -> word_of le (enc_word le n z) = z.
Proof.
  intros Hz. unfold word_of, enc_word. destruct le; rewrite ?reverse_involutive;
    (rewrite LittleEndianList.le_combine_split; apply Z.mod_small; exact Hz).
Qed.

(** The buffer has [bs] at position [pos]. *)
Definition has_at (buf : list byte) (pos : Z) (bs : list byte) : Prop :=
  0 <= pos /\ exists rest, drop (Z.to_nat pos) buf = bs ++ rest.

Lemma has_at_app buf pos a b : has_at buf pos (a ++ b) -> has_at buf pos a /\ has_at buf (pos + len a) b.
Proof.
  intros [Hp (rest & E)]. split; (split; [unfold len; lia|]).
  - exists (b ++ rest). by rewrite E, app_assoc.
  - exists rest. unfold len. rewrite Z2Nat.inj_add, Nat2Z.id by lia.
    rewrite <- drop_drop, E, <- app_assoc. apply drop_app_length.
Qed.

Lemma has_at_in buf pos bs : has_at buf pos bs -> bs <> [] -> pos + len bs <= len buf.
Proof.
  intros [Hp (rest & E)] Hb. apply (f_equal length) in E. rewrite length_drop, length_app in E.
  unfold len. destruct bs; [done|]. cbn in *. lia.
Qed.

Lemma has_at_refl buf : has_at buf 0 buf.
Proof. split; [done|]. exists []. by rewrite app_nil_r. Qed.

Lemma has_at_mid a b c : has_at (a ++ b ++ c) (len a) b.
Proof.
  split; [apply len_nonneg|]. exists c. unfold len. rewrite Nat2Z.id. apply drop_app_length.
Qed.

Lemma slice_at buf pos bs : has_at buf pos bs -> bs <> [] -> slice buf pos (len bs) = Some bs.
Proof.
  intros Ha Hb. pose proof (has_at_in _ _ _ Ha Hb) as Hl. destruct Ha as [Hp (rest & E)]. unfold slice.
  rewrite (proj2 (Z.leb_le _ _) Hp), (proj2 (Z.leb_le _ _) Hl). cbn [andb]. rewrite E.
  unfold len. by rewrite Nat2Z.id, take_app_length.
Qed.

Lemma slice_word le buf pos n z :
  has_at buf pos (enc_word le n z) -> (0 < n)%nat -> slice buf pos (Z.of_nat n) = Some (enc_word le n z).
Proof.
  intros Ha Hn. rewrite <- (len_enc_word le n z). apply slice_at; [done|].
  intros E. pose proof (length_enc_word le n z) as Hl. rewrite E in Hl. cbn in Hl. lia.
Qed.
