(* ===== verification/Layout.v ===== *)
(** * The repr(C) wire layout

    Every record that crosses the ring buffer is a [#[repr(C)]] struct that the
    kernel side copies out byte by byte ([core::ptr::copy_nonoverlapping]) and
    the daemon reads back with [core::ptr::read_unaligned].  This file models
    that mechanism once: a struct is a list of field types, its layout places
    each field at the next multiple of the field's alignment (little-endian
    target) and pads the end to the struct's alignment.  Padding bytes are not
    specified by the language, so [as_bytes] takes them from an arbitrary
    function and every theorem holds for all of them. *)

From S2P Require Import Prelude.

(** Field types: unsigned and signed integers of [w] bytes, byte arrays and
    arrays of unsigned integers. *)
Inductive fty : Type :=
| FU (w : nat)
| FS (w : nat)
| FBytes (n : nat)
| FUs (n w : nat).

Definition fval (f : fty) : Type :=
  match f with
  | FU _ | FS _ => Z
  | FBytes _ => list byte
  | FUs _ _ => list Z
  end.

Definition fsize (f : fty) : nat :=
  match f with FU w | FS w => w | FBytes n => n | FUs n w => n * w end.

Definition falign (f : fty) : nat :=
  match f with FU w | FS w => w | FBytes _ => 1 | FUs _ w => w end.

(** Values that a field of the type can hold. *)
Definition fwf (f : fty) : fval f -> Prop :=
  match f return fval f -> Prop with
  | FU w => fun z => in_u (8 * Z.of_nat w) z
  | FS w => fun z => (0 < w)%nat /\ in_s (8 * Z.of_nat w) z
  | FBytes n => fun bs => length bs = n
  | FUs n w => fun zs => length zs = n /\ Forall (in_u (8 * Z.of_nat w)) zs
  end.

Definition fenc (f : fty) : fval f -> list byte :=
  match f return fval f -> list byte with
  | FU w => fun z => le_split w z
  | FS w => fun z => le_split w z
  | FBytes n => fun bs => resize n NUL bs
  | FUs n w => fun zs => flat_map (le_split w) (resize n 0 zs)
  end.

(** The [i]-th group of [w] bytes. *)
Definition word_at (w i : nat) (bs : list byte) : Z :=
  le_combine (take w (drop (i * w) bs)).

Definition fdec (f : fty) : list byte -> fval f :=
  match f return list byte -> fval f with
  | FU w => fun bs => le_combine bs
  | FS w => fun bs => swrap (8 * Z.of_nat w) (le_combine bs)
  | FBytes n => fun bs => bs
  | FUs n w => fun bs => (fun i => word_at w i bs) <$> seq 0 n
  end.

Lemma length_flat_split w zs :
  length (flat_map (le_split w) zs) = (length zs * w)%nat.
Proof.
  induction zs as [|z zs IH]; cbn; [done|].
  rewrite length_app, length_le_split, IH; lia.
Qed.

Lemma length_fenc f v : length (fenc f v) = fsize f.
Proof.
  destruct f; cbn; rewrite ?length_le_split, ?length_resize; try done.
  rewrite length_flat_split, length_resize; done.
Qed.

Lemma le_combine_split_in_u w z :
  in_u (8 * Z.of_nat w) z -> le_combine (le_split w z) = z.
Proof. intros H. rewrite le_combine_split, (Z.mul_comm (Z.of_nat w) 8). now apply wrap_id. Qed.

Lemma fdec_words w zs :
  Forall (in_u (8 * Z.of_nat w)) zs ->
  (fun i => word_at w i (flat_map (le_split w) zs)) <$> seq 0 (length zs) = zs.
Proof.
  induction zs as [|z zs IH]; intros H; [done|].
  apply Forall_cons in H as [Hz Hzs]. cbn [length seq fmap list_fmap].
  f_equal.
  - unfold word_at. cbn [flat_map]. rewrite Nat.mul_0_l, drop_0.
    rewrite take_app_length' by (symmetry; apply length_le_split).
    now apply le_combine_split_in_u.
  - rewrite <- fmap_S_seq, <- list_fmap_compose. rewrite <- (IH Hzs) at 2.
    apply list_fmap_ext; intros i x _. unfold word_at. cbn.
    rewrite drop_app_ge; rewrite length_le_split; [|lia].
    do 3 f_equal; lia.
Qed.

Lemma fdec_fenc f v : fwf f v -> fdec f (fenc f v) = v.
Proof.
  destruct f as [w|w|n|n w]; cbn.
  - apply le_combine_split_in_u.
  - intros [Hw H]. rewrite le_combine_split, (Z.mul_comm (Z.of_nat w) 8).
    fold (wrap (8 * Z.of_nat w) v). rewrite swrap_wrap by lia.
    apply swrap_id; [lia|done].
  - intros Hl. now apply resize_all_alt.
  - intros [Hl H]. rewrite resize_all_alt by done.
    pose proof (fdec_words w v H) as E. rewrite Hl in E. exact E.
Qed.

Lemma fdec_wf f bs : length bs = fsize f -> (0 < fsize f)%nat -> fwf f (fdec f bs).
Proof.
  destruct f as [w|w|n|n w]; cbn; intros Hl Hp.
  - rewrite <- Hl. unfold in_u. apply le_combine_bound.
  - split; [lia|]. apply swrap_bounds; lia.
  - done.
  - rewrite length_fmap, length_seq. split; [done|].
    apply Forall_fmap, Forall_true. intros i. cbn. unfold word_at, in_u.
    pose proof (le_combine_bound (take w (drop (i * w) bs))) as B.
    rewrite length_take in B.
    assert (2 ^ (8 * Z.of_nat (w `min` length (drop (i * w) bs))) <= 2 ^ (8 * Z.of_nat w))
      by (apply Z.pow_le_mono_r; lia).
    lia.
Qed.

(** Heterogeneous tuples: one value per field. *)
Fixpoint vals (fs : list fty) : Type :=
  match fs with [] => unit | f :: r => (fval f * vals r)%type end.

Fixpoint vals_wf (fs : list fty) : vals fs -> Prop :=
  match fs return vals fs -> Prop with
  | [] => fun _ => True
  | f :: r => fun vs => fwf f vs.1 /\ vals_wf r vs.2
  end.

(** The next multiple of [a] at or after [off]. *)
Definition align_up (a off : nat) : nat :=
  if decide (a = 0)%nat then off else ((off + (a - 1)) / a * a)%nat.

Definition pad_bytes (pad : nat -> byte) (off off' : nat) : list byte :=
  pad <$> seq off (off' - off).

Fixpoint end_offset (fs : list fty) (off : nat) : nat :=
  match fs with
  | [] => off
  | f :: r => end_offset r (align_up (falign f) off + fsize f)
  end.

Fixpoint max_align (fs : list fty) : nat :=
  match fs with [] => 1%nat | f :: r => Nat.max (falign f) (max_align r) end.

(** [core::mem::size_of] of the struct, and its field offsets. *)
Definition layout_size (fs : list fty) : nat :=
  align_up (max_align fs) (end_offset fs 0).

Fixpoint field_offsets (fs : list fty) (off : nat) : list nat :=
  match fs with
  | [] => []
  | f :: r =>
      let o := align_up (falign f) off in o :: field_offsets r (o + fsize f)
  end.

Fixpoint enc_from (pad : nat -> byte) (fs : list fty) (off : nat) : vals fs -> list byte :=
  match fs return vals fs -> list byte with
  | [] => fun _ => []
  | f :: r => fun vs =>
      let o := align_up (falign f) off in
      pad_bytes pad off o ++ fenc f vs.1 ++ enc_from pad r (o + fsize f) vs.2
  end.

Definition enc (pad : nat -> byte) (fs : list fty) (vs : vals fs) : list byte :=
  enc_from pad fs 0 vs ++ pad_bytes pad (end_offset fs 0) (layout_size fs).

Fixpoint dec_from (fs : list fty) (off : nat) (bs : list byte) : vals fs :=
  match fs return vals fs with
  | [] => tt
  | f :: r =>
      let o := align_up (falign f) off in
      (fdec f (take (fsize f) (drop o bs)), dec_from r (o + fsize f) bs)
  end.

Definition dec (fs : list fty) (bs : list byte) : vals fs := dec_from fs 0 bs.

Lemma align_up_ge a off : (off <= align_up a off)%nat.
Proof.
  unfold align_up. case_decide; [lia|].
  pose proof (Nat.div_mod_eq (off + (a - 1)) a).
  pose proof (Nat.mod_upper_bound (off + (a - 1)) a). lia.
Qed.

Lemma length_pad_bytes pad o o' : length (pad_bytes pad o o') = (o' - o)%nat.
Proof. unfold pad_bytes. by rewrite length_fmap, length_seq. Qed.

Lemma end_offset_ge fs off : (off <= end_offset fs off)%nat.
Proof.
  revert off; induction fs as [|f r IH]; intros off; cbn; [done|].
  pose proof (align_up_ge (falign f) off).
  specialize (IH (align_up (falign f) off + fsize f)%nat). lia.
Qed.

Lemma length_enc_from pad fs off vs :
  length (enc_from pad fs off vs) = (end_offset fs off - off)%nat.
Proof.
  revert off vs; induction fs as [|f r IH]; intros off vs; cbn; [lia|].
  rewrite !length_app, length_pad_bytes, length_fenc, IH.
  pose proof (align_up_ge (falign f) off).
  pose proof (end_offset_ge r (align_up (falign f) off + fsize f)). lia.
Qed.

Lemma length_enc pad fs vs : length (enc pad fs vs) = layout_size fs.
Proof.
  unfold enc. rewrite length_app, length_enc_from, length_pad_bytes.
  pose proof (end_offset_ge fs 0).
  pose proof (align_up_ge (max_align fs) (end_offset fs 0)).
  unfold layout_size. lia.
Qed.

Lemma dec_enc_from pad fs : forall off pre vs rest,
  length pre = off -> vals_wf fs vs ->
  dec_from fs off (pre ++ enc_from pad fs off vs ++ rest) = vs.
Proof.
  induction fs as [|f r IH]; intros off pre vs rest Hpre Hwf.
  - by destruct vs.
  - destruct vs as [v vs]; destruct Hwf as [Hv Hvs]; cbn in *.
    set (o := align_up (falign f) off).
    pose proof (align_up_ge (falign f) off) as Ho; fold o in Ho.
    assert (Hp : length (pre ++ pad_bytes pad off o) = o)
      by (rewrite length_app, length_pad_bytes; lia).
    f_equal.
    + rewrite <- !app_assoc, app_assoc.
      rewrite drop_app_length' by (symmetry; exact Hp).
      rewrite take_app_length' by (symmetry; apply length_fenc).
      now apply fdec_fenc.
    + rewrite <- !app_assoc.
      replace (pre ++ pad_bytes pad off o ++ fenc f v ++ enc_from pad r (o + fsize f) vs ++ rest)
        with ((pre ++ pad_bytes pad off o ++ fenc f v) ++ enc_from pad r (o + fsize f) vs ++ rest)
        by now rewrite <- !app_assoc.
      apply IH; [|done].
      rewrite app_assoc, length_app, Hp, length_fenc; done.
Qed.

Lemma dec_enc pad fs vs rest : vals_wf fs vs -> dec fs (enc pad fs vs ++ rest) = vs.
Proof.
  intros H. unfold dec, enc. rewrite <- app_assoc.
  exact (dec_enc_from pad fs 0 [] vs _ eq_refl H).
Qed.

Lemma dec_from_wf fs : forall off bs,
  Forall (fun f => 0 < fsize f)%nat fs -> (end_offset fs off <= length bs)%nat ->
  vals_wf fs (dec_from fs off bs).
Proof.
  induction fs as [|f r IH]; intros off bs Hp Hl; cbn in *; [done|].
  apply Forall_cons in Hp as [Hf Hr].
  pose proof (end_offset_ge r (align_up (falign f) off + fsize f)).
  split; [|by apply IH].
  apply fdec_wf; [|done]. rewrite length_take, length_drop; lia.
Qed.

(** ** Structs

    The interface every wire struct implements: its fields in declaration
    order and the conversion between the Rust struct and the tuple of its
    field values. *)
Class ReprC (A : Type) := {
  layout : list fty;
  of_vals : vals layout -> A;
  to_vals : A -> vals layout;
  of_to_vals : forall a, of_vals (to_vals a) = a;
  to_of_vals : forall vs, to_vals (of_vals vs) = vs;
  layout_pos : Forall (fun f => 0 < fsize f)%nat layout
}.
Arguments layout A {_}.

Section ReprC.
Context {A : Type} `{ReprC A}.

(** [Self::SIZE], i.e. [core::mem::size_of::<Self>()] *)
Definition size_of : nat := layout_size (layout A).

(** [core::ptr::read_unaligned(ptr as *const Self)] *)
Definition read_unaligned (bs : list byte) : A := of_vals (dec (layout A) bs).

(** The bytes of a value in memory, with arbitrary padding. *)
Definition as_bytes (pad : nat -> byte) (a : A) : list byte :=
  enc pad (layout A) (to_vals a).

(** Each field is in the range of its Rust type. *)
Definition in_range (a : A) : Prop := vals_wf (layout A) (to_vals a).

Lemma length_as_bytes pad a : length (as_bytes pad a) = size_of.
Proof. apply length_enc. Qed.

Lemma len_as_bytes pad a : len (as_bytes pad a) = Z.of_nat size_of.
Proof. unfold len. by rewrite length_as_bytes. Qed.

Lemma read_as_bytes pad a rest :
  in_range a -> read_unaligned (as_bytes pad a ++ rest) = a.
Proof.
  intros Ha. unfold read_unaligned, as_bytes.
  rewrite dec_enc by exact Ha. apply of_to_vals.
Qed.

Lemma drop_as_bytes pad a rest :
  drop size_of (as_bytes pad a ++ rest) = rest.
Proof. apply drop_app_length', eq_sym, length_as_bytes. Qed.

Lemma read_in_range bs :
  (size_of <= length bs)%nat -> in_range (read_unaligned bs).
Proof.
  intros Hl. unfold in_range, read_unaligned. rewrite to_of_vals.
  apply dec_from_wf; [apply layout_pos|].
  pose proof (align_up_ge (max_align (layout A)) (end_offset (layout A) 0)).
  unfold size_of, layout_size in Hl. lia.
Qed.
End ReprC.
Arguments size_of A {_}.
#[export] Hint Resolve read_in_range : bloodhound.
#[export] Hint Rewrite @length_as_bytes @len_as_bytes : lens.
