(* ===== verification/Records.v ===== *)
(** * Wire records (bloodhound-common/src/lib.rs)

    One module per [#[repr(C)]] struct that crosses the ring buffer: the Rust
    struct as a [Record] with the source's field names, and its [ReprC]
    instance, i.e. its fields in declaration order.  [EventHeader] embeds
    [HeaderCapture] (three bytes, alignment one) and [NsSnapshot] (alignment
    four, no padding of its own); its layout lists their fields in place,
    which puts them at the same offsets. *)

From S2P Require Import Prelude Layout.

Ltac destruct_prod :=
  repeat match goal with
  | v : _ * _ |- _ => destruct v
  | v : unit |- _ => destruct v
  | v : vals _ |- _ => cbn in v
  end.

Ltac solve_pos := repeat (apply Forall_cons_2; [cbn; lia|]); apply Forall_nil_2.

(** Range conditions of a concrete record. *)
Ltac solve_range :=
  unfold in_range; cbn; unfold in_u, in_s; cbn;
  repeat split; try done; try lia; repeat constructor; try lia.

#[local] Obligation Tactic := idtac.

Module HeaderCapture.
Record HeaderCapture : Type := mk { version : Z; primary : Z; secondary : Z }.

(** [HeaderCapture::default()] *)
Definition default : HeaderCapture := mk 0 0 0.
Abbreviation t := HeaderCapture (only parsing).
End HeaderCapture.

Module NsSnapshot.
Record NsSnapshot : Type := mk { inum : list Z; status : list Z; _pad : Z }.

#[global] Program Instance repr : ReprC NsSnapshot := {|
  layout := [FUs 7 4; FUs 7 1; FU 1]%nat;
  of_vals := fun v => let '(inum, (status, (_pad, tt))) := v in mk inum status _pad;
  to_vals := fun p => (inum p, (status p, (_pad p, tt))) |}.
Next Obligation. by intros []. Qed.
Next Obligation. by intros; destruct_prod. Qed.
Next Obligation. solve_pos. Qed.

(** [NsSnapshot::default()] *)
Definition default : NsSnapshot := mk (replicate 7 0) (replicate 7 0) 0.
Abbreviation t := NsSnapshot (only parsing).
End NsSnapshot.

Module EventHeader.
Record EventHeader : Type := mk {
    kind : Z; capture : HeaderCapture.t; timestamp_ns : Z; auid : Z;
    sessionid : Z; pid : Z; ppid : Z; process_start_boottime_ns : Z;
    comm : list byte; tid : Z; ns : NsSnapshot.t }.

#[global] Program Instance repr : ReprC EventHeader := {|
  layout := [FU 1; FU 1; FU 1; FU 1; FU 8; FU 4; FU 4; FU 4; FU 4; FU 8;
             FBytes 16; FU 4; FUs 7 4; FUs 7 1; FU 1]%nat;
  of_vals := fun v =>
    let '(kind, (version, (primary, (secondary, (ts, (auid, (sessionid, (pid,
         (ppid, (start, (comm, (tid, (inum, (status, (npad, tt))))))))))))))) := v in
    mk kind (HeaderCapture.mk version primary secondary) ts auid sessionid pid ppid
       start comm tid (NsSnapshot.mk inum status npad);
  to_vals := fun h =>
    (kind h, (HeaderCapture.version (capture h), (HeaderCapture.primary (capture h),
    (HeaderCapture.secondary (capture h), (timestamp_ns h, (auid h, (sessionid h,
    (pid h, (ppid h, (process_start_boottime_ns h, (comm h, (tid h,
    (NsSnapshot.inum (ns h), (NsSnapshot.status (ns h),
    (NsSnapshot._pad (ns h), tt))))))))))))))) |}.
Next Obligation. by intros [? [] ? ? ? ? ? ? ? ? []]. Qed.
Next Obligation. by intros; destruct_prod. Qed.
Next Obligation. solve_pos. Qed.
Abbreviation t := EventHeader (only parsing).
End EventHeader.

Module PacketEventHeader.
Record PacketEventHeader : Type := mk {
    kind : Z; _pad : list byte; timestamp_ns : Z; ifindex : Z;
    data_len : Z }.

#[global] Program Instance repr : ReprC PacketEventHeader := {|
  layout := [FU 1; FBytes 3; FU 8; FU 4; FU 4]%nat;
  of_vals := fun v => let '(kind, (_pad, (timestamp_ns, (ifindex, (data_len, tt))))) := v in
    mk kind _pad timestamp_ns ifindex data_len;
  to_vals := fun p =>
    (kind p, (_pad p, (timestamp_ns p, (ifindex p, (data_len p, tt))))) |}.
Next Obligation. by intros []. Qed.
Next Obligation. by intros; destruct_prod. Qed.
Next Obligation. solve_pos. Qed.
Abbreviation t := PacketEventHeader (only parsing).
End PacketEventHeader.

Module ExecvePayload.
Record ExecvePayload : Type := mk {
    filename_len : Z; argv_len : Z; return_code : Z }.

#[global] Program Instance repr : ReprC ExecvePayload := {|
  layout := [FU 2; FU 2; FS 4]%nat;
  of_vals := fun v => let '(filename_len, (argv_len, (return_code, tt))) := v in
    mk filename_len argv_len return_code;
  to_vals := fun p =>
    (filename_len p, (argv_len p, (return_code p, tt))) |}.
Next Obligation. by intros []. Qed.
Next Obligation. by intros; destruct_prod. Qed.
Next Obligation. solve_pos. Qed.
Abbreviation t := ExecvePayload (only parsing).
End ExecvePayload.

Module RawSyscallPayload.
Record RawSyscallPayload : Type := mk {
    syscall_nr : Z; args : list Z; return_code : Z }.

#[global] Program Instance repr : ReprC RawSyscallPayload := {|
  layout := [FU 8; FUs 6 8; FS 8]%nat;
  of_vals := fun v => let '(syscall_nr, (args, (return_code, tt))) := v in
    mk syscall_nr args return_code;
  to_vals := fun p =>
    (syscall_nr p, (args p, (return_code p, tt))) |}.
Next Obligation. by intros []. Qed.
Next Obligation. by intros; destruct_prod. Qed.
Next Obligation. solve_pos. Qed.
Abbreviation t := RawSyscallPayload (only parsing).
End RawSyscallPayload.

Module TtyPayload.
Record TtyPayload : Type := mk {
    data_len : Z; _pad : list byte }.

#[global] Program Instance repr : ReprC TtyPayload := {|
  layout := [FU 2; FBytes 2]%nat;
  of_vals := fun v => let '(data_len, (_pad, tt)) := v in
    mk data_len _pad;
  to_vals := fun p =>
    (data_len p, (_pad p, tt)) |}.
Next Obligation. by intros []. Qed.
Next Obligation. by intros; destruct_prod. Qed.
Next Obligation. solve_pos. Qed.
Abbreviation t := TtyPayload (only parsing).
End TtyPayload.

Module UsdtTrainingShellPayload.
Record UsdtTrainingShellPayload : Type := mk {
    attach_point_id : Z; shell_pid : Z; command_id : Z;
    command_kind : Z; semantic_flags : Z; exit_status : Z;
    command_name_len : Z; command_name_truncated : Z; _pad : Z }.

#[global] Program Instance repr : ReprC UsdtTrainingShellPayload := {|
  layout := [FU 4; FU 4; FU 8; FU 4; FU 4; FS 4; FU 2; FU 1; FU 1]%nat;
  of_vals := fun v => let '(attach_point_id, (shell_pid, (command_id, (command_kind, (semantic_flags, (exit_status, (command_name_len, (command_name_truncated, (_pad, tt))))))))) := v in
    mk attach_point_id shell_pid command_id command_kind semantic_flags exit_status command_name_len command_name_truncated _pad;
  to_vals := fun p =>
    (attach_point_id p, (shell_pid p, (command_id p, (command_kind p,
    (semantic_flags p, (exit_status p, (command_name_len p,
    (command_name_truncated p, (_pad p, tt))))))))) |}.
Next Obligation. by intros []. Qed.
Next Obligation. by intros; destruct_prod. Qed.
Next Obligation. solve_pos. Qed.
Abbreviation t := UsdtTrainingShellPayload (only parsing).
End UsdtTrainingShellPayload.

Module UsdtTrainingShellCaptureErrorPayload.
Record UsdtTrainingShellCaptureErrorPayload : Type := mk {
    attach_point_id : Z; field_id : Z; read_error_code : Z;
    _pad : list byte }.

#[global] Program Instance repr : ReprC UsdtTrainingShellCaptureErrorPayload := {|
  layout := [FU 4; FU 1; FU 1; FBytes 2]%nat;
  of_vals := fun v => let '(attach_point_id, (field_id, (read_error_code, (_pad, tt)))) := v in
    mk attach_point_id field_id read_error_code _pad;
  to_vals := fun p =>
    (attach_point_id p, (field_id p, (read_error_code p, (_pad p, tt)))) |}.
Next Obligation. by intros []. Qed.
Next Obligation. by intros; destruct_prod. Qed.
Next Obligation. solve_pos. Qed.
Abbreviation t := UsdtTrainingShellCaptureErrorPayload (only parsing).
End UsdtTrainingShellCaptureErrorPayload.

Module UsdtTrainingPeerPayload.
Record UsdtTrainingPeerPayload : Type := mk {
    attach_point_id : Z; _pad : Z; task_id : Z; result : Z;
    _pad2 : Z }.

#[global] Program Instance repr : ReprC UsdtTrainingPeerPayload := {|
  layout := [FU 4; FU 4; FU 8; FU 4; FU 4]%nat;
  of_vals := fun v => let '(attach_point_id, (_pad, (task_id, (result, (_pad2, tt))))) := v in
    mk attach_point_id _pad task_id result _pad2;
  to_vals := fun p =>
    (attach_point_id p, (_pad p, (task_id p, (result p, (_pad2 p, tt))))) |}.
Next Obligation. by intros []. Qed.
Next Obligation. by intros; destruct_prod. Qed.
Next Obligation. solve_pos. Qed.
Abbreviation t := UsdtTrainingPeerPayload (only parsing).
End UsdtTrainingPeerPayload.

Module OpenatPayload.
Record OpenatPayload : Type := mk {
    flags : Z; mode : Z; filename_len : Z; capture_version : Z;
    capture_flags : Z; return_code : Z; dirfd : Z; dev : Z; ino : Z }.

#[global] Program Instance repr : ReprC OpenatPayload := {|
  layout := [FU 4; FU 4; FU 2; FU 1; FU 1; FS 4; FS 4; FU 8; FU 8]%nat;
  of_vals := fun v => let '(flags, (mode, (filename_len, (capture_version, (capture_flags, (return_code, (dirfd, (dev, (ino, tt))))))))) := v in
    mk flags mode filename_len capture_version capture_flags return_code dirfd dev ino;
  to_vals := fun p =>
    (flags p, (mode p, (filename_len p, (capture_version p,
    (capture_flags p, (return_code p, (dirfd p, (dev p, (ino p, tt))))))))) |}.
Next Obligation. by intros []. Qed.
Next Obligation. by intros; destruct_prod. Qed.
Next Obligation. solve_pos. Qed.
Abbreviation t := OpenatPayload (only parsing).
End OpenatPayload.

Module ReadWritePayload.
Record ReadWritePayload : Type := mk {
    fd : Z; fd_type : Z; _pad : list byte; requested_size : Z;
    return_code : Z }.

#[global] Program Instance repr : ReprC ReadWritePayload := {|
  layout := [FU 4; FU 1; FBytes 3; FU 8; FS 8]%nat;
  of_vals := fun v => let '(fd, (fd_type, (_pad, (requested_size, (return_code, tt))))) := v in
    mk fd fd_type _pad requested_size return_code;
  to_vals := fun p =>
    (fd p, (fd_type p, (_pad p, (requested_size p, (return_code p, tt))))) |}.
Next Obligation. by intros []. Qed.
Next Obligation. by intros; destruct_prod. Qed.
Next Obligation. solve_pos. Qed.
Abbreviation t := ReadWritePayload (only parsing).
End ReadWritePayload.

Module ConnectBindPayload.
Record ConnectBindPayload : Type := mk {
    family : Z; port : Z; addr_v4 : Z; addr_v6 : list byte;
    return_code : Z }.

#[global] Program Instance repr : ReprC ConnectBindPayload := {|
  layout := [FU 2; FU 2; FU 4; FBytes 16; FS 4]%nat;
  of_vals := fun v => let '(family, (port, (addr_v4, (addr_v6, (return_code, tt))))) := v in
    mk family port addr_v4 addr_v6 return_code;
  to_vals := fun p =>
    (family p, (port p, (addr_v4 p, (addr_v6 p, (return_code p, tt))))) |}.
Next Obligation. by intros []. Qed.
Next Obligation. by intros; destruct_prod. Qed.
Next Obligation. solve_pos. Qed.
Abbreviation t := ConnectBindPayload (only parsing).
End ConnectBindPayload.

Module SocketPayload.
Record SocketPayload : Type := mk {
    domain : Z; sock_type : Z; protocol : Z; return_code : Z }.

#[global] Program Instance repr : ReprC SocketPayload := {|
  layout := [FU 4; FU 4; FU 4; FS 4]%nat;
  of_vals := fun v => let '(domain, (sock_type, (protocol, (return_code, tt)))) := v in
    mk domain sock_type protocol return_code;
  to_vals := fun p =>
    (domain p, (sock_type p, (protocol p, (return_code p, tt)))) |}.
Next Obligation. by intros []. Qed.
Next Obligation. by intros; destruct_prod. Qed.
Next Obligation. solve_pos. Qed.
Abbreviation t := SocketPayload (only parsing).
End SocketPayload.

Module ClonePayload.
Record ClonePayload : Type := mk {
    flags : Z; return_code : Z }.

#[global] Program Instance repr : ReprC ClonePayload := {|
  layout := [FU 8; FS 8]%nat;
  of_vals := fun v => let '(flags, (return_code, tt)) := v in
    mk flags return_code;
  to_vals := fun p =>
    (flags p, (return_code p, tt)) |}.
Next Obligation. by intros []. Qed.
Next Obligation. by intros; destruct_prod. Qed.
Next Obligation. solve_pos. Qed.
Abbreviation t := ClonePayload (only parsing).
End ClonePayload.

Module ProcessForkPayload.
Record ProcessForkPayload : Type := mk {
    parent_tgid : Z; child_tgid : Z; parent_start_boottime_ns : Z;
    child_start_boottime_ns : Z; clone_flags : Z }.

#[global] Program Instance repr : ReprC ProcessForkPayload := {|
  layout := [FU 4; FU 4; FU 8; FU 8; FU 8]%nat;
  of_vals := fun v => let '(parent_tgid, (child_tgid, (parent_start_boottime_ns, (child_start_boottime_ns, (clone_flags, tt))))) := v in
    mk parent_tgid child_tgid parent_start_boottime_ns child_start_boottime_ns clone_flags;
  to_vals := fun p =>
    (parent_tgid p, (child_tgid p, (parent_start_boottime_ns p,
    (child_start_boottime_ns p, (clone_flags p, tt))))) |}.
Next Obligation. by intros []. Qed.
Next Obligation. by intros; destruct_prod. Qed.
Next Obligation. solve_pos. Qed.
Abbreviation t := ProcessForkPayload (only parsing).
End ProcessForkPayload.

Module ProcessExitPayload.
Record ProcessExitPayload : Type := mk {
    raw_status : Z; _pad : Z }.

#[global] Program Instance repr : ReprC ProcessExitPayload := {|
  layout := [FS 4; FU 4]%nat;
  of_vals := fun v => let '(raw_status, (_pad, tt)) := v in
    mk raw_status _pad;
  to_vals := fun p =>
    (raw_status p, (_pad p, tt)) |}.
Next Obligation. by intros []. Qed.
Next Obligation. by intros; destruct_prod. Qed.
Next Obligation. solve_pos. Qed.
Abbreviation t := ProcessExitPayload (only parsing).
End ProcessExitPayload.

Module SignalGeneratePayload.
Record SignalGeneratePayload : Type := mk {
    target_tgid : Z; signal : Z; target_start_boottime_ns : Z;
    group : Z; result : Z }.

#[global] Program Instance repr : ReprC SignalGeneratePayload := {|
  layout := [FU 4; FU 4; FU 8; FU 4; FS 4]%nat;
  of_vals := fun v => let '(target_tgid, (signal, (target_start_boottime_ns, (group, (result, tt))))) := v in
    mk target_tgid signal target_start_boottime_ns group result;
  to_vals := fun p =>
    (target_tgid p, (signal p, (target_start_boottime_ns p, (group p,
    (result p, tt))))) |}.
Next Obligation. by intros []. Qed.
Next Obligation. by intros; destruct_prod. Qed.
Next Obligation. solve_pos. Qed.
Abbreviation t := SignalGeneratePayload (only parsing).
End SignalGeneratePayload.

Module PathPayload.
Record PathPayload : Type := mk {
    path_len : Z; _pad : list byte; return_code : Z }.

#[global] Program Instance repr : ReprC PathPayload := {|
  layout := [FU 2; FBytes 2; FS 4]%nat;
  of_vals := fun v => let '(path_len, (_pad, (return_code, tt))) := v in
    mk path_len _pad return_code;
  to_vals := fun p =>
    (path_len p, (_pad p, (return_code p, tt))) |}.
Next Obligation. by intros []. Qed.
Next Obligation. by intros; destruct_prod. Qed.
Next Obligation. solve_pos. Qed.
Abbreviation t := PathPayload (only parsing).
End PathPayload.

Module TwoPathPayload.
Record TwoPathPayload : Type := mk {
    path1_len : Z; path2_len : Z; return_code : Z }.

#[global] Program Instance repr : ReprC TwoPathPayload := {|
  layout := [FU 2; FU 2; FS 4]%nat;
  of_vals := fun v => let '(path1_len, (path2_len, (return_code, tt))) := v in
    mk path1_len path2_len return_code;
  to_vals := fun p =>
    (path1_len p, (path2_len p, (return_code p, tt))) |}.
Next Obligation. by intros []. Qed.
Next Obligation. by intros; destruct_prod. Qed.
Next Obligation. solve_pos. Qed.
Abbreviation t := TwoPathPayload (only parsing).
End TwoPathPayload.

Module SendtoRecvfromPayload.
Record SendtoRecvfromPayload : Type := mk {
    fd : Z; family : Z; port : Z; addr_v4 : Z; addr_v6 : list byte;
    size : Z; return_code : Z }.

#[global] Program Instance repr : ReprC SendtoRecvfromPayload := {|
  layout := [FU 4; FU 2; FU 2; FU 4; FBytes 16; FU 8; FS 8]%nat;
  of_vals := fun v => let '(fd, (family, (port, (addr_v4, (addr_v6, (size, (return_code, tt))))))) := v in
    mk fd family port addr_v4 addr_v6 size return_code;
  to_vals := fun p =>
    (fd p, (family p, (port p, (addr_v4 p, (addr_v6 p, (size p,
    (return_code p, tt))))))) |}.
Next Obligation. by intros []. Qed.
Next Obligation. by intros; destruct_prod. Qed.
Next Obligation. solve_pos. Qed.
Abbreviation t := SendtoRecvfromPayload (only parsing).
End SendtoRecvfromPayload.

Module FdPayload.
Record FdPayload : Type := mk {
    fd : Z; return_code : Z }.

#[global] Program Instance repr : ReprC FdPayload := {|
  layout := [FU 4; FS 4]%nat;
  of_vals := fun v => let '(fd, (return_code, tt)) := v in
    mk fd return_code;
  to_vals := fun p =>
    (fd p, (return_code p, tt)) |}.
Next Obligation. by intros []. Qed.
Next Obligation. by intros; destruct_prod. Qed.
Next Obligation. solve_pos. Qed.
Abbreviation t := FdPayload (only parsing).
End FdPayload.

Module ListenPayload.
Record ListenPayload : Type := mk {
    fd : Z; backlog : Z; return_code : Z }.

#[global] Program Instance repr : ReprC ListenPayload := {|
  layout := [FU 4; FU 4; FS 4]%nat;
  of_vals := fun v => let '(fd, (backlog, (return_code, tt))) := v in
    mk fd backlog return_code;
  to_vals := fun p =>
    (fd p, (backlog p, (return_code p, tt))) |}.
Next Obligation. by intros []. Qed.
Next Obligation. by intros; destruct_prod. Qed.
Next Obligation. solve_pos. Qed.
Abbreviation t := ListenPayload (only parsing).
End ListenPayload.

Module DupPayload.
Record DupPayload : Type := mk {
    oldfd : Z; newfd : Z; cloexec : Z; _pad : list byte;
    return_code : Z }.

#[global] Program Instance repr : ReprC DupPayload := {|
  layout := [FU 4; FS 4; FU 1; FBytes 3; FS 8]%nat;
  of_vals := fun v => let '(oldfd, (newfd, (cloexec, (_pad, (return_code, tt))))) := v in
    mk oldfd newfd cloexec _pad return_code;
  to_vals := fun p =>
    (oldfd p, (newfd p, (cloexec p, (_pad p, (return_code p, tt))))) |}.
Next Obligation. by intros []. Qed.
Next Obligation. by intros; destruct_prod. Qed.
Next Obligation. solve_pos. Qed.
Abbreviation t := DupPayload (only parsing).
End DupPayload.

Module PreadPwritePayload.
Record PreadPwritePayload : Type := mk {
    fd : Z; fd_type : Z; _pad : list byte; requested_size : Z;
    offset : Z; return_code : Z }.

#[global] Program Instance repr : ReprC PreadPwritePayload := {|
  layout := [FU 4; FU 1; FBytes 3; FU 8; FS 8; FS 8]%nat;
  of_vals := fun v => let '(fd, (fd_type, (_pad, (requested_size, (offset, (return_code, tt)))))) := v in
    mk fd fd_type _pad requested_size offset return_code;
  to_vals := fun p =>
    (fd p, (fd_type p, (_pad p, (requested_size p, (offset p,
    (return_code p, tt)))))) |}.
Next Obligation. by intros []. Qed.
Next Obligation. by intros; destruct_prod. Qed.
Next Obligation. solve_pos. Qed.
Abbreviation t := PreadPwritePayload (only parsing).
End PreadPwritePayload.

Module ReadvWritevPayload.
Record ReadvWritevPayload : Type := mk {
    fd : Z; fd_type : Z; iov_truncated : Z; _pad : list byte;
    iov_count : Z; _pad2 : list byte; requested_size : Z;
    return_code : Z }.

#[global] Program Instance repr : ReprC ReadvWritevPayload := {|
  layout := [FU 4; FU 1; FU 1; FBytes 2; FU 4; FBytes 4; FU 8; FS 8]%nat;
  of_vals := fun v => let '(fd, (fd_type, (iov_truncated, (_pad, (iov_count, (_pad2, (requested_size, (return_code, tt)))))))) := v in
    mk fd fd_type iov_truncated _pad iov_count _pad2 requested_size return_code;
  to_vals := fun p =>
    (fd p, (fd_type p, (iov_truncated p, (_pad p, (iov_count p,
    (_pad2 p, (requested_size p, (return_code p, tt)))))))) |}.
Next Obligation. by intros []. Qed.
Next Obligation. by intros; destruct_prod. Qed.
Next Obligation. solve_pos. Qed.
Abbreviation t := ReadvWritevPayload (only parsing).
End ReadvWritevPayload.

Module MmapPayload.
Record MmapPayload : Type := mk {
    fd : Z; prot : Z; flags : Z; _pad : list byte; length : Z;
    offset : Z; dev : Z; ino : Z; return_code : Z }.

#[global] Program Instance repr : ReprC MmapPayload := {|
  layout := [FS 4; FU 4; FU 4; FBytes 4; FU 8; FU 8; FU 8; FU 8; FS 8]%nat;
  of_vals := fun v => let '(fd, (prot, (flags, (_pad, (length, (offset, (dev, (ino, (return_code, tt))))))))) := v in
    mk fd prot flags _pad length offset dev ino return_code;
  to_vals := fun p =>
    (fd p, (prot p, (flags p, (_pad p, (length p, (offset p, (dev p,
    (ino p, (return_code p, tt))))))))) |}.
Next Obligation. by intros []. Qed.
Next Obligation. by intros; destruct_prod. Qed.
Next Obligation. solve_pos. Qed.
Abbreviation t := MmapPayload (only parsing).
End MmapPayload.

Module SendfileSplicePayload.
Record SendfileSplicePayload : Type := mk {
    in_fd : Z; out_fd : Z; in_fd_type : Z; out_fd_type : Z;
    _pad : list byte; size : Z; return_code : Z }.

#[global] Program Instance repr : ReprC SendfileSplicePayload := {|
  layout := [FU 4; FU 4; FU 1; FU 1; FBytes 6; FU 8; FS 8]%nat;
  of_vals := fun v => let '(in_fd, (out_fd, (in_fd_type, (out_fd_type, (_pad, (size, (return_code, tt))))))) := v in
    mk in_fd out_fd in_fd_type out_fd_type _pad size return_code;
  to_vals := fun p =>
    (in_fd p, (out_fd p, (in_fd_type p, (out_fd_type p, (_pad p,
    (size p, (return_code p, tt))))))) |}.
Next Obligation. by intros []. Qed.
Next Obligation. by intros; destruct_prod. Qed.
Next Obligation. solve_pos. Qed.
Abbreviation t := SendfileSplicePayload (only parsing).
End SendfileSplicePayload.

Module LsmFileOpenPayload.
Record LsmFileOpenPayload : Type := mk {
    path_len : Z; _pad : list byte; return_code : Z }.

#[global] Program Instance repr : ReprC LsmFileOpenPayload := {|
  layout := [FU 2; FBytes 2; FS 4]%nat;
  of_vals := fun v => let '(path_len, (_pad, (return_code, tt))) := v in
    mk path_len _pad return_code;
  to_vals := fun p =>
    (path_len p, (_pad p, (return_code p, tt))) |}.
Next Obligation. by intros []. Qed.
Next Obligation. by intros; destruct_prod. Qed.
Next Obligation. solve_pos. Qed.
Abbreviation t := LsmFileOpenPayload (only parsing).
End LsmFileOpenPayload.

Module LsmTaskKillPayload.
Record LsmTaskKillPayload : Type := mk {
    target_pid : Z; signal : Z; target_start_boottime_ns : Z;
    return_code : Z; _pad : Z }.

#[global] Program Instance repr : ReprC LsmTaskKillPayload := {|
  layout := [FU 4; FU 4; FU 8; FS 4; FU 4]%nat;
  of_vals := fun v => let '(target_pid, (signal, (target_start_boottime_ns, (return_code, (_pad, tt))))) := v in
    mk target_pid signal target_start_boottime_ns return_code _pad;
  to_vals := fun p =>
    (target_pid p, (signal p, (target_start_boottime_ns p,
    (return_code p, (_pad p, tt))))) |}.
Next Obligation. by intros []. Qed.
Next Obligation. by intros; destruct_prod. Qed.
Next Obligation. solve_pos. Qed.
Abbreviation t := LsmTaskKillPayload (only parsing).
End LsmTaskKillPayload.

Module LsmBpfPayload.
Record LsmBpfPayload : Type := mk {
    cmd : Z; return_code : Z }.

#[global] Program Instance repr : ReprC LsmBpfPayload := {|
  layout := [FU 4; FS 4]%nat;
  of_vals := fun v => let '(cmd, (return_code, tt)) := v in
    mk cmd return_code;
  to_vals := fun p =>
    (cmd p, (return_code p, tt)) |}.
Next Obligation. by intros []. Qed.
Next Obligation. by intros; destruct_prod. Qed.
Next Obligation. solve_pos. Qed.
Abbreviation t := LsmBpfPayload (only parsing).
End LsmBpfPayload.

Module LsmPtracePayload.
Record LsmPtracePayload : Type := mk {
    target_pid : Z; return_code : Z }.

#[global] Program Instance repr : ReprC LsmPtracePayload := {|
  layout := [FU 4; FS 4]%nat;
  of_vals := fun v => let '(target_pid, (return_code, tt)) := v in
    mk target_pid return_code;
  to_vals := fun p =>
    (target_pid p, (return_code p, tt)) |}.
Next Obligation. by intros []. Qed.
Next Obligation. by intros; destruct_prod. Qed.
Next Obligation. solve_pos. Qed.
Abbreviation t := LsmPtracePayload (only parsing).
End LsmPtracePayload.

Module LsmInodePayload.
Record LsmInodePayload : Type := mk {
    path_len : Z; _pad : list byte; return_code : Z }.

#[global] Program Instance repr : ReprC LsmInodePayload := {|
  layout := [FU 2; FBytes 2; FS 4]%nat;
  of_vals := fun v => let '(path_len, (_pad, (return_code, tt))) := v in
    mk path_len _pad return_code;
  to_vals := fun p =>
    (path_len p, (_pad p, (return_code p, tt))) |}.
Next Obligation. by intros []. Qed.
Next Obligation. by intros; destruct_prod. Qed.
Next Obligation. solve_pos. Qed.
Abbreviation t := LsmInodePayload (only parsing).
End LsmInodePayload.

Module LsmInodeRenamePayload.
Record LsmInodeRenamePayload : Type := mk {
    old_path_len : Z; new_path_len : Z; return_code : Z }.

#[global] Program Instance repr : ReprC LsmInodeRenamePayload := {|
  layout := [FU 2; FU 2; FS 4]%nat;
  of_vals := fun v => let '(old_path_len, (new_path_len, (return_code, tt))) := v in
    mk old_path_len new_path_len return_code;
  to_vals := fun p =>
    (old_path_len p, (new_path_len p, (return_code p, tt))) |}.
Next Obligation. by intros []. Qed.
Next Obligation. by intros; destruct_prod. Qed.
Next Obligation. solve_pos. Qed.
Abbreviation t := LsmInodeRenamePayload (only parsing).
End LsmInodeRenamePayload.

Module LsmSetuidPayload.
Record LsmSetuidPayload : Type := mk {
    old_uid : Z; new_uid : Z; old_gid : Z; new_gid : Z;
    return_code : Z }.

#[global] Program Instance repr : ReprC LsmSetuidPayload := {|
  layout := [FU 4; FU 4; FU 4; FU 4; FS 4]%nat;
  of_vals := fun v => let '(old_uid, (new_uid, (old_gid, (new_gid, (return_code, tt))))) := v in
    mk old_uid new_uid old_gid new_gid return_code;
  to_vals := fun p =>
    (old_uid p, (new_uid p, (old_gid p, (new_gid p, (return_code p, tt))))) |}.
Next Obligation. by intros []. Qed.
Next Obligation. by intros; destruct_prod. Qed.
Next Obligation. solve_pos. Qed.
Abbreviation t := LsmSetuidPayload (only parsing).
End LsmSetuidPayload.

Module ExecViewPayload.
Record ExecViewPayload : Type := mk {
    root_inode : Z; root_dev : Z; mount_namespace : Z;
    root_mount_id : Z; version : Z; status : Z; _pad : list byte }.

#[global] Program Instance repr : ReprC ExecViewPayload := {|
  layout := [FU 8; FU 4; FU 4; FU 4; FU 1; FU 1; FBytes 2]%nat;
  of_vals := fun v => let '(root_inode, (root_dev, (mount_namespace, (root_mount_id, (version, (status, (_pad, tt))))))) := v in
    mk root_inode root_dev mount_namespace root_mount_id version status _pad;
  to_vals := fun p =>
    (root_inode p, (root_dev p, (mount_namespace p, (root_mount_id p,
    (version p, (status p, (_pad p, tt))))))) |}.
Next Obligation. by intros []. Qed.
Next Obligation. by intros; destruct_prod. Qed.
Next Obligation. solve_pos. Qed.
Abbreviation t := ExecViewPayload (only parsing).
End ExecViewPayload.


(** ** Sizes that are part of the protocol *)

(** The wire structs have the sizes and field offsets both sides rely on, without implicit padding surprises. *)
Theorem wire_sizes_stable :
  size_of EventHeader.t = 96%nat /\
  field_offsets (layout EventHeader.t) 0 =
    [0; 1; 2; 3; 8; 16; 20; 24; 28; 32; 40; 56; 60; 88; 95]%nat /\
  size_of PacketEventHeader.t = 24%nat /\ size_of NsSnapshot.t = 36%nat /\
  size_of ProcessForkPayload.t = 32%nat /\ size_of ProcessExitPayload.t = 8%nat /\
  size_of SignalGeneratePayload.t = 24%nat /\ size_of ExecViewPayload.t = 24%nat.
Proof. vm_compute. repeat split. Qed.
