(* ===== verification/Common.v ===== *)
(** * Shared contract (bloodhound-common)

    The constants, the event kinds, the syscall tables and the outcome policies
    that the kernel programs and the daemon share: [bloodhound-common/src/lib.rs],
    [exit_claim.rs] and [syscall_collection.rs]. *)

From S2P Require Import Prelude.

(** ** Bounds *)
Definition MAX_ARGV_SIZE : Z := 4096.
Definition MAX_PATH_SIZE : Z := 4096.
Definition MAX_TTY_DATA : Z := 4096.
Definition COMM_SIZE : Z := 16.
Definition SYSCALL_ENTRY_MAP_SIZE : Z := 10240.

(** ** Collection-loss reasons

    Indices into the per-scope counter arrays; [*_FAILURE_REASONS] names them. *)
Definition EXEC_ENTRY_CAPTURE_FAILED : nat := 0.
Definition EXEC_ENTRY_SAVE_FAILED : nat := 1.
Definition EXEC_EXIT_CAPTURE_FAILED : nat := 2.
Definition EXEC_INVOCATION_INTERRUPTED : nat := 3.
Definition EXEC_ENTRY_CLEANUP_FAILED : nat := 4.
Definition EXEC_FAILURE_REASONS : list string :=
  ["entry_capture_failed"; "entry_save_failed"; "exit_capture_failed";
   "invocation_interrupted"; "entry_cleanup_failed"]%string.

Definition SYSCALL_ENTRY_CAPTURE_FAILED : nat := 0.
Definition SYSCALL_ENTRY_SAVE_FAILED : nat := 1.
Definition SYSCALL_EXIT_CAPTURE_FAILED : nat := 2.
Definition SYSCALL_INVOCATION_INTERRUPTED : nat := 3.
Definition SYSCALL_ENTRY_CLEANUP_FAILED : nat := 4.
Definition SYSCALL_FAILURE_REASONS : list string :=
  ["entry_capture_failed"; "entry_save_failed"; "exit_capture_failed";
   "invocation_interrupted"; "entry_cleanup_failed"]%string.
Definition RAW_SYSCALL_FAILURE_REASONS : list string := SYSCALL_FAILURE_REASONS.
Definition TTY_FAILURE_REASONS : list string := SYSCALL_FAILURE_REASONS.

Definition OPENAT_ENTRY_CAPTURE_FAILED : nat := 0.
Definition OPENAT_ENTRY_SAVE_FAILED : nat := 1.
Definition OPENAT_EXIT_CAPTURE_FAILED : nat := 2.
Definition OPENAT_INVOCATION_INTERRUPTED : nat := 3.
Definition OPENAT_FAILURE_REASONS : list string :=
  ["entry_capture_failed"; "entry_save_failed"; "exit_capture_failed";
   "invocation_interrupted"]%string.

Definition DEV_VALID : Z := 1.
Definition INO_VALID : Z := 2.
Definition PATH_COMPLETE : Z := 4.
Definition PATH_READ_FAILED : Z := 8.

(** ** Capture status *)
Module CaptureStatus.
Inductive CaptureStatus : Type := Complete | Truncated | ReadError.

#[global] Instance CaptureStatus_eq_dec : EqDecision CaptureStatus.
Proof. solve_decision. Defined.

(** [status as u8] *)
Definition as_u8 (s : CaptureStatus) : Z :=
  match s with Complete => 1 | Truncated => 2 | ReadError => 3 end.

(** [TryFrom<u8>] *)
Definition try_from (value : Z) : option CaptureStatus :=
  if value =? as_u8 Complete then Some Complete
  else if value =? as_u8 Truncated then Some Truncated
  else if value =? as_u8 ReadError then Some ReadError
  else None.

Lemma try_from_as_u8 s : try_from (as_u8 s) = Some s.
Proof. by destruct s. Qed.

Lemma try_from_Some v s : try_from v = Some s <-> v = as_u8 s.
Proof.
  split; [|intros ->; apply try_from_as_u8].
  unfold try_from. repeat case_goal; intros [= <-]; by apply Z.eqb_eq.
Qed.
Abbreviation t := CaptureStatus (only parsing).
End CaptureStatus.

(** ** Event kinds *)
Module EventKind.
Inductive EventKind : Type :=
| TtyRead | TtyWrite | Execve | Execveat | RawSyscall | Openat | Read
| Write | Connect | Bind | Listen | Socket | Clone | Clone3 | Chdir | Fchdir
| Unlink | Unlinkat | Rename | Renameat2 | Mkdir | Mkdirat | Rmdir | Symlink
| Symlinkat | Link | Linkat | Chmod | Fchmod | Fchmodat | Chown | Fchown
| Fchownat | Truncate | Ftruncate | Mount | Umount2 | Sendto | Recvfrom
| Dup | Dup2 | Dup3 | Fcntl | Pread64 | Pwrite64 | Readv | Writev | Mmap
| Sendfile | Splice | PacketIngress | PacketEgress | LsmFileOpen
| LsmTaskKill | LsmBpf | LsmPtraceAccessCheck | LsmInodeUnlink
| LsmInodeRename | LsmTaskFixSetuid | ProcessStart | ProcessFork
| ProcessExit | SignalGenerate | ExecView | UsdtTrainingShellV3
| UsdtTrainingPeerV1 | UsdtTrainingShellV3CaptureError.

#[global] Instance EventKind_eq_dec : EqDecision EventKind.
Proof. solve_decision. Defined.

Definition ALL : list EventKind :=
  [TtyRead; TtyWrite; Execve; Execveat; RawSyscall; Openat; Read; Write;
   Connect; Bind; Listen; Socket; Clone; Clone3; Chdir; Fchdir; Unlink;
   Unlinkat; Rename; Renameat2; Mkdir; Mkdirat; Rmdir; Symlink; Symlinkat;
   Link; Linkat; Chmod; Fchmod; Fchmodat; Chown; Fchown; Fchownat; Truncate;
   Ftruncate; Mount; Umount2; Sendto; Recvfrom; Dup; Dup2; Dup3; Fcntl;
   Pread64; Pwrite64; Readv; Writev; Mmap; Sendfile; Splice; PacketIngress;
   PacketEgress; LsmFileOpen; LsmTaskKill; LsmBpf; LsmPtraceAccessCheck;
   LsmInodeUnlink; LsmInodeRename; LsmTaskFixSetuid; ProcessStart;
   ProcessFork; ProcessExit; SignalGenerate; ExecView; UsdtTrainingShellV3;
   UsdtTrainingPeerV1; UsdtTrainingShellV3CaptureError].

(** [kind as u8] *)
Definition to_u8 (k : EventKind) : Z :=
  match k with
  | TtyRead => 0 | TtyWrite => 1 | Execve => 2 | Execveat => 3
  | RawSyscall => 10 | Openat => 20 | Read => 21 | Write => 22
  | Connect => 23 | Bind => 24 | Listen => 25 | Socket => 26 | Clone => 27
  | Clone3 => 28 | Chdir => 29 | Fchdir => 30 | Unlink => 31
  | Unlinkat => 32 | Rename => 33 | Renameat2 => 34 | Mkdir => 35
  | Mkdirat => 36 | Rmdir => 37 | Symlink => 38 | Symlinkat => 39
  | Link => 40 | Linkat => 41 | Chmod => 42 | Fchmod => 43 | Fchmodat => 44
  | Chown => 45 | Fchown => 46 | Fchownat => 47 | Truncate => 48
  | Ftruncate => 49 | Mount => 50 | Umount2 => 51 | Sendto => 52
  | Recvfrom => 53 | Dup => 54 | Dup2 => 55 | Dup3 => 56 | Fcntl => 57
  | Pread64 => 58 | Pwrite64 => 59 | Readv => 60 | Writev => 61 | Mmap => 62
  | Sendfile => 63 | Splice => 64 | PacketIngress => 100
  | PacketEgress => 101 | LsmFileOpen => 200 | LsmTaskKill => 201
  | LsmBpf => 202 | LsmPtraceAccessCheck => 203 | LsmInodeUnlink => 204
  | LsmInodeRename => 205 | LsmTaskFixSetuid => 206 | ProcessStart => 220
  | ProcessFork => 221 | ProcessExit => 222 | SignalGenerate => 223
  | ExecView => 224 | UsdtTrainingShellV3 => 240 | UsdtTrainingPeerV1 => 241
  | UsdtTrainingShellV3CaptureError => 242
  end.

Definition from_u8 (v : Z) : option EventKind :=
  match v with
  | 0 => Some TtyRead | 1 => Some TtyWrite | 2 => Some Execve
  | 3 => Some Execveat | 10 => Some RawSyscall | 20 => Some Openat
  | 21 => Some Read | 22 => Some Write | 23 => Some Connect
  | 24 => Some Bind | 25 => Some Listen | 26 => Some Socket
  | 27 => Some Clone | 28 => Some Clone3 | 29 => Some Chdir
  | 30 => Some Fchdir | 31 => Some Unlink | 32 => Some Unlinkat
  | 33 => Some Rename | 34 => Some Renameat2 | 35 => Some Mkdir
  | 36 => Some Mkdirat | 37 => Some Rmdir | 38 => Some Symlink
  | 39 => Some Symlinkat | 40 => Some Link | 41 => Some Linkat
  | 42 => Some Chmod | 43 => Some Fchmod | 44 => Some Fchmodat
  | 45 => Some Chown | 46 => Some Fchown | 47 => Some Fchownat
  | 48 => Some Truncate | 49 => Some Ftruncate | 50 => Some Mount
  | 51 => Some Umount2 | 52 => Some Sendto | 53 => Some Recvfrom
  | 54 => Some Dup | 55 => Some Dup2 | 56 => Some Dup3 | 57 => Some Fcntl
  | 58 => Some Pread64 | 59 => Some Pwrite64 | 60 => Some Readv
  | 61 => Some Writev | 62 => Some Mmap | 63 => Some Sendfile
  | 64 => Some Splice | 100 => Some PacketIngress | 101 => Some PacketEgress
  | 200 => Some LsmFileOpen | 201 => Some LsmTaskKill | 202 => Some LsmBpf
  | 203 => Some LsmPtraceAccessCheck | 204 => Some LsmInodeUnlink
  | 205 => Some LsmInodeRename | 206 => Some LsmTaskFixSetuid
  | 220 => Some ProcessStart | 221 => Some ProcessFork
  | 222 => Some ProcessExit | 223 => Some SignalGenerate
  | 224 => Some ExecView | 240 => Some UsdtTrainingShellV3
  | 241 => Some UsdtTrainingPeerV1
  | 242 => Some UsdtTrainingShellV3CaptureError | _ => None
  end.

(** Retired wire identifiers that must stay unknown. *)
Definition RESERVED : list Z := [225; 226; 227].

Lemma ALL_complete k : k ∈ ALL.
Proof. apply list_elem_of_In. destruct k; vm_compute; tauto. Qed.

Lemma from_to_u8 k : from_u8 (to_u8 k) = Some k.
Proof. by destruct k. Qed.

Lemma to_u8_range k : in_u 8 (to_u8 k).
Proof. destruct k; vm_compute; split; congruence. Qed.

Lemma to_from_u8 v k : from_u8 v = Some k -> to_u8 k = v.
Proof.
  unfold from_u8. intros H.
  repeat (match type of H with
    | context [match ?x with _ => _ end] => destruct x
    end; try discriminate H);
  injection H as <-; reflexivity.
Qed.

(** Event kinds and wire bytes are in bijection. *)
Theorem from_u8_bijective :
  (forall v k, from_u8 v = Some k <-> v = to_u8 k) /\
  NoDup (to_u8 <$> ALL) /\ Forall (fun v => from_u8 v = None) RESERVED.
Proof.
  split_and!.
  - intros v k; split; [intros H; by rewrite (to_from_u8 v k)|].
    intros ->; apply from_to_u8.
  - apply (bool_decide_unpack _). vm_compute. exact I.
  - by repeat constructor.
Qed.
Abbreviation t := EventKind (only parsing).
End EventKind.

(** ** Descriptor classes, signal results and namespace slots *)
Definition FD_TYPE_REGULAR : Z := 0.
Definition FD_TYPE_PIPE : Z := 1.
Definition FD_TYPE_SOCKET : Z := 2.
Definition FD_TYPE_TTY : Z := 3.
Definition FD_TYPE_OTHER : Z := 4.

Definition SIGNAL_RESULT_DELIVERED : Z := 0.
Definition SIGNAL_RESULT_IGNORED : Z := 1.
Definition SIGNAL_RESULT_ALREADY_PENDING : Z := 2.
Definition SIGNAL_RESULT_OVERFLOW_FAIL : Z := 3.
Definition SIGNAL_RESULT_LOSE_INFO : Z := 4.

Definition NS_STATUS_COMPLETE : Z := 1.
Definition NS_STATUS_UNSUPPORTED : Z := 2.
Definition NS_STATUS_UNAVAILABLE : Z := 3.

Definition MAX_IOV_TRAVERSE : Z := 8.

(** The wait status of a whole-process exit. *)
Definition select_process_exit_status (group_exit_status group_leader_status : Z) : Z :=
  if negb (group_exit_status =? 0) then group_exit_status else group_leader_status.

(** ** Syscall numbers (x86_64) *)
Definition NR_FUTEX : Z := 202.
Definition NR_CLOCK_GETTIME : Z := 228.
Definition NR_CLOCK_NANOSLEEP : Z := 230.
Definition NR_GETTIMEOFDAY : Z := 96.
Definition NR_NANOSLEEP : Z := 35.
Definition NR_EPOLL_WAIT : Z := 232.
Definition NR_EPOLL_PWAIT : Z := 281.
Definition NR_POLL : Z := 7.
Definition NR_PPOLL : Z := 271.
Definition NR_SELECT : Z := 23.
Definition NR_PSELECT6 : Z := 270.
Definition NR_SCHED_YIELD : Z := 24.
Definition NR_RESTART_SYSCALL : Z := 219.
Definition NR_EXECVE : Z := 59.
Definition NR_EXECVEAT : Z := 322.
Definition NR_OPENAT : Z := 257.
Definition NR_READ : Z := 0.
Definition NR_WRITE : Z := 1.
Definition NR_CONNECT : Z := 42.
Definition NR_BIND : Z := 49.
Definition NR_LISTEN : Z := 50.
Definition NR_SOCKET : Z := 41.
Definition NR_CLONE : Z := 56.
Definition NR_CLONE3 : Z := 435.
Definition NR_CHDIR : Z := 80.
Definition NR_FCHDIR : Z := 81.
Definition NR_UNLINK : Z := 87.
Definition NR_UNLINKAT : Z := 263.
Definition NR_RENAME : Z := 82.
Definition NR_RENAMEAT2 : Z := 316.
Definition NR_MKDIR : Z := 83.
Definition NR_MKDIRAT : Z := 258.
Definition NR_RMDIR : Z := 84.
Definition NR_SYMLINK : Z := 88.
Definition NR_SYMLINKAT : Z := 266.
Definition NR_LINK : Z := 86.
Definition NR_LINKAT : Z := 265.
Definition NR_CHMOD : Z := 90.
Definition NR_FCHMOD : Z := 91.
Definition NR_FCHMODAT : Z := 268.
Definition NR_CHOWN : Z := 92.
Definition NR_FCHOWN : Z := 93.
Definition NR_FCHOWNAT : Z := 260.
Definition NR_TRUNCATE : Z := 76.
Definition NR_FTRUNCATE : Z := 77.
Definition NR_MOUNT : Z := 165.
Definition NR_UMOUNT2 : Z := 166.
Definition NR_SENDTO : Z := 44.
Definition NR_RECVFROM : Z := 45.
Definition NR_DUP : Z := 32.
Definition NR_DUP2 : Z := 33.
Definition NR_DUP3 : Z := 292.
Definition NR_FCNTL : Z := 72.
Definition NR_PREAD64 : Z := 17.
Definition NR_PWRITE64 : Z := 18.
Definition NR_READV : Z := 19.
Definition NR_WRITEV : Z := 20.
Definition NR_MMAP : Z := 9.
Definition NR_SENDFILE : Z := 40.
Definition NR_SPLICE : Z := 275.
Definition NR_EXIT : Z := 60.
Definition NR_EXIT_GROUP : Z := 231.
Definition EXCLUDED_SYSCALLS : list Z :=
  [NR_FUTEX; NR_CLOCK_GETTIME; NR_CLOCK_NANOSLEEP; NR_GETTIMEOFDAY; NR_NANOSLEEP;
   NR_EPOLL_WAIT; NR_EPOLL_PWAIT; NR_POLL; NR_PPOLL; NR_SELECT; NR_PSELECT6;
   NR_SCHED_YIELD; NR_RESTART_SYSCALL].

Definition EXEC_DEDUP : list (Z * string) := [(NR_EXECVE, "exec.execve"%string)].

Definition F_DUPFD : Z := 0.
Definition F_DUPFD_CLOEXEC : Z := 1030.
Definition MAP_ANONYMOUS : Z := 32.
Definition O_CLOEXEC : Z := 524288.

Inductive Dedup : Type := Dedup_Dedup | Dedup_NoDedup | Dedup_OptIn.

#[export] Instance Dedup_eq_dec : EqDecision Dedup.
Proof. solve_decision. Defined.

Record Tier2 : Type := mkTier2 {
  t2_name : string; t2_tracepoint : string; t2_nr : Z; t2_dedup : Dedup }.

Definition TIER2 : list Tier2 :=
  [mkTier2 "openat" "openat" NR_OPENAT Dedup_Dedup;
   mkTier2 "read" "read" NR_READ Dedup_Dedup;
   mkTier2 "write" "write" NR_WRITE Dedup_Dedup;
   mkTier2 "connect" "connect" NR_CONNECT Dedup_Dedup;
   mkTier2 "bind" "bind" NR_BIND Dedup_Dedup;
   mkTier2 "listen" "listen" NR_LISTEN Dedup_Dedup;
   mkTier2 "socket" "socket" NR_SOCKET Dedup_Dedup;
   mkTier2 "clone" "clone" NR_CLONE Dedup_Dedup;
   mkTier2 "clone3" "clone3" NR_CLONE3 Dedup_Dedup;
   mkTier2 "chdir" "chdir" NR_CHDIR Dedup_Dedup;
   mkTier2 "fchdir" "fchdir" NR_FCHDIR Dedup_Dedup;
   mkTier2 "unlink" "unlink" NR_UNLINK Dedup_Dedup;
   mkTier2 "unlinkat" "unlinkat" NR_UNLINKAT Dedup_Dedup;
   mkTier2 "rename" "rename" NR_RENAME Dedup_Dedup;
   mkTier2 "renameat2" "renameat2" NR_RENAMEAT2 Dedup_Dedup;
   mkTier2 "mkdir" "mkdir" NR_MKDIR Dedup_Dedup;
   mkTier2 "mkdirat" "mkdirat" NR_MKDIRAT Dedup_Dedup;
   mkTier2 "rmdir" "rmdir" NR_RMDIR Dedup_Dedup;
   mkTier2 "symlink" "symlink" NR_SYMLINK Dedup_Dedup;
   mkTier2 "symlinkat" "symlinkat" NR_SYMLINKAT Dedup_Dedup;
   mkTier2 "link" "link" NR_LINK Dedup_Dedup;
   mkTier2 "linkat" "linkat" NR_LINKAT Dedup_Dedup;
   mkTier2 "chmod" "chmod" NR_CHMOD Dedup_Dedup;
   mkTier2 "fchmod" "fchmod" NR_FCHMOD Dedup_Dedup;
   mkTier2 "fchmodat" "fchmodat" NR_FCHMODAT Dedup_Dedup;
   mkTier2 "chown" "chown" NR_CHOWN Dedup_Dedup;
   mkTier2 "fchown" "fchown" NR_FCHOWN Dedup_Dedup;
   mkTier2 "fchownat" "fchownat" NR_FCHOWNAT Dedup_Dedup;
   mkTier2 "truncate" "truncate" NR_TRUNCATE Dedup_Dedup;
   mkTier2 "ftruncate" "ftruncate" NR_FTRUNCATE Dedup_Dedup;
   mkTier2 "mount" "mount" NR_MOUNT Dedup_Dedup;
   mkTier2 "umount2" "umount" NR_UMOUNT2 Dedup_Dedup;
   mkTier2 "sendto" "sendto" NR_SENDTO Dedup_Dedup;
   mkTier2 "recvfrom" "recvfrom" NR_RECVFROM Dedup_Dedup;
   mkTier2 "dup" "dup" NR_DUP Dedup_Dedup;
   mkTier2 "dup2" "dup2" NR_DUP2 Dedup_Dedup;
   mkTier2 "dup3" "dup3" NR_DUP3 Dedup_Dedup;
   mkTier2 "pread64" "pread64" NR_PREAD64 Dedup_Dedup;
   mkTier2 "pwrite64" "pwrite64" NR_PWRITE64 Dedup_Dedup;
   mkTier2 "readv" "readv" NR_READV Dedup_Dedup;
   mkTier2 "writev" "writev" NR_WRITEV Dedup_Dedup;
   mkTier2 "mmap" "mmap" NR_MMAP Dedup_Dedup;
   mkTier2 "fcntl" "fcntl" NR_FCNTL Dedup_NoDedup;
   mkTier2 "sendfile" "sendfile64" NR_SENDFILE Dedup_OptIn;
   mkTier2 "splice" "splice" NR_SPLICE Dedup_OptIn]%string.

(** One entry per syscall number: 512 covers x86_64. *)
Definition BITMAP_SIZE : Z := 512.

(** ** Map-operation outcomes (syscall_collection.rs)

    A BPF map helper returns [Ok(())] or a negative errno. *)
Definition map_result : Type := option Z.

Definition save_outcome (r : map_result) : option nat :=
  match r with
  | None => None
  | Some _ => Some SYSCALL_ENTRY_SAVE_FAILED
  end.

Definition ENOENT : Z := -2.
Definition EEXIST : Z := -17.

Definition cleanup_outcome (r : map_result) : option nat :=
  match r with
  | None => None
  | Some e => if e =? ENOENT then None else Some SYSCALL_ENTRY_CLEANUP_FAILED
  end.

(** ** Exit claims (exit_claim.rs) *)
Definition EXIT_CLAIM_CAPACITY : Z := 10240.
Definition EXIT_CAPTURE_FAILED : nat := 0.
Definition EXIT_CLAIM_FAILED : nat := 1.
Definition CLEANUP_CAPTURE_FAILED : nat := 2.
Definition CLEANUP_DELETE_FAILED : nat := 3.
Definition EXIT_FAILURE_REASONS : list string :=
  ["exit_capture_failed"; "exit_claim_failed"; "cleanup_capture_failed";
   "cleanup_delete_failed"]%string.

Record ExitClaimKey : Type := mkExitClaimKey {
  ec_tgid : Z; ec_padding : Z; ec_start_boottime_ns : Z }.

#[export] Instance ExitClaimKey_eq_dec : EqDecision ExitClaimKey.
Proof. solve_decision. Defined.
#[export] Program Instance ExitClaimKey_countable : Countable ExitClaimKey :=
  inj_countable' (fun k => (ec_tgid k, ec_padding k, ec_start_boottime_ns k))
    (fun '(a, b, c) => mkExitClaimKey a b c) _.
Next Obligation. by intros []. Qed.

Definition ExitClaimKey_new (tgid start_boottime_ns : Z) : ExitClaimKey :=
  mkExitClaimKey tgid 0 start_boottime_ns.

Definition for_freed_task (pid tgid start : Z) : option ExitClaimKey :=
  if (pid =? tgid) && negb (tgid =? 0) && negb (start =? 0)
  then Some (ExitClaimKey_new tgid start) else None.

Inductive ClaimOutcome : Type := Emit | Duplicate | Failed.

Definition claim_outcome (r : map_result) : ClaimOutcome :=
  match r with
  | None => Emit
  | Some e => if e =? EEXIST then Duplicate else Failed
  end.

Definition cleanup_failed (r : map_result) : bool :=
  match r with None => false | Some e => negb (e =? ENOENT) end.

(** ** The tables are consistent *)

(** No syscall is both excluded and rich; every table number fits the
    bitmap and Tier 2 numbers and names are unique. *)
Theorem syscall_tables_consistent :
  (forall nr, nr ∈ EXCLUDED_SYSCALLS -> nr ∉ t2_nr <$> TIER2) /\
  Forall (fun nr => 0 <= nr < BITMAP_SIZE)
    (EXCLUDED_SYSCALLS ++ (t2_nr <$> TIER2) ++ EXEC_DEDUP.*1) /\
  NoDup (t2_nr <$> TIER2) /\ NoDup (t2_name <$> TIER2) /\
  (forall nr, nr ∈ [NR_EXIT; NR_EXIT_GROUP; NR_EXECVE; NR_EXECVEAT] ->
     nr ∉ t2_nr <$> TIER2 /\ nr ∉ EXCLUDED_SYSCALLS).
Proof.
  split_and!.
  - apply Forall_forall, (bool_decide_unpack _). vm_compute. exact I.
  - apply (bool_decide_unpack _). vm_compute. exact I.
  - apply (bool_decide_unpack _). vm_compute. exact I.
  - apply (bool_decide_unpack _). vm_compute. exact I.
  - apply Forall_forall, (bool_decide_unpack _). vm_compute. exact I.
Qed.
