(* ===== verification/Json.v ===== *)
(** * JSON values and interfaces to encoders

    [serde_json::Value] as data: the code only builds values with [json!],
    inserts keys and reads keys back.  An object is a finite map from strings
    (serde_json's default map is a [BTreeMap], so two objects with the same
    entries are equal).  The base64 crate is outside the repository and is an
    interface: an encoder, a decoder and the law that relates them. *)

From S2P Require Import Prelude.

Unset Elimination Schemes.
Inductive json : Type :=
| JNull
| JBool (b : bool)
| JNum (z : Z)
| JStr (s : string)
| JArr (l : list json)
| JObj (m : gmap string json).
Set Elimination Schemes.

(** [json!({ k: v, ... })] *)
Definition obj (l : list (string * json)) : json := JObj (list_to_map l).

(** [value.get(key)]: [None] when the value is not an object. *)
Definition json_get (key : string) (v : json) : option json :=
  match v with JObj m => m !! key | _ => None end.

(** [obj.insert(key, v)] on an object value *)
Definition json_insert (key : string) (v : json) (o : json) : json :=
  match o with JObj m => JObj (<[key := v]> m) | _ => o end.

(** [Value::as_u64] *)
Definition as_u64 (v : json) : option Z :=
  match v with
  | JNum z => if (0 <=? z) && (z <=? U64_MAX) then Some z else None
  | _ => None
  end.

Definition strs (l : list string) : json := JArr (JStr <$> l).

Definition is_obj (v : json) : bool := match v with JObj _ => true | _ => false end.

Lemma json_get_obj_cons k k' v l :
  json_get k (obj ((k', v) :: l)) = if String.eqb k' k then Some v else json_get k (obj l).
Proof.
  cbn. rewrite lookup_insert. destruct (String.eqb_spec k' k); by case_decide.
Qed.

Lemma json_get_obj_nil k : json_get k (obj []) = None.
Proof. apply lookup_empty. Qed.

Lemma json_get_insert k k' v o :
  is_obj o = true ->
  json_get k (json_insert k' v o) = if String.eqb k' k then Some v else json_get k o.
Proof.
  destruct o; cbn; try done. intros _. rewrite lookup_insert.
  destruct (String.eqb_spec k' k); by case_decide.
Qed.

Lemma is_obj_insert k v o : is_obj (json_insert k v o) = is_obj o.
Proof. by destruct o. Qed.

Lemma json_get_insert_ne k k' v o :
  k' <> k -> json_get k (json_insert k' v o) = json_get k o.
Proof. intros; destruct o; cbn; try done. by apply lookup_insert_ne. Qed.

(** Reading a literal key from an object built with literal keys. *)
Ltac json_simpl :=
  repeat (rewrite ?json_get_obj_cons, ?json_get_obj_nil;
          try (rewrite json_get_insert by (rewrite ?is_obj_insert; reflexivity));
          cbn [String.eqb Ascii.eqb Bool.eqb]).

Ltac json_simpl_in H :=
  repeat (rewrite ?json_get_obj_cons, ?json_get_obj_nil in H;
          try (rewrite json_get_insert in H by (rewrite ?is_obj_insert; reflexivity));
          cbn [String.eqb Ascii.eqb Bool.eqb] in H).

(** base64 [STANDARD]: decoding what was encoded gives the bytes back. *)
Class Base64 := {
  b64_encode : list byte -> string;
  b64_decode : string -> option (list byte);
  b64_decode_encode : forall bs, b64_decode (b64_encode bs) = Some bs
}.

Lemma b64_encode_inj `{Base64} a b : b64_encode a = b64_encode b -> a = b.
Proof.
  intros E. apply (f_equal b64_decode) in E. rewrite !b64_decode_encode in E. congruence.
Qed.

(** A lawful encoder to evaluate witnesses with: the bytes themselves. *)
Program Definition identity_base64 : Base64 := {|
  b64_encode := bstr;
  b64_decode s := Some (str_bytes s) |}.
Next Obligation. intros bs. exact (f_equal Some (str_bytes_bstr bs)). Qed.
