(* ===== verification/Utf8.v ===== *)
(** * UTF-8 in the standard library

    [std::str::from_utf8] and [String::from_utf8_lossy]: the first accepts
    exactly the well-formed byte sequences (Unicode table 3-7); the second
    replaces each maximal ill-formed prefix of a sequence by U+FFFD. *)

From S2P Require Import Prelude.

Definition in_range_b (lo hi : Z) (b : byte) : bool :=
  (lo <=? byte.unsigned b) && (byte.unsigned b <=? hi).

(** A continuation byte. *)
Definition cont (b : byte) : bool := in_range_b 0x80 0xBF b.

Inductive lead : Type :=
| Lead1 | Lead2 | Lead3 (lo hi : Z) | Lead4 (lo hi : Z) | LeadBad.

(** The class of a first byte, with the range its second byte must be in. *)
Definition lead_of (b : byte) : lead :=
  let z := byte.unsigned b in
  if z <=? 0x7F then Lead1
  else if (0xC2 <=? z) && (z <=? 0xDF) then Lead2
  else if z =? 0xE0 then Lead3 0xA0 0xBF
  else if z =? 0xED then Lead3 0x80 0x9F
  else if (0xE1 <=? z) && (z <=? 0xEF) then Lead3 0x80 0xBF
  else if z =? 0xF0 then Lead4 0x90 0xBF
  else if (0xF1 <=? z) && (z <=? 0xF3) then Lead4 0x80 0xBF
  else if z =? 0xF4 then Lead4 0x80 0x8F
  else LeadBad.

(** [std::str::from_utf8(bs).is_ok()] *)
Fixpoint utf8_valid (bs : list byte) : bool :=
  match bs with
  | [] => true
  | b :: r =>
      match lead_of b with
      | Lead1 => utf8_valid r
      | Lead2 =>
          match r with c1 :: r1 => cont c1 && utf8_valid r1 | _ => false end
      | Lead3 lo hi =>
          match r with
          | c1 :: c2 :: r2 => in_range_b lo hi c1 && cont c2 && utf8_valid r2
          | _ => false
          end
      | Lead4 lo hi =>
          match r with
          | c1 :: c2 :: c3 :: r3 =>
              in_range_b lo hi c1 && cont c2 && cont c3 && utf8_valid r3
          | _ => false
          end
      | LeadBad => false
      end
  end.

(** U+FFFD *)
Definition REPLACEMENT : list byte := [Byte.xef; Byte.xbf; Byte.xbd].

(** [String::from_utf8_lossy(bs)], as the bytes of the resulting string *)
Fixpoint utf8_lossy (bs : list byte) : list byte :=
  match bs with
  | [] => []
  | b :: r =>
      match lead_of b with
      | Lead1 => b :: utf8_lossy r
      | Lead2 =>
          match r with
          | c1 :: r1 =>
              if cont c1 then b :: c1 :: utf8_lossy r1 else REPLACEMENT ++ utf8_lossy r
          | [] => REPLACEMENT
          end
      | Lead3 lo hi =>
          match r with
          | c1 :: r1 =>
              if in_range_b lo hi c1 then
                match r1 with
                | c2 :: r2 =>
                    if cont c2 then b :: c1 :: c2 :: utf8_lossy r2
                    else REPLACEMENT ++ utf8_lossy r1
                | [] => REPLACEMENT
                end
              else REPLACEMENT ++ utf8_lossy r
          | [] => REPLACEMENT
          end
      | Lead4 lo hi =>
          match r with
          | c1 :: r1 =>
              if in_range_b lo hi c1 then
                match r1 with
                | c2 :: r2 =>
                    if cont c2 then
                      match r2 with
                      | c3 :: r3 =>
                          if cont c3 then b :: c1 :: c2 :: c3 :: utf8_lossy r3
                          else REPLACEMENT ++ utf8_lossy r2
                      | [] => REPLACEMENT
                      end
                    else REPLACEMENT ++ utf8_lossy r1
                | [] => REPLACEMENT
                end
              else REPLACEMENT ++ utf8_lossy r
          | [] => REPLACEMENT
          end
      | LeadBad => REPLACEMENT ++ utf8_lossy r
      end
  end.

(** [String::from_utf8_lossy(bs).to_string()] *)
Definition lossy_string (bs : list byte) : string := bstr (utf8_lossy bs).

(** Induction on the length: the decoder consumes one to four bytes. *)
Lemma list_len_ind (P : list byte -> Prop) :
  (forall bs, (forall r, (length r < length bs)%nat -> P r) -> P bs) -> forall bs, P bs.
Proof. apply (well_founded_induction (Wf_nat.well_founded_ltof _ length)). Qed.

Ltac utf8_cases := repeat (case_goal; cbn [length] in *; try done).

Lemma utf8_valid_replacement bs : utf8_valid (REPLACEMENT ++ bs) = utf8_valid bs.
Proof. reflexivity. Qed.

Lemma utf8_valid_ascii b r : lead_of b = Lead1 -> utf8_valid (b :: r) = utf8_valid r.
Proof. cbn. intros ->. done. Qed.

Lemma utf8_lossy_valid bs : utf8_valid (utf8_lossy bs) = true.
Proof.
  induction bs as [[|b r] IH] using list_len_ind; [done|]; cbn [utf8_lossy].
  utf8_cases; subst; rewrite ?utf8_valid_replacement;
    try (apply IH; cbn; lia);
    cbn [utf8_valid]; rewrite E; cbn [andb];
    repeat match goal with H : _ = true |- _ => rewrite H end; cbn [andb];
    apply IH; cbn; lia.
Qed.

Lemma utf8_lossy_id bs : utf8_valid bs = true -> utf8_lossy bs = bs.
Proof.
  induction bs as [[|b r] IH] using list_len_ind; [done|].
  cbn [utf8_valid utf8_lossy].
  destruct (lead_of b) as [| |lo hi|lo hi|]; try done.
  - intros H. f_equal. by apply IH; [cbn; lia|].
  - destruct r as [|c1 r]; [done|]. intros [-> H]%andb_prop.
    do 2 f_equal. by apply IH; [cbn; lia|].
  - destruct r as [|c1 [|c2 r]]; try done.
    intros [[-> ->]%andb_prop H]%andb_prop.
    do 3 f_equal. by apply IH; [cbn; lia|].
  - destruct r as [|c1 [|c2 [|c3 r]]]; try done.
    intros [[[-> ->]%andb_prop ->]%andb_prop H]%andb_prop.
    do 4 f_equal. by apply IH; [cbn; lia|].
Qed.

(** Lossy decoding is total and always yields valid UTF-8, and it is the identity exactly
    on the input that [from_utf8] accepts, so a status of [invalid_encoding]
    is reported exactly when the emitted text differs from the captured bytes. *)
Theorem lossy_identity_iff_valid bs :
  utf8_valid (utf8_lossy bs) = true /\
  (utf8_lossy bs = bs <-> utf8_valid bs = true).
Proof.
  split; [apply utf8_lossy_valid|]. split; [|apply utf8_lossy_id].
  intros E. rewrite <- E. apply utf8_lossy_valid.
Qed.

Lemma lossy_string_bytes bs : utf8_valid bs = true -> str_bytes (lossy_string bs) = bs.
Proof.
  intros H. unfold lossy_string. by rewrite str_bytes_bstr, utf8_lossy_id.
Qed.
