(* ===== verification/Event.v ===== *)
(** * BehaviorEvent (bloodhound/src/deserializer.rs, data types)

    The structured event that every path of the daemon produces, and the small
    formatting helpers the payload parsers share. *)

From S2P Require Import Prelude Layout Records Common Json Utf8.

Record ProcessRefJson : Type := mkProcessRef { pr_tgid : Z; pr_start_boottime_ns : Z }.

#[export] Instance ProcessRefJson_eq_dec : EqDecision ProcessRefJson.
Proof. solve_decision. Defined.

Record NamespaceSlotJson : Type := mkSlot { slot_status : string; slot_inode : option Z }.

(** [NamespaceSlotJson::new] *)
Definition slot_new (status inum : Z) : NamespaceSlotJson :=
  if (status =? NS_STATUS_COMPLETE) && negb (inum =? 0) then mkSlot "complete" (Some inum)
  else if status =? NS_STATUS_UNSUPPORTED then mkSlot "unsupported" None
  else mkSlot "unavailable" None.

Record NamespaceSnapshotJson : Type := mkNs {
  ns_mnt : NamespaceSlotJson; ns_net : NamespaceSlotJson; ns_uts : NamespaceSlotJson;
  ns_ipc : NamespaceSlotJson; ns_cgroup : NamespaceSlotJson; ns_user : NamespaceSlotJson;
  ns_pid : NamespaceSlotJson }.

(** [From<&NsSnapshot>]; the arrays have seven slots. *)
Definition ns_from (s : NsSnapshot.t) : NamespaceSnapshotJson :=
  let slot i := slot_new (nth i (NsSnapshot.status s) 0) (nth i (NsSnapshot.inum s) 0) in
  mkNs (slot 0%nat) (slot 1%nat) (slot 2%nat) (slot 3%nat) (slot 4%nat) (slot 5%nat)
    (slot 6%nat).

Record EventHeaderJson : Type := mkHeader {
  h_timestamp : Z; h_auid : Z; h_sessionid : Z; h_pid : Z; h_ppid : option Z;
  h_comm : string; h_process_ref : option ProcessRefJson; h_tid : option Z;
  h_ns : option NamespaceSnapshotJson }.

Record EventTypeJson : Type := mkEventType {
  ev_type : string; ev_name : string; ev_layer : string }.

Record ProcInfo : Type := mkProcInfo {
  main_executable : option string; cwd : option string; tty : option string }.

Record BehaviorEvent : Type := mkEvent {
  be_header : EventHeaderJson; be_event : EventTypeJson; be_proc : option ProcInfo;
  be_args : option json; be_return_code : option Z }.

Inductive LifecycleSeedAuthority : Type := Authoritative | NonAuthoritative.

Record DecodedBehaviorEvent : Type := mkDecoded {
  d_event : BehaviorEvent; d_authority : LifecycleSeedAuthority }.

(** The header of an event that no task produced: sentinels everywhere. *)
Definition sentinel_header (timestamp : Z) : EventHeaderJson :=
  mkHeader timestamp 0 0 0 None "" None None None.

Definition process_ref_json (tgid start_boottime_ns : Z) : json :=
  obj [("tgid", JNum tgid); ("start_boottime_ns", JNum start_boottime_ns)]%string.

(** ** Utility functions *)

(** [result.push(s)] under a condition *)
Definition push_if (c : bool) (s : string) : list string := if c then [s] else [].

(** [flags & mask != 0] *)
Definition has (flags mask : Z) : bool := negb (Z.land flags mask =? 0).

Definition comm_to_string (comm : list byte) : string := lossy_string (until_nul comm).

Definition extract_string (data : list byte) : string := lossy_string (until_nul data).

(** [slice.split(|&b| b == 0)]: the chunks between NULs, at least one. *)
Fixpoint split_nul (bs : list byte) : list (list byte) :=
  match bs with
  | [] => [[]]
  | b :: r =>
      if byte_eqb b NUL then [] :: split_nul r
      else match split_nul r with
           | [] => [[b]]
           | c :: cs => (b :: c) :: cs
           end
  end.

(** [data.strip_suffix(&[0]).unwrap_or(data)] *)
Definition strip_nul_suffix (data : list byte) : list byte :=
  match last data with
  | Some b => if byte_eqb b NUL then take (length data - 1) data else data
  | None => data
  end.

Definition extract_argv (data : list byte) : list string :=
  match data with
  | [] => []
  | _ => lossy_string <$> split_nul (strip_nul_suffix data)
  end.

(** [addr.to_be_bytes()] of a u32 *)
Definition u32_to_be_bytes (addr : Z) : list byte := reverse (le_split 4 addr).

Definition format_ipv4 (addr : Z) : string :=
  join "." ((fun b => dec_string (byte.unsigned b)) <$> u32_to_be_bytes addr).

Fixpoint hex_pairs (addr : list byte) : list string :=
  match addr with
  | a :: b :: r => (hex02 a +:+ hex02 b)%string :: hex_pairs r
  | _ => []
  end.

Definition format_ipv6 (addr : list byte) : string := join ":" (hex_pairs addr).

Definition decode_open_flags (flags : Z) : list string :=
  (let access := Z.land flags 3 in
   if access =? 0 then ["O_RDONLY"]
   else if access =? 1 then ["O_WRONLY"]
   else if access =? 2 then ["O_RDWR"]
   else []) ++
  push_if (has flags 0x40) "O_CREAT" ++
  push_if (has flags 0x80) "O_EXCL" ++
  push_if (has flags 0x200) "O_TRUNC" ++
  push_if (has flags 0x400) "O_APPEND" ++
  push_if (has flags 0x800) "O_NONBLOCK" ++
  push_if (has flags 0x1000) "O_DSYNC" ++
  push_if (Z.land flags 0x101000 =? 0x101000) "O_SYNC" ++
  push_if (has flags 0x10000) "O_DIRECTORY" ++
  push_if (has flags 0x20000) "O_NOFOLLOW" ++
  push_if (has flags 0x80000) "O_CLOEXEC".

(** [if result.is_empty() { result.push(format!("0x{:x}", v)) }] *)
Definition or_hex (v : Z) (l : list string) : list string :=
  match l with [] => [("0x" +:+ hex_string v)%string] | _ => l end.

Definition decode_mmap_prot (prot : Z) : list string :=
  if prot =? 0 then ["PROT_NONE"%string]
  else or_hex prot
    (push_if (has prot 1) "PROT_READ" ++ push_if (has prot 2) "PROT_WRITE" ++
     push_if (has prot 4) "PROT_EXEC").

Definition decode_mmap_flags (flags : Z) : list string :=
  or_hex flags
    ((let kind := Z.land flags 3 in
      if kind =? 1 then ["MAP_SHARED"]
      else if kind =? 2 then ["MAP_PRIVATE"]
      else if kind =? 3 then ["MAP_SHARED_VALIDATE"]
      else []) ++
     push_if (has flags 0x10) "MAP_FIXED" ++
     push_if (has flags 0x20) "MAP_ANONYMOUS" ++
     push_if (has flags 0x100) "MAP_GROWSDOWN" ++
     push_if (has flags 0x800) "MAP_DENYWRITE" ++
     push_if (has flags 0x1000) "MAP_EXECUTABLE" ++
     push_if (has flags 0x2000) "MAP_LOCKED" ++
     push_if (has flags 0x4000) "MAP_NORESERVE" ++
     push_if (has flags 0x8000) "MAP_POPULATE" ++
     push_if (has flags 0x10000) "MAP_NONBLOCK" ++
     push_if (has flags 0x20000) "MAP_STACK" ++
     push_if (has flags 0x40000) "MAP_HUGETLB" ++
     push_if (has flags 0x100000) "MAP_FIXED_NOREPLACE").

Definition decode_clone_flags (flags : Z) : list string :=
  or_hex flags
    (push_if (has flags 0x100) "CLONE_VM" ++
     push_if (has flags 0x200) "CLONE_FS" ++
     push_if (has flags 0x400) "CLONE_FILES" ++
     push_if (has flags 0x800) "CLONE_SIGHAND" ++
     push_if (has flags 0x10000) "CLONE_THREAD" ++
     push_if (has flags 0x20000) "CLONE_NEWNS" ++
     push_if (has flags 0x2000000) "CLONE_NEWUTS" ++
     push_if (has flags 0x4000000) "CLONE_NEWIPC" ++
     push_if (has flags 0x10000000) "CLONE_NEWUSER" ++
     push_if (has flags 0x20000000) "CLONE_NEWPID" ++
     push_if (has flags 0x40000000) "CLONE_NEWNET").

Definition fd_type_to_str (t : Z) : string :=
  if t =? FD_TYPE_REGULAR then "regular"
  else if t =? FD_TYPE_PIPE then "pipe"
  else if t =? FD_TYPE_SOCKET then "socket"
  else if t =? FD_TYPE_TTY then "tty"
  else "other".

(** ** Facts about argv framing

    The kernel side terminates every argument with a NUL. *)
Definition argv_bytes (argv : list (list byte)) : list byte :=
  flat_map (fun a => a ++ [NUL]) argv.

Lemma split_nul_app a r : NUL ∉ a -> split_nul (a ++ NUL :: r) = a :: split_nul r.
Proof.
  induction a as [|b a IH]; intros H; cbn.
  - unfold byte_eqb. by rewrite bool_decide_true.
  - apply not_elem_of_cons in H as [Hb Ha]. unfold byte_eqb.
    rewrite bool_decide_false by congruence. by rewrite IH.
Qed.

Lemma split_nul_no_nul a : NUL ∉ a -> split_nul a = [a].
Proof.
  induction a as [|b a IH]; intros H; cbn; [done|].
  apply not_elem_of_cons in H as [Hb Ha]. unfold byte_eqb.
  rewrite bool_decide_false by congruence. by rewrite IH.
Qed.

Lemma strip_nul_suffix_snoc d : strip_nul_suffix (d ++ [NUL]) = d.
Proof.
  unfold strip_nul_suffix. rewrite last_snoc. unfold byte_eqb.
  rewrite bool_decide_true by done. rewrite length_app; cbn.
  rewrite Nat.add_sub. by rewrite take_app_length.
Qed.

Lemma argv_bytes_snoc argv a : argv_bytes (argv ++ [a]) = (argv_bytes argv ++ a) ++ [NUL].
Proof. unfold argv_bytes. rewrite flat_map_app; cbn. by rewrite app_nil_r, app_assoc. Qed.

Lemma split_argv_bytes argv a :
  Forall (fun x => NUL ∉ x) argv -> NUL ∉ a ->
  split_nul (argv_bytes argv ++ a) = argv ++ [a].
Proof.
  intros Hargv Ha. induction argv as [|x argv IH]; cbn; [by apply split_nul_no_nul|].
  apply Forall_cons in Hargv as [Hx Hargv]. rewrite <- !app_assoc. cbn.
  rewrite split_nul_app by done. f_equal. by apply IH.
Qed.

Lemma split_framed_argv argv a :
  Forall (fun x => NUL ∉ x) (argv ++ [a]) ->
  split_nul (strip_nul_suffix (argv_bytes (argv ++ [a]))) = argv ++ [a].
Proof.
  intros [Hargv [Ha _]%Forall_cons]%Forall_app.
  rewrite argv_bytes_snoc, strip_nul_suffix_snoc. by apply split_argv_bytes.
Qed.

Lemma extract_argv_framed argv :
  Forall (fun x => NUL ∉ x) argv -> extract_argv (argv_bytes argv) = lossy_string <$> argv.
Proof.
  destruct argv as [|a argv] using rev_ind; intros Hn; [done|].
  pose proof (split_framed_argv argv a Hn) as Hs.
  unfold extract_argv. destruct (argv_bytes (argv ++ [a])) eqn:Eb.
  - rewrite argv_bytes_snoc in Eb. by destruct (argv_bytes argv ++ a).
  - by rewrite Hs.
Qed.

(** The argv decoder inverts the NUL framing of the record, for any
    argument vector, empty arguments included. *)
Theorem extract_argv_roundtrip argv :
  Forall (fun x => NUL ∉ x) argv ->
  Forall (fun x => utf8_valid x = true) argv ->
  str_bytes <$> extract_argv (argv_bytes argv) = argv.
Proof.
  intros Hn Hu. rewrite extract_argv_framed by done. rewrite <- list_fmap_compose.
  clear Hn. induction Hu as [|x l Hx Hl IH]; [done|].
  cbn. f_equal; [by apply lossy_string_bytes|done].
Qed.

Lemma extract_argv_roundtrip_witness :
  str_bytes <$> extract_argv (argv_bytes (str_bytes <$> ["ls"; ""; "-l"]%string))
  = str_bytes <$> ["ls"; ""; "-l"]%string.
Proof. apply extract_argv_roundtrip; apply (bool_decide_unpack _); vm_compute; exact I. Defined.
