(* ===== verification/Usdt.v ===== *)
(** * USDT payload contracts (bloodhound/src/usdt.rs, decode_payload)

    The collector-owned payload decoders that the deserializer delegates to. *)

From S2P Require Import Prelude Layout Records Common Json Utf8 Event.

(** What every payload parser returns: event type, name, layer, args and
    return code. *)
Definition parsed : Type := (string * string * string * option json * option Z)%type.

(** [payload.len() < Self::SIZE] *)
Definition too_short (A : Type) `{ReprC A} (payload : list byte) : bool :=
  (length payload <? size_of A)%nat.

(** [payload.len() != Self::SIZE] *)
Definition wrong_size (A : Type) `{ReprC A} (payload : list byte) : bool :=
  negb (length payload =? size_of A)%nat.

(** [&payload[Self::SIZE..]] *)
Definition after (A : Type) `{ReprC A} (payload : list byte) : list byte :=
  drop (size_of A) payload.

Section Usdt.
Context `{Base64}.

Inductive ReasonCode : Type :=
| Disabled | UnknownCollector | UnsupportedArchitecture | TargetBuildIdMismatch
| ProbeNotFound | AbiIncompatible | SemaphoreUnavailable | AttachFailed.

Definition reason_as_str (r : ReasonCode) : string :=
  match r with
  | Disabled => "disabled"
  | UnknownCollector => "unknown_collector"
  | UnsupportedArchitecture => "unsupported_architecture"
  | TargetBuildIdMismatch => "target_build_id_mismatch"
  | ProbeNotFound => "probe_not_found"
  | AbiIncompatible => "abi_incompatible"
  | SemaphoreUnavailable => "semaphore_unavailable"
  | AttachFailed => "attach_failed"
  end.

Definition TRAINING_SHELL_V3_ID : string := "training-shell-v3".
Definition TRAINING_SHELL_COMMAND_NAME_LIMIT : Z := 64.

Definition decode_training_shell_capture_error (payload : list byte) : result parsed :=
  _ ← bail_if (wrong_size UsdtTrainingShellCaptureErrorPayload.t payload)
        "USDT training-shell capture-error payload has an invalid size";
  let fixed : UsdtTrainingShellCaptureErrorPayload.t := read_unaligned payload in
  field ← (if UsdtTrainingShellCaptureErrorPayload.field_id fixed =? 3
           then Ok "command_name"%string
           else Err "USDT training-shell capture-error field is unknown");
  read_error_code ←
    (if UsdtTrainingShellCaptureErrorPayload.read_error_code fixed =? 1
     then Ok "unreadable_user_memory"%string
     else Err "USDT training-shell capture-error reason is unknown");
  Ok ("DIAGNOSTIC", "usdt.collector", "behavior",
      Some (obj [("collector_id", JStr TRAINING_SHELL_V3_ID);
                 ("reason_code", JStr (reason_as_str AbiIncompatible));
                 ("attach_point_id",
                   JNum (UsdtTrainingShellCaptureErrorPayload.attach_point_id fixed));
                 ("argument", JStr field);
                 ("read_error_code", JStr read_error_code)]), None)%string.

Definition decode_training_shell_payload (payload : list byte) : result parsed :=
  _ ← bail_if (too_short UsdtTrainingShellPayload.t payload)
        "USDT training-shell payload too short";
  let fixed : UsdtTrainingShellPayload.t := read_unaligned payload in
  let command_name_len := UsdtTrainingShellPayload.command_name_len fixed in
  _ ← bail_if (TRAINING_SHELL_COMMAND_NAME_LIMIT <? command_name_len)
        "USDT command-name exceeds its compiled capture limit";
  _ ← bail_if (1 <? UsdtTrainingShellPayload.command_name_truncated fixed)
        "USDT command-name truncation flag is invalid";
  let name_end := Z.of_nat (size_of UsdtTrainingShellPayload.t) + command_name_len in
  _ ← bail_if (negb (len payload =? name_end))
        "USDT training-shell payload has invalid length";
  let command_name := after UsdtTrainingShellPayload.t payload in
  _ ← bail_if (negb (utf8_valid command_name)) "USDT command-name is not UTF-8";
  let command_kind :=
    match UsdtTrainingShellPayload.command_kind fixed with
    | 0 => "builtin" | 1 => "external" | 2 => "function" | _ => "other"
    end%string in
  let flags :=
    push_if (has (UsdtTrainingShellPayload.semantic_flags fixed) 1) "SELF_PID_EXPANDED" in
  let truncated :=
    JBool (negb (UsdtTrainingShellPayload.command_name_truncated fixed =? 0)) in
  Ok ("USDT", "abyss0_shell.simple_command_completed", "behavior",
      Some (obj [("attach_point_id", JNum (UsdtTrainingShellPayload.attach_point_id fixed));
                 ("shell_pid", JNum (UsdtTrainingShellPayload.shell_pid fixed));
                 ("command_id", JNum (UsdtTrainingShellPayload.command_id fixed));
                 ("command_kind", JStr command_kind);
                 ("command_name",
                   obj [("value", JStr (bstr command_name));
                        ("capture_limit", JNum TRAINING_SHELL_COMMAND_NAME_LIMIT);
                        ("truncated", truncated)]);
                 ("command_name_bytes",
                   obj [("base64", JStr (b64_encode command_name));
                        ("capture_limit", JNum TRAINING_SHELL_COMMAND_NAME_LIMIT);
                        ("observed_length", JNum command_name_len);
                        ("truncated", truncated)]);
                 ("semantic_flags", strs flags);
                 ("exit_status", JNum (UsdtTrainingShellPayload.exit_status fixed))]),
      None)%string.

Definition decode_training_peer_payload (payload : list byte) : result parsed :=
  _ ← bail_if (wrong_size UsdtTrainingPeerPayload.t payload)
        "USDT training-peer payload has invalid length";
  let fixed : UsdtTrainingPeerPayload.t := read_unaligned payload in
  let res := match UsdtTrainingPeerPayload.result fixed with
             | 0 => "ok" | 1 => "failed" | _ => "other"
             end%string in
  Ok ("USDT", "abyss0_peer.task_finished", "behavior",
      Some (obj [("attach_point_id", JNum (UsdtTrainingPeerPayload.attach_point_id fixed));
                 ("task_id", JNum (UsdtTrainingPeerPayload.task_id fixed));
                 ("result", JStr res)]), None)%string.

Definition decode_payload (kind : EventKind.t) (payload : list byte) : result parsed :=
  match kind with
  | EventKind.UsdtTrainingShellV3 => decode_training_shell_payload payload
  | EventKind.UsdtTrainingPeerV1 => decode_training_peer_payload payload
  | EventKind.UsdtTrainingShellV3CaptureError => decode_training_shell_capture_error payload
  | _ => Err "not a registered USDT event kind"
  end.
End Usdt.
