(* ===== verification/Deserializer.v ===== *)
(** * The deserializer (bloodhound/src/deserializer.rs)

    Every payload parser, the header conversion and the dispatch on the event
    kind.  A parser gets the bytes after the header and returns the event
    type, name, layer, arguments and return code, or the error that makes the
    sequencer report the record as rejected. *)

From S2P Require Import Prelude Layout Records Common Json Utf8 Event Usdt.

Local Open Scope string_scope.
Local Open Scope Z_scope.

Section Deserializer.
Context `{Base64}.

(** [&data[..n]] for [n <= data.len()], and [&data[a..a + n]] *)
Definition prefix (n : Z) (data : list byte) : list byte := take (Z.to_nat n) data.
Definition slice (a n : Z) (data : list byte) : list byte :=
  take (Z.to_nat n) (drop (Z.to_nat a) data).

Definition status_name (s : CaptureStatus.t) : string :=
  match s with
  | CaptureStatus.Complete => "complete"
  | CaptureStatus.Truncated => "truncated"
  | CaptureStatus.ReadError => "read_error"
  end.

(** ** Layer 1 *)

Definition tty_status (capture : HeaderCapture.t) (declared_len var_len : Z) : result string :=
  match HeaderCapture.version capture with
  | 0 => Ok "unknown"
  | 1 =>
      _ ← bail_if (negb (HeaderCapture.secondary capture =? 0))
            "TTY capture secondary must be zero";
      _ ← bail_if (negb (declared_len =? var_len) || (MAX_TTY_DATA - 1 <? declared_len))
            "TTY capture length does not match bounded record";
      status ← with_context (CaptureStatus.try_from (HeaderCapture.primary capture))
                 "invalid TTY capture status";
      match status with
      | CaptureStatus.Complete =>
          _ ← bail_if (declared_len =? 0) "Complete TTY capture must be nonempty";
          Ok "complete"
      | CaptureStatus.Truncated =>
          _ ← bail_if (negb (declared_len =? MAX_TTY_DATA - 1))
                "Truncated TTY capture must contain the bounded prefix";
          Ok "truncated"
      | CaptureStatus.ReadError =>
          _ ← bail_if (negb (declared_len =? 0)) "Failed TTY capture must be empty";
          Ok "read_error"
      end
  | v => Err ("Unsupported TTY capture version: " +:+ dec_string v)
  end.

Definition parse_tty (payload : list byte) (name : string) (capture : HeaderCapture.t)
    : result parsed :=
  _ ← bail_if (too_short TtyPayload.t payload) "TTY payload too short";
  let tty : TtyPayload.t := read_unaligned payload in
  let var_data := after TtyPayload.t payload in
  let declared_len := TtyPayload.data_len tty in
  status ← tty_status capture declared_len (len var_data);
  let raw_data := prefix (Z.min declared_len (len var_data)) var_data in
  Ok ("TTY", name, "intent",
      Some (obj [("data", JStr (b64_encode raw_data));
                 ("tty_capture_version", JNum (HeaderCapture.version capture));
                 ("data_status", JStr status)]), None).

(** ** Layer 2 *)

(** The status pair of a version 1 exec record. *)
Definition exec_statuses (capture : HeaderCapture.t) (filename_len argv_len var_len : Z)
    (filename_data argv_data : list byte) : result (string * string) :=
  if HeaderCapture.version capture =? 1 then
    _ ← bail_if (negb (filename_len + argv_len =? var_len))
          "Exec capture lengths do not match record";
    argv_status ← with_context (status_name <$> CaptureStatus.try_from (HeaderCapture.primary capture))
                    "invalid argv capture status";
    filename_status ←
      with_context (status_name <$> CaptureStatus.try_from (HeaderCapture.secondary capture))
        "invalid filename capture status";
    _ ← bail_if ((0 <? len argv_data) && negb (bool_decide (last argv_data = Some NUL)))
          "Exec argv lacks final separator";
    let argv_status :=
      if negb (utf8_valid argv_data) && bool_decide (argv_status = "complete")
      then "invalid_encoding" else argv_status in
    let filename_status :=
      if negb (utf8_valid filename_data) && bool_decide (filename_status = "complete")
      then "invalid_encoding" else filename_status in
    Ok (argv_status, filename_status)
  else Ok ("unknown", "unknown").

Definition parse_execve (payload : list byte) (name : string) (capture : HeaderCapture.t)
    : result parsed :=
  _ ← bail_if (too_short ExecvePayload.t payload) "Execve payload too short";
  let execve : ExecvePayload.t := read_unaligned payload in
  let var_data := after ExecvePayload.t payload in
  let filename_len := Z.min (ExecvePayload.filename_len execve) (len var_data) in
  let filename_data := prefix filename_len var_data in
  let argv_start := filename_len in
  let argv_len :=
    Z.min (ExecvePayload.argv_len execve) (saturating_sub (len var_data) argv_start) in
  let argv_data := slice argv_start argv_len var_data in
  statuses ← exec_statuses capture (ExecvePayload.filename_len execve)
               (ExecvePayload.argv_len execve) (len var_data) filename_data argv_data;
  Ok ("TRACEPOINT", name, "tooling",
      Some (obj [("filename", JStr (extract_string filename_data));
                 ("argv", strs (extract_argv argv_data));
                 ("exec_capture_version", JNum (HeaderCapture.version capture));
                 ("argv_status", JStr statuses.1);
                 ("filename_status", JStr statuses.2)]),
      Some (ExecvePayload.return_code execve)).

Definition parse_exec_view (payload : list byte) : result parsed :=
  _ ← bail_if (wrong_size ExecViewPayload.t payload) "invalid exec view payload length";
  let view : ExecViewPayload.t := read_unaligned payload in
  let version := ExecViewPayload.version view in
  let vstatus := ExecViewPayload.status view in
  let root_inode := ExecViewPayload.root_inode view in
  let root_dev := ExecViewPayload.root_dev view in
  let mount_namespace := ExecViewPayload.mount_namespace view in
  let root_mount_id := ExecViewPayload.root_mount_id view in
  status ← (if negb (version =? 1) then Ok "unknown"
            else match vstatus with
                 | 0 => Ok "unsupported"
                 | 1 => Ok "complete"
                 | 2 => Ok "unavailable"
                 | 3 => Ok "changed"
                 | _ => Err "invalid exec view status"
                 end);
  _ ← bail_if ((version =? 1) &&
               (((vstatus =? 1) && ((mount_namespace =? 0) || (root_mount_id =? 0))) ||
                (negb (vstatus =? 1) &&
                 (negb (root_inode =? 0) || negb (root_dev =? 0) ||
                  negb (mount_namespace =? 0) || negb (root_mount_id =? 0)))))
        "inconsistent exec view fields";
  let args := obj [("view_capture_version", JNum version); ("view_status", JStr status)] in
  let args :=
    if bool_decide (status = "complete") then
      json_insert "root_mount_id" (JNum root_mount_id)
        (json_insert "mount_namespace" (JNum mount_namespace)
          (json_insert "root_dev_minor" (JNum (Z.land root_dev 0xfffff))
            (json_insert "root_dev_major" (JNum (Z.shiftr root_dev 20))
              (json_insert "root_dev" (JNum root_dev)
                (json_insert "root_inode" (JNum root_inode) args)))))
    else args in
  Ok ("TRACEPOINT", "exec_view", "behavior", Some args, None).

(** ** Layer 3 *)

Definition parse_raw_syscall (payload : list byte) : result parsed :=
  _ ← bail_if (too_short RawSyscallPayload.t payload) "Raw syscall payload too short";
  let raw : RawSyscallPayload.t := read_unaligned payload in
  Ok ("SYSCALL", dec_string (RawSyscallPayload.syscall_nr raw), "behavior",
      Some (obj [("syscall_nr", JNum (RawSyscallPayload.syscall_nr raw));
                 ("raw_args", JArr (JNum <$> RawSyscallPayload.args raw))]),
      Some (RawSyscallPayload.return_code raw)).

(** The version 1 metadata check of an openat record. *)
Definition openat_metadata_invalid (openat : OpenatPayload.t) (var_len : Z) : bool :=
  let identity_mask := Z.lor DEV_VALID INO_VALID in
  let path_mask := Z.lor PATH_COMPLETE PATH_READ_FAILED in
  let flags := OpenatPayload.capture_flags openat in
  let valid := Z.land flags identity_mask in
  let path := Z.land flags path_mask in
  negb (Z.land flags (wrap 8 (Z.lnot (Z.lor identity_mask path_mask))) =? 0)
  || (path =? path_mask)
  || ((OpenatPayload.return_code openat <? 0) && negb (valid =? 0))
  || (var_len <? OpenatPayload.filename_len openat).

Definition openat_v1_args (openat : OpenatPayload.t) (filename_data : list byte) (args : json)
    : json :=
  let identity_mask := Z.lor DEV_VALID INO_VALID in
  let path_mask := Z.lor PATH_COMPLETE PATH_READ_FAILED in
  let flags := OpenatPayload.capture_flags openat in
  let valid := Z.land flags identity_mask in
  let path := Z.land flags path_mask in
  let dev := OpenatPayload.dev openat in
  let filename_status :=
    if (path =? PATH_COMPLETE) && negb (utf8_valid filename_data) then "invalid_encoding"
    else if path =? PATH_COMPLETE then "complete"
    else if path =? PATH_READ_FAILED then "read_error"
    else "truncated" in
  let identity_status :=
    if OpenatPayload.return_code openat <? 0 then "not_attempted"
    else if valid =? identity_mask then "complete"
    else if valid =? 0 then "unavailable"
    else "partial" in
  let args := json_insert "capture_version" (JNum 1) args in
  let args := json_insert "dirfd" (JNum (OpenatPayload.dirfd openat)) args in
  let args := json_insert "filename_status" (JStr filename_status) args in
  let args := json_insert "file_identity_status" (JStr identity_status) args in
  let args :=
    if has valid DEV_VALID then
      json_insert "dev_minor" (JNum (Z.land dev (Z.shiftl 1 20 - 1)))
        (json_insert "dev_major" (JNum (Z.shiftr dev 20))
          (json_insert "dev" (JNum dev) args))
    else args in
  if has valid INO_VALID then json_insert "ino" (JNum (OpenatPayload.ino openat)) args
  else args.

Definition parse_openat (payload : list byte) : result parsed :=
  _ ← bail_if (too_short OpenatPayload.t payload) "Openat payload too short";
  let openat : OpenatPayload.t := read_unaligned payload in
  let var_data := after OpenatPayload.t payload in
  let filename_len := Z.min (OpenatPayload.filename_len openat) (len var_data) in
  let filename_data := prefix filename_len var_data in
  let args :=
    obj [("filename", JStr (extract_string filename_data));
         ("flags", strs (decode_open_flags (OpenatPayload.flags openat)));
         ("mode", JNum (OpenatPayload.mode openat));
         ("file_identity_status", JStr "unknown");
         ("filename_status", JStr "unknown")] in
  args ←
    (if OpenatPayload.capture_version openat =? 1 then
       _ ← bail_if (openat_metadata_invalid openat (len var_data))
             "Invalid openat capture metadata";
       Ok (openat_v1_args openat filename_data args)
     else if negb (OpenatPayload.dev openat =? 0) || negb (OpenatPayload.ino openat =? 0) then
       Ok (json_insert "ino" (JNum (OpenatPayload.ino openat))
             (json_insert "dev" (JNum (OpenatPayload.dev openat)) args))
     else Ok args);
  Ok ("TRACEPOINT", "openat", "behavior", Some args, Some (OpenatPayload.return_code openat)).

Definition parse_read_write (payload : list byte) (name : string) : result parsed :=
  _ ← bail_if (too_short ReadWritePayload.t payload) "ReadWrite payload too short";
  let rw : ReadWritePayload.t := read_unaligned payload in
  Ok ("TRACEPOINT", name, "behavior",
      Some (obj [("fd", JNum (ReadWritePayload.fd rw));
                 ("fd_type", JStr (fd_type_to_str (ReadWritePayload.fd_type rw)));
                 ("requested_size", JNum (ReadWritePayload.requested_size rw))]),
      Some (ReadWritePayload.return_code rw)).

(** The address text of a socket event: AF_INET is 2, AF_INET6 is 10. *)
Definition format_addr (family addr_v4 : Z) (addr_v6 : list byte) : string :=
  if family =? 2 then format_ipv4 addr_v4
  else if family =? 10 then format_ipv6 addr_v6
  else "".

Definition parse_connect_bind (payload : list byte) (name : string) : result parsed :=
  _ ← bail_if (too_short ConnectBindPayload.t payload) "ConnectBind payload too short";
  let cb : ConnectBindPayload.t := read_unaligned payload in
  let addr := format_addr (ConnectBindPayload.family cb) (ConnectBindPayload.addr_v4 cb)
                (ConnectBindPayload.addr_v6 cb) in
  Ok ("TRACEPOINT", name, "behavior",
      Some (obj [("family", JNum (ConnectBindPayload.family cb));
                 ("port", JNum (ConnectBindPayload.port cb)); ("addr", JStr addr)]),
      Some (ConnectBindPayload.return_code cb)).

Definition parse_listen (payload : list byte) : result parsed :=
  _ ← bail_if (too_short ListenPayload.t payload) "Listen payload too short";
  let listen : ListenPayload.t := read_unaligned payload in
  Ok ("TRACEPOINT", "listen", "behavior",
      Some (obj [("fd", JNum (ListenPayload.fd listen));
                 ("backlog", JNum (ListenPayload.backlog listen))]),
      Some (ListenPayload.return_code listen)).

Definition parse_socket (payload : list byte) : result parsed :=
  _ ← bail_if (too_short SocketPayload.t payload) "Socket payload too short";
  let sock : SocketPayload.t := read_unaligned payload in
  Ok ("TRACEPOINT", "socket", "behavior",
      Some (obj [("domain", JNum (SocketPayload.domain sock));
                 ("type", JNum (SocketPayload.sock_type sock));
                 ("protocol", JNum (SocketPayload.protocol sock))]),
      Some (SocketPayload.return_code sock)).

Definition parse_clone (payload : list byte) (name : string) : result parsed :=
  _ ← bail_if (too_short ClonePayload.t payload) "Clone payload too short";
  let clone : ClonePayload.t := read_unaligned payload in
  Ok ("TRACEPOINT", name, "behavior",
      Some (obj [("flags", strs (decode_clone_flags (ClonePayload.flags clone)))]),
      Some (ClonePayload.return_code clone)).

(** ** Process lifecycle *)

Definition parse_process_start (payload : list byte) : result parsed :=
  _ ← bail_if (negb (length payload =? 0)%nat) "process_start payload must be empty";
  Ok ("LIFECYCLE", "process_start", "behavior", None, None).

(** Insert a process reference only when both of its parts are known. *)
Definition insert_ref (key : string) (tgid start : Z) (args : json) : json :=
  if negb (tgid =? 0) && negb (start =? 0)
  then json_insert key (process_ref_json tgid start) args else args.

Definition parse_process_fork (payload : list byte) : result parsed :=
  _ ← bail_if (too_short ProcessForkPayload.t payload) "process_fork payload too short";
  let p : ProcessForkPayload.t := read_unaligned payload in
  let args :=
    json_insert "clone_flags"
      (strs (decode_clone_flags (ProcessForkPayload.clone_flags p)))
      (insert_ref "child_ref" (ProcessForkPayload.child_tgid p)
         (ProcessForkPayload.child_start_boottime_ns p)
        (insert_ref "parent_ref" (ProcessForkPayload.parent_tgid p)
           (ProcessForkPayload.parent_start_boottime_ns p) (obj []))) in
  Ok ("LIFECYCLE", "process_fork", "behavior", Some args, None).

Definition parse_process_exit (payload : list byte) : result parsed :=
  _ ← bail_if (too_short ProcessExitPayload.t payload) "process_exit payload too short";
  let p : ProcessExitPayload.t := read_unaligned payload in
  let raw_status := ProcessExitPayload.raw_status p in
  let signal := Z.land raw_status 0x7f in
  let args :=
    if signal =? 0 then
      obj [("exit_kind", JStr "code");
           ("exit_code", JNum (Z.land (Z.shiftr raw_status 8) 0xff));
           ("raw_status", JNum raw_status)]
    else
      obj [("exit_kind", JStr "signal"); ("signal", JNum signal);
           ("core_dumped", JBool (has raw_status 0x80));
           ("raw_status", JNum raw_status)] in
  Ok ("LIFECYCLE", "process_exit", "behavior", Some args, None).

(** ** Path events *)

Definition path_capture_status (version code : Z) (data : list byte) : result string :=
  if negb (version =? 1) then Ok "unknown"
  else
    status ← with_context (CaptureStatus.try_from code) "invalid path capture status";
    match status with
    | CaptureStatus.Complete =>
        Ok (if negb (utf8_valid data) then "invalid_encoding" else "complete")
    | CaptureStatus.Truncated => Ok "truncated"
    | CaptureStatus.ReadError => Ok "read_error"
    end.

Definition parse_path_event (payload : list byte) (name : string) (capture : HeaderCapture.t)
    : result parsed :=
  _ ← bail_if (too_short PathPayload.t payload) "Path payload too short";
  let path : PathPayload.t := read_unaligned payload in
  let var_data := after PathPayload.t payload in
  let version := HeaderCapture.version capture in
  _ ← bail_if ((version =? 1) && negb (HeaderCapture.secondary capture =? 0))
        "Single-path capture secondary must be zero";
  _ ← bail_if ((version =? 1) && negb (PathPayload.path_len path =? len var_data))
        "Path capture length does not match record";
  let path_data := prefix (Z.min (PathPayload.path_len path) (len var_data)) var_data in
  path_status ← path_capture_status version (HeaderCapture.primary capture) path_data;
  Ok ("TRACEPOINT", name, "behavior",
      Some (obj [("filename", JStr (extract_string path_data));
                 ("path_capture_version", JNum version);
                 ("path_status", JStr path_status)]),
      Some (PathPayload.return_code path)).

Definition parse_fd_event (payload : list byte) (name : string) : result parsed :=
  _ ← bail_if (too_short FdPayload.t payload) "Fd payload too short";
  let fd : FdPayload.t := read_unaligned payload in
  Ok ("TRACEPOINT", name, "behavior", Some (obj [("fd", JNum (FdPayload.fd fd))]),
      Some (FdPayload.return_code fd)).

Definition parse_two_path_event (payload : list byte) (name : string)
    (capture : HeaderCapture.t) : result parsed :=
  _ ← bail_if (too_short TwoPathPayload.t payload) "TwoPath payload too short";
  let tp : TwoPathPayload.t := read_unaligned payload in
  let var_data := after TwoPathPayload.t payload in
  let version := HeaderCapture.version capture in
  _ ← bail_if ((version =? 1) &&
               negb (TwoPathPayload.path1_len tp + TwoPathPayload.path2_len tp
                     =? len var_data))
        "Two-path capture lengths do not match record";
  let p1_len := Z.min (TwoPathPayload.path1_len tp) (len var_data) in
  let path1 := prefix p1_len var_data in
  let p2_len := Z.min (TwoPathPayload.path2_len tp) (saturating_sub (len var_data) p1_len) in
  let path2 := slice p1_len p2_len var_data in
  path1_status ← path_capture_status version (HeaderCapture.primary capture) path1;
  path2_status ← path_capture_status version (HeaderCapture.secondary capture) path2;
  Ok ("TRACEPOINT", name, "behavior",
      Some (obj [("oldpath", JStr (extract_string path1));
                 ("newpath", JStr (extract_string path2));
                 ("path_capture_version", JNum version);
                 ("path1_status", JStr path1_status);
                 ("path2_status", JStr path2_status)]),
      Some (TwoPathPayload.return_code tp)).

(** ** Sockets, descriptors and memory *)

Definition parse_sendto_recvfrom (payload : list byte) (name : string) : result parsed :=
  _ ← bail_if (too_short SendtoRecvfromPayload.t payload) "SendtoRecvfrom payload too short";
  let sr : SendtoRecvfromPayload.t := read_unaligned payload in
  let addr := format_addr (SendtoRecvfromPayload.family sr) (SendtoRecvfromPayload.addr_v4 sr)
                (SendtoRecvfromPayload.addr_v6 sr) in
  Ok ("TRACEPOINT", name, "behavior",
      Some (obj [("fd", JNum (SendtoRecvfromPayload.fd sr));
                 ("family", JNum (SendtoRecvfromPayload.family sr));
                 ("port", JNum (SendtoRecvfromPayload.port sr)); ("addr", JStr addr);
                 ("size", JNum (SendtoRecvfromPayload.size sr))]),
      Some (SendtoRecvfromPayload.return_code sr)).

Definition parse_dup (payload : list byte) (name : string) : result parsed :=
  _ ← bail_if (too_short DupPayload.t payload) "Dup payload too short";
  let d : DupPayload.t := read_unaligned payload in
  Ok ("TRACEPOINT", name, "behavior",
      Some (obj [("oldfd", JNum (DupPayload.oldfd d)); ("newfd", JNum (DupPayload.newfd d));
                 ("cloexec", JBool (negb (DupPayload.cloexec d =? 0)))]),
      Some (DupPayload.return_code d)).

Definition parse_pread_pwrite (payload : list byte) (name : string) : result parsed :=
  _ ← bail_if (too_short PreadPwritePayload.t payload) "PreadPwrite payload too short";
  let p : PreadPwritePayload.t := read_unaligned payload in
  Ok ("TRACEPOINT", name, "behavior",
      Some (obj [("fd", JNum (PreadPwritePayload.fd p));
                 ("fd_type", JStr (fd_type_to_str (PreadPwritePayload.fd_type p)));
                 ("size", JNum (PreadPwritePayload.requested_size p));
                 ("offset", JNum (PreadPwritePayload.offset p))]),
      Some (PreadPwritePayload.return_code p)).

Definition parse_readv_writev (payload : list byte) (name : string) : result parsed :=
  _ ← bail_if (too_short ReadvWritevPayload.t payload) "ReadvWritev payload too short";
  let p : ReadvWritevPayload.t := read_unaligned payload in
  Ok ("TRACEPOINT", name, "behavior",
      Some (obj [("fd", JNum (ReadvWritevPayload.fd p));
                 ("fd_type", JStr (fd_type_to_str (ReadvWritevPayload.fd_type p)));
                 ("size", JNum (ReadvWritevPayload.requested_size p));
                 ("iov_count", JNum (ReadvWritevPayload.iov_count p));
                 ("iov_truncated", JBool (negb (ReadvWritevPayload.iov_truncated p =? 0)))]),
      Some (ReadvWritevPayload.return_code p)).

Definition parse_mmap (payload : list byte) : result parsed :=
  _ ← bail_if (too_short MmapPayload.t payload) "Mmap payload too short";
  let p : MmapPayload.t := read_unaligned payload in
  let args :=
    obj [("fd", JNum (MmapPayload.fd p));
         ("prot", strs (decode_mmap_prot (MmapPayload.prot p)));
         ("flags", strs (decode_mmap_flags (MmapPayload.flags p)));
         ("length", JNum (MmapPayload.length p)); ("offset", JNum (MmapPayload.offset p))] in
  let args :=
    if negb (MmapPayload.dev p =? 0) || negb (MmapPayload.ino p =? 0) then
      json_insert "ino" (JNum (MmapPayload.ino p))
        (json_insert "dev" (JNum (MmapPayload.dev p)) args)
    else args in
  Ok ("TRACEPOINT", "mmap", "behavior", Some args, Some (MmapPayload.return_code p)).

Definition parse_sendfile_splice (payload : list byte) (name : string) : result parsed :=
  _ ← bail_if (too_short SendfileSplicePayload.t payload) "SendfileSplice payload too short";
  let p : SendfileSplicePayload.t := read_unaligned payload in
  Ok ("TRACEPOINT", name, "behavior",
      Some (obj [("in_fd", JNum (SendfileSplicePayload.in_fd p));
                 ("out_fd", JNum (SendfileSplicePayload.out_fd p));
                 ("in_fd_type", JStr (fd_type_to_str (SendfileSplicePayload.in_fd_type p)));
                 ("out_fd_type", JStr (fd_type_to_str (SendfileSplicePayload.out_fd_type p)));
                 ("size", JNum (SendfileSplicePayload.size p))]),
      Some (SendfileSplicePayload.return_code p)).

(** ** LSM hooks and signals *)

Definition parse_lsm_simple (payload : list byte) (name : string) : result parsed :=
  let return_code :=
    if (8 <=? length payload)%nat then
      let p : LsmFileOpenPayload.t := read_unaligned payload in
      Some (LsmFileOpenPayload.return_code p)
    else None in
  Ok ("LSM", name, "behavior", None, return_code).

Definition parse_lsm_task_kill (payload : list byte) : result parsed :=
  _ ← bail_if (too_short LsmTaskKillPayload.t payload) "LSM task_kill payload too short";
  let tk : LsmTaskKillPayload.t := read_unaligned payload in
  let args :=
    insert_ref "target_ref" (LsmTaskKillPayload.target_pid tk)
      (LsmTaskKillPayload.target_start_boottime_ns tk)
      (obj [("target_pid", JNum (LsmTaskKillPayload.target_pid tk));
            ("signal", JNum (LsmTaskKillPayload.signal tk))]) in
  Ok ("LSM", "task_kill", "behavior", Some args, Some (LsmTaskKillPayload.return_code tk)).

Definition signal_result_name (r : Z) : string :=
  if r =? SIGNAL_RESULT_DELIVERED then "delivered"
  else if r =? SIGNAL_RESULT_IGNORED then "ignored"
  else if r =? SIGNAL_RESULT_ALREADY_PENDING then "already_pending"
  else if r =? SIGNAL_RESULT_OVERFLOW_FAIL then "overflow_fail"
  else if r =? SIGNAL_RESULT_LOSE_INFO then "lose_info"
  else "unknown".

Definition parse_signal_generate (payload : list byte) : result parsed :=
  _ ← bail_if (too_short SignalGeneratePayload.t payload) "signal_generate payload too short";
  let g : SignalGeneratePayload.t := read_unaligned payload in
  let args :=
    insert_ref "target_ref" (SignalGeneratePayload.target_tgid g)
      (SignalGeneratePayload.target_start_boottime_ns g)
      (obj [("target_pid", JNum (SignalGeneratePayload.target_tgid g));
            ("signal", JNum (SignalGeneratePayload.signal g));
            ("group", JBool (negb (SignalGeneratePayload.group g =? 0)));
            ("result", JStr (signal_result_name (SignalGeneratePayload.result g)));
            ("result_code", JNum (SignalGeneratePayload.result g))]) in
  Ok ("TRACEPOINT", "signal_generate", "behavior", Some args, None).

Definition parse_lsm_bpf (payload : list byte) : result parsed :=
  _ ← bail_if (too_short LsmBpfPayload.t payload) "LSM bpf payload too short";
  let bpf : LsmBpfPayload.t := read_unaligned payload in
  Ok ("LSM", "bpf", "behavior", Some (obj [("cmd", JNum (LsmBpfPayload.cmd bpf))]),
      Some (LsmBpfPayload.return_code bpf)).

Definition parse_lsm_ptrace (payload : list byte) : result parsed :=
  _ ← bail_if (too_short LsmPtracePayload.t payload) "LSM ptrace payload too short";
  let pt : LsmPtracePayload.t := read_unaligned payload in
  Ok ("LSM", "ptrace_access_check", "behavior",
      Some (obj [("target_pid", JNum (LsmPtracePayload.target_pid pt))]),
      Some (LsmPtracePayload.return_code pt)).

Definition parse_lsm_setuid (payload : list byte) : result parsed :=
  _ ← bail_if (too_short LsmSetuidPayload.t payload) "LSM setuid payload too short";
  let su : LsmSetuidPayload.t := read_unaligned payload in
  Ok ("LSM", "task_fix_setuid", "behavior",
      Some (obj [("old_uid", JNum (LsmSetuidPayload.old_uid su));
                 ("new_uid", JNum (LsmSetuidPayload.new_uid su));
                 ("old_gid", JNum (LsmSetuidPayload.old_gid su));
                 ("new_gid", JNum (LsmSetuidPayload.new_gid su))]),
      Some (LsmSetuidPayload.return_code su)).

(** ** Dispatch *)

(** The header part of [deserialize_process_event]. *)
Definition header_json (h : EventHeader.t) : EventHeaderJson :=
  let pid := EventHeader.pid h in
  let start := EventHeader.process_start_boottime_ns h in
  let tid := EventHeader.tid h in
  mkHeader (EventHeader.timestamp_ns h) (EventHeader.auid h) (EventHeader.sessionid h) pid
    (if negb (EventHeader.ppid h =? 0) then Some (EventHeader.ppid h) else None)
    (comm_to_string (EventHeader.comm h))
    (if negb (pid =? 0) && negb (start =? 0) then Some (mkProcessRef pid start) else None)
    (if negb (tid =? 0) then Some tid else None)
    (if negb (tid =? 0) then Some (ns_from (EventHeader.ns h)) else None).

(** The [match kind] of [deserialize_process_event]. *)
Definition parse_kind (kind : EventKind.t) (payload : list byte) (capture : HeaderCapture.t)
    : result parsed :=
  match kind with
  | EventKind.TtyRead => parse_tty payload "tty_read" capture
  | EventKind.TtyWrite => parse_tty payload "tty_write" capture
  | EventKind.UsdtTrainingShellV3 | EventKind.UsdtTrainingPeerV1
  | EventKind.UsdtTrainingShellV3CaptureError => decode_payload kind payload
  | EventKind.ExecView => parse_exec_view payload
  | EventKind.Execve => parse_execve payload "execve" capture
  | EventKind.Execveat => parse_execve payload "execveat" capture
  | EventKind.RawSyscall => parse_raw_syscall payload
  | EventKind.Openat => parse_openat payload
  | EventKind.Read => parse_read_write payload "read"
  | EventKind.Write => parse_read_write payload "write"
  | EventKind.Connect => parse_connect_bind payload "connect"
  | EventKind.Bind => parse_connect_bind payload "bind"
  | EventKind.Listen => parse_listen payload
  | EventKind.Socket => parse_socket payload
  | EventKind.Clone => parse_clone payload "clone"
  | EventKind.Clone3 => parse_clone payload "clone3"
  | EventKind.Chdir => parse_path_event payload "chdir" capture
  | EventKind.Fchdir => parse_fd_event payload "fchdir"
  | EventKind.Unlink => parse_path_event payload "unlink" capture
  | EventKind.Unlinkat => parse_path_event payload "unlinkat" capture
  | EventKind.Rename => parse_two_path_event payload "rename" capture
  | EventKind.Renameat2 => parse_two_path_event payload "renameat2" capture
  | EventKind.Mkdir => parse_path_event payload "mkdir" capture
  | EventKind.Mkdirat => parse_path_event payload "mkdirat" capture
  | EventKind.Rmdir => parse_path_event payload "rmdir" capture
  | EventKind.Symlink => parse_two_path_event payload "symlink" capture
  | EventKind.Symlinkat => parse_two_path_event payload "symlinkat" capture
  | EventKind.Link => parse_two_path_event payload "link" capture
  | EventKind.Linkat => parse_two_path_event payload "linkat" capture
  | EventKind.Chmod => parse_path_event payload "chmod" capture
  | EventKind.Fchmod => parse_fd_event payload "fchmod"
  | EventKind.Fchmodat => parse_path_event payload "fchmodat" capture
  | EventKind.Chown => parse_path_event payload "chown" capture
  | EventKind.Fchown => parse_fd_event payload "fchown"
  | EventKind.Fchownat => parse_path_event payload "fchownat" capture
  | EventKind.Truncate => parse_path_event payload "truncate" capture
  | EventKind.Ftruncate => parse_fd_event payload "ftruncate"
  | EventKind.Mount => parse_two_path_event payload "mount" capture
  | EventKind.Umount2 => parse_path_event payload "umount2" capture
  | EventKind.Sendto => parse_sendto_recvfrom payload "sendto"
  | EventKind.Recvfrom => parse_sendto_recvfrom payload "recvfrom"
  | EventKind.Dup => parse_dup payload "dup"
  | EventKind.Dup2 => parse_dup payload "dup2"
  | EventKind.Dup3 => parse_dup payload "dup3"
  | EventKind.Fcntl => parse_dup payload "fcntl"
  | EventKind.Pread64 => parse_pread_pwrite payload "pread64"
  | EventKind.Pwrite64 => parse_pread_pwrite payload "pwrite64"
  | EventKind.Readv => parse_readv_writev payload "readv"
  | EventKind.Writev => parse_readv_writev payload "writev"
  | EventKind.Mmap => parse_mmap payload
  | EventKind.Sendfile => parse_sendfile_splice payload "sendfile"
  | EventKind.Splice => parse_sendfile_splice payload "splice"
  | EventKind.LsmFileOpen => parse_lsm_simple payload "file_open"
  | EventKind.LsmTaskKill => parse_lsm_task_kill payload
  | EventKind.LsmBpf => parse_lsm_bpf payload
  | EventKind.LsmPtraceAccessCheck => parse_lsm_ptrace payload
  | EventKind.LsmInodeUnlink => parse_lsm_simple payload "inode_unlink"
  | EventKind.LsmInodeRename => parse_lsm_simple payload "inode_rename"
  | EventKind.LsmTaskFixSetuid => parse_lsm_setuid payload
  | EventKind.ProcessStart => parse_process_start payload
  | EventKind.ProcessFork => parse_process_fork payload
  | EventKind.ProcessExit => parse_process_exit payload
  | EventKind.SignalGenerate => parse_signal_generate payload
  | EventKind.PacketIngress | EventKind.PacketEgress =>
      Err "Unexpected event kind in process event"
  end.

Definition deserialize_process_event (data : list byte) (kind : EventKind.t)
    : result BehaviorEvent :=
  _ ← bail_if (too_short EventHeader.t data) "Event data too short for header";
  let header : EventHeader.t := read_unaligned data in
  let payload := after EventHeader.t data in
  let hj := header_json header in
  p ← parse_kind kind payload (EventHeader.capture header);
  let '(event_type, name, layer, args, return_code) := p in
  let args :=
    match kind, h_process_ref hj with
    | EventKind.ProcessStart, Some r =>
        Some (obj [("process_ref", process_ref_json (pr_tgid r) (pr_start_boottime_ns r))])
    | _, _ => args
    end in
  Ok (mkEvent hj (mkEventType event_type name layer) None args return_code).

Definition deserialize_packet (data : list byte) : result BehaviorEvent :=
  _ ← bail_if (too_short PacketEventHeader.t data) "Packet event data too short";
  let h : PacketEventHeader.t := read_unaligned data in
  let pkt_data := after PacketEventHeader.t data in
  let name :=
    if PacketEventHeader.kind h =? EventKind.to_u8 EventKind.PacketIngress
    then "ingress" else "egress" in
  Ok (mkEvent (sentinel_header (PacketEventHeader.timestamp_ns h))
        (mkEventType "PACKET" name "behavior") None
        (Some (obj [("data", JStr (b64_encode pkt_data));
                    ("ifindex", JNum (PacketEventHeader.ifindex h))])) None).

(** Whether the kind may seed a missing process lifecycle prefix. *)
Definition seed_authority (kind : EventKind.t) : LifecycleSeedAuthority :=
  match kind with
  | EventKind.PacketIngress | EventKind.PacketEgress | EventKind.SignalGenerate =>
      NonAuthoritative
  | _ => Authoritative
  end.

Definition deserialize_with_authority (data : list byte) : result DecodedBehaviorEvent :=
  match data with
  | [] => Err "Event data too short"
  | kind_byte :: _ =>
      match EventKind.from_u8 (byte.unsigned kind_byte) with
      | None => Err ("Unknown event kind: " +:+ dec_string (byte.unsigned kind_byte))
      | Some kind =>
          event ← match kind with
                  | EventKind.PacketIngress | EventKind.PacketEgress =>
                      deserialize_packet data
                  | k => deserialize_process_event data k
                  end;
          Ok (mkDecoded event (seed_authority kind))
      end
  end.

Definition deserialize (data : list byte) : result BehaviorEvent :=
  d_event <$> deserialize_with_authority data.
End Deserializer.
