(* ===== verification/Lifecycle.v ===== *)
(** * Lifecycle synthesis (bloodhound/src/lifecycle.rs)

    [LifecycleSynthesizer] completes the kernel's lifecycle stream: it emits a
    [process_start] before the first observation of a process that predates
    the tracer, and one diagnostic per kind of missing process identity. *)

From S2P Require Import Prelude Common Json Event.

Local Open Scope string_scope.
Local Open Scope Z_scope.
Local Open Scope list_scope.

Inductive IdentityDiagnosticSource : Type :=
| EventHeaderSource | ForkParent | TaskKillTarget | SignalGenerateTarget.

#[export] Instance IdentityDiagnosticSource_eq_dec : EqDecision IdentityDiagnosticSource.
Proof. solve_decision. Defined.

Definition source_index (s : IdentityDiagnosticSource) : nat :=
  match s with
  | EventHeaderSource => 0 | ForkParent => 1 | TaskKillTarget => 2
  | SignalGenerateTarget => 3
  end.

Definition source_of_index (n : nat) : option IdentityDiagnosticSource :=
  match n with
  | 0%nat => Some EventHeaderSource | 1%nat => Some ForkParent
  | 2%nat => Some TaskKillTarget | 3%nat => Some SignalGenerateTarget | _ => None
  end.

#[export] Program Instance IdentityDiagnosticSource_countable :
  Countable IdentityDiagnosticSource := inj_countable source_index source_of_index _.
Next Obligation. by intros []. Qed.

Definition source_as_str (s : IdentityDiagnosticSource) : string :=
  match s with
  | EventHeaderSource => "event_header"
  | ForkParent => "process_fork.parent_ref"
  | TaskKillTarget => "task_kill.target_ref"
  | SignalGenerateTarget => "signal_generate.target_ref"
  end.

Record LifecycleSynthesizer : Type := mkSynth {
  active : gmap Z ProcessRefJson;
  identity_diagnostics : gset IdentityDiagnosticSource }.

Definition synth_new : LifecycleSynthesizer := mkSynth ∅ ∅.

Definition is_event (ty name : string) (e : BehaviorEvent) : bool :=
  bool_decide (ev_type (be_event e) = ty) && bool_decide (ev_name (be_event e) = name).

Definition is_process_start : BehaviorEvent -> bool := is_event "LIFECYCLE" "process_start".
Definition is_process_exit : BehaviorEvent -> bool := is_event "LIFECYCLE" "process_exit".

Definition has_arg (key : string) (e : BehaviorEvent) : bool :=
  match be_args e ≫= json_get key with Some _ => true | None => false end.

Definition unavailable_identity_source (e : BehaviorEvent) : option IdentityDiagnosticSource :=
  let name := ev_name (be_event e) in
  if is_event "LIFECYCLE" "process_fork" e && negb (has_arg "parent_ref" e)
  then Some ForkParent
  else if bool_decide (name = "task_kill") && negb (has_arg "target_ref" e)
  then Some TaskKillTarget
  else if bool_decide (name = "signal_generate") && negb (has_arg "target_ref" e)
  then Some SignalGenerateTarget
  else if negb (h_pid (be_header e) =? 0)
          && bool_decide (h_process_ref (be_header e) = None)
          && negb (bool_decide (ev_type (be_event e) ∈ ["PACKET"; "HEARTBEAT"; "DIAGNOSTIC"]))
  then Some EventHeaderSource
  else None.

Definition make_identity_diagnostic (triggering : BehaviorEvent)
    (source : IdentityDiagnosticSource) : BehaviorEvent :=
  let observed_tgid :=
    match source with
    | TaskKillTarget | SignalGenerateTarget =>
        default 0 ((be_args triggering ≫= json_get "target_pid") ≫= as_u64)
    | _ => h_pid (be_header triggering)
    end in
  let h := be_header triggering in
  mkEvent (mkHeader (h_timestamp h) (h_auid h) (h_sessionid h) 0 None "" None None None)
    (mkEventType "DIAGNOSTIC" "process.identity" "behavior") None
    (Some (obj [("reason_code", JStr "stable_process_ref_unavailable");
                ("source", JStr (source_as_str source));
                ("observed_tgid", JNum observed_tgid)])) None.

Definition clone_header (h : EventHeaderJson) : EventHeaderJson :=
  mkHeader (h_timestamp h) (h_auid h) (h_sessionid h) (h_pid h) (h_ppid h) (h_comm h)
    (h_process_ref h) None None.

Definition make_process_start (triggering : BehaviorEvent) (r : ProcessRefJson)
    : BehaviorEvent :=
  mkEvent (clone_header (be_header triggering))
    (mkEventType "LIFECYCLE" "process_start" "behavior") None
    (Some (obj [("process_ref", process_ref_json (pr_tgid r) (pr_start_boottime_ns r))]))
    None.

(** The identity diagnostic of an observation: emitted when the source is
    inserted for the first time ([HashSet::insert] returns true). *)
Definition note_identity (st : LifecycleSynthesizer) (e : BehaviorEvent)
    : LifecycleSynthesizer * list BehaviorEvent :=
  match unavailable_identity_source e with
  | Some source =>
      if bool_decide (source ∈ identity_diagnostics st) then (st, [])
      else (mkSynth (active st) ({[source]} ∪ identity_diagnostics st),
            [make_identity_diagnostic e source])
  | None => (st, [])
  end.

Definition before_observation (st : LifecycleSynthesizer) (e : BehaviorEvent)
    (seed_authority : LifecycleSeedAuthority) : LifecycleSynthesizer * list BehaviorEvent :=
  let '(st, emitted) := note_identity st e in
  match seed_authority with
  | NonAuthoritative => (st, emitted)
  | Authoritative =>
      match h_process_ref (be_header e) with
      | None => (st, emitted)
      | Some r =>
          let seeded :=
            mkSynth (<[pr_tgid r := r]> (active st)) (identity_diagnostics st) in
          if is_process_start e then (seeded, emitted)
          else if bool_decide (active st !! pr_tgid r = Some r) then (st, emitted)
          else (seeded, emitted ++ [make_process_start e r])
      end
  end.

(** [after] releases the active entry of a whole-group exit and emits nothing. *)
Definition after_observation (st : LifecycleSynthesizer) (e : BehaviorEvent)
    : LifecycleSynthesizer * list BehaviorEvent :=
  (if is_process_exit e then
     match h_process_ref (be_header e) with
     | Some r =>
         if bool_decide (active st !! pr_tgid r = Some r)
         then mkSynth (delete (pr_tgid r) (active st)) (identity_diagnostics st)
         else st
     | None => st
     end
   else st, []).

(** One observation as the sequencer runs it: precursors, the event itself,
    follow-ups. *)
Definition observe (st : LifecycleSynthesizer) (d : DecodedBehaviorEvent)
    : LifecycleSynthesizer * list BehaviorEvent :=
  let '(st1, pre) := before_observation st (d_event d) (d_authority d) in
  let '(st2, post) := after_observation st1 (d_event d) in
  (st2, pre ++ [d_event d] ++ post).

Fixpoint observe_all (st : LifecycleSynthesizer) (ds : list DecodedBehaviorEvent)
    : LifecycleSynthesizer * list BehaviorEvent :=
  match ds with
  | [] => (st, [])
  | d :: r =>
      let '(st1, out) := observe st d in
      let '(st2, outs) := observe_all st1 r in (st2, out ++ outs)
  end.

(** ** Invariants *)

(** The active map is keyed by the thread-group id of its references. *)
Definition synth_wf (st : LifecycleSynthesizer) : Prop :=
  map_Forall (fun tgid r => pr_tgid r = tgid) (active st).

Lemma note_identity_active st e : active (note_identity st e).1 = active st.
Proof. unfold note_identity. repeat case_goal; done. Qed.

Lemma note_identity_out st e x :
  x ∈ (note_identity st e).2 -> exists s, x = make_identity_diagnostic e s.
Proof.
  unfold note_identity. repeat case_goal; cbn; try (intros H; by apply elem_of_nil in H).
  intros H. apply list_elem_of_singleton in H. eauto.
Qed.

Lemma before_observation_wf st e a :
  synth_wf st -> synth_wf (before_observation st e a).1.
Proof.
  unfold synth_wf, before_observation. intros Hwf.
  pose proof (note_identity_active st e) as Ea.
  destruct (note_identity st e) as [st1 em]; cbn in Ea. rewrite <- Ea in Hwf.
  destruct a; [|done]. destruct (h_process_ref (be_header e)) as [r|]; [|done].
  repeat case_goal; cbn; try done; by apply map_Forall_insert_2.
Qed.

Lemma after_observation_wf st e : synth_wf st -> synth_wf (after_observation st e).1.
Proof.
  unfold synth_wf, after_observation. intros Hwf. cbn.
  repeat case_goal; cbn; try done. by apply map_Forall_delete.
Qed.

Lemma observe_wf st d : synth_wf st -> synth_wf (observe st d).1.
Proof.
  intros Hwf. unfold observe.
  pose proof (before_observation_wf st (d_event d) (d_authority d) Hwf) as Hb.
  destruct (before_observation _ _ _) as [st1 pre]. by apply after_observation_wf.
Qed.

(** ** The lifecycle prefix property *)

(** A [process_start] for [r], synthesized or from the kernel. *)
Definition starts (r : ProcessRefJson) (e : BehaviorEvent) : bool :=
  is_process_start e && bool_decide (h_process_ref (be_header e) = Some r).

(** Every active reference has a start in the output so far. *)
Definition active_started (st : LifecycleSynthesizer) (out : list BehaviorEvent) : Prop :=
  forall t r, active st !! t = Some r -> existsb (starts r) out = true.

(** In an output stream, every observation that may seed a lifecycle and
    carries a process reference has a start of that reference at or before
    its position. *)
Definition prefix_ok (ds : list DecodedBehaviorEvent) (out : list BehaviorEvent) : Prop :=
  forall d r, d ∈ ds -> d_authority d = Authoritative ->
    h_process_ref (be_header (d_event d)) = Some r ->
    exists l1 l2, out = l1 ++ d_event d :: l2 /\
      existsb (starts r) (l1 ++ [d_event d]) = true.

Lemma starts_make e r :
  h_process_ref (be_header e) = Some r -> starts r (make_process_start e r) = true.
Proof. intros H. unfold starts. cbn. by rewrite H, bool_decide_true. Qed.

Lemma existsb_app_l {A} (f : A -> bool) l k : existsb f l = true -> existsb f (l ++ k) = true.
Proof. intros H. rewrite existsb_app, H. done. Qed.

Lemma existsb_app_r {A} (f : A -> bool) l k : existsb f k = true -> existsb f (l ++ k) = true.
Proof. intros H. rewrite existsb_app, H. apply orb_true_r. Qed.

(** The state and output of [before_observation], case by case. *)
Lemma before_observation_started st e out :
  active_started st out ->
  active_started (before_observation st e Authoritative).1
    (out ++ (before_observation st e Authoritative).2 ++ [e]) /\
  (forall r, h_process_ref (be_header e) = Some r ->
     existsb (starts r) (out ++ (before_observation st e Authoritative).2 ++ [e]) = true).
Proof.
  intros Hs. unfold before_observation.
  pose proof (note_identity_active st e) as Ea.
  destruct (note_identity st e) as [st1 em]; cbn in Ea.
  assert (Hs1 : forall out', active_started st1 (out ++ out')).
  { intros out' t r Hr. rewrite Ea in Hr. apply existsb_app_l. by apply (Hs t). }
  destruct (h_process_ref (be_header e)) as [r|] eqn:Er; [|by split].
  assert (Hseed : forall o, existsb (starts r) (out ++ o) = true ->
    active_started (mkSynth (<[pr_tgid r := r]> (active st1)) (identity_diagnostics st1))
      (out ++ o)).
  { intros o Ho t r' Hr'. cbn in Hr'.
    apply lookup_insert_Some in Hr' as [[_ <-]|[_ Hr']]; [done|by apply (Hs1 o t)]. }
  destruct (is_process_start e) eqn:Est; cbn.
  - assert (Hx : existsb (starts r) (out ++ em ++ [e]) = true).
    { rewrite app_assoc. apply existsb_app_r. cbn. unfold starts.
      by rewrite Est, Er, bool_decide_true. }
    split; [by apply Hseed|]. by intros ? [= <-].
  - case_bool_decide as Hd; cbn.
    + split; [apply Hs1|]. intros ? [= <-].
      apply existsb_app_l. apply (Hs (pr_tgid r)). by rewrite <- Ea.
    + assert (Hx : existsb (starts r) (out ++ (em ++ [make_process_start e r]) ++ [e]) = true).
      { apply existsb_app_r, existsb_app_l, existsb_app_r. cbn. by rewrite starts_make. }
      split; [by apply Hseed|]. by intros ? [= <-].
Qed.

Lemma before_nonauth_active st e :
  active (before_observation st e NonAuthoritative).1 = active st.
Proof.
  unfold before_observation. pose proof (note_identity_active st e).
  by destruct (note_identity st e).
Qed.

Lemma after_observation_active st e t r :
  active (after_observation st e).1 !! t = Some r -> active st !! t = Some r.
Proof.
  unfold after_observation. repeat case_goal; cbn; try done.
  intros H. by apply lookup_delete_Some in H as [_ H].
Qed.

Lemma observe_output st d :
  (observe st d).2 = (before_observation st (d_event d) (d_authority d)).2 ++ [d_event d].
Proof.
  unfold observe. destruct (before_observation _ _ _) as [st1 pre]. cbn. done.
Qed.

Lemma observe_started st d out :
  active_started st out -> active_started (observe st d).1 (out ++ (observe st d).2).
Proof.
  intros Hs t r Hr. rewrite observe_output.
  assert (Hb : active (before_observation st (d_event d) (d_authority d)).1 !! t = Some r).
  { revert Hr. unfold observe. destruct (before_observation _ _ _) as [st1 pre]. cbn.
    apply after_observation_active. }
  destruct (d_authority d).
  - by apply (proj1 (before_observation_started st (d_event d) out Hs) t).
  - rewrite before_nonauth_active in Hb. apply existsb_app_l. by apply (Hs t).
Qed.

Lemma observe_all_prefix ds : forall st out,
  active_started st out ->
  forall d r, d ∈ ds -> d_authority d = Authoritative ->
    h_process_ref (be_header (d_event d)) = Some r ->
    exists l1 l2, (observe_all st ds).2 = l1 ++ d_event d :: l2 /\
      existsb (starts r) (out ++ l1 ++ [d_event d]) = true.
Proof.
  induction ds as [|d0 ds IH]; intros st out Hs d r Hd Ha Hr; [by apply elem_of_nil in Hd|].
  cbn [observe_all].
  pose proof (observe_started st d0 out Hs) as Hs1.
  pose proof (observe_output st d0) as Eo.
  destruct (observe st d0) as [st1 o1]. cbn in Hs1, Eo.
  specialize (IH st1 (out ++ o1) Hs1 d r).
  destruct (observe_all st1 ds) as [st2 o2]. cbn in *.
  apply elem_of_cons in Hd as [->|Hd].
  - pose proof (proj2 (before_observation_started st (d_event d0) out Hs) r Hr) as Hx.
    rewrite Ha in Eo. exists (before_observation st (d_event d0) Authoritative).2, o2.
    split; [|exact Hx]. rewrite Eo, <- app_assoc. done.
  - destruct (IH Hd Ha Hr) as (l1 & l2 & E & Hx).
    exists (o1 ++ l1), l2. split; [by rewrite E, <- app_assoc|].
    rewrite <- !app_assoc in *. exact Hx.
Qed.

(** C3: in the output of any run, every authoritative observation of a process is
    at or after a process_start of the same process instance. *)
Theorem lifecycle_prefix ds : prefix_ok ds (observe_all synth_new ds).2.
Proof.
  intros d r Hd Ha Hr.
  destruct (observe_all_prefix ds synth_new [] ltac:(intros ? ? [=]) d r Hd Ha Hr)
    as (l1 & l2 & E & Hx). eauto.
Qed.

(** ** Identity diagnostics are bounded *)

Definition is_identity_diag (e : BehaviorEvent) : bool :=
  is_event "DIAGNOSTIC" "process.identity" e.

Lemma note_identity_bound st e :
  (length (note_identity st e).2 + size (identity_diagnostics st) =
   size (identity_diagnostics (note_identity st e).1))%nat.
Proof.
  unfold note_identity. destruct (unavailable_identity_source e) as [s|]; [|done].
  case_bool_decide; [done|]. cbn. rewrite size_union by set_solver. by rewrite size_singleton.
Qed.

Lemma before_observation_diag st e a :
  (length (note_identity st e).2 + size (identity_diagnostics st) =
   size (identity_diagnostics (before_observation st e a).1))%nat /\
  length (List.filter is_identity_diag (before_observation st e a).2) =
    length (note_identity st e).2.
Proof.
  pose proof (note_identity_bound st e) as Hb.
  assert (Hf : List.filter is_identity_diag (note_identity st e).2 = (note_identity st e).2).
  { apply forallb_filter_id, forallb_forall. intros x Hx.
    apply list_elem_of_In, note_identity_out in Hx as [s ->]. done. }
  unfold before_observation. destruct (note_identity st e) as [st1 em]; cbn in *.
  destruct a; [|cbn; by rewrite Hf]. destruct (h_process_ref (be_header e)); [|cbn; by rewrite Hf].
  repeat case_goal; cbn; rewrite ?List.filter_app, ?length_app, Hf; cbn; split; (done || lia).
Qed.

Lemma observe_diag st d :
  is_identity_diag (d_event d) = false ->
  (length (List.filter is_identity_diag (observe st d).2) +
     size (identity_diagnostics st) = size (identity_diagnostics (observe st d).1))%nat.
Proof.
  intros Hd. rewrite observe_output, List.filter_app, length_app. cbn. rewrite Hd. cbn.
  destruct (before_observation_diag st (d_event d) (d_authority d)) as [Hb Hl].
  rewrite Hl. unfold observe, after_observation.
  destruct (before_observation _ _ _) as [st1 pre]. cbn in *. repeat case_goal; cbn; lia.
Qed.

Lemma size_sources (s : gset IdentityDiagnosticSource) : (size s <= 4)%nat.
Proof.
  change 4%nat with (size (list_to_set [EventHeaderSource; ForkParent; TaskKillTarget;
    SignalGenerateTarget] : gset IdentityDiagnosticSource)).
  apply subseteq_size. intros x _. destruct x; set_solver.
Qed.

Lemma observe_all_diag ds : forall st,
  Forall (fun d => is_identity_diag (d_event d) = false) ds ->
  (length (List.filter is_identity_diag (observe_all st ds).2) +
     size (identity_diagnostics st) = size (identity_diagnostics (observe_all st ds).1))%nat.
Proof.
  induction ds as [|d ds IH]; intros st Hds; cbn; [done|].
  apply Forall_cons in Hds as [Hd Hds].
  pose proof (observe_diag st d Hd) as H1. destruct (observe st d) as [st1 o1].
  specialize (IH st1 Hds). destruct (observe_all st1 ds) as [st2 o2]. cbn in *.
  rewrite List.filter_app, length_app. lia.
Qed.

(** A run emits at most one identity diagnostic per source, four in all, however many
    observations lack an identity. *)
Theorem identity_diagnostics_bounded ds :
  Forall (fun d => is_identity_diag (d_event d) = false) ds ->
  (length (List.filter is_identity_diag (observe_all synth_new ds).2) <= 4)%nat.
Proof.
  intros Hds. pose proof (observe_all_diag ds synth_new Hds) as H.
  pose proof (size_sources (identity_diagnostics (observe_all synth_new ds).1)).
  cbn in H. lia.
Qed.

(** ** A process_start is synthesized once per instance *)

Definition synthesized (d : DecodedBehaviorEvent) (st : LifecycleSynthesizer) : Prop :=
  exists r, h_process_ref (be_header (d_event d)) = Some r /\
    make_process_start (d_event d) r ∈ (before_observation st (d_event d) (d_authority d)).2.

Lemma make_start_not_diag e r s e' : make_process_start e r <> make_identity_diagnostic e' s.
Proof. intros [=]. Qed.

Lemma synthesized_iff d st :
  synthesized d st <->
  exists r, d_authority d = Authoritative /\ h_process_ref (be_header (d_event d)) = Some r /\
    is_process_start (d_event d) = false /\ ~ (active st !! pr_tgid r = Some r).
Proof.
  unfold synthesized, before_observation. split.
  - intros (r & Hr & Hin). exists r.
    pose proof (note_identity_active st (d_event d)) as Ea.
    pose proof (note_identity_out st (d_event d)) as Ho.
    destruct (note_identity st (d_event d)) as [st1 em]. cbn in Ea, Ho. rewrite Hr in Hin.
    assert (Hn : make_process_start (d_event d) r ∉ em)
      by (intros Hx; apply Ho in Hx as [s Hx]; by apply make_start_not_diag in Hx).
    destruct (d_authority d); [|done].
    destruct (is_process_start (d_event d)); [done|].
    rewrite <- Ea. case_bool_decide; done.
  - intros (r & Ha & Hr & Hs & Hact). exists r. split; [done|].
    pose proof (note_identity_active st (d_event d)) as Ea.
    destruct (note_identity st (d_event d)) as [st1 em]. cbn in Ea.
    rewrite Ha, Hr, Hs, Ea, bool_decide_false by done. cbn. set_solver.
Qed.

(** The entry of a thread group is kept by every observation that neither
    exits it nor belongs to another instance with the same thread-group id. *)
Lemma observe_keeps_active st d r :
  active st !! pr_tgid r = Some r ->
  (forall r', h_process_ref (be_header (d_event d)) = Some r' ->
     pr_tgid r' = pr_tgid r -> r' = r /\ is_process_exit (d_event d) = false) ->
  active (observe st d).1 !! pr_tgid r = Some r.
Proof.
  intros Hact Hd. unfold observe, before_observation, after_observation.
  pose proof (note_identity_active st (d_event d)) as Ea.
  destruct (note_identity st (d_event d)) as [st1 em]. cbn in Ea. rewrite <- Ea in Hact.
  destruct (h_process_ref (be_header (d_event d))) as [r'|].
  - destruct (decide (pr_tgid r' = pr_tgid r)) as [Et|Et].
    + destruct (Hd r' eq_refl Et) as [-> He]. rewrite He.
      destruct (d_authority d); cbn; [|done]. repeat case_goal; cbn; try done;
        by rewrite lookup_insert_eq.
    + destruct (d_authority d); cbn; repeat case_goal; cbn;
        rewrite ?lookup_delete_ne, ?lookup_insert_ne by done; done.
  - destruct (d_authority d); cbn; repeat case_goal; done.
Qed.

(** Once a process instance was observed authoritatively, no second start is
    synthesized for it as long as no exit of it and no other instance with the
    same thread-group id was observed in between. *)
Theorem no_duplicate_start d ds d' r :
  forall st,
  d_authority d = Authoritative -> h_process_ref (be_header (d_event d)) = Some r ->
  is_process_exit (d_event d) = false ->
  Forall (fun x => forall r', h_process_ref (be_header (d_event x)) = Some r' ->
    pr_tgid r' = pr_tgid r -> r' = r /\ is_process_exit (d_event x) = false) ds ->
  h_process_ref (be_header (d_event d')) = Some r ->
  ~ synthesized d' (observe_all (observe st d).1 ds).1.
Proof.
  intros st Ha Hr He Hds Hr'.
  assert (H0 : active (observe st d).1 !! pr_tgid r = Some r).
  { unfold observe, before_observation, after_observation.
    destruct (note_identity st (d_event d)) as [st1 em]. rewrite Ha, Hr, He.
    repeat case_goal; cbn; rewrite ?lookup_insert_eq; try done. by apply bool_decide_eq_true in E0. }
  revert H0. generalize (observe st d).1 as st0. clear He. 
  induction Hds as [|x ds Hx Hds IH]; intros st0 H0; cbn.
  - rewrite synthesized_iff. intros (r' & _ & Hr'' & _ & Hn). by simplify_eq.
  - pose proof (observe_keeps_active st0 x r H0 Hx) as H1.
    destruct (observe st0 x) as [st1 o1]. specialize (IH st1 H1).
    by destruct (observe_all st1 ds).
Qed.
