(* ===== verification/Sequencer.v ===== *)
(** * The sequencer (bloodhound/src/sequencer.rs, serializer.rs)

    The single admission and serialization path: raw ring-buffer records and
    synthesized events go through one queue to one writer.  The writer is the
    line-buffered stdout; what matters here is whether a line was accepted, so
    it is a parameter that sees the lines written so far. *)

From S2P Require Import Prelude Layout Records Common Json Event Usdt Deserializer Lifecycle.

Local Open Scope string_scope.
Local Open Scope Z_scope.
Local Open Scope list_scope.

Inductive SequencedInput : Type :=
| Raw (data : list byte)
| Synthesized (event : BehaviorEvent).

Record Sequencer : Type := mkSequencer {
  lines : list BehaviorEvent;          (* what the writer accepted *)
  lifecycle : LifecycleSynthesizer;
  events_emitted : Z;                  (* AtomicU64 *)
  deserialize_rejections : Z }.

Definition seq_new : Sequencer := mkSequencer [] synth_new 0 0.

Definition deserialize_rejection_diagnostic (now total : Z) : BehaviorEvent :=
  mkEvent (sentinel_header now) (mkEventType "DIAGNOSTIC" "stream.health" "behavior") None
    (Some (obj [("reason_code", JStr "deserialize_rejected");
                ("rejection_count_delta", JNum 1);
                ("rejection_count_total", JNum total);
                ("run_prefix_incomplete", JBool true)])) None.

Section Sequencer.
Context `{Base64}.

(** [now n] is the clock read for the [n]-th rejection; [writes ls e] tells whether the
    writer accepts [e] after the lines [ls]. *)
Context (now : Z -> Z) (writes : list BehaviorEvent -> BehaviorEvent -> bool).

(** [Sequencer::write]: the counter advances only after the line was written. *)
Definition write (e : BehaviorEvent) (s : Sequencer) : result unit * Sequencer :=
  if writes (lines s) e then
    (Ok tt, mkSequencer (lines s ++ [e]) (lifecycle s)
              (wrapping_add (events_emitted s) 1) (deserialize_rejections s))
  else (Err "write failed", s).

(** [for event in events { self.write(&event)?; }] *)
Fixpoint write_all (es : list BehaviorEvent) (s : Sequencer) : result unit * Sequencer :=
  match es with
  | [] => (Ok tt, s)
  | e :: r =>
      match write e s with
      | (Ok _, s1) => write_all r s1
      | (Err m, s1) => (Err m, s1)
      end
  end.

Definition accept_raw (raw : list byte) (s : Sequencer) : result unit * Sequencer :=
  match deserialize_with_authority raw with
  | Err _ =>
      let total := saturating_add (deserialize_rejections s) 1 in
      write (deserialize_rejection_diagnostic (now total) total)
        (mkSequencer (lines s) (lifecycle s) (events_emitted s) total)
  | Ok decoded =>
      let event := d_event decoded in
      let '(life, precursors) :=
        before_observation (lifecycle s) event (d_authority decoded) in
      let s := mkSequencer (lines s) life (events_emitted s) (deserialize_rejections s) in
      match write_all precursors s with
      | (Err m, s) => (Err m, s)
      | (Ok _, s) =>
          match write event s with
          | (Err m, s) => (Err m, s)
          | (Ok _, s) =>
              let '(life, followups) := after_observation (lifecycle s) event in
              write_all followups
                (mkSequencer (lines s) life (events_emitted s) (deserialize_rejections s))
          end
      end
  end.

Definition accept (input : SequencedInput) (s : Sequencer) : result unit * Sequencer :=
  match input with
  | Raw raw => accept_raw raw s
  | Synthesized e => write e s
  end.

(** The receive loop: [sequencer.accept(input)?] on each admitted item. *)
Fixpoint accept_all (inputs : list SequencedInput) (s : Sequencer) : result unit * Sequencer :=
  match inputs with
  | [] => (Ok tt, s)
  | i :: r =>
      match accept i s with
      | (Ok _, s1) => accept_all r s1
      | (Err m, s1) => (Err m, s1)
      end
  end.

(** ** Specification

    What one admitted item contributes to the stream, as a function of the
    lifecycle state and of the rejections before it. *)
Definition contributes (i : SequencedInput) (life : LifecycleSynthesizer) (rejections : Z)
    : LifecycleSynthesizer * Z * list BehaviorEvent :=
  match i with
  | Synthesized e => (life, rejections, [e])
  | Raw raw =>
      match deserialize_with_authority raw with
      | Err _ =>
          let total := saturating_add rejections 1 in
          (life, total, [deserialize_rejection_diagnostic (now total) total])
      | Ok d => let '(life', out) := observe life d in (life', rejections, out)
      end
  end.

Fixpoint stream (inputs : list SequencedInput) (life : LifecycleSynthesizer) (rejections : Z)
    : LifecycleSynthesizer * Z * list BehaviorEvent :=
  match inputs with
  | [] => (life, rejections, [])
  | i :: r =>
      let '(life1, rej1, out1) := contributes i life rejections in
      let '(life2, rej2, out2) := stream r life1 rej1 in
      (life2, rej2, out1 ++ out2)
  end.

(** The counter and the lines agree: nothing is counted that was not written. *)
Definition counted (s : Sequencer) : Prop := events_emitted s = wrap 64 (len (lines s)).

Lemma write_counted e s : counted s -> counted (write e s).2.
Proof.
  unfold counted, write. intros Hc. destruct (writes (lines s) e); [|done]; cbn.
  rewrite Hc, len_app. unfold wrapping_add, wrap. cbn. by rewrite Zplus_mod_idemp_l.
Qed.

Lemma write_all_counted es : forall s, counted s -> counted (write_all es s).2.
Proof.
  induction es as [|e es IH]; intros s Hc; cbn; [done|].
  pose proof (write_counted e s Hc) as H1. destruct (write e s) as [[] s1]; [by apply IH|done].
Qed.

Lemma accept_counted i s : counted s -> counted (accept i s).2.
Proof.
  intros Hc. destruct i as [raw|e]; cbn; [|by apply write_counted].
  unfold accept_raw. destruct (deserialize_with_authority raw) as [d|m].
  - destruct (before_observation _ _ _) as [life pre].
    pose proof (write_all_counted pre
      (mkSequencer (lines s) life (events_emitted s) (deserialize_rejections s)) Hc) as H1.
    destruct (write_all pre _) as [[] s1]; [|done]. cbn in H1.
    pose proof (write_counted (d_event d) s1 H1) as H2.
    destruct (write (d_event d) s1) as [[] s2]; [|done].
    by apply write_all_counted.
  - by apply write_counted.
Qed.

Lemma accept_all_counted ins : forall s, counted s -> counted (accept_all ins s).2.
Proof.
  induction ins as [|i ins IH]; intros s Hc; cbn; [done|].
  pose proof (accept_counted i s Hc) as H1.
  destruct (accept i s) as [[] s1]; [by apply IH|done].
Qed.

(** Lines already written are never changed, whether or not a write fails. *)
Lemma write_prefix e s : lines s `prefix_of` lines (write e s).2.
Proof. unfold write. case_goal; cbn; [by apply prefix_app_r|done]. Qed.

Lemma write_all_prefix es : forall s, lines s `prefix_of` lines (write_all es s).2.
Proof.
  induction es as [|e es IH]; intros s; cbn; [done|].
  pose proof (write_prefix e s) as H1. destruct (write e s) as [[] s1]; [|done].
  etrans; [exact H1|apply IH].
Qed.

Lemma accept_prefix i s : lines s `prefix_of` lines (accept i s).2.
Proof.
  destruct i as [raw|e]; cbn; [|apply write_prefix].
  unfold accept_raw. destruct (deserialize_with_authority raw) as [d|m].
  - destruct (before_observation _ _ _) as [life pre].
    pose proof (write_all_prefix pre
      (mkSequencer (lines s) life (events_emitted s) (deserialize_rejections s))) as H1.
    destruct (write_all pre _) as [[] s1]; [|done]. cbn in H1.
    pose proof (write_prefix (d_event d) s1) as H2.
    destruct (write (d_event d) s1) as [[] s2]; [|by etrans].
    cbn in *. by etrans.
  - apply (write_prefix _ (mkSequencer (lines s) _ _ _)).
Qed.
End Sequencer.

Section Healthy.
Context `{Base64} (now : Z -> Z).

Definition always (_ : list BehaviorEvent) (_ : BehaviorEvent) : bool := true.

Lemma write_all_always es s :
  write_all always es s =
  (Ok tt, mkSequencer (lines s ++ es) (lifecycle s)
     (foldl (fun c _ => wrapping_add c 1) (events_emitted s) es) (deserialize_rejections s)).
Proof.
  revert s; induction es as [|e es IH]; intros s; cbn.
  - rewrite app_nil_r. by destruct s.
  - rewrite IH. cbn. by rewrite <- app_assoc.
Qed.

Lemma accept_contributes i s :
  let '(life, rej, out) := contributes now i (lifecycle s) (deserialize_rejections s) in
  exists c, accept now always i s = (Ok tt, mkSequencer (lines s ++ out) life c rej).
Proof.
  destruct i as [raw|e]; cbn; [|by eexists].
  unfold accept_raw. destruct (deserialize_with_authority raw) as [d|m]; [|by eexists].
  unfold observe. destruct (before_observation _ _ _) as [life pre].
  rewrite write_all_always. cbn. eexists. by rewrite <- app_assoc.
Qed.

(** With a working stdout the sequencer is a function of the admitted
    sequence: it writes, in admission order, exactly each item's contribution. *)
Theorem accept_all_refines_stream inputs s :
  let '(life, rej, out) := stream now inputs (lifecycle s) (deserialize_rejections s) in
  exists c, accept_all now always inputs s = (Ok tt, mkSequencer (lines s ++ out) life c rej).
Proof.
  revert s; induction inputs as [|i ins IH]; intros s; cbn.
  - exists (events_emitted s). rewrite app_nil_r. by destruct s.
  - pose proof (accept_contributes i s) as H1.
    destruct (contributes now i _ _) as [[life1 rej1] out1]. destruct H1 as [c1 ->].
    specialize (IH (mkSequencer (lines s ++ out1) life1 c1 rej1)). cbn in IH.
    destruct (stream now ins life1 rej1) as [[life2 rej2] out2]. destruct IH as [c2 IH].
    exists c2. by rewrite IH, <- app_assoc.
Qed.
End Healthy.

Section Failing.
Context `{Base64} (now : Z -> Z) (writes : list BehaviorEvent -> BehaviorEvent -> bool).

(** The emission counter counts exactly the written lines. *)
Theorem emitted_counts_lines inputs :
  let s := (accept_all now writes inputs seq_new).2 in
  events_emitted s = wrap 64 (len (lines s)).
Proof. cbn. by apply accept_all_counted. Qed.

(** What a run wrote against what it should have written: a prefix, and
    everything (with the specified final state) when it succeeded. *)
Definition writes_prefix (s0 : Sequencer) (ideal : LifecycleSynthesizer * Z * list BehaviorEvent)
    (r : result unit * Sequencer) : Prop :=
  let '(life, rej, out) := ideal in
  (exists k, lines r.2 = lines s0 ++ take k out) /\
  (r.1 = Ok tt ->
   lines r.2 = lines s0 ++ out /\ lifecycle r.2 = life /\ deserialize_rejections r.2 = rej).

Lemma write_all_writes es : forall s,
  writes_prefix s (lifecycle s, deserialize_rejections s, es) (write_all writes es s).
Proof.
  induction es as [|e es IH]; intros s; cbn.
  - split; [exists 0%nat; by rewrite app_nil_r|]. intros _. by rewrite app_nil_r.
  - destruct (write writes e s) as [[[]|m] s1] eqn:Ew; unfold write in Ew;
      destruct (writes (lines s) e); simplify_eq.
    + destruct (IH (mkSequencer (lines s ++ [e]) (lifecycle s)
        (wrapping_add (events_emitted s) 1) (deserialize_rejections s))) as [[k E] Hok].
      cbn in *. rewrite <- app_assoc in E, Hok. split; [by exists (S k)|done].
    + split; [exists 0%nat; by rewrite app_nil_r|done].
Qed.

Lemma writes_prefix_app s0 s1 out1 life2 rej2 out2 r :
  lines s1 = lines s0 ++ out1 ->
  writes_prefix s1 (life2, rej2, out2) r ->
  writes_prefix s0 (life2, rej2, out1 ++ out2) r.
Proof.
  intros E [[k Ek] Hok]. split.
  - exists (length out1 + k)%nat. rewrite Ek, E, take_app_add. by rewrite app_assoc.
  - intros Hr. destruct (Hok Hr) as (El & ? & ?). by rewrite El, E, app_assoc.
Qed.

Lemma writes_prefix_weaken s0 life rej out life' rej' more r m :
  writes_prefix s0 (life, rej, out) r -> r.1 = Err m ->
  writes_prefix s0 (life', rej', out ++ more) r.
Proof.
  intros [[k Ek] _] Hr. split; [|by rewrite Hr].
  exists (Nat.min k (length out)). rewrite Ek, take_app_le by lia.
  f_equal. destruct (decide (k <= length out)%nat); [by rewrite Nat.min_l by lia|].
  rewrite Nat.min_r by lia. by rewrite firstn_all, take_ge by lia.
Qed.

Lemma accept_writes i s :
  writes_prefix s (contributes now i (lifecycle s) (deserialize_rejections s))
    (accept now writes i s).
Proof.
  destruct i as [raw|e]; cbn.
  2: { pose proof (write_all_writes [e] s) as Hw. cbn in Hw.
       by destruct (write writes e s) as [[[]|] ?]. }
  unfold accept_raw. destruct (deserialize_with_authority raw) as [d|m].
  2: { set (s1 := mkSequencer _ _ _ _). pose proof (write_all_writes
         [let t := saturating_add (deserialize_rejections s) 1 in
          deserialize_rejection_diagnostic (now t) t] s1) as Hw. cbn in Hw.
       by destruct (write writes _ s1) as [[[]|] ?]. }
  unfold observe. destruct (before_observation _ _ _) as [life pre].
  set (s1 := mkSequencer _ life _ _).
  pose proof (write_all_writes pre s1) as Hpre.
  destruct (write_all writes pre s1) as [[[]|m] s2].
  2: { by apply (writes_prefix_weaken s life (deserialize_rejections s) pre _ _ _ _ m Hpre). }
  destruct (proj2 Hpre eq_refl) as (El & Elife & Erej). cbn in El, Elife, Erej.
  pose proof (write_all_writes [d_event d] s2) as Hev. cbn in Hev.
  assert (Hev' : writes_prefix s2 (lifecycle s2, deserialize_rejections s2, [d_event d])
                   (write writes (d_event d) s2)).
  { by destruct (write writes (d_event d) s2) as [[[]|] ?]. }
  clear Hev. unfold after_observation; cbn -[writes_prefix].
  destruct (write writes (d_event d) s2) as [[[]|m] s3].
  - destruct (proj2 Hev' eq_refl) as (El3 & Elife3 & Erej3). cbn in El3, Elife3, Erej3.
    split; cbn.
    + exists (length (pre ++ [d_event d])). rewrite firstn_all, El3, El. by rewrite app_assoc.
    + intros _. rewrite El3, El, Elife3, Elife, Erej3, Erej. by rewrite app_assoc.
  - pose proof (writes_prefix_app s s2 pre _ _ _ _ El Hev') as H2.
    split; [exact (proj1 H2)|done].
Qed.

Lemma accept_all_writes inputs s :
  writes_prefix s (stream now inputs (lifecycle s) (deserialize_rejections s))
    (accept_all now writes inputs s).
Proof.
  revert s; induction inputs as [|i ins IH]; intros s; cbn.
  - split; [exists 0%nat; by rewrite app_nil_r|]. intros _. by rewrite app_nil_r.
  - pose proof (accept_writes i s) as Hi.
    destruct (contributes now i _ _) as [[life1 rej1] out1].
    destruct (accept now writes i s) as [[[]|m] s1].
    + destruct (proj2 Hi eq_refl) as (El & Elife & Erej). cbn in El, Elife, Erej.
      specialize (IH s1). rewrite Elife, Erej in IH.
      destruct (stream now ins life1 rej1) as [[life2 rej2] out2].
      by apply (writes_prefix_app s s1).
    + destruct (stream now ins life1 rej1) as [[life2 rej2] out2].
      by apply (writes_prefix_weaken s life1 rej1 out1 _ _ _ _ m Hi).
Qed.

Lemma accept_all_ok_lines inputs s s' :
  accept_all now writes inputs s = (Ok tt, s') ->
  lines s' = lines s ++ (stream now inputs (lifecycle s) (deserialize_rejections s)).2.
Proof.
  intros E. pose proof (accept_all_writes inputs s) as Hw. rewrite E in Hw.
  destruct (stream now inputs _ _) as [[life rej] out]. by apply Hw.
Qed.

(** Whatever the writer does, the lines on stdout are a prefix of the
    ideal stream; when the run succeeds they are all of it. *)
Theorem stdout_is_stream_prefix inputs :
  let ideal := (stream now inputs synth_new 0).2 in
  let '(r, s) := accept_all now writes inputs seq_new in
  (exists k, lines s = take k ideal) /\ (r = Ok tt -> lines s = ideal).
Proof.
  cbn zeta. pose proof (accept_all_writes inputs seq_new) as Hw. cbn [seq_new lifecycle
    deserialize_rejections] in Hw.
  destruct (accept_all now writes inputs seq_new) as [r s].
  destruct (stream now inputs _ _) as [[life rej] out]. destruct Hw as [Hp Hok].
  split; [exact Hp|]. intros Hr. by apply Hok.
Qed.
End Failing.

Section Rejections.
Context `{Base64} (now : Z -> Z).

Definition rejected (i : SequencedInput) : bool :=
  match i with
  | Raw raw => negb (is_ok (deserialize_with_authority raw))
  | Synthesized _ => false
  end.

Lemma contributes_rejections i life rej :
  (contributes now i life rej).1.2 = (if rejected i then saturating_add rej 1 else rej).
Proof.
  destruct i as [raw|e]; cbn; [|done].
  destruct (deserialize_with_authority raw) as [d|m]; cbn; [|done].
  by destruct (observe life d).
Qed.

Lemma stream_rejections ins : forall life rej,
  0 <= rej -> rej + len ins <= U64_MAX ->
  (stream now ins life rej).1.2 = rej + len (List.filter rejected ins).
Proof.
  induction ins as [|i ins IH]; intros life rej H0 Hmax; cbn -[U64_MAX]; [unfold len; cbn; lia|].
  pose proof (contributes_rejections i life rej) as Hr.
  destruct (contributes now i life rej) as [[life1 rej1] out1]. cbn in Hr.
  assert (Hl : len (i :: ins) = 1 + len ins) by (unfold len; cbn; lia).
  pose proof (len_nonneg ins).
  specialize (IH life1 rej1). destruct (stream now ins life1 rej1) as [[life2 rej2] out2].
  cbn in *. unfold saturating_add in Hr.
  destruct (rejected i); rewrite IH by lia; unfold len; cbn; lia.
Qed.

(** Every rejected record is reported in band, in order, with the
    number of rejections so far. *)
Theorem rejection_reported raw life rej m :
  deserialize_with_authority raw = Err m -> 0 <= rej < U64_MAX ->
  contributes now (Raw raw) life rej =
    (life, rej + 1, [deserialize_rejection_diagnostic (now (rej + 1)) (rej + 1)]).
Proof. intros E Hr. cbn. rewrite E. unfold saturating_add. by rewrite Z.min_r by lia. Qed.
End Rejections.
