(* ===== verification/Ranges.v ===== *)
(** * The integers the viewer parses by type

    The daemon's structs declare machine integers where the model has [Z], and
    the viewer declares some of these fields with a type of its own: the
    timestamp, the login and session, the process and its parent, the identity
    of the instance and the return code.  The lemmas here, used where the trace
    is read back, show that whatever bytes arrive these fields of the stream
    stay within their types.  The thread, the namespaces and the integers among
    the arguments, which the viewer keeps as JSON values or does not read, are
    not covered. *)

From S2P Require Import Prelude Layout Records Common Json Utf8 Event Usdt Deserializer Lifecycle Sequencer.

Local Open Scope string_scope.
Local Open Scope Z_scope.
Local Open Scope list_scope.

(** The fields the viewer parses by type are of the daemon's types. *)
Definition header_in_range (h : EventHeaderJson) : Prop :=
  in_u 64 (h_timestamp h) /\ in_u 32 (h_auid h) /\ in_u 32 (h_sessionid h) /\ in_u 32 (h_pid h) /\
  (forall p, h_ppid h = Some p -> in_u 32 p) /\
  (forall r, h_process_ref h = Some r -> in_u 32 (pr_tgid r) /\ in_u 64 (pr_start_boottime_ns r)).
Definition event_in_range (e : BehaviorEvent) : Prop :=
  header_in_range (be_header e) /\ (forall r, be_return_code e = Some r -> in_s 64 r).


(** A value read from enough bytes is in the range of its type. *)
Lemma read_range {T} `{ReprC T} bs : too_short T bs = false -> in_range (read_unaligned bs : T).
Proof. unfold too_short. intros Hs%Nat.ltb_ge. by apply read_in_range. Qed.

Lemma read_range_exact {T} `{ReprC T} bs : wrong_size T bs = false -> in_range (read_unaligned bs : T).
Proof. unfold wrong_size. intros Hs%negb_false_iff%Nat.eqb_eq. apply read_in_range. lia. Qed.

Definition rc_ok (p : parsed) : Prop := forall r, p.2 = Some r -> in_s 64 r.

(** The return code of a parsed payload is a field of its struct. *)
Ltac rc_range :=
  intros; ok_inv;
  repeat match goal with
  | H : too_short ?T ?bs = false |- _ =>
      pose proof (read_range bs H); generalize dependent (@read_unaligned T _ bs); clear H; intros
  end; subst; let Hr := fresh "Hr" in intros ? Hr; cbn [snd] in Hr; try discriminate Hr; injection Hr as <-;
  repeat match goal with H : in_range _ |- _ => unfold in_range in H; cbn in H end;
  unfold in_u, in_s in *; cbn in *; lia.

Create HintDb rc discriminated.

Section Parsers.
Context `{Base64}.

Lemma parse_tty_rc payload name capture p : parse_tty payload name capture = Ok p -> rc_ok p.
Proof. unfold parse_tty. rc_range. Qed.
Lemma parse_execve_rc payload name capture p : parse_execve payload name capture = Ok p -> rc_ok p.
Proof. unfold parse_execve. rc_range. Qed.
Lemma parse_exec_view_rc payload p : parse_exec_view payload = Ok p -> rc_ok p.
Proof. unfold parse_exec_view. rc_range. Qed.
Lemma parse_raw_syscall_rc payload p : parse_raw_syscall payload = Ok p -> rc_ok p.
Proof. unfold parse_raw_syscall. rc_range. Qed.
Lemma parse_openat_rc payload p : parse_openat payload = Ok p -> rc_ok p.
Proof. unfold parse_openat. rc_range. Qed.
Lemma parse_read_write_rc payload name p : parse_read_write payload name = Ok p -> rc_ok p.
Proof. unfold parse_read_write. rc_range. Qed.
Lemma parse_connect_bind_rc payload name p : parse_connect_bind payload name = Ok p -> rc_ok p.
Proof. unfold parse_connect_bind. rc_range. Qed.
Lemma parse_listen_rc payload p : parse_listen payload = Ok p -> rc_ok p.
Proof. unfold parse_listen. rc_range. Qed.
Lemma parse_socket_rc payload p : parse_socket payload = Ok p -> rc_ok p.
Proof. unfold parse_socket. rc_range. Qed.
Lemma parse_clone_rc payload name p : parse_clone payload name = Ok p -> rc_ok p.
Proof. unfold parse_clone. rc_range. Qed.
Lemma parse_process_start_rc payload p : parse_process_start payload = Ok p -> rc_ok p.
Proof. unfold parse_process_start. rc_range. Qed.
Lemma parse_process_fork_rc payload p : parse_process_fork payload = Ok p -> rc_ok p.
Proof. unfold parse_process_fork. rc_range. Qed.
Lemma parse_process_exit_rc payload p : parse_process_exit payload = Ok p -> rc_ok p.
Proof. unfold parse_process_exit. rc_range. Qed.
Lemma parse_path_event_rc payload name capture p : parse_path_event payload name capture = Ok p -> rc_ok p.
Proof. unfold parse_path_event. rc_range. Qed.
Lemma parse_fd_event_rc payload name p : parse_fd_event payload name = Ok p -> rc_ok p.
Proof. unfold parse_fd_event. rc_range. Qed.
Lemma parse_two_path_event_rc payload name capture p : parse_two_path_event payload name capture = Ok p -> rc_ok p.
Proof. unfold parse_two_path_event. rc_range. Qed.
Lemma parse_sendto_recvfrom_rc payload name p : parse_sendto_recvfrom payload name = Ok p -> rc_ok p.
Proof. unfold parse_sendto_recvfrom. rc_range. Qed.
Lemma parse_dup_rc payload name p : parse_dup payload name = Ok p -> rc_ok p.
Proof. unfold parse_dup. rc_range. Qed.
Lemma parse_pread_pwrite_rc payload name p : parse_pread_pwrite payload name = Ok p -> rc_ok p.
Proof. unfold parse_pread_pwrite. rc_range. Qed.
Lemma parse_readv_writev_rc payload name p : parse_readv_writev payload name = Ok p -> rc_ok p.
Proof. unfold parse_readv_writev. rc_range. Qed.
Lemma parse_mmap_rc payload p : parse_mmap payload = Ok p -> rc_ok p.
Proof. unfold parse_mmap. rc_range. Qed.
Lemma parse_sendfile_splice_rc payload name p : parse_sendfile_splice payload name = Ok p -> rc_ok p.
Proof. unfold parse_sendfile_splice. rc_range. Qed.
Lemma parse_lsm_simple_rc payload name p : parse_lsm_simple payload name = Ok p -> rc_ok p.
Proof.
  unfold parse_lsm_simple. intros Hp%Ok_inj r. subst p. cbn [snd].
  destruct (8 <=? length payload)%nat eqn:El; [|done]. apply Nat.leb_le in El.
  assert (Hi : in_range (read_unaligned payload : LsmFileOpenPayload.t)) by (by apply read_in_range).
  revert Hi. generalize (read_unaligned payload : LsmFileOpenPayload.t). intros x Hi [= <-].
  unfold in_range in Hi. cbn in Hi. unfold in_u, in_s in *. cbn in *. lia.
Qed.
Lemma parse_lsm_task_kill_rc payload p : parse_lsm_task_kill payload = Ok p -> rc_ok p.
Proof. unfold parse_lsm_task_kill. rc_range. Qed.
Lemma parse_signal_generate_rc payload p : parse_signal_generate payload = Ok p -> rc_ok p.
Proof. unfold parse_signal_generate. rc_range. Qed.
Lemma parse_lsm_bpf_rc payload p : parse_lsm_bpf payload = Ok p -> rc_ok p.
Proof. unfold parse_lsm_bpf. rc_range. Qed.
Lemma parse_lsm_ptrace_rc payload p : parse_lsm_ptrace payload = Ok p -> rc_ok p.
Proof. unfold parse_lsm_ptrace. rc_range. Qed.
Lemma parse_lsm_setuid_rc payload p : parse_lsm_setuid payload = Ok p -> rc_ok p.
Proof. unfold parse_lsm_setuid. rc_range. Qed.
Lemma decode_training_shell_payload_rc payload p : decode_training_shell_payload payload = Ok p -> rc_ok p.
Proof. unfold decode_training_shell_payload. rc_range. Qed.
Lemma decode_training_peer_payload_rc payload p : decode_training_peer_payload payload = Ok p -> rc_ok p.
Proof. unfold decode_training_peer_payload. rc_range. Qed.
Lemma decode_training_shell_capture_error_rc payload p : decode_training_shell_capture_error payload = Ok p -> rc_ok p.
Proof. unfold decode_training_shell_capture_error. rc_range. Qed.
#[local] Hint Resolve parse_tty_rc parse_execve_rc parse_exec_view_rc parse_raw_syscall_rc parse_openat_rc parse_read_write_rc parse_connect_bind_rc parse_listen_rc parse_socket_rc parse_clone_rc parse_process_start_rc parse_process_fork_rc parse_process_exit_rc parse_path_event_rc parse_fd_event_rc parse_two_path_event_rc parse_sendto_recvfrom_rc parse_dup_rc parse_pread_pwrite_rc parse_readv_writev_rc parse_mmap_rc parse_sendfile_splice_rc parse_lsm_simple_rc parse_lsm_task_kill_rc parse_signal_generate_rc parse_lsm_bpf_rc parse_lsm_ptrace_rc parse_lsm_setuid_rc decode_training_shell_payload_rc decode_training_peer_payload_rc decode_training_shell_capture_error_rc : rc.

Lemma parse_kind_rc k payload capture p : parse_kind k payload capture = Ok p -> rc_ok p.
Proof. destruct k; cbn [parse_kind]; unfold decode_payload; eauto with rc; done. Qed.
End Parsers.

(** ** Events *)

Lemma header_json_range (h : EventHeader.t) : in_range h -> header_in_range (header_json h).
Proof.
  intros Hi. unfold in_range in Hi. cbn in Hi. unfold in_u, in_s in Hi. cbn in Hi.
  unfold header_in_range, header_json, in_u. cbn.
  split_and!; try lia.
  - intros p. destruct (negb _); [|done]. intros [= <-]. lia.
  - intros r. destruct (_ && _); [|done]. intros [= <-]. cbn. lia.
Qed.

Lemma sentinel_range now : in_u 64 now -> header_in_range (sentinel_header now).
Proof. unfold header_in_range. intros Hn. cbn. unfold in_u in *. split_and!; try done; lia. Qed.

Lemma decoded_range `{Base64} raw d : deserialize_with_authority raw = Ok d -> event_in_range (d_event d).
Proof.
  unfold deserialize_with_authority. destruct raw as [|b raw]; [done|].
  destruct (EventKind.from_u8 _) as [k|]; [|done]. intros Hd. ok_inv. subst d. cbn [d_event].
  assert (Hcase : deserialize_packet (b :: raw) = Ok a \/ deserialize_process_event (b :: raw) k = Ok a)
    by (destruct k; auto). clear Hok. destruct Hcase as [Hp|Hp].
  - unfold deserialize_packet in Hp. ok_inv. subst a. apply read_range in Hok.
    revert Hok. generalize (read_unaligned (b :: raw) : PacketEventHeader.t). intros h Hi.
    unfold in_range in Hi. cbn in Hi. split; [|done]. cbn. apply sentinel_range. unfold in_u in *. cbn in *. lia.
  - unfold deserialize_process_event in Hp. ok_inv. apply read_range in Hok.
    match goal with Hk : parse_kind _ _ _ = Ok ?p |- _ =>
      apply parse_kind_rc in Hk as Hrc; destruct p as [[[[ty nm] ly] args] rc] end.
    ok_inv. subst a. split; [by apply header_json_range|exact Hrc].
Qed.

Lemma process_start_range e r : event_in_range e -> event_in_range (make_process_start e r).
Proof. intros [Hh _]. split; [exact Hh|done]. Qed.

Lemma identity_range e source : event_in_range e -> event_in_range (make_identity_diagnostic e source).
Proof. intros [(H1 & H2 & H3 & _) _]. split; [|done]. unfold header_in_range, in_u in *. cbn. split_and!; try done; lia. Qed.

Lemma note_identity_range st e :
  event_in_range e -> Forall event_in_range (note_identity st e).2.
Proof.
  intros He. unfold note_identity. destruct (unavailable_identity_source e) as [source|]; [|done].
  case_bool_decide; [done|]. by apply Forall_singleton, identity_range.
Qed.

Lemma observe_range st d : event_in_range (d_event d) -> Forall event_in_range (observe st d).2.
Proof.
  intros He. unfold observe.
  assert (Hpre : Forall event_in_range (before_observation st (d_event d) (d_authority d)).2).
  { unfold before_observation. pose proof (note_identity_range st _ He) as Hn.
    destruct (note_identity st (d_event d)) as [st1 em]. destruct (d_authority d); [|done].
    destruct (h_process_ref _) as [r|]; [|done]. destruct (is_process_start _); [done|].
    case_bool_decide; [done|]. apply Forall_app. split; [done|].
    by apply Forall_singleton, process_start_range. }
  destruct (before_observation st (d_event d) (d_authority d)) as [st1 pre]. cbn in *.
  apply Forall_app. split; [done|]. by apply Forall_singleton.
Qed.

Lemma stream_range `{Base64} now inputs :
  (forall n, in_u 64 (now n)) ->
  (forall e, Synthesized e ∈ inputs -> event_in_range e) ->
  forall life rejections, Forall event_in_range (stream now inputs life rejections).2.
Proof.
  intros Hn. induction inputs as [|i ins IH]; intros Hs life rej; cbn; [done|].
  assert (Hc : Forall event_in_range (contributes now i life rej).2).
  { destruct i as [raw|e]; cbn.
    - destruct (deserialize_with_authority raw) as [d|m] eqn:E; cbn.
      + pose proof (observe_range life d (decoded_range _ _ E)) as Ho. by destruct (observe life d).
      + apply Forall_singleton. split; [by apply sentinel_range|done].
    - apply Forall_singleton, Hs. apply elem_of_cons. by left. }
  destruct (contributes now i life rej) as [[life1 rej1] out1]. cbn in Hc.
  assert (Hs' : forall e, Synthesized e ∈ ins -> event_in_range e)
    by (intros e He; apply Hs, elem_of_cons; by right).
  specialize (IH Hs' life1 rej1). destruct (stream now ins life1 rej1) as [[life2 rej2] out2].
  cbn in *. by apply Forall_app.
Qed.
