(* ===== verification/Serializer.v ===== *)
(** * The line writer (bloodhound/src/serializer.rs)

    [Sequencer] treats a written line as one fact.  This file goes down to the
    bytes of stdout: [serde_json::to_writer] hands the text of an event to a
    [LineWriter] in pieces, a line end follows, and the line writer passes
    bytes on to stdout as its documentation says: everything up to the last
    line end before it returns, the rest when it likes, and on dropping what
    it still holds.  How much stdout takes, and when it fails, is a list of
    answers.  The text of an event is serde's and a parameter. *)

From S2P Require Import Prelude Layout Records Common Json Event Usdt Deserializer Lifecycle Sequencer.

Local Open Scope string_scope.
Local Open Scope nat_scope.
Local Open Scope list_scope.

(** [b'\n'] *)
Definition LF : byte := Byte.x0a.

(** ** [std::io::LineWriter] *)

(** One call of the writer: it succeeds and at least [n] bytes have gone
    through, or it fails after [n] bytes, keeping [kept] of the others. *)
Inductive Answer : Type :=
| Took (n : nat)
| Broke (n kept : nat).

Record LineWriter : Type := mkWriter {
  out : list byte;       (* what stdout took *)
  buf : list byte;       (* what the writer holds *)
  answers : list Answer }.

Definition line_writer (answers : list Answer) : LineWriter := mkWriter [] [] answers.

(** The number of bytes up to and including the last line end. *)
Fixpoint complete (bs : list byte) : nat :=
  match bs with
  | [] => 0
  | b :: r =>
      match complete r with
      | S n => S (S n)
      | O => if bool_decide (b = LF) then 1 else 0
      end
  end.

(** Pass bytes on: at least [must] of the pending ones when the call succeeds. *)
Definition pass (pending : list byte) (must : nat) (w : LineWriter) : result unit * LineWriter :=
  match default (Took 0) (head (answers w)) with
  | Took n =>
      let n := must `max` n in
      (Ok tt, mkWriter (out w ++ take n pending) (drop n pending) (tail (answers w)))
  | Broke n kept =>
      (Err "write failed",
       mkWriter (out w ++ take n pending) (take kept (drop n pending)) (tail (answers w)))
  end.

(** [write_all] of the line writer *)
Definition put (bs : list byte) (w : LineWriter) : result unit * LineWriter :=
  pass (buf w ++ bs) (complete (buf w ++ bs)) w.

(** [flush] of the line writer *)
Definition put_flush (w : LineWriter) : result unit * LineWriter :=
  pass (buf w) (length (buf w)) w.

(** Dropping it: a flush whose error is ignored. *)
Definition close (w : LineWriter) : LineWriter := (put_flush w).2.

(** ** [Serializer] *)

Section Serializer.
(** The pieces [serde_json::to_writer] writes for an event. *)
Context (to_writer : BehaviorEvent -> list (list byte)).

Fixpoint put_all (pieces : list (list byte)) (w : LineWriter) : result unit * LineWriter :=
  match pieces with
  | [] => (Ok tt, w)
  | p :: pieces =>
      match put p w with
      | (Ok _, w) => put_all pieces w
      | (Err m, w) => (Err m, w)
      end
  end.

Definition write_event (e : BehaviorEvent) (w : LineWriter) : result unit * LineWriter :=
  match put_all (to_writer e) w with
  | (Ok _, w) => put [LF] w
  | (Err m, w) => (Err m, w)
  end.

(** The events of a run, one after the other, up to the first error. *)
Fixpoint write_events (es : list BehaviorEvent) (w : LineWriter) : result unit * LineWriter :=
  match es with
  | [] => (Ok tt, w)
  | e :: es =>
      match write_event e w with
      | (Ok _, w) => write_events es w
      | (Err m, w) => (Err m, w)
      end
  end.

(** Those of them that were written. *)
Fixpoint written (es : list BehaviorEvent) (w : LineWriter) : list BehaviorEvent :=
  match es with
  | [] => []
  | e :: es => match write_event e w with (Ok _, w) => e :: written es w | (Err _, _) => [] end
  end.

(** The line of an event, and a file of lines. *)
Definition line_of (e : BehaviorEvent) : list byte := concat (to_writer e) ++ [LF].
Definition ndjson (es : list BehaviorEvent) : list byte := concat (line_of <$> es).

(** ** The writer keeps the order of the bytes *)

Lemma complete_le bs : complete bs <= length bs.
Proof.
  induction bs as [|b bs IH]; cbn; [done|]. destruct (complete bs); [|lia].
  case_bool_decide; lia.
Qed.

Lemma complete_end bs : complete (bs ++ [LF]) = S (length bs).
Proof. induction bs as [|b bs IH]; cbn; [done|]. by rewrite IH. Qed.

(** After a call that succeeded nothing was lost or reordered. *)
Lemma pass_ok pending must w w' :
  pass pending must w = (Ok tt, w') ->
  out w' ++ buf w' = out w ++ pending /\ length (buf w') <= length pending - must.
Proof.
  unfold pass. destruct (default _ _) as [n|n kept]; [|done]. intros [= <-]. cbn.
  rewrite <- app_assoc, take_drop, length_drop. split; [done|lia].
Qed.

(** After a call that failed, stdout and the writer hold a prefix. *)
Lemma pass_err pending must w m w' :
  pass pending must w = (Err m, w') ->
  m = "write failed" /\ out w `prefix_of` out w' /\
  out w' ++ buf w' `prefix_of` out w ++ pending.
Proof.
  unfold pass. destruct (default _ _) as [n|n kept]; [done|]. intros [= <- <-]. cbn.
  split_and!; [done|by apply prefix_app_r|].
  rewrite <- app_assoc. apply prefix_app. rewrite <- (take_drop n pending) at 3.
  apply prefix_app, prefix_take.
Qed.

Lemma put_ok bs w w' :
  put bs w = (Ok tt, w') -> out w' ++ buf w' = out w ++ buf w ++ bs.
Proof. by intros [H _]%pass_ok. Qed.

Lemma put_all_ok pieces w w' :
  put_all pieces w = (Ok tt, w') -> out w' ++ buf w' = out w ++ buf w ++ concat pieces.
Proof.
  revert w. induction pieces as [|p ps IH]; intros w; cbn.
  - intros [= <-]. by rewrite app_nil_r.
  - destruct (put p w) as [[[]|m] w1] eqn:E; [|done]. intros H%IH.
    rewrite H, app_assoc, (put_ok _ _ _ E). by rewrite <- !app_assoc.
Qed.

Lemma put_all_err pieces w m w' :
  put_all pieces w = (Err m, w') ->
  m = "write failed" /\ out w' ++ buf w' `prefix_of` out w ++ buf w ++ concat pieces.
Proof.
  revert w. induction pieces as [|p ps IH]; intros w; cbn; [done|].
  destruct (put p w) as [[[]|m1] w1] eqn:E.
  - intros [-> H]%IH. split; [done|]. rewrite app_assoc, (put_ok _ _ _ E) in H.
    by rewrite <- !app_assoc in H.
  - intros [= <- <-]. apply pass_err in E as (-> & _ & H). split; [done|].
    etrans; [exact H|]. do 2 apply prefix_app. by apply prefix_app_r.
Qed.

(** An event that was written is on stdout, whole: the writer holds nothing. *)
Lemma write_event_ok e w w' :
  write_event e w = (Ok tt, w') -> out w' = out w ++ buf w ++ line_of e /\ buf w' = [].
Proof.
  unfold write_event. destruct (put_all _ w) as [[[]|m] w1] eqn:E; [|done]. intros H.
  apply put_all_ok in E. apply pass_ok in H as [H Hl].
  assert (buf w' = []) as Hb.
  { apply length_zero_iff_nil. rewrite complete_end, length_app in Hl. cbn in Hl. lia. }
  split; [|done]. rewrite Hb, app_nil_r in H. rewrite H, app_assoc, E. unfold line_of.
  by rewrite <- !app_assoc.
Qed.

Lemma write_event_err e w m w' :
  write_event e w = (Err m, w') ->
  m = "write failed" /\ out w' ++ buf w' `prefix_of` out w ++ buf w ++ line_of e.
Proof.
  unfold write_event, line_of. destruct (put_all _ w) as [[[]|m1] w1] eqn:E.
  - intros (-> & _ & H)%pass_err. split; [done|]. apply put_all_ok in E.
    rewrite app_assoc, E in H. by rewrite <- !app_assoc in H.
  - intros [= <- <-]. apply put_all_err in E as [-> H]. split; [done|]. etrans; [exact H|].
    do 2 apply prefix_app. by apply prefix_app_r.
Qed.

Lemma put_out pieces w : out w `prefix_of` out (put pieces w).2.
Proof. unfold put, pass. destruct (default _ _); cbn; by apply prefix_app_r. Qed.

Lemma put_all_out pieces : forall w, out w `prefix_of` out (put_all pieces w).2.
Proof.
  induction pieces as [|p ps IH]; intros w; cbn; [done|].
  pose proof (put_out p w) as H. destruct (put p w) as [[] w1]; [|done]. etrans; [exact H|apply IH].
Qed.

(** What is on stdout stays there. *)
Lemma write_event_out e w : out w `prefix_of` out (write_event e w).2.
Proof.
  unfold write_event. pose proof (put_all_out (to_writer e) w) as H.
  destruct (put_all _ w) as [[] w1]; [|done]. etrans; [exact H|apply put_out].
Qed.

Lemma close_out w : out w `prefix_of` out (close w) /\ out (close w) `prefix_of` out w ++ buf w.
Proof.
  unfold close, put_flush, pass. destruct (default _ _); cbn; (split; [by apply prefix_app_r|]);
    apply prefix_app, prefix_take.
Qed.

(** The bytes of a run: the lines that were written, then at most the beginning
    of the one that failed. *)
Lemma write_events_framed es : forall w r w',
  buf w = [] -> write_events es w = (r, w') ->
  exists torn, out (close w') = out w ++ ndjson (written es w) ++ torn /\
    ((r = Ok tt /\ written es w = es /\ torn = [] /\ out w' = out w ++ ndjson es /\ buf w' = []) \/
     (exists e rest, r = Err "write failed" /\ es = written es w ++ e :: rest /\
        torn `prefix_of` line_of e)).
Proof.
  induction es as [|e es IH]; intros w r w' Hb; cbn.
  - intros [= <- <-]. exists []. pose proof (close_out w) as [H1 H2].
    rewrite Hb, app_nil_r in H2. cbn. rewrite app_nil_r.
    split; [symmetry; apply prefix_length_eq; [done|by apply prefix_length]|]. left. done.
  - destruct (write_event e w) as [[[]|m] w1] eqn:E.
    + apply write_event_ok in E as [Eo Eb]. rewrite Hb in Eo. intros H.
      apply IH in H as (torn & Ho & Hr); [|done]. exists torn.
      unfold ndjson in *. cbn. rewrite Ho, Eo, <- !app_assoc. split; [done|].
      destruct Hr as [(-> & -> & -> & Hw & ?)|(e' & rest & -> & He & Ht)]; [left|right].
      * split_and!; try done. by rewrite Hw, Eo, <- !app_assoc.
      * exists e', rest. by rewrite <- He.
    + intros [= <- <-]. pose proof (write_event_out e w) as Hp. rewrite E in Hp.
      apply write_event_err in E as [-> H]. rewrite Hb in H. cbn in H, Hp.
      destruct (close_out w1) as [H1 H2].
      destruct (transitivity Hp H1) as [torn Ht]. exists torn. cbn. split; [done|].
      right. exists e, es. split_and!; try done.
      apply (prefix_app_inv (out w)). rewrite <- Ht. by etrans.
Qed.
End Serializer.

(** ** The sequencer is a loop over its stream

    Whatever the writer does, the sequencer writes what the plain loop over
    the ideal stream writes, and fails when it fails. *)

Section Loop.
Context `{Base64} (now : Z -> Z) (writes : list BehaviorEvent -> BehaviorEvent -> bool).

Definition same_lines (r1 r2 : result unit * Sequencer) : Prop :=
  r1.1 = r2.1 /\ lines r1.2 = lines r2.2.

Lemma write_all_same es : forall s t,
  lines s = lines t -> same_lines (write_all writes es s) (write_all writes es t).
Proof.
  induction es as [|e es IH]; intros s t E; cbn; [done|]. unfold write. rewrite E.
  destruct (writes (lines t) e); [|done]. apply IH. done.
Qed.

Lemma write_all_app es1 es2 s :
  write_all writes (es1 ++ es2) s =
  match write_all writes es1 s with
  | (Ok _, s1) => write_all writes es2 s1
  | (Err m, s1) => (Err m, s1)
  end.
Proof.
  revert s. induction es1 as [|e es IH]; intros s; cbn; [done|].
  destruct (write writes e s) as [[] s1]; [apply IH|done].
Qed.

Lemma write_all_one e s : write_all writes [e] s = write writes e s.
Proof. cbn. unfold write. by destruct (writes (lines s) e). Qed.

Lemma accept_as_write_all i s :
  same_lines (accept now writes i s)
    (write_all writes (contributes now i (lifecycle s) (deserialize_rejections s)).2 s).
Proof.
  destruct i as [raw|e]; cbn [accept contributes snd]; [|by rewrite write_all_one].
  unfold accept_raw. destruct (deserialize_with_authority raw) as [d|m].
  2:{ cbn [snd]. rewrite <- write_all_one. by apply write_all_same. }
  unfold observe. destruct (before_observation _ _ _) as [life pre]. cbn -[write_all write].
  rewrite write_all_app.
  pose proof (write_all_same pre (mkSequencer (lines s) life (events_emitted s) (deserialize_rejections s))
                s eq_refl) as [E1 E2].
  destruct (write_all writes pre _) as [[[]|m] s1], (write_all writes pre s) as [[[]|m'] s2];
    cbn in E1, E2; simplify_eq; [|done].
  pose proof (write_all_same [d_event d] s1 s2 E2) as Hs. rewrite !write_all_one in *.
  destruct (write writes (d_event d) s1) as [[[]|m] s3]; [|done]. cbn. done.
Qed.

Lemma accept_all_as_write_all inputs : forall s,
  same_lines (accept_all now writes inputs s)
    (write_all writes (stream now inputs (lifecycle s) (deserialize_rejections s)).2 s).
Proof.
  induction inputs as [|i ins IH]; intros s; cbn; [done|].
  pose proof (accept_as_write_all i s) as [E1 E2]. pose proof (accept_writes now writes i s) as Hw.
  destruct (contributes now i _ _) as [[life1 rej1] out1]. cbn in E1, E2.
  destruct (accept now writes i s) as [[[]|m] s1].
  - destruct (proj2 Hw eq_refl) as (_ & <- & <-). specialize (IH s1).
    destruct (stream now ins _ _) as [[life2 rej2] out2]. cbn in *. rewrite write_all_app.
    destruct (write_all writes out1 s) as [[[]|m'] s2]; simplify_eq/=.
    destruct IH as [I1 I2]. destruct (write_all_same out2 s1 s2 E2) as [J1 J2]. split; congruence.
  - destruct (stream now ins _ _) as [[life2 rej2] out2]. cbn in *. rewrite write_all_app.
    by destruct (write_all writes out1 s) as [[[]|m'] s2]; simplify_eq/=.
Qed.
End Loop.

Section Stdout.
Context `{Base64} (now : Z -> Z) (to_writer : BehaviorEvent -> list (list byte)) (replies : list Answer).

(** The sequencer's writer: it accepts an event when the line writer does, in
    the state the earlier lines left it in. *)
Definition stdout_writes (ls : list BehaviorEvent) (e : BehaviorEvent) : bool :=
  is_ok (write_event to_writer e (write_events to_writer ls (line_writer replies)).2).1.

Lemma write_events_app es1 es2 w :
  write_events to_writer (es1 ++ es2) w =
  match write_events to_writer es1 w with
  | (Ok _, w1) => write_events to_writer es2 w1
  | (Err m, w1) => (Err m, w1)
  end.
Proof.
  revert w. induction es1 as [|e es IH]; intros w; cbn; [done|].
  destruct (write_event to_writer e w) as [[] w1]; [apply IH|done].
Qed.

Lemma write_all_bytes es : forall s w,
  write_events to_writer (lines s) (line_writer replies) = (Ok tt, w) ->
  (write_all stdout_writes es s).1 = (write_events to_writer es w).1 /\
  lines (write_all stdout_writes es s).2 = lines s ++ written to_writer es w.
Proof.
  induction es as [|e es IH]; intros s w Hs; cbn; [by rewrite app_nil_r|].
  assert (Hw : stdout_writes (lines s) e = is_ok (write_event to_writer e w).1).
  { unfold stdout_writes. by rewrite Hs. }
  unfold write. rewrite Hw. destruct (write_event to_writer e w) as [[[]|m] w1] eqn:E; cbn.
  - set (s1 := mkSequencer _ _ _ _). destruct (IH s1 w1) as [I1 I2].
    { cbn. rewrite write_events_app, Hs. cbn. by rewrite E. }
    split; [done|]. rewrite I2. cbn. by rewrite <- app_assoc.
  - apply write_event_err in E as [-> _]. by rewrite app_nil_r.
Qed.

(** The bytes of a run of the sequencer. *)
Lemma stdout_framed inputs :
  let ideal := (stream now inputs synth_new 0%Z).2 in
  let '(r, s) := accept_all now stdout_writes inputs seq_new in
  let w := (write_events to_writer ideal (line_writer replies)).2 in
  exists torn, out (close w) = ndjson to_writer (lines s) ++ torn /\
    ((r = Ok tt /\ lines s = ideal /\ torn = [] /\ out w = ndjson to_writer ideal /\ buf w = []) \/
     (exists e rest, r = Err "write failed" /\ ideal = lines s ++ e :: rest /\
        torn `prefix_of` line_of to_writer e)).
Proof.
  intros ideal. destruct (accept_all now stdout_writes inputs seq_new) as [r s] eqn:Ea. intros w.
  pose proof (accept_all_as_write_all now stdout_writes inputs seq_new) as [H1 H2].
  rewrite Ea in H1, H2. change (stream _ _ _ _).2 with ideal in H1, H2.
  destruct (write_all_bytes ideal seq_new (line_writer replies) eq_refl) as [B1 B2].
  cbn in H1, H2, B2. rewrite B1 in H1. rewrite B2 in H2. subst w.
  destruct (write_events to_writer ideal (line_writer replies)) as [rb w'] eqn:Ew.
  apply write_events_framed in Ew; [|done]. cbn in *. by rewrite H1, H2.
Qed.

(** C2: down to the bytes, and whatever stdout does: the output of a run is the
    NDJSON text of the lines the sequencer counts as written, followed by at
    most the beginning of the one event whose write failed.  Those lines are
    the first of the ideal stream.  When nothing failed every event of the
    stream is on stdout as soon as it was accepted, with nothing left in the
    buffer. *)
Theorem stdout_bytes_framed inputs :
  let ideal := (stream now inputs synth_new 0%Z).2 in
  let '(r, s) := accept_all now stdout_writes inputs seq_new in
  let w := (write_events to_writer ideal (line_writer replies)).2 in
  exists torn, out (close w) = ndjson to_writer (lines s) ++ torn /\
    ((r = Ok tt /\ lines s = ideal /\ torn = [] /\ out w = ndjson to_writer ideal /\ buf w = []) \/
     (exists e rest, r = Err "write failed" /\ ideal = lines s ++ e :: rest /\
        torn `prefix_of` line_of to_writer e)).
Proof. apply stdout_framed. Qed.
End Stdout.
