(* ===== verification/Health.v ===== *)
(** * Loss accounting (heartbeat.rs, drop_counter.rs, capture_health.rs)

    The tasks that turn kernel counters into events: the drop-counter bridge,
    the periodic heartbeat with its cursor, and the collection monitors.  An
    asynchronous loop is a function of the sequence of outcomes its [select!]
    saw: a counter sample with the result of the bounded send, or the stop
    signal. *)

From S2P Require Import Prelude Common Json Event.

Local Open Scope string_scope.
Local Open Scope Z_scope.
Local Open Scope list_scope.

(** The numeric argument [key] of an event. *)
Definition arg_num (key : string) (e : BehaviorEvent) : Z :=
  default 0 ((be_args e ≫= json_get key) ≫= as_u64).

Fixpoint sum_num (key : string) (es : list BehaviorEvent) : Z :=
  match es with [] => 0 | e :: r => arg_num key e + sum_num key r end.

Lemma sum_num_app key a b : sum_num key (a ++ b) = sum_num key a + sum_num key b.
Proof. induction a as [|e a IH]; [done|]. cbn [app sum_num]. rewrite IH. lia. Qed.

Lemma sum_num_some key e : sum_num key (option_list (Some e)) = arg_num key e.
Proof. change (arg_num key e + 0 = arg_num key e). lia. Qed.

Lemma as_u64_num z : in_u 64 z -> as_u64 (JNum z) = Some z.
Proof.
  intros [H1 H2]. unfold as_u64, U64_MAX.
  rewrite (proj2 (Z.leb_le 0 z)), (proj2 (Z.leb_le z _)) by (cbn in H2; lia). done.
Qed.

(** ** The drop counter *)

(** [values.iter().sum()] over the per-CPU slots of a u64 counter *)
Definition percpu_sum (values : list Z) : Z := wrap 64 (foldr Z.add 0 values).

(** [BpfDropCountReader::read_total]; a failed map read is an error. *)
Definition read_total (slots : option (list Z)) : result Z :=
  match slots with
  | Some values => Ok (percpu_sum values)
  | None => Err "read DROP_COUNT per-cpu map"
  end.

(** One tick of [bridge_bpf_drop_counter]: a failed read keeps the counter. *)
Definition bridge_tick (counter : Z) (slots : option (list Z)) : Z :=
  match read_total slots with Ok total => total | Err _ => counter end.

(** The bridge until it is stopped; a zero interval disables it. *)
Definition bridge_bpf_drop_counter (interval : Z) (counter : Z) (ticks : list (option (list Z)))
    : Z :=
  if interval =? 0 then counter else foldl bridge_tick counter ticks.

(** One tick of [poll_drop_counter]: the new [last_count] and the warning. *)
Definition poll_tick (last_count current_count : Z) : Z * option (Z * Z) :=
  let delta := wrapping_sub current_count last_count in
  if 0 <? delta then (current_count, Some (delta, current_count)) else (last_count, None).

(** ** Heartbeats *)

Record Cursor : Type := mkCursor { c_drops : Z; c_emitted : Z }.

(** [Cursor::default()] *)
Definition cursor_default : Cursor := mkCursor 0 0.

Definition build_heartbeat (now drops_delta drops_total emitted_delta : Z) : BehaviorEvent :=
  let args := obj [("drop_count_delta", JNum drops_delta);
                   ("drop_count_total", JNum drops_total);
                   ("events_emitted_delta", JNum emitted_delta)] in
  let args :=
    if 0 <? drops_total then
      json_insert "run_prefix_incomplete" (JBool true)
        (json_insert "reason_code" (JStr "ring_buffer_overflow") args)
    else args in
  let args := if 0 <? drops_delta then json_insert "gap_detected" (JBool true) args else args in
  mkEvent (sentinel_header now) (mkEventType "HEARTBEAT" "heartbeat" "behavior") None
    (Some args) None.

(** How the send of a built heartbeat ended. *)
Inductive SendOutcome : Type := SendStopped | SendClosed | SendOk.

(** One iteration: the stop signal, or a tick that sampled both counters. *)
Inductive HeartbeatStep : Type :=
| HbStop
| HbTick (now now_drops now_emitted : Z) (send : SendOutcome).

(** The loop of [run_heartbeat]: admitted events, the cursor, and whether the
    task returned. *)
Fixpoint heartbeat_loop (steps : list HeartbeatStep) (cursor : Cursor)
    : list BehaviorEvent * Cursor * bool :=
  match steps with
  | [] => ([], cursor, false)
  | HbStop :: _ => ([], cursor, true)
  | HbTick now d e send :: rest =>
      let event := build_heartbeat now (saturating_sub d (c_drops cursor)) d
                     (saturating_sub e (c_emitted cursor)) in
      match send with
      | SendStopped | SendClosed => ([], cursor, true)
      | SendOk =>
          let '(out, final, ret) := heartbeat_loop rest (mkCursor d e) in
          (event :: out, final, ret)
      end
  end.

(** [run_heartbeat]: [None] for a zero interval, otherwise the cursor. *)
Definition run_heartbeat (interval : Z) (steps : list HeartbeatStep)
    : list BehaviorEvent * option Cursor :=
  if interval =? 0 then ([], None)
  else let '(out, cursor, _) := heartbeat_loop steps cursor_default in (out, Some cursor).

(** The kernel counters only grow: the samples of a run are monotone. *)
Fixpoint samples_from (d e : Z) (steps : list HeartbeatStep) : Prop :=
  match steps with
  | [] => True
  | HbStop :: r => samples_from d e r
  | HbTick _ d' e' _ :: r => d <= d' < 2 ^ 64 /\ e <= e' < 2 ^ 64 /\ samples_from d' e' r
  end.

Lemma heartbeat_nums now dd dt ed :
  in_u 64 dd -> in_u 64 dt -> in_u 64 ed ->
  arg_num "drop_count_delta" (build_heartbeat now dd dt ed) = dd /\
  arg_num "drop_count_total" (build_heartbeat now dd dt ed) = dt /\
  arg_num "events_emitted_delta" (build_heartbeat now dd dt ed) = ed.
Proof.
  intros H1 H2 H3. unfold arg_num, build_heartbeat. cbn [be_args mbind option_bind].
  destruct (0 <? dt), (0 <? dd); json_simpl; cbn [mbind option_bind];
    split_and!; by rewrite as_u64_num.
Qed.

Lemma saturating_sub_exact a b : b <= a -> saturating_sub a b = a - b.
Proof. unfold saturating_sub; lia. Qed.

Lemma heartbeat_loop_sums steps : forall c out final ret,
  0 <= c_drops c -> 0 <= c_emitted c -> samples_from (c_drops c) (c_emitted c) steps ->
  heartbeat_loop steps c = (out, final, ret) ->
  sum_num "drop_count_delta" out = c_drops final - c_drops c /\
  sum_num "events_emitted_delta" out = c_emitted final - c_emitted c /\
  c_drops c <= c_drops final /\ c_emitted c <= c_emitted final.
Proof.
  induction steps as [|[|now d e send] steps IH]; intros c out final ret Hd He Hs E;
    cbn in Hs, E; try (simplify_eq; cbn; lia).
  destruct Hs as (Hd' & He' & Hs). destruct send; try (simplify_eq; cbn; lia).
  destruct (heartbeat_loop steps (mkCursor d e)) as [[out' final'] ret'] eqn:El.
  specialize (IH (mkCursor d e) out' final' ret'). cbn in IH.
  destruct IH as (S1 & S2 & L1 & L2); [lia|lia|done|done|].
  simplify_eq. cbn [sum_num].
  rewrite !saturating_sub_exact by lia.
  destruct (heartbeat_nums now (d - c_drops c) d (e - c_emitted c)) as (N1 & _ & N3);
    unfold in_u; lia.
Qed.

(** Gap and incompleteness flags say exactly what the numbers say. *)
Theorem heartbeat_flags now dd dt ed :
  (json_get "gap_detected" <$> be_args (build_heartbeat now dd dt ed) =
     Some (if 0 <? dd then Some (JBool true) else None)) /\
  (json_get "run_prefix_incomplete" <$> be_args (build_heartbeat now dd dt ed) =
     Some (if 0 <? dt then Some (JBool true) else None)).
Proof.
  unfold build_heartbeat. cbn [be_args fmap option_fmap option_map].
  destruct (0 <? dt), (0 <? dd); json_simpl; done.
Qed.

(** ** Collection monitors *)

Definition collection_diagnostic (now : Z) (scope reason : string) (delta total : option Z)
    : BehaviorEvent :=
  let num o := match o with Some z => JNum z | None => JNull end in
  mkEvent (sentinel_header now)
    (mkEventType "DIAGNOSTIC" (scope +:+ ".collection") "behavior") None
    (Some (obj [("reason_code", JStr reason); ("failure_count_delta", num delta);
                ("failure_count_total", num total); ("run_prefix_incomplete", JBool true);
                ("scope", JStr scope); ("sampling", JStr "userspace_poll")])) None.

(** One counter slot in one pass: the new baseline and the event to send.
    [None] is a failed map read. *)
Definition slot_step (now : Z) (scope reason : string) (previous : Z)
    (reading : option (list Z)) : Z * option BehaviorEvent :=
  match reading with
  | Some values =>
      let total := percpu_sum values in
      let delta := saturating_sub total previous in
      (total,
       if delta =? 0 then None
       else Some (collection_diagnostic now scope reason (Some delta) (Some total)))
  | None =>
      (previous, Some (collection_diagnostic now scope "counter_read_failed" None None))
  end.

(** One pass over the reasons.  [admits n] tells whether the [n]-th send of the
    pass succeeded; a failed send ends the monitor. *)
Fixpoint monitor_pass (now : Z) (scope : string) (admits : nat -> bool) (sent : nat)
    (slots : list (string * Z * option (list Z))) : list Z * list BehaviorEvent * bool :=
  match slots with
  | [] => ([], [], true)
  | (reason, previous, reading) :: rest =>
      let '(previous', event) := slot_step now scope reason previous reading in
      match event with
      | None =>
          let '(ps, es, open) := monitor_pass now scope admits sent rest in
          (previous' :: ps, es, open)
      | Some e =>
          if admits sent then
            let '(ps, es, open) := monitor_pass now scope admits (S sent) rest in
            (previous' :: ps, e :: es, open)
          else ([], [], false)
      end
  end.

(** One iteration of the monitor's loop: the clock, the readings, the send
    outcomes and whether the shutdown signal made it the final sample. *)
Record MonitorStep : Type := mkMonitorStep {
  ms_now : Z; ms_readings : list (option (list Z)); ms_admit : nat -> bool; ms_final : bool }.

Fixpoint monitor_loop (scope : string) (reasons : list string) (previous : list Z)
    (steps : list MonitorStep) : list Z * list BehaviorEvent :=
  match steps with
  | [] => (previous, [])
  | s :: rest =>
      let '(ps, es, open) :=
        monitor_pass (ms_now s) scope (ms_admit s) 0
          (zip (zip reasons previous) (ms_readings s)) in
      if negb open || ms_final s then (ps, es)
      else let '(ps', es') := monitor_loop scope reasons ps rest in (ps', es ++ es')
  end.

(** [monitor]: baselines start at zero. *)
Definition monitor (scope : string) (reasons : list string) (steps : list MonitorStep)
    : list BehaviorEvent :=
  (monitor_loop scope reasons (replicate (length reasons) 0) steps).2.

Lemma diagnostic_nums now scope reason d t :
  in_u 64 d -> in_u 64 t ->
  arg_num "failure_count_delta" (collection_diagnostic now scope reason (Some d) (Some t)) = d /\
  arg_num "failure_count_total" (collection_diagnostic now scope reason (Some d) (Some t)) = t.
Proof.
  intros. unfold arg_num. cbn [collection_diagnostic be_args mbind option_bind].
  json_simpl. cbn [mbind option_bind]. split; by rewrite as_u64_num.
Qed.

Lemma percpu_sum_range vs : in_u 64 (percpu_sum vs).
Proof. apply wrap_bounds; lia. Qed.

(** *** A pass is the slots side by side *)
(** Every event of a pass is the diagnostic of one slot, whatever the sends do. *)
Lemma monitor_pass_events now scope admits slots : forall sent e,
  e ∈ (monitor_pass now scope admits sent slots).1.2 ->
  exists reason previous reading,
    (reason, previous, reading) ∈ slots /\
    (slot_step now scope reason previous reading).2 = Some e.
Proof.
  induction slots as [|[[reason previous] reading] rest IH]; intros sent e He; cbn in He.
  - by apply elem_of_nil in He.
  - destruct (slot_step now scope reason previous reading) as [p' [e'|]] eqn:Es.
    + destruct (admits sent); [|by apply elem_of_nil in He].
      specialize (IH (S sent) e).
      destruct (monitor_pass now scope admits (S sent) rest) as [[ps es] open]. cbn in *.
      apply elem_of_cons in He as [->|He].
      * exists reason, previous, reading. rewrite Es. split; [by left|done].
      * destruct (IH He) as (? & ? & ? & ? & ?). do 3 eexists. split; [by right|done].
    + specialize (IH sent e).
      destruct (monitor_pass now scope admits sent rest) as [[ps es] open]. cbn in *.
      destruct (IH He) as (? & ? & ? & ? & ?). do 3 eexists. split; [by right|done].
Qed.

(** What a reported loss says: an unreadable counter is null and never zero; a
    readable one has a positive delta. *)
Definition honest (e : BehaviorEvent) : Prop :=
  (json_get "failure_count_total" <$> be_args e = Some (Some JNull) /\
   json_get "failure_count_delta" <$> be_args e = Some (Some JNull)) \/
  (exists d t, 0 < d <= t /\
     json_get "failure_count_total" <$> be_args e = Some (Some (JNum t)) /\
     json_get "failure_count_delta" <$> be_args e = Some (Some (JNum d))).

Lemma slot_step_honest now scope reason previous reading e :
  0 <= previous -> (slot_step now scope reason previous reading).2 = Some e -> honest e.
Proof.
  intros Hp. unfold slot_step. destruct reading as [vs|]; cbn [snd].
  - destruct (Z.eqb_spec (saturating_sub (percpu_sum vs) previous) 0); [done|].
    intros [= <-]. right. unfold saturating_sub in *.
    exists (Z.max 0 (percpu_sum vs - previous)), (percpu_sum vs).
    split; [pose proof (percpu_sum_range vs); unfold in_u in *; lia|].
    cbn [collection_diagnostic be_args fmap option_fmap option_map]. json_simpl. done.
  - intros [= <-]. left. cbn [collection_diagnostic be_args fmap option_fmap option_map].
    json_simpl. done.
Qed.

Lemma monitor_pass_nonneg now scope admits slots : forall sent,
  Forall (fun s => 0 <= s.1.2) slots ->
  Forall (fun p => 0 <= p) (monitor_pass now scope admits sent slots).1.1.
Proof.
  induction slots as [|[[reason previous] reading] rest IH]; intros sent Hs; [constructor|].
  apply Forall_cons in Hs as [Hp Hs]. cbn [monitor_pass].
  assert (Hq : 0 <= (slot_step now scope reason previous reading).1).
  { unfold slot_step. destruct reading; cbn; [apply percpu_sum_range|done]. }
  destruct (slot_step now scope reason previous reading) as [p' [e'|]].
  - destruct (admits sent); [|constructor]. specialize (IH (S sent) Hs).
    destruct (monitor_pass now scope admits (S sent) rest) as [[ps es] open].
    by constructor.
  - specialize (IH sent Hs). destruct (monitor_pass now scope admits sent rest) as [[ps es] open].
    by constructor.
Qed.

Lemma zip_slots_nonneg (reasons : list string) (ps : list Z) (rs : list (option (list Z))) :
  Forall (fun p => 0 <= p) ps ->
  Forall (fun s : string * Z * option (list Z) => 0 <= s.1.2) (zip (zip reasons ps) rs).
Proof.
  intros H. apply Forall_forall. intros [[r p] rd] Hin.
  apply elem_of_zip_l, elem_of_zip_r in Hin. cbn. by eapply Forall_forall in H.
Qed.

Lemma monitor_loop_honest scope reasons steps : forall previous,
  Forall (fun p => 0 <= p) previous ->
  Forall honest (monitor_loop scope reasons previous steps).2.
Proof.
  induction steps as [|s steps IH]; intros previous Hp; [constructor|]. cbn [monitor_loop].
  pose proof (zip_slots_nonneg reasons previous (ms_readings s) Hp) as Hz.
  pose proof (monitor_pass_nonneg (ms_now s) scope (ms_admit s) _ 0%nat Hz) as Hn.
  pose proof (fun e => monitor_pass_events (ms_now s) scope (ms_admit s)
                (zip (zip reasons previous) (ms_readings s)) 0 e) as He.
  destruct (monitor_pass _ _ _ _ _) as [[ps es] open]. cbn [fst snd] in *.
  assert (Hes : Forall honest es).
  { apply Forall_forall. intros e Hin. destruct (He e Hin) as (r & p & rd & Hs & E).
    eapply slot_step_honest; [|exact E]. eapply Forall_forall in Hz; [|exact Hs]. exact Hz. }
  destruct (negb open || ms_final s); [done|].
  specialize (IH ps Hn). destruct (monitor_loop scope reasons ps steps) as [ps' es'].
  by apply Forall_app.
Qed.

(** Whatever the counters, the read failures and the sends do, a
    monitor never reports a zero delta and never a number for an unreadable
    counter. *)
Theorem monitor_reports_honest scope reasons steps :
  Forall honest (monitor scope reasons steps).
Proof. apply monitor_loop_honest, Forall_replicate. done. Qed.

(** ** The deltas of one counter *)

Definition reason_is (reason : string) (e : BehaviorEvent) : bool :=
  match be_args e ≫= json_get "reason_code" with
  | Some (JStr r) => String.eqb r reason
  | _ => false
  end.

Definition delta_for (reason : string) (e : BehaviorEvent) : Z :=
  if reason_is reason e then arg_num "failure_count_delta" e else 0.

(** What the events say was lost for one reason. *)
Fixpoint reported (reason : string) (es : list BehaviorEvent) : Z :=
  match es with [] => 0 | e :: r => delta_for reason e + reported reason r end.

Lemma reported_app reason a b : reported reason (a ++ b) = reported reason a + reported reason b.
Proof. induction a as [|e a IH]; [done|]. cbn [app reported]. rewrite IH. lia. Qed.

Lemma delta_for_diagnostic now scope r reason d t :
  in_u 64 d -> in_u 64 t ->
  delta_for reason (collection_diagnostic now scope r (Some d) (Some t)) =
  if String.eqb r reason then d else 0.
Proof.
  intros Hd Ht. unfold delta_for, reason_is.
  destruct (diagnostic_nums now scope r d t Hd Ht) as [-> _].
  cbn [collection_diagnostic be_args mbind option_bind]. json_simpl. done.
Qed.

Lemma delta_for_unreadable now scope r reason :
  delta_for reason (collection_diagnostic now scope r None None) = 0.
Proof.
  unfold delta_for, arg_num. cbn [collection_diagnostic be_args mbind option_bind].
  json_simpl. cbn [mbind option_bind as_u64 default]. by destruct (reason_is _ _).
Qed.

(** What one slot reports in one pass. *)
Definition slot_delta (p : Z) (rd : option (list Z)) : Z :=
  match rd with Some vs => saturating_sub (percpu_sum vs) p | None => 0 end.

Lemma slot_step_reported now scope r reason p rd :
  0 <= p ->
  reported reason (option_list (slot_step now scope r p rd).2) =
  if String.eqb r reason then slot_delta p rd else 0.
Proof.
  intros Hp. destruct rd as [vs|]; cbn [slot_step slot_delta snd].
  - pose proof (percpu_sum_range vs) as Hr. unfold saturating_sub, in_u in *.
    destruct (Z.eqb_spec (Z.max 0 (percpu_sum vs - p)) 0) as [->|Hn];
      [by destruct (String.eqb r reason)|].
    change (reported reason (option_list (Some ?e))) with (delta_for reason e + 0).
    rewrite delta_for_diagnostic by (unfold in_u; lia). lia.
  - change (reported reason (option_list (Some ?e))) with (delta_for reason e + 0).
    rewrite delta_for_unreadable. by destruct (String.eqb r reason).
Qed.

Lemma omap_cons_app {A B} (f : A -> option B) x l :
  omap f (x :: l) = option_list (f x) ++ omap f l.
Proof. cbn. by destruct (f x). Qed.

Lemma pass_reported_absent now scope reason slots :
  Forall (fun s : string * Z * option (list Z) => 0 <= s.1.2 /\ s.1.1 <> reason) slots ->
  reported reason (omap (fun s => (slot_step now scope s.1.1 s.1.2 s.2).2) slots) = 0.
Proof.
  induction 1 as [|[[r p] rd] slots [Hp Hr] _ IH]; [done|].
  rewrite omap_cons_app, reported_app, IH. cbn [fst snd] in *.
  rewrite slot_step_reported by done.
  destruct (String.eqb_spec r reason); [done|lia].
Qed.

(** In a pass, the events of one reason come from the slot of that reason. *)
Lemma pass_reported now scope reason p rd slots : forall i,
  NoDup (fst ∘ fst <$> slots) ->
  Forall (fun s : string * Z * option (list Z) => 0 <= s.1.2) slots ->
  slots !! i = Some (reason, p, rd) ->
  reported reason (omap (fun s => (slot_step now scope s.1.1 s.1.2 s.2).2) slots) =
  slot_delta p rd.
Proof.
  induction slots as [|[[r q] rq] slots IH]; intros i Hd Hp Hi; [done|].
  rewrite fmap_cons, NoDup_cons in Hd. destruct Hd as [Hnin Hd].
  apply Forall_cons in Hp as [Hq Hp].
  rewrite omap_cons_app, reported_app. cbn [fst snd compose] in *.
  rewrite slot_step_reported by done. destruct i as [|i]; cbn in Hi.
  - simplify_eq. rewrite String.eqb_refl.
    rewrite pass_reported_absent; [lia|]. apply Forall_forall. intros s Hs. split.
    + eapply Forall_forall in Hp; done.
    + intros <-. apply Hnin, list_elem_of_fmap. by exists s.
  - rewrite (IH i Hd Hp Hi). destruct (String.eqb_spec r reason) as [->|]; [|lia].
    exfalso. apply Hnin, list_elem_of_fmap. exists (reason, p, rd). split; [done|].
    by eapply list_elem_of_lookup_2.
Qed.

(** The passes a monitor makes: up to the one that saw the shutdown signal. *)
Fixpoint sampled (steps : list MonitorStep) : list MonitorStep :=
  match steps with
  | [] => []
  | s :: rest => s :: (if ms_final s then [] else sampled rest)
  end.

(** The successive readings of the [i]-th counter. *)
Definition column (i : nat) (steps : list MonitorStep) : list (option (list Z)) :=
  (fun s => mjoin (ms_readings s !! i)) <$> sampled steps.

(** The readable totals of a counter never decrease. *)
Fixpoint totals_from (p : Z) (readings : list (option (list Z))) : Prop :=
  match readings with
  | [] => True
  | None :: r => totals_from p r
  | Some vs :: r => p <= percpu_sum vs /\ totals_from (percpu_sum vs) r
  end.

(** The last total that was read, or the baseline. *)
Definition last_total (p : Z) (readings : list (option (list Z))) : Z :=
  foldl (fun acc r => match r with Some vs => percpu_sum vs | None => acc end) p readings.

(** A step whose sends all succeed and which read every counter. *)
Definition admitted (n : nat) (s : MonitorStep) : Prop :=
  (forall k, ms_admit s k = true) /\ length (ms_readings s) = n.

Lemma monitor_pass_admitted now scope admits slots : forall sent,
  (forall k, admits k = true) ->
  monitor_pass now scope admits sent slots =
  ((fun s => (slot_step now scope s.1.1 s.1.2 s.2).1) <$> slots,
   omap (fun s => (slot_step now scope s.1.1 s.1.2 s.2).2) slots, true).
Proof.
  induction slots as [|[[reason previous] reading] rest IH]; intros sent Ha; [done|].
  cbn [monitor_pass fmap list_fmap omap list_omap fst snd].
  destruct (slot_step now scope reason previous reading) as [p' [e|]];
    [rewrite Ha|]; by rewrite IH.
Qed.

Lemma zip_slots_lookup (reasons : list string) (ps : list Z) (rs : list (option (list Z)))
    i reason p rd :
  reasons !! i = Some reason -> ps !! i = Some p -> rs !! i = Some rd ->
  zip (zip reasons ps) rs !! i = Some (reason, p, rd).
Proof.
  intros H1 H2 H3. apply lookup_zip_with_Some. exists (reason, p), rd. split; [done|].
  split; [|done]. apply lookup_zip_with_Some. by exists reason, p.
Qed.

Lemma zip_slots_reasons (reasons : list string) (ps : list Z) (rs : list (option (list Z))) :
  length ps = length reasons -> length rs = length reasons ->
  fst ∘ fst <$> zip (zip reasons ps) rs = reasons.
Proof.
  intros Hp Hr. rewrite list_fmap_compose, fst_zip by (rewrite length_zip_with; lia).
  by rewrite fst_zip by lia.
Qed.

Lemma monitor_loop_reported scope reasons i reason steps : forall previous p,
  NoDup reasons -> reasons !! i = Some reason ->
  length previous = length reasons -> previous !! i = Some p ->
  Forall (fun p => 0 <= p) previous ->
  Forall (admitted (length reasons)) steps -> totals_from p (column i steps) ->
  reported reason (monitor_loop scope reasons previous steps).2 =
  last_total p (column i steps) - p.
Proof.
  induction steps as [|s steps IH]; intros previous p Hd Hi Hl Hp Hnn Ha Ht; [cbn; lia|].
  apply Forall_cons in Ha as [[Has Hlen] Ha]. cbn [monitor_loop].
  set (slots := zip (zip reasons previous) (ms_readings s)).
  pose proof (zip_slots_nonneg reasons previous (ms_readings s) Hnn) as Hz.
  pose proof (monitor_pass_nonneg (ms_now s) scope (ms_admit s) _ 0%nat Hz) as Hn.
  fold slots in Hz, Hn. rewrite monitor_pass_admitted in Hn |- * by done.
  destruct (lookup_lt_is_Some_2 (ms_readings s) i) as [rd Hrd];
    [apply lookup_lt_Some in Hi; lia|].
  pose proof (zip_slots_lookup _ _ _ _ _ _ _ Hi Hp Hrd) as Hs. fold slots in Hs.
  pose proof (pass_reported (ms_now s) scope reason p rd slots i) as Hpass.
  unfold slots in Hpass at 1. rewrite zip_slots_reasons in Hpass by lia. specialize (Hpass Hd Hz Hs).
  assert (Hp0 : 0 <= p) by (eapply Forall_lookup_1 in Hnn; done).
  unfold column in Ht |- *. cbn [sampled fmap list_fmap] in Ht |- *. rewrite Hrd in Ht |- *.
  set (p' := match rd with Some vs => percpu_sum vs | None => p end).
  assert (Hp' : slot_delta p rd = p' - p /\
                totals_from p' (column i (if ms_final s then [] else steps))).
  { unfold column, slot_delta, p'. destruct rd, (ms_final s); cbn in Ht |- *;
      rewrite ?saturating_sub_exact by lia; split; try lia; try done; apply Ht. }
  destruct Hp' as [Hdelta Ht'].
  cbn [negb orb last_total foldl]. destruct (ms_final s); cbn [snd].
  - rewrite Hpass, Hdelta. done.
  - destruct (monitor_loop scope reasons _ steps) as [ps' es'] eqn:El. cbn [snd].
    rewrite reported_app, Hpass, Hdelta.
    replace es' with (monitor_loop scope reasons
      ((fun s0 => (slot_step (ms_now s) scope s0.1.1 s0.1.2 s0.2).1) <$> slots) steps).2
      by (by rewrite El).
    rewrite (IH _ p' Hd Hi); try done.
    + unfold last_total, column, p'. destruct rd; cbn; lia.
    + rewrite length_fmap. unfold slots. rewrite !length_zip_with. lia.
    + rewrite list_lookup_fmap, Hs. cbn. by destruct rd.
Qed.

(** The deltas a monitor reports for a reason add up to the last
    total it read from that reason's counter: no failure is reported twice and
    none is left out, however many passes coalesce and whichever reads fail. *)
Theorem monitor_deltas_telescope scope reasons i reason steps :
  NoDup reasons -> reasons !! i = Some reason ->
  Forall (admitted (length reasons)) steps -> totals_from 0 (column i steps) ->
  reported reason (monitor scope reasons steps) = last_total 0 (column i steps).
Proof.
  intros Hd Hi Ha Ht. unfold monitor.
  rewrite (monitor_loop_reported scope reasons i reason steps _ 0); try done.
  - lia.
  - apply length_replicate.
  - apply lookup_replicate. split; [done|]. by eapply lookup_lt_Some.
  - by apply Forall_replicate.
Qed.
