(* ===== verification/Tasks.v ===== *)
(** * The tasks [main] starts (bloodhound/src/main.rs, shutdown.rs, drop_counter.rs; bloodhound-ebpf/src/maps.rs)

    Between readiness and the receive loop [main] registers for the signals,
    takes the counter maps out of the loaded object one by one and starts a
    task on each.  The maps are those the object declares.  The signal task
    and [main] run concurrently, so what a signal does is a step relation. *)

From S2P Require Import Prelude Common Json Event Health.

Local Open Scope string_scope.
Local Open Scope Z_scope.
Local Open Scope list_scope.
#[local] Set Warnings "-clear-no-such-hyp".

(** ** The maps of the object (maps.rs) *)

Inductive MapType : Type := RingBufMap | HashMapType | ArrayType | PerCpuArrayType.
#[export] Instance MapType_eq_dec : EqDecision MapType.
Proof. solve_decision. Defined.

(** Type and size: entries, or bytes of a ring buffer. *)
Record MapDecl : Type := mkMap { map_type : MapType; max_entries : Z }.

Definition RING_BUFFER_DEFAULT : Z := 4 * 1024 * 1024.

Definition count (reasons : list string) : Z := len reasons.

(** The ring buffer and the counters. *)
Definition counter_maps : list (string * MapDecl) :=
  [("EVENTS", mkMap RingBufMap RING_BUFFER_DEFAULT);
   ("DROP_COUNT", mkMap PerCpuArrayType 1);
   ("OPENAT_FAILURES", mkMap PerCpuArrayType (count OPENAT_FAILURE_REASONS));
   ("EXEC_FAILURES", mkMap PerCpuArrayType (count EXEC_FAILURE_REASONS));
   ("SYSCALL_FAILURES", mkMap PerCpuArrayType (count SYSCALL_FAILURE_REASONS));
   ("RAW_SYSCALL_FAILURES", mkMap PerCpuArrayType (count RAW_SYSCALL_FAILURE_REASONS));
   ("TTY_FAILURES", mkMap PerCpuArrayType (count TTY_FAILURE_REASONS));
   ("EXIT_FAILURES", mkMap PerCpuArrayType (count EXIT_FAILURE_REASONS))].

(** The invocations in flight. *)
Definition entry_maps : list (string * MapDecl) :=
  [("EXECVE_ENTRY_MAP", mkMap HashMapType SYSCALL_ENTRY_MAP_SIZE);
   ("SYSCALL_ENTRY_MAP", mkMap HashMapType SYSCALL_ENTRY_MAP_SIZE);
   ("RICH_ENTRY_MAP", mkMap HashMapType SYSCALL_ENTRY_MAP_SIZE);
   ("PATH_ENTRY_MAP", mkMap HashMapType SYSCALL_ENTRY_MAP_SIZE);
   ("OPENAT_ENTRY_MAP", mkMap HashMapType SYSCALL_ENTRY_MAP_SIZE);
   ("TTY_READ_ENTRY_MAP", mkMap HashMapType SYSCALL_ENTRY_MAP_SIZE);
   ("EXIT_CLAIMS", mkMap HashMapType EXIT_CLAIM_CAPACITY)].

(** Scratch memory, the bitmaps and the daemon's path. *)
Definition scratch_maps : list (string * MapDecl) :=
  [("PATH_TMP_BUF", mkMap PerCpuArrayType 1); ("OPENAT_TMP_BUF", mkMap PerCpuArrayType 1);
   ("SCRATCH_BUF", mkMap PerCpuArrayType 4); ("ASSEMBLY_BUF", mkMap PerCpuArrayType 1);
   ("SYSCALL_TMP_BUF", mkMap PerCpuArrayType 1); ("EXECVE_TMP_BUF", mkMap PerCpuArrayType 1)].
Definition bitmap_maps : list (string * MapDecl) :=
  [("EXCLUSION_BITMAP", mkMap ArrayType BITMAP_SIZE); ("TIER2_BITMAP", mkMap ArrayType BITMAP_SIZE);
   ("DAEMON_PATH", mkMap ArrayType 1)].

Abbreviation Maps := (gmap string MapDecl).
Definition object_maps : Maps := list_to_map (counter_maps ++ entry_maps ++ scratch_maps ++ bitmap_maps).

(** ** Starting the tasks (main.rs) *)

(** A collection monitor: its scope, its reasons and its map. *)
Record Monitor : Type := mkMonitor { scope : string; reasons : list string; counters : MapDecl }.

Record Tasks : Type := mkTasks { drop_bridge : MapDecl; monitors : list Monitor; ring_buf : MapDecl }.

Inductive start_outcome : Type :=
| TasksErr (msg : string)
| TasksPanic
| TasksStarted (t : Tasks).

(** [bpf.take_map(name).context(..)?] and [PerCpuArray::try_from(map)?] *)
Definition take_counters (name : string) (maps : Maps) : result (MapDecl * Maps) :=
  m ← with_context (maps !! name) (name +:+ " map not found in BPF object");
  if bool_decide (map_type m = PerCpuArrayType) then Ok (m, delete name maps)
  else Err "unexpected map type".

(** What is monitored, in the order the monitors are started. *)
Definition MONITORS : list (string * list string * string) :=
  [("openat", OPENAT_FAILURE_REASONS, "OPENAT_FAILURES");
   ("syscall", SYSCALL_FAILURE_REASONS, "SYSCALL_FAILURES");
   ("raw_syscall", RAW_SYSCALL_FAILURE_REASONS, "RAW_SYSCALL_FAILURES");
   ("tty", TTY_FAILURE_REASONS, "TTY_FAILURES");
   ("exec", EXEC_FAILURE_REASONS, "EXEC_FAILURES");
   ("process_exit", EXIT_FAILURE_REASONS, "EXIT_FAILURES")].

Fixpoint start_monitors (table : list (string * list string * string)) (maps : Maps)
    : result (list Monitor * Maps) :=
  match table with
  | [] => Ok ([], maps)
  | (scope, reasons, name) :: table =>
      '(m, maps) ← take_counters name maps;
      '(ms, maps) ← start_monitors table maps;
      Ok (mkMonitor scope reasons m :: ms, maps)
  end.

(** [bpf.take_map("EVENTS").unwrap()] and [RingBuf::try_from(map)?] come last. *)
Definition start_tasks (maps : Maps) : start_outcome :=
  match take_counters "DROP_COUNT" maps with
  | Err m => TasksErr m
  | Ok (drops, maps) =>
      match start_monitors MONITORS maps with
      | Err m => TasksErr m
      | Ok (ms, maps) =>
          match maps !! "EVENTS" with
          | None => TasksPanic
          | Some ring =>
              if bool_decide (map_type ring = RingBufMap) then TasksStarted (mkTasks drops ms ring)
              else TasksErr "unexpected map type"
          end
      end
  end.

(** [loader::ring_buffer_size], which ran before *)
Definition ring_buffer_found (maps : Maps) : result Z :=
  match maps !! "EVENTS" with
  | Some m =>
      if bool_decide (map_type m = RingBufMap) then Ok (max_entries m)
      else Err "EVENTS ring buffer not found in BPF object"
  | None => Err "EVENTS ring buffer not found in BPF object"
  end.

(** A monitor reads one slot per reason: the map has exactly those. *)
Definition monitor_covers (m : Monitor) : Prop :=
  map_type (counters m) = PerCpuArrayType /\ max_entries (counters m) = len (reasons m).
#[export] Instance monitor_covers_dec m : Decision (monitor_covers m).
Proof. unfold monitor_covers. apply _. Defined.

Lemma take_counters_ok name maps m maps' :
  take_counters name maps = Ok (m, maps') ->
  maps !! name = Some m /\ map_type m = PerCpuArrayType /\ maps' = delete name maps.
Proof.
  unfold take_counters, with_context. destruct (maps !! name) as [m0|]; [|done]. cbn.
  case_bool_decide; [|done]. intros [= <- <-]. done.
Qed.

Lemma start_monitors_keeps table : forall maps ms maps' name,
  start_monitors table maps = Ok (ms, maps') -> name ∉ (snd <$> table) ->
  maps' !! name = maps !! name.
Proof.
  induction table as [|[[sc rs] n] table IH]; intros maps ms maps' name; cbn; [by intros [= _ <-]|].
  destruct (take_counters n maps) as [[m maps1]|] eqn:Et; [|done]. cbn.
  destruct (start_monitors table maps1) as [[ms1 maps2]|] eqn:Em; [|done]. cbn.
  intros [= _ <-] [Hn Ht]%not_elem_of_cons. apply take_counters_ok in Et as (_ & _ & ->).
  rewrite (IH _ _ _ _ Em Ht). by apply lookup_delete_ne.
Qed.

(** The maps the object declares are enough: the tasks start, the ring is the
    one the loader measured, and every monitor has one counter for every reason
    it can report and no other.  Whatever object was loaded, the unchecked
    access to the ring buffer does not panic once its size was read. *)
Theorem tasks_start :
  (exists t, start_tasks object_maps = TasksStarted t /\
     max_entries (drop_bridge t) = 1 /\ ring_buffer_found object_maps = Ok (max_entries (ring_buf t)) /\
     length (monitors t) = 6%nat /\ NoDup (scope <$> monitors t) /\ Forall monitor_covers (monitors t)) /\
  (forall maps size, ring_buffer_found maps = Ok size -> start_tasks maps <> TasksPanic).
Proof.
  split.
  - eexists. split; [vm_compute; reflexivity|]. cbn [drop_bridge monitors ring_buf max_entries].
    split_and!; try (vm_compute; reflexivity); apply (bool_decide_unpack _); vm_compute; exact I.
  - intros maps size Hr. unfold start_tasks.
    destruct (take_counters "DROP_COUNT" maps) as [[drops maps1]|] eqn:Ed; [|done].
    destruct (start_monitors MONITORS maps1) as [[ms maps2]|] eqn:Em; [|done].
    apply take_counters_ok in Ed as (_ & _ & ->).
    apply start_monitors_keeps with (name := "EVENTS") in Em.
    2:{ apply (bool_decide_unpack _). vm_compute. exact I. }
    rewrite Em, lookup_delete_ne by done. unfold ring_buffer_found in Hr.
    destruct (maps !! "EVENTS") as [m|]; [|done]. by case_bool_decide.
Qed.

(** ** Drop warnings (drop_counter.rs) *)

(** [poll_drop_counter] over the values it loads: the warnings, each with the
    new drops and the total, and the last count. *)
Fixpoint poll_drop_counter (last_count : Z) (samples : list Z) : list (Z * Z) * Z :=
  match samples with
  | [] => ([], last_count)
  | current_count :: samples =>
      let '(last_count, warning) := poll_tick last_count current_count in
      let '(warnings, final) := poll_drop_counter last_count samples in
      (option_list warning ++ warnings, final)
  end.

Fixpoint growing (from : Z) (samples : list Z) : Prop :=
  match samples with [] => True | s :: r => from <= s < 2 ^ 64 /\ growing s r end.

Lemma poll_drop_counter_sums samples : forall last_count warnings final,
  in_u 64 last_count -> growing last_count samples ->
  poll_drop_counter last_count samples = (warnings, final) ->
  foldr (fun w n => w.1 + n) 0 warnings = final - last_count /\ final = default last_count (last samples) /\
  Forall (fun w => 0 < w.1) warnings.
Proof.
  induction samples as [|s samples IH]; intros lc warnings final Hl Hg; cbn.
  - intros [= <- <-]. cbn. split_and!; [lia|done|done].
  - cbn in Hg. destruct Hg as [Hs Hg]. unfold in_u in Hl. unfold poll_tick.
    assert (Hd : wrapping_sub s lc = s - lc) by (apply wrap_id; unfold in_u; lia).
    rewrite Hd. destruct (0 <? s - lc) eqn:E.
    + destruct (poll_drop_counter s samples) as [ws f] eqn:Ep. intros [= <- <-].
      apply IH in Ep as (E1 & E2 & E3); [|unfold in_u; lia|done]. cbn. split_and!.
      * lia.
      * rewrite E2. destruct samples; cbn; [done|]. by rewrite last_cons; destruct (last samples).
      * constructor; [cbn; lia|done].
    + apply Z.ltb_ge in E. assert (s = lc) as -> by lia.
      destruct (poll_drop_counter lc samples) as [ws f] eqn:Ep. intros [= <- <-].
      apply IH in Ep as (E1 & E2 & E3); [|unfold in_u; lia|done]. cbn. split_and!; try done.
      rewrite E2. destruct samples; cbn; [done|]. by rewrite last_cons; destruct (last samples).
Qed.

(** While the counter grows, the warnings on stderr account for every drop
    once: each reports new drops, and together they report the last total. *)
Theorem warnings_account samples warnings final :
  growing 0 samples ->
  poll_drop_counter 0 samples = (warnings, final) ->
  foldr (fun w n => w.1 + n) 0 warnings = default 0 (last samples) /\ Forall (fun w => 0 < w.1) warnings.
Proof.
  intros Hg Hp. apply poll_drop_counter_sums in Hp as (E1 & E2 & E3); [|done|done].
  split; [lia|done].
Qed.

(** ** Signals (shutdown.rs) *)

Inductive Signal : Type := SIGTERM | SIGINT.
#[export] Instance Signal_eq_dec : EqDecision Signal.
Proof. solve_decision. Defined.

(** Where the task of [shutdown_signal] is. *)
Inductive Handler : Type :=
| HTerm                 (* about to register for SIGTERM *)
| HInt                  (* about to register for SIGINT *)
| HWait                 (* in select! on both *)
| HSent                 (* broadcast sent, task over *)
| HPanicked.            (* a registration failed *)
#[export] Instance Handler_eq_dec : EqDecision Handler.
Proof. solve_decision. Defined.

Record Signals : Type := mkSignals {
  handler : Handler;
  registered : list Signal;      (* caught instead of killing the process *)
  pending : list Signal;         (* delivered to a registered stream *)
  subscribed : bool;             (* shutdown_tx.subscribe() *)
  notified : bool;               (* a message waits in shutdown_rx *)
  killed : bool }.

(** [shutdown_signal] has spawned its task. *)
Definition signals_new : Signals := mkSignals HTerm [] [] false false false.

Inductive SigLabel : Type :=
| Register (ok : bool)           (* the task's next registration *)
| Deliver (s : Signal)           (* the kernel delivers a signal *)
| Wake                           (* select! resolves; the task sends *)
| Subscribe.                     (* main *)

#[export] Instance SigLabel_eq_dec : EqDecision SigLabel.
Proof. solve_decision. Defined.

Definition sig_next (l : SigLabel) (s : Signals) : option Signals :=
  if killed s then None else
  match l with
  | Register ok =>
      match handler s, ok with
      | HTerm, true =>
          Some (mkSignals HInt (SIGTERM :: registered s) (pending s) (subscribed s) (notified s) false)
      | HInt, true =>
          Some (mkSignals HWait (SIGINT :: registered s) (pending s) (subscribed s) (notified s) false)
      | HTerm, false | HInt, false =>
          Some (mkSignals HPanicked (registered s) (pending s) (subscribed s) (notified s) false)
      | _, _ => None
      end
  | Deliver sg =>
      if bool_decide (sg ∈ registered s)
      then Some (mkSignals (handler s) (registered s) (sg :: pending s) (subscribed s) (notified s) false)
      else Some (mkSignals (handler s) (registered s) (pending s) (subscribed s) (notified s) true)
  | Wake =>
      match handler s, pending s with
      | HWait, _ :: _ =>
          (* send reaches the receivers there are; without one it is an error, ignored *)
          Some (mkSignals HSent (registered s) (pending s) (subscribed s) (subscribed s) false)
      | _, _ => None
      end
  | Subscribe =>
      if subscribed s then None
      else Some (mkSignals (handler s) (registered s) (pending s) true (notified s) false)
  end.

Fixpoint sig_run (ls : list SigLabel) (s : Signals) : option Signals :=
  match ls with
  | [] => Some s
  | l :: ls => s ← sig_next l s; sig_run ls s
  end.

(** Signals are caught exactly as far as the task has registered, and what the
    task waits for it was registered for. *)
Definition sig_inv (s : Signals) : Prop :=
  (forall sg, sg ∈ pending s -> sg ∈ registered s) /\
  match handler s with
  | HTerm => registered s = []
  | HInt => registered s = [SIGTERM]
  | HWait | HSent => registered s = [SIGINT; SIGTERM]
  | HPanicked => True
  end /\
  (notified s = true -> handler s = HSent /\ subscribed s = true).

Lemma sig_inv_new : sig_inv signals_new.
Proof. by split_and!. Qed.

Lemma sig_next_inv l s s' : sig_inv s -> sig_next l s = Some s' -> sig_inv s'.
Proof.
  intros (Hp & Hh & Hn). unfold sig_next. destruct (killed s); [done|].
  destruct l as [[]|sg| |]; cbn.
  - destruct (handler s) eqn:Eh; [| |done..]; intros [= <-]; (split_and!; cbn; [|by rewrite Hh|by intros [? _]%Hn]);
      intros sg' Hsg; apply elem_of_cons; right; eauto.
  - destruct (handler s) eqn:Eh; [| |done..]; intros [= <-]; (split_and!; cbn; [done|done|by intros [? _]%Hn]).
  - case_bool_decide as Hr; intros [= <-]; (split_and!; cbn; [|done|done]); [|done].
    intros sg' [->|Hsg]%elem_of_cons; [done|]. eauto.
  - destruct (handler s) eqn:Eh; try done. destruct (pending s) eqn:Ep; [done|]. intros [= <-].
    split_and!; cbn; done.
  - destruct (subscribed s); [done|]. intros [= <-]. split_and!; cbn; [done|done|]. intros [? ?]%Hn. done.
Qed.

Lemma sig_run_inv ls : forall s s', sig_inv s -> sig_run ls s = Some s' -> sig_inv s'.
Proof.
  induction ls as [|l ls IH]; intros s s' Hi; cbn; [by intros [= <-]|].
  destruct (sig_next l s) as [s1|] eqn:E; [|done]. cbn. apply IH. by eapply sig_next_inv.
Qed.

(** Once the task has sent, nothing changes what [main] was told, and signals
    no longer end the process. *)
Lemma sent_is_final ls : forall s s',
  sig_inv s -> handler s = HSent -> killed s = false -> sig_run ls s = Some s' ->
  handler s' = HSent /\ notified s' = notified s /\ killed s' = false.
Proof.
  induction ls as [|l ls IH]; intros s s' Hi Hh Hk; cbn; [by intros [= <-]|].
  destruct (sig_next l s) as [s1|] eqn:E; [|done]. cbn. intros Hr.
  pose proof (sig_next_inv l s s1 Hi E) as Hi1. destruct Hi as (_ & Hreg & _).
  unfold sig_next in E. rewrite Hk in E. rewrite Hh in Hreg.
  destruct l as [ok|sg| |]; rewrite ?Hh in E; try done.
  - rewrite bool_decide_true in E by (rewrite Hreg; destruct sg; set_solver).
    injection E as <-. apply (IH _ _ Hi1) in Hr; [|done|done]. done.
  - destruct (subscribed s); [done|]. injection E as <-. apply (IH _ _ Hi1) in Hr; [|done|done]. done.
Qed.

Lemma unsent_lost ls : forall s s',
  sig_inv s -> handler s <> HSent -> sig_run ls s = Some s' -> handler s' = HSent -> notified s' = false ->
  subscribed s = false /\ exists ls1 ls2, ls = ls1 ++ Wake :: ls2 /\ Subscribe ∉ ls1.
Proof.
  induction ls as [|l ls IH]; intros s s' Hi Hh; cbn; [by intros [= <-]|].
  destruct (sig_next l s) as [s1|] eqn:E; [|done]. cbn. intros Hr Hs Hn.
  pose proof (sig_next_inv l s s1 Hi E) as Hi1. unfold sig_next in E. destruct (killed s); [done|].
  destruct (decide (l = Wake)) as [->|Hl].
  - destruct (handler s); try done. destruct (pending s); [done|]. injection E as <-.
    apply (sent_is_final _ _ _ Hi1) in Hr as (_ & Hn' & _); [|done|done]. cbn in Hn'. split; [congruence|].
    exists [], ls. split; [done|apply not_elem_of_nil].
  - assert (Hh1 : handler s1 <> HSent /\ (subscribed s1 = subscribed s \/ l = Subscribe)).
    { destruct l as [[]|sg| |]; try done.
      - destruct (handler s); try done; injection E as <-; by split; [|left].
      - destruct (handler s); try done; injection E as <-; by split; [|left].
      - case_bool_decide; injection E as <-; by split; [|left].
      - destruct (subscribed s); [done|]. injection E as <-. by split; [|right]. }
    destruct Hh1 as [Hh1 Hs1]. destruct (IH _ _ Hi1 Hh1 Hr Hs Hn) as (Hsub & ls1 & ls2 & -> & Hno).
    assert (l <> Subscribe) as Hls.
    { intros ->. destruct (subscribed s); [done|]. injection E as <-. done. }
    split; [destruct Hs1; congruence|]. exists (l :: ls1), ls2. split; [done|].
    by apply not_elem_of_cons.
Qed.

(** ** What a schedule must have contained *)

Lemma sig_run_app ls ms s : sig_run (ls ++ ms) s = (s1 ← sig_run ls s; sig_run ms s1).
Proof. revert s. induction ls as [|l ls IH]; intros s; cbn; [done|]. by destruct (sig_next l s); cbn. Qed.

(** A signal was delivered while the task was registered for it. *)
Definition caught (ls : list SigLabel) : Prop :=
  exists before sg after s, ls = before ++ Deliver sg :: after /\ sig_run before signals_new = Some s /\
    sg ∈ registered s.

(** The task resumed after [P]. *)
Definition resumed_after (P : list SigLabel -> Prop) (ls : list SigLabel) : Prop :=
  exists before after, ls = before ++ Wake :: after /\ P before.

Lemma caught_snoc ls l : caught ls -> caught (ls ++ [l]).
Proof. intros (b & sg & a & s & -> & Hr & Hs). exists b, sg, (a ++ [l]), s. by rewrite <- app_assoc. Qed.

Lemma resumed_snoc P ls l : resumed_after P ls -> resumed_after P (ls ++ [l]).
Proof. intros (b & a & -> & HP). exists b, (a ++ [l]). by rewrite <- app_assoc. Qed.

Definition sig_history (ls : list SigLabel) (s : Signals) : Prop :=
  (pending s <> [] -> caught ls) /\ (handler s = HSent -> resumed_after caught ls) /\
  (subscribed s = true -> Subscribe ∈ ls) /\
  (notified s = true -> resumed_after (fun before => Subscribe ∈ before) ls).

Lemma sig_next_history ls l s s' :
  sig_run ls signals_new = Some s -> sig_history ls s -> sig_next l s = Some s' -> sig_history (ls ++ [l]) s'.
Proof.
  intros Hr (Hp & Hh & Hs & Hn) E. unfold sig_next in E. destruct (killed s); [done|].
  assert (Hp' : pending s <> [] -> caught (ls ++ [l])) by (intros ?; by apply caught_snoc, Hp).
  assert (Hh' : handler s = HSent -> resumed_after caught (ls ++ [l])) by (intros ?; by apply resumed_snoc, Hh).
  assert (Hs' : subscribed s = true -> Subscribe ∈ ls ++ [l]) by (intros ?; apply elem_of_app; left; by apply Hs).
  assert (Hn' : notified s = true -> resumed_after (fun before => Subscribe ∈ before) (ls ++ [l]))
    by (intros ?; by apply resumed_snoc, Hn).
  destruct l as [[]|sg| |].
  - destruct (handler s); try done; injection E as <-; by split_and!.
  - destruct (handler s); try done; injection E as <-; by split_and!.
  - case_bool_decide as Hreg; injection E as <-; [|by split_and!]. split_and!; try done.
    intros _. exists ls, sg, [], s. by split_and!.
  - destruct (handler s); try done. destruct (pending s) eqn:Ep; [done|]. injection E as <-. split_and!; try done.
    + intros _. exists ls, []. split; [done|]. by apply Hp.
    + cbn. intros Hsub. exists ls, []. split; [done|]. by apply Hs.
  - destruct (subscribed s) eqn:Es; [done|]. injection E as <-. split_and!; try done.
    intros _. apply elem_of_app. right. by apply list_elem_of_singleton.
Qed.

Lemma sig_run_history ls s : sig_run ls signals_new = Some s -> sig_history ls s.
Proof.
  revert s. induction ls as [|l ls IH] using rev_ind; intros s; [by intros [= <-]|].
  rewrite sig_run_app. destruct (sig_run ls signals_new) as [s0|] eqn:E0; cbn; [|done].
  destruct (sig_next l s0) as [s1|] eqn:E; cbn; [|done]. intros [= <-].
  apply (sig_next_history ls l s0); auto.
Qed.

(** C7: a signal and the receive loop.  In every schedule of the signal task, the
    kernel and [main]: a waiting task to which a signal was delivered can go on,
    and going on tells [main] if it has subscribed; the task has sent only
    after a signal was delivered that it was registered for; [main] is told
    only by a task that resumed after [main] had subscribed; and when the task
    has sent and [main] was not told, the task resumed before [main]
    subscribed.  In that case no later signal is heard or ends the process. *)
Theorem shutdown_heard ls s :
  sig_run ls signals_new = Some s ->
  (killed s = false -> handler s = HWait -> pending s <> [] ->
     exists s', sig_next Wake s = Some s' /\ handler s' = HSent /\ notified s' = subscribed s) /\
  (handler s = HSent -> resumed_after caught ls) /\
  (notified s = true -> handler s = HSent /\ resumed_after (fun before => Subscribe ∈ before) ls) /\
  (handler s = HSent -> notified s = false ->
     resumed_after (fun before => Subscribe ∉ before) ls /\
     (killed s = false -> forall more s', sig_run more s = Some s' -> notified s' = false /\ killed s' = false)).
Proof.
  intros Hr. pose proof (sig_run_inv ls _ _ sig_inv_new Hr) as Hi.
  destruct (sig_run_history ls s Hr) as (_ & Hsent & _ & Htold). split_and!; [|done| |].
  - intros Hk Hh Hp. unfold sig_next. rewrite Hk, Hh. destruct (pending s); [done|]. by eexists.
  - intros Hn. split; [by apply Hi|by apply Htold].
  - intros Hh Hn. split.
    + apply (unsent_lost ls signals_new s); try done.
    + intros Hk more s' Hm. apply (sent_is_final _ _ _ Hi Hh Hk) in Hm as (_ & -> & ->). done.
Qed.

(** The task wakes before [main] has subscribed: the request is lost. *)
Definition early_signal : list SigLabel := [Register true; Register true; Deliver SIGTERM; Wake; Subscribe].

Lemma shutdown_heard_witness :
  exists s, sig_run early_signal signals_new = Some s /\ handler s = HSent /\ notified s = false /\
    forall more s', sig_run (Deliver SIGTERM :: more) s = Some s' -> notified s' = false /\ killed s' = false.
Proof.
  eexists. split; [reflexivity|]. split; [reflexivity|]. split; [reflexivity|]. intros more s'.
  exact (proj2 (proj2 (proj2 (proj2 (shutdown_heard early_signal _ eq_refl))) eq_refl eq_refl) eq_refl
    (Deliver SIGTERM :: more) s').
Defined.

Lemma warnings_account_witness :
  foldr (fun w n => w.1 + n) 0 (poll_drop_counter 0 [0; 3; 3; 10]).1 = 10 /\
  Forall (fun w : Z * Z => 0 < w.1) (poll_drop_counter 0 [0; 3; 3; 10]).1.
Proof. apply (warnings_account [0; 3; 3; 10] _ 10); [cbn; lia|reflexivity]. Defined.
