(* ===== verification/Daemon.v ===== *)
(** * The daemon's event loop and shutdown (bloodhound/src/main.rs)

    One receiver, one writer.  The main loop and the shutdown drain are
    functions of the sequence of branches their [select!] took; the sequencer
    they drive is the one of the Sequencer file. *)

From S2P Require Import Prelude Layout Records Common Json Event Usdt Deserializer Lifecycle.
From S2P Require Import Sequencer Health.

Local Open Scope string_scope.
Local Open Scope Z_scope.
Local Open Scope list_scope.

(** ** The main loop *)

(** A branch of the main loop's [select!]. *)
Inductive MainBranch : Type :=
| MRecv (input : option SequencedInput)      (* sequence_rx.recv() *)
| MConsumer (res : result (result unit))     (* the consumer task ended: join, then its value *)
| MShutdown.                                 (* shutdown_rx.recv() *)

(** A branch of the [select!] of [drain_until_closed]. *)
Inductive DrainBranch (T : Type) : Type :=
| DRecv (input : option SequencedInput)
| DProducers (res : result T)
| DDeadline.
Arguments DRecv {T} _.
Arguments DProducers {T} _.
Arguments DDeadline {T}.

Section Daemon.
Context `{Base64} (now : Z -> Z) (writes : list BehaviorEvent -> BehaviorEvent -> bool).

(** The loop of [main] up to the shutdown signal; [None] while it still waits.
    [Ok tt] is the [break]. *)
Fixpoint main_loop (branches : list MainBranch) (s : Sequencer)
    : option (result unit * Sequencer) :=
  match branches with
  | [] => None
  | MRecv (Some input) :: rest =>
      match accept now writes input s with
      | (Ok _, s1) => main_loop rest s1
      | (Err m, s1) => Some (Err m, s1)
      end
  | MRecv None :: _ => Some (Err "bounded event sequencer closed unexpectedly", s)
  | MConsumer (Err _) :: _ => Some (Err "ring buffer consumer task panicked", s)
  | MConsumer (Ok (Err m)) :: _ => Some (Err m, s)
  | MConsumer (Ok (Ok _)) :: _ => Some (Err "ring buffer consumer exited unexpectedly", s)
  | MShutdown :: _ => Some (Ok tt, s)
  end.

(** The loop of [drain_until_closed].  A branch whose precondition is false is
    never selected, which is the second [None]. *)
Fixpoint drain_loop {T} (branches : list (DrainBranch T)) (closed : bool) (joined : option T)
    (s : Sequencer) : option (result T * Sequencer) :=
  match closed, joined with
  | true, Some t => Some (Ok t, s)
  | _, _ =>
      match branches with
      | [] => None
      | DRecv input :: rest =>
          if closed then None else
          match input with
          | Some input =>
              match accept now writes input s with
              | (Ok _, s1) => drain_loop rest closed joined s1
              | (Err m, s1) => Some (Err m, s1)
              end
          | None => drain_loop rest true joined s
          end
      | DProducers res :: rest =>
          if joined is Some _ then None else
          match res with
          | Ok t => drain_loop rest closed (Some t) s
          | Err m => Some (Err m, s)
          end
      | DDeadline :: _ =>
          Some (Err "incomplete shutdown: bounded event sequencer did not drain within 5 seconds", s)
      end
  end.

Definition drain_until_closed {T} (branches : list (DrainBranch T)) (s : Sequencer)
    : option (result T * Sequencer) :=
  drain_loop branches false None s.

(** [finish_output]: the final sample is read even when heartbeats are
    disabled; [flushed] is the outcome of the flush. *)
Definition finish_output (clock : Z) (slots : option (list Z)) (cursor : option Cursor)
    (flushed : result unit) (s : Sequencer) : result unit * Sequencer :=
  match read_total slots with
  | Err _ => (Err "reading final BPF drop count", s)
  | Ok total =>
      match cursor with
      | Some c =>
          let event := build_heartbeat clock (saturating_sub total (c_drops c)) total
                         (saturating_sub (events_emitted s) (c_emitted c)) in
          match accept now writes (Synthesized event) s with
          | (Err m, s1) => (Err m, s1)
          | (Ok _, s1) => (flushed, s1)
          end
      | None => (flushed, s)
      end
  end.

(** Shutdown after the loop: drain, stop and join the drop bridge before the
    deadline, write the final heartbeat. *)
Definition shutdown (branches : list (DrainBranch (option Cursor)))
    (bridge : result (option (list Z))) (clock : Z) (flushed : result unit) (s : Sequencer)
    : option (result unit * Sequencer) :=
  match drain_until_closed branches s with
  | None => None
  | Some (Err m, s1) => Some (Err m, s1)
  | Some (Ok cursor, s1) =>
      match bridge with
      | Err m => Some (Err m, s1)
      | Ok slots => Some (finish_output clock slots cursor flushed s1)
      end
  end.

(** The whole run from the first admitted item. *)
Definition run (loop : list MainBranch) (branches : list (DrainBranch (option Cursor)))
    (bridge : result (option (list Z))) (clock : Z) (flushed : result unit) (s : Sequencer)
    : option (result unit * Sequencer) :=
  match main_loop loop s with
  | None => None
  | Some (Err m, s1) => Some (Err m, s1)
  | Some (Ok _, s1) => shutdown branches bridge clock flushed s1
  end.

(** ** What was received *)

(** The items admitted before the shutdown signal. *)
Fixpoint main_inputs (branches : list MainBranch) : list SequencedInput :=
  match branches with
  | MRecv (Some i) :: rest => i :: main_inputs rest
  | _ => []
  end.

(** The items received by the drain. *)
Fixpoint drain_inputs {T} (branches : list (DrainBranch T)) : list SequencedInput :=
  match branches with
  | DRecv (Some i) :: rest => i :: drain_inputs rest
  | DRecv None :: rest | DProducers _ :: rest => drain_inputs rest
  | _ => []
  end.

Lemma accept_all_app a b s :
  accept_all now writes (a ++ b) s =
  match accept_all now writes a s with
  | (Ok _, s1) => accept_all now writes b s1
  | (Err m, s1) => (Err m, s1)
  end.
Proof.
  revert s; induction a as [|i a IH]; intros s; cbn; [done|].
  destruct (accept now writes i s) as [[] s1]; [apply IH|done].
Qed.

Lemma main_loop_ok branches : forall s s',
  main_loop branches s = Some (Ok tt, s') ->
  accept_all now writes (main_inputs branches) s = (Ok tt, s').
Proof.
  induction branches as [|b rest IH]; intros s s' E; [done|].
  destruct b as [[i|]|[[|]|]|]; cbn in *; try by simplify_eq.
  destruct (accept now writes i s) as [[] s1]; [by apply IH|done].
Qed.

(** A drain that succeeds saw the channel close and the producers join, and
    accepted everything received on the way. *)
Lemma drain_loop_ok {T} (branches : list (DrainBranch T)) : forall closed joined s t s',
  drain_loop branches closed joined s = Some (Ok t, s') ->
  exists used rest,
    branches = used ++ rest /\
    accept_all now writes (drain_inputs used) s = (Ok tt, s') /\
    (closed = true \/ DRecv None ∈ used) /\ (joined = Some t \/ DProducers (Ok t) ∈ used).
Proof.
  induction branches as [|b rest IH]; intros closed joined s t s' E; cbn [drain_loop] in E.
  { destruct closed, joined; simplify_eq. exists [], []; cbn; auto. }
  assert (Hstep : (closed = true /\ joined = Some t /\ s' = s) \/
    (exists closed' joined' s1,
       drain_loop rest closed' joined' s1 = Some (Ok t, s') /\
       accept_all now writes (drain_inputs [b]) s = (Ok tt, s1) /\
       (closed' = closed \/ b = DRecv None) /\
       (joined' = joined \/ exists t', b = DProducers (Ok t') /\ joined' = Some t' /\ joined = None) /\
       (forall u, drain_inputs (b :: u) = drain_inputs [b] ++ drain_inputs u))).
  { destruct closed, joined as [j|]; try (left; by simplify_eq);
      right; destruct b as [[i|]|[t'|m]|]; cbn in E; simplify_eq;
      try (destruct (accept now writes i s) as [[[]|m] s1] eqn:Ea; [|done]);
      eexists _, _, _; (split; [exact E|]); cbn; rewrite ?Ea; split_and!; eauto 10. }
  destruct Hstep as [(-> & -> & ->)|(closed' & joined' & s1 & E' & Ha & Hc & Hj & Hi)].
  { exists [], (b :: rest). cbn; auto. }
  destruct (IH _ _ _ _ _ E') as (used & rest' & -> & Hacc & Hc' & Hj').
  exists (b :: used), rest'. rewrite Hi, accept_all_app, Ha. split_and!; [done|done| |].
  - destruct Hc as [->| ->]; [|right; by left]. destruct Hc'; [by left|right; by right].
  - destruct Hj as [->|(t' & -> & -> & ->)].
    + destruct Hj'; [by left|right; by right].
    + destruct Hj' as [[= ->]|]; [right; by left|right; by right].
Qed.

(** ** A clean exit *)

(** The heartbeat [finish_output] writes after the [out] lines of the run. *)
Definition final_heartbeat (clock : Z) (slots : list Z) (cursor : option Cursor) (emitted : Z)
    : list BehaviorEvent :=
  match cursor with
  | Some c => [build_heartbeat clock (saturating_sub (percpu_sum slots) (c_drops c))
                 (percpu_sum slots) (saturating_sub emitted (c_emitted c))]
  | None => []
  end.

Lemma finish_output_ok clock slots cursor flushed s s' :
  finish_output clock slots cursor flushed s = (Ok tt, s') ->
  exists values, slots = Some values /\ flushed = Ok tt /\
    lines s' = lines s ++ final_heartbeat clock values cursor (events_emitted s).
Proof.
  unfold finish_output, final_heartbeat. destruct slots as [values|]; cbn; [|done].
  destruct cursor as [c|]; cbn; unfold write.
  - destruct (writes (lines s) _); [|done]. intros [= -> <-]. by exists values.
  - intros [= -> <-]. exists values. by rewrite app_nil_r.
Qed.

Lemma run_ok loop branches bridge clock flushed s s' :
  run loop branches bridge clock flushed s = Some (Ok tt, s') ->
  exists used rest cursor slots s1,
    branches = used ++ rest /\ DRecv None ∈ used /\ DProducers (Ok cursor) ∈ used /\
    bridge = Ok slots /\
    accept_all now writes (main_inputs loop ++ drain_inputs used) s = (Ok tt, s1) /\
    finish_output clock slots cursor flushed s1 = (Ok tt, s').
Proof.
  unfold run, shutdown, drain_until_closed.
  destruct (main_loop loop s) as [[[[]|] s1]|] eqn:Em; [|done|done].
  destruct (drain_loop branches false None s1) as [[[cursor|] s2]|] eqn:Ed; [|done|done].
  destruct bridge as [slots|]; [|done]. intros [= Ef].
  apply drain_loop_ok in Ed as (used & rest & -> & Ha & [|Hc] & [|Hj]); [done..|].
  apply main_loop_ok in Em.
  exists used, rest, cursor, slots, s2. rewrite accept_all_app, Em. auto 10.
Qed.

(** C4: the daemon exits successfully only after the channel closed, every
    producer was joined and the drop counter was read; stdout then holds the
    contribution of every admitted item, in admission order, and the final
    heartbeat last. *)
Theorem clean_exit_complete loop branches bridge clock flushed s' :
  run loop branches bridge clock flushed seq_new = Some (Ok tt, s') ->
  exists used rest cursor slots,
    branches = used ++ rest /\ DRecv None ∈ used /\ DProducers (Ok cursor) ∈ used /\
    bridge = Ok (Some slots) /\ flushed = Ok tt /\
    let out := (stream now (main_inputs loop ++ drain_inputs used) synth_new 0).2 in
    lines s' = out ++ final_heartbeat clock slots cursor (wrap 64 (len out)).
Proof.
  intros E. apply run_ok in E as (used & rest & cursor & slots & s1 & -> & Hc & Hj & -> & Ha & Hf).
  apply finish_output_ok in Hf as (values & -> & -> & ->).
  exists used, rest, cursor, values. do 5 (split; [done|]). cbn zeta.
  assert (Hcount : counted s1).
  { pose proof (accept_all_counted now writes (main_inputs loop ++ drain_inputs used) seq_new) as Hk.
    rewrite Ha in Hk. by apply Hk. }
  apply accept_all_ok_lines in Ha. cbn [seq_new lines lifecycle deserialize_rejections] in Ha.
  rewrite Hcount, Ha. done.
Qed.

(** ** Progress of the drain *)

(** A branch sequence [select!] can take: no receive after the channel closed,
    one join at most. *)
Fixpoint selectable {T} (closed joined : bool) (branches : list (DrainBranch T)) : bool :=
  match branches with
  | [] => true
  | DRecv i :: rest => negb closed && selectable (if i is Some _ then closed else true) joined rest
  | DProducers _ :: rest => negb joined && selectable closed true rest
  | DDeadline :: rest => selectable closed joined rest
  end.

Lemma drain_loop_deadline {T} (branches : list (DrainBranch T)) : forall closed joined s,
  selectable closed (bool_decide (is_Some joined)) branches = true -> DDeadline ∈ branches ->
  is_Some (drain_loop branches closed joined s).
Proof.
  induction branches as [|b rest IH]; intros closed joined s Hs Hd; [by apply elem_of_nil in Hd|].
  assert (Hrest : b = DDeadline \/ DDeadline ∈ rest) by (apply elem_of_cons in Hd as [|]; auto).
  destruct closed, joined as [t|], b as [[i|]|[u|m]|]; cbn in *; try done;
    destruct Hrest as [|Hrest]; try done; try (by apply IH);
    destruct (accept now writes i s) as [[] s1]; try done; by apply IH.
Qed.

(** The drain always ends: once the deadline fires it has returned,
    whatever was received before. *)
Theorem drain_returns_by_deadline {T} (branches : list (DrainBranch T)) s :
  selectable false false branches = true -> DDeadline ∈ branches ->
  is_Some (drain_until_closed branches s).
Proof. intros. by apply drain_loop_deadline. Qed.
End Daemon.

(** ** Loss accounting over a whole run *)

(** C39: the periodic heartbeats and the final one account for the run
    exactly once: their drop deltas add up to the final drop total and their
    emission deltas to the number of lines written before the final one. *)
Theorem heartbeats_account `{Base64} now writes interval steps out c clock values flushed s s' :
  samples_from 0 0 steps ->
  run_heartbeat interval steps = (out, Some c) ->
  c_drops c <= percpu_sum values ->
  c_emitted c <= events_emitted s < 2 ^ 64 ->
  finish_output now writes clock (Some values) (Some c) flushed s = (Ok tt, s') ->
  exists h, lines s' = lines s ++ [h] /\
    sum_num "drop_count_delta" (out ++ [h]) = percpu_sum values /\
    sum_num "events_emitted_delta" (out ++ [h]) = events_emitted s.
Proof.
  intros Hs Hr Hd He Hf. apply finish_output_ok in Hf as (values' & [= <-] & -> & El).
  eexists. split; [exact El|]. unfold run_heartbeat in Hr. destruct (interval =? 0); [done|].
  destruct (heartbeat_loop steps cursor_default) as [[out' c'] ret] eqn:Eh. simplify_eq.
  apply heartbeat_loop_sums in Eh as (S1 & S2 & L1 & L2); [|cbn; lia|cbn; lia|done].
  cbn [cursor_default c_drops c_emitted] in *.
  rewrite !sum_num_app, !saturating_sub_exact by lia.
  pose proof (percpu_sum_range values) as Hp. unfold in_u in Hp.
  destruct (heartbeat_nums clock (percpu_sum values - c_drops c) (percpu_sum values)
    (events_emitted s - c_emitted c)) as (N1 & _ & N3); unfold in_u; [lia..|].
  cbn [sum_num]. lia.
Qed.
