(* ===== verification/Admission.v ===== *)
(** * Admission: ring-buffer consumer, channel and receiver
    (bloodhound/src/consumer.rs, main.rs)

    The concurrent part of the daemon: the kernel appends records to the ring,
    the consumer task moves them into the one bounded channel, monitors and
    heartbeat send to it too, and [main] first sends to it (readiness, startup
    diagnostics) and then receives from it.  Each [.await] is a point where any
    task may run, so a run is a sequence of labelled steps and a theorem about
    reachable states covers every schedule. *)

From S2P Require Import Prelude Layout Records Common Json Event Usdt Deserializer Lifecycle.
From S2P Require Import Sequencer.

Local Open Scope nat_scope.
#[local] Set Warnings "-clear-no-such-hyp".
Local Open Scope list_scope.

(** [mpsc::channel::<SequencedInput>(4096)] *)
Definition CHANNEL_CAPACITY : nat := Z.to_nat 4096.

(** Where the consumer task is.  [last] tells the drain of the shutdown branch
    from the drain at the top of the loop. *)
Inductive Consumer : Type :=
| CUnborn                 (* not spawned yet *)
| CInit                   (* before AsyncFd::new and ready.send *)
| CDrain (last : bool)    (* about to call ring_buf.next() *)
| CSend (last : bool)     (* in tx.send of the record next() returned *)
| CWait                   (* in select!: readable or shutdown *)
| CWoken                  (* readable() resolved, the guard not cleared yet *)
| CDone                   (* returned after its last drain *)
| CGone                   (* returned because the receiver was dropped *)
| CFailed (announced : bool). (* returned an error of AsyncFd, after ready.send or before *)
#[global] Instance consumer_eq_dec : EqDecision Consumer.
Proof. solve_decision. Defined.

(** Where [main] is. *)
Inductive Main : Type :=
| MReady (ready : BehaviorEvent) (diagnostics : list BehaviorEvent)
| MAwait (diagnostics : list BehaviorEvent)    (* consumer_ready_rx.await *)
| MDiagnose (diagnostics : list BehaviorEvent) (* sending the USDT diagnostics *)
| MLoop                                        (* the sequencing loop *)
| MStopping                                    (* between drop(bpf) and the stop signals *)
| MDrain                                       (* drain_until_closed *)
| MDone                                        (* drained: channel closed, producers joined *)
| MExited.                                     (* an error ended main; the receiver is dropped *)

Record Sys : Type := mkSys {
  ring : list (list byte);         (* committed records not consumed yet *)
  token : bool;                    (* the fd's readiness in tokio's reactor *)
  detached : bool;                 (* drop(bpf): no program runs any more *)
  chan : list SequencedInput;
  consumer : Consumer;
  others : bool;                   (* a monitor or the heartbeat holds a sender *)
  main : Main;
  accepted : list SequencedInput;  (* what sequencer.accept was called with *)
  produced : list (list byte) }.   (* every record the ring ever took *)

Inductive Label : Type :=
| KProduce (record : list byte) (notify : bool)
| KNotify                        (* a readiness notification without a cause *)
| CStep                          (* the consumer's next step *)
| CStop                          (* its select! takes the shutdown branch *)
| CFail                          (* AsyncFd::new or readable() fails *)
| OSend (event : BehaviorEvent)
| OEnd
| MSend                          (* main's next send, or the end of its sends *)
| MStart                         (* consumer_ready_rx resolved *)
| MRecv (ok : bool)              (* recv, and accept succeeds or not *)
| MShutdown                      (* the signal arrives: detach the programs *)
| MStop                          (* consumer_shutdown_tx.send *)
| MClosed                        (* the drain's exit *)
| MFail.                         (* the consumer ended early, or the deadline fired *)

Definition room (s : Sys) : bool := length (chan s) <? CHANNEL_CAPACITY.

Definition set_consumer (c : Consumer) (s : Sys) : Sys :=
  mkSys (ring s) (token s) (detached s) (chan s) c (others s) (main s) (accepted s) (produced s).
Definition set_main (m : Main) (s : Sys) : Sys :=
  mkSys (ring s) (token s) (detached s) (chan s) (consumer s) (others s) m (accepted s) (produced s).
Definition push (i : SequencedInput) (s : Sys) : Sys :=
  mkSys (ring s) (token s) (detached s) (chan s ++ [i]) (consumer s) (others s) (main s)
    (accepted s) (produced s).

(** The kernel notifies when the consumer had caught up with the ring; it may
    notify otherwise. *)
Definition produce (r : list byte) (notify : bool) (s : Sys) : Sys :=
  mkSys (ring s ++ [r]) (token s || notify || bool_decide (ring s = [])) (detached s) (chan s)
    (consumer s) (others s) (main s) (accepted s) (produced s ++ [r]).

(** One step of [consume_ring_buffer].  The item stays in the ring while its
    copy is being sent: it is released when the loop body ends. *)
Definition consume_step (s : Sys) : option Sys :=
  match consumer s with
  | CInit => Some (set_consumer (CDrain false) s)
  | CDrain last =>
      match ring s with
      | _ :: _ => Some (set_consumer (CSend last) s)
      | [] => Some (set_consumer (if last then CDone else CWait) s)
      end
  | CSend last =>
      match ring s, main s with
      | [], _ => None
      | _ :: _, MExited => Some (set_consumer CGone s)
      | r :: rest, _ =>
          if room s then
            Some (mkSys rest (token s) (detached s) (chan s ++ [Raw r]) (CDrain last) (others s)
                    (main s) (accepted s) (produced s))
          else None
      end
  | CWait => if token s then Some (set_consumer CWoken s) else None
  | CWoken =>
      Some (mkSys (ring s) false (detached s) (chan s) (CDrain false) (others s) (main s)
              (accepted s) (produced s))
  | CUnborn | CDone | CGone | CFailed _ => None
  end.

(** The stop channel resolves when it was sent to, and when [main] ended and
    dropped it. *)
Definition stopping (s : Sys) : bool :=
  match main s with MDrain | MDone | MExited => true | _ => false end.

(** The shutdown branch of the consumer's [select!]. *)
Definition consume_stop (s : Sys) : option Sys :=
  match consumer s with
  | CWait => if stopping s then Some (set_consumer (CDrain true) s) else None
  | _ => None
  end.

(** [main]'s own sends: readiness before any task is spawned, then the
    diagnostics once the consumer is registered. *)
Definition main_send (s : Sys) : option Sys :=
  match main s with
  | MReady ready ds =>
      if room s then Some (set_main (MAwait ds) (set_consumer CInit (push (Synthesized ready) s)))
      else None
  | MDiagnose (d :: ds) =>
      if room s then Some (set_main (MDiagnose ds) (push (Synthesized d) s)) else None
  | MDiagnose [] => Some (set_main MLoop s)
  | _ => None
  end.

Definition recv (ok : bool) (s : Sys) : option Sys :=
  match main s, chan s with
  | MLoop, i :: rest | MDrain, i :: rest =>
      Some (mkSys (ring s) (token s) (detached s) rest (consumer s) (others s)
              (if ok then main s else MExited) (accepted s ++ [i]) (produced s))
  | _, _ => None
  end.

Definition next (l : Label) (s : Sys) : option Sys :=
  match l with
  | KProduce r notify => if detached s then None else Some (produce r notify s)
  | KNotify =>
      Some (mkSys (ring s) true (detached s) (chan s) (consumer s) (others s) (main s)
              (accepted s) (produced s))
  | CStep => consume_step s
  | CStop => consume_stop s
  | CFail =>
      match consumer s with
      | CInit => Some (set_consumer (CFailed false) s)
      | CWait => Some (set_consumer (CFailed true) s)
      | _ => None
      end
  | OSend e =>
      match main s with
      | MReady _ _ | MExited | MDone => None
      | _ => if others s && room s then Some (push (Synthesized e) s) else None
      end
  | OEnd =>
      Some (mkSys (ring s) (token s) (detached s) (chan s) (consumer s) false (main s)
              (accepted s) (produced s))
  | MSend => main_send s
  | MStart =>
      match main s, consumer s with
      | MAwait _, CUnborn | MAwait _, CInit => None
      | MAwait _, CFailed false => Some (set_main MExited s)
      | MAwait ds, _ => Some (set_main (MDiagnose ds) s)
      | _, _ => None
      end
  | MRecv ok => recv ok s
  | MShutdown =>
      match main s with
      | MLoop => Some (mkSys (ring s) (token s) true (chan s) (consumer s) (others s) MStopping
                         (accepted s) (produced s))
      | _ => None
      end
  | MStop => match main s with MStopping => Some (set_main MDrain s) | _ => None end
  | MClosed =>
      match main s, consumer s, chan s, others s with
      | MDrain, CDone, [], false => Some (set_main MDone s)
      | _, _, _, _ => None
      end
  | MFail =>
      match main s, consumer s with
      | MLoop, (CDone | CGone | CFailed _) | MDrain, _ => Some (set_main MExited s)
      | _, _ => None
      end
  end.

(** A schedule, and the state it leads to when every step was possible. *)
Fixpoint run (ls : list Label) (s : Sys) : option Sys :=
  match ls with
  | [] => Some s
  | l :: rest => s1 ← next l s; run rest s1
  end.

Lemma run_app ls ms s : run (ls ++ ms) s = (s1 ← run ls s; run ms s1).
Proof. revert s. induction ls as [|l ls IH]; intros s; cbn; [done|]. by destruct (next l s); cbn. Qed.

Definition reachable (s0 s : Sys) : Prop := exists ls, run ls s0 = Some s.

(** After [load_and_attach]: programs already run, nothing is admitted. *)
Definition sys_init (ready : BehaviorEvent) (diagnostics : list BehaviorEvent) : Sys :=
  mkSys [] false false [] CUnborn true (MReady ready diagnostics) [] [].

(** ** What every schedule preserves *)

(** The records among admitted inputs, in their order. *)
Definition raws (ins : list SequencedInput) : list (list byte) :=
  omap (fun i => match i with Raw r => Some r | Synthesized _ => None end) ins.

Lemma raws_app xs ys : raws (xs ++ ys) = raws xs ++ raws ys.
Proof. apply omap_app. Qed.

Definition exited (s : Sys) : Prop := main s = MExited.

(** What the consumer's position says.  [CWait] is the absence of a lost wakeup:
    a waiting consumer with records in the ring has a notification pending. *)
Definition consumer_ok (s : Sys) : Prop :=
  match consumer s with
  | CUnborn | CInit | CFailed _ => True
  | CDrain last => last = true -> stopping s = true
  | CSend last => ring s <> [] /\ (last = true -> stopping s = true)
  | CWait => ring s <> [] -> token s = true
  | CWoken => token s = true
  | CDone => stopping s = true /\ (exited s \/ ring s = [])
  | CGone => exited s
  end.

(** What the position of [main] says. *)
Definition main_ok (ready : BehaviorEvent) (s : Sys) : Prop :=
  match main s with
  | MReady r _ => r = ready /\ accepted s = [] /\ chan s = [] /\ consumer s = CUnborn
  | MAwait _ | MDiagnose _ => accepted s = [] /\ consumer s <> CUnborn
  | MStopping | MDrain => detached s = true /\ consumer s <> CUnborn
  | MDone => detached s = true /\ chan s = [] /\ consumer s = CDone
  | MLoop | MExited => consumer s <> CUnborn
  end.

(** Nothing is admitted before the readiness event. *)
Definition ready_first (ready : BehaviorEvent) (s : Sys) : Prop :=
  match main s with
  | MReady _ _ => True
  | _ => head (accepted s ++ chan s) = Some (Synthesized ready)
  end.

Record Inv (ready : BehaviorEvent) (s : Sys) : Prop := mkInv {
  inv_bounded : length (chan s) <= CHANNEL_CAPACITY;
  inv_exact : raws (accepted s ++ chan s) ++ ring s = produced s;
  inv_ready : ready_first ready s;
  inv_consumer : consumer_ok s;
  inv_main : main_ok ready s }.

(** Case analysis of one step: the guards become hypotheses and the new state
    is explicit. *)
Ltac step_cases H :=
  repeat first [discriminate H |
    match type of H with context [match ?x with _ => _ end] => destruct x eqn:? end];
  simplify_eq.

Ltac step_of H :=
  cbn in H; unfold consume_step, consume_stop, main_send, recv, stopping in H; cbn in H; step_cases H.

Section Invariant.
Context (ready : BehaviorEvent) (diagnostics : list BehaviorEvent).

Lemma inv_init : Inv ready (sys_init ready diagnostics).
Proof. constructor; cbn; try done. lia. Qed.

Lemma room_push (ch : list SequencedInput) i :
  (length ch <? CHANNEL_CAPACITY) = true -> length (ch ++ [i]) <= CHANNEL_CAPACITY.
Proof. rewrite Nat.ltb_lt, length_app. cbn. lia. Qed.

Lemma next_bounded l s s' :
  next l s = Some s' -> length (chan s) <= CHANNEL_CAPACITY -> length (chan s') <= CHANNEL_CAPACITY.
Proof.
  intros Hn Hb. destruct s as [rg tk dt ch co ot mn ac pr]. unfold room in Hn.
  destruct l; step_of Hn; cbn in *; rewrite ?andb_true_iff in *; try done; try lia;
    apply room_push; naive_solver.
Qed.

Lemma next_exact l s s' :
  next l s = Some s' -> raws (accepted s ++ chan s) ++ ring s = produced s ->
  raws (accepted s' ++ chan s') ++ ring s' = produced s'.
Proof.
  intros Hn He. destruct s as [rg tk dt ch co ot mn ac pr]. cbn in He. subst pr.
  destruct l; step_of Hn; cbn [accepted chan ring produced set_consumer set_main push produce];
    rewrite <- ?app_assoc; cbn [app]; rewrite ?raws_app, <- ?app_assoc; try done; by rewrite ?app_nil_r.
Qed.

Lemma produce_consumer r notify s :
  detached s = false -> main_ok ready s -> consumer_ok s -> consumer_ok (produce r notify s).
Proof.
  intros Hd Hm Hc. destruct s as [rg tk dt ch co ot mn ac pr].
  unfold consumer_ok, main_ok, stopping, exited in *. cbn in *.
  destruct co; try done.
  - by destruct rg, Hc.
  - intros _. case_bool_decide as E; [by rewrite orb_true_r|]. by rewrite Hc.
  - by rewrite Hc.
  - destruct Hc as [Hs Hc]. split; [done|]. left. destruct mn; try done; destruct_and?; congruence.
Qed.

Lemma next_consumer l s s' :
  next l s = Some s' -> main_ok ready s -> consumer_ok s -> consumer_ok s'.
Proof.
  intros Hn Hm Hc. destruct l as [r notify| | | | | | | | | | | | |].
  { cbn in Hn. destruct (detached s) eqn:Hd; simplify_eq. by apply produce_consumer. }
  all: destruct s as [rg tk dt ch co ot mn ac pr];
    unfold consumer_ok, main_ok, stopping, exited in *; cbn in Hm, Hc; step_of Hn; cbn in *; try done;
    try (destruct co; cbn in *; intuition congruence); try (destruct mn; cbn in *; intuition congruence);
    intuition congruence.
Qed.

Lemma next_main l s s' :
  next l s = Some s' -> main_ok ready s -> main_ok ready s'.
Proof.
  intros Hn Hm. destruct s as [rg tk dt ch co ot mn ac pr].
  unfold main_ok in *. cbn in Hm. destruct l; step_of Hn; cbn in *; try done.
  all: try (destruct mn; cbn in *; intuition congruence); intuition congruence.
Qed.

Lemma head_app_some {A} (xs ys : list A) x : head xs = Some x -> head (xs ++ ys) = Some x.
Proof. by destruct xs. Qed.

Lemma next_ready l s s' : next l s = Some s' -> main_ok ready s -> ready_first ready s -> ready_first ready s'.
Proof.
  intros Hn Hm Hr. destruct s as [rg tk dt ch co ot mn ac pr]. unfold main_ok, ready_first in *.
  cbn in Hm, Hr. destruct l; step_of Hn; cbn -[head] in *; try done.
  all: try (rewrite <- app_assoc; done); try (rewrite app_assoc; by apply head_app_some).
  destruct Hm as (-> & -> & -> & _). done.
Qed.

Lemma inv_next l s s' : next l s = Some s' -> Inv ready s -> Inv ready s'.
Proof.
  intros Hn [Hb Hx Hr Hc Hm].
  constructor; eauto using next_bounded, next_exact, next_ready, next_consumer, next_main.
Qed.

Lemma inv_run ls : forall s s', run ls s = Some s' -> Inv ready s -> Inv ready s'.
Proof.
  induction ls as [|l ls IH]; intros s s' Hr Hi; cbn in Hr; [by simplify_eq|].
  destruct (next l s) as [s1|] eqn:E; [|done]. eauto using inv_next.
Qed.

Lemma inv_reachable s : reachable (sys_init ready diagnostics) s -> Inv ready s.
Proof. intros [ls Hr]. eauto using inv_run, inv_init. Qed.
End Invariant.

(** ** Progress *)

(** The steps the daemon's own tasks take without new input from outside. *)
Definition internal (l : Label) : bool :=
  match l with CStep | CStop | MSend | MStart | MRecv true | MStop => true | _ => false end.

Definition quiescent (s : Sys) : Prop := forall l, internal l = true -> next l s = None.

Definition consumer_weight (c : Consumer) : nat :=
  match c with
  | CInit => 7 | CDrain false => 6 | CSend false => 5 | CWait => 5 | CWoken => 4
  | CDrain true => 2 | CSend true => 1 | _ => 0
  end.

Definition main_weight (m : Main) : nat :=
  match m with
  | MReady _ ds => 2 * length ds + 11 | MAwait ds => 2 * length ds + 2
  | MDiagnose ds => 2 * length ds + 1 | MStopping => 1 | _ => 0
  end.

Definition measure (s : Sys) : nat :=
  4 * length (ring s) + length (chan s) + (if token s then 4 else 0) +
  consumer_weight (consumer s) + main_weight (main s).

Lemma internal_decreases ready l s s' :
  Inv ready s -> internal l = true -> next l s = Some s' -> measure s' < measure s.
Proof.
  intros [_ _ _ Hc Hm] Hi Hn. destruct s as [rg tk dt ch co ot mn ac pr].
  unfold measure, consumer_ok, main_ok in *. cbn in Hc, Hm.
  destruct l; try done; step_of Hn; cbn in *; rewrite ?length_app; cbn; try lia.
  all: repeat match goal with |- context [if ?b then _ else _] => destruct b end; lia.
Qed.

Lemma internal_produced l s s' : internal l = true -> next l s = Some s' -> produced s' = produced s.
Proof.
  intros Hi Hn. destruct s as [rg tk dt ch co ot mn ac pr]. destruct l; try done; by step_of Hn.
Qed.

Lemma internal_run ready ls : forall s s',
  Inv ready s -> Forall (fun l => internal l = true) ls -> run ls s = Some s' ->
  length ls + measure s' <= measure s /\ produced s' = produced s.
Proof.
  induction ls as [|l ls IH]; intros s s' Hi Hf Hr; cbn in Hr; [by simplify_eq|].
  apply Forall_cons in Hf as [Hl Hf]. destruct (next l s) as [s1|] eqn:E; [|done].
  pose proof (internal_decreases ready l s s1 Hi Hl E) as Hlt.
  pose proof (inv_next ready l s s1 E Hi) as Hi1.
  destruct (IH s1 s' Hi1 Hf Hr) as [Hle Hp]. cbn [length]. rewrite Hp. split; [lia|].
  by apply (internal_produced l).
Qed.

(** Everything the ring took has been handed to the sequencer. *)
Definition delivered (s : Sys) : Prop :=
  ring s = [] /\ chan s = [] /\ raws (accepted s) = produced s.

(** [main] waits for room in the channel only it can empty. *)
Definition stalled (s : Sys) : Prop :=
  room s = false /\ exists d ds, main s = MDiagnose (d :: ds).

Lemma empty_room s : chan s = [] -> room s = true.
Proof. intros E. unfold room. rewrite E. vm_compute. done. Qed.

(** While [main] receives, the consumer of a quiescent daemon has emptied the
    ring. *)
Lemma quiescent_consumer ready s :
  Inv ready s -> quiescent s -> chan s = [] -> main s <> MExited -> (forall a, consumer s <> CFailed a) ->
  consumer s <> CUnborn -> ring s = [].
Proof.
  intros Hi Hq Hch Hm Hf Hu. pose proof (empty_room s Hch) as Hroom.
  pose proof (Hq CStep eq_refl) as H1. pose proof (inv_consumer ready s Hi) as Hc.
  cbn in H1. unfold consume_step, consumer_ok in *.
  destruct (consumer s) eqn:Ec; try done.
  - by destruct (ring s).
  - destruct (ring s) eqn:Er; [done|]. rewrite Hroom in H1. by destruct (main s).
  - destruct (token s); [done|]. destruct (ring s); [done|]. by discriminate Hc.
  - by destruct Hc as [_ [Hx|Hx]].
  - by destruct (Hf announced).
Qed.

Lemma quiescent_delivered ready s :
  Inv ready s -> quiescent s -> main s <> MExited -> (forall a, consumer s <> CFailed a) ->
  delivered s \/ stalled s.
Proof.
  intros Hi Hq Hx Hf. pose proof (inv_main ready s Hi) as Hm. unfold main_ok in Hm.
  assert (Hdel : chan s = [] -> consumer s <> CUnborn -> delivered s).
  { intros Hch Hu. pose proof (quiescent_consumer ready s Hi Hq Hch Hx Hf Hu) as Hrg.
    pose proof (inv_exact ready s Hi) as He. rewrite Hch, Hrg, !app_nil_r in He. by split_and!. }
  pose proof (Hq MSend eq_refl) as Hs. pose proof (Hq MStart eq_refl) as Hst.
  pose proof (Hq (MRecv true) eq_refl) as Hrv. pose proof (Hq MStop eq_refl) as Hsp.
  pose proof (Hq CStep eq_refl) as Hcs. cbn in Hs, Hst, Hrv, Hsp, Hcs.
  unfold main_send, recv, consume_step in *. destruct (main s) as [r ds|ds|ds| | | | |] eqn:Em; try done.
  - destruct Hm as (_ & _ & Hch & _). by rewrite (empty_room s Hch) in Hs.
  - destruct Hm as [_ Hu]. by destruct (consumer s) as [| | | | | | | |[]].
  - destruct ds as [|d ds]; [done|]. right. split; [by destruct (room s)|by do 2 eexists].
  - left. apply Hdel; [by destruct (chan s)|done].
  - left. destruct Hm. apply Hdel; [by destruct (chan s)|done].
  - left. destruct Hm as (_ & Hch & Hcd). apply Hdel; [done|congruence].
Qed.

(** C5: at every moment of every schedule the records handed to the
    sequencer, those in the channel and those still in the ring are, in this
    order, the records the ring took, none lost, repeated or reordered; the
    first input is the readiness event; the channel stays within its capacity;
    and when the drain ends normally every record has been handed on. *)
Theorem admission_exact ready diagnostics s :
  reachable (sys_init ready diagnostics) s ->
  raws (accepted s ++ chan s) ++ ring s = produced s /\
  (forall i, head (accepted s) = Some i -> i = Synthesized ready) /\
  length (chan s) <= CHANNEL_CAPACITY /\
  (main s = MDone -> raws (accepted s) = produced s).
Proof.
  intros Hr. pose proof (inv_reachable ready diagnostics s Hr) as [Hb Hx Hf Hc Hm].
  split_and!; [done| |done|].
  - intros i Hi. unfold ready_first, main_ok in *.
    pose proof (head_app_some _ (chan s) _ Hi) as Hh.
    destruct (main s); try congruence. destruct Hm as (_ & Ha & _). by rewrite Ha in Hi.
  - intros Em. unfold main_ok, consumer_ok, exited in *. rewrite Em in *.
    destruct Hm as (_ & Hch & Hcd). rewrite Hcd in Hc. destruct Hc as [_ [?|Hrg]]; [done|].
    by rewrite Hch, Hrg, !app_nil_r in Hx.
Qed.

(** C6: there is no lost wakeup.  From any reachable state the daemon's own
    tasks can take only boundedly many steps, and when none of them can move,
    every record the ring took has been handed to the sequencer, with three
    exceptions: [main] ended with an error, the consumer ended with an error of
    its descriptor, or [main] still sends startup diagnostics into a full
    channel. *)
Theorem admission_progress ready diagnostics s ls s' :
  reachable (sys_init ready diagnostics) s -> Forall (fun l => internal l = true) ls ->
  run ls s = Some s' ->
  length ls <= measure s /\ produced s' = produced s /\
  (quiescent s' ->
   delivered s' \/ stalled s' \/ main s' = MExited \/ exists announced, consumer s' = CFailed announced).
Proof.
  intros Hr Hf Hrun. pose proof (inv_reachable ready diagnostics s Hr) as Hi.
  destruct (internal_run ready ls s s' Hi Hf Hrun) as [Hle Hp]. split_and!; [lia|done|]. intros Hq.
  assert (Hx : main s' = MExited \/ main s' <> MExited) by (destruct (main s'); auto).
  destruct Hx as [?|Hx]; [by auto|].
  assert (Hc : (exists a, consumer s' = CFailed a) \/ forall a, consumer s' <> CFailed a)
    by (destruct (consumer s'); eauto).
  destruct Hc as [?|Hc]; [by auto|].
  destruct (quiescent_delivered ready s' (inv_run ready ls s s' Hrun Hi) Hq Hx Hc); auto.
Qed.

(** ** The stall *)

Lemma stalled_step l s s' :
  stalled s -> next l s = Some s' ->
  stalled s' /\ main s' = main s /\ accepted s' = accepted s /\ chan s' = chan s.
Proof.
  intros (Hr & d & ds & Em) Hn. destruct s as [rg tk dt ch co ot mn ac pr]. cbn in Em. subst mn.
  assert (Hr' := Hr). unfold room in Hr'. cbn in Hr'.
  destruct l; step_of Hn; rewrite ?andb_true_iff in *; destruct_and?; try congruence;
    split_and!; try done; split; try done; by do 2 eexists.
Qed.

Lemma stalled_forever ls : forall s s',
  stalled s -> run ls s = Some s' -> main s' = main s /\ accepted s' = accepted s.
Proof.
  induction ls as [|l ls IH]; intros s s' Hs Hr; cbn in Hr; [by simplify_eq|].
  destruct (next l s) as [s1|] eqn:E; [|done].
  destruct (stalled_step l s s1 Hs E) as (Hs1 & <- & <- & _). eauto.
Qed.

(** One record through the consumer while it drains. *)
Definition carry (r : list byte) : list Label := [KProduce r true; CStep; CStep].

Lemma carry_one r c ot mn ac pr :
  mn <> MExited -> length c < CHANNEL_CAPACITY ->
  run (carry r) (mkSys [] true false c (CDrain false) ot mn ac pr) =
  Some (mkSys [] true false (c ++ [Raw r]) (CDrain false) ot mn ac (pr ++ [r])).
Proof.
  intros Hm Hl. apply Nat.ltb_lt in Hl. unfold carry.
  destruct mn; try done; cbn -[Nat.ltb CHANNEL_CAPACITY]; unfold room;
    cbn -[Nat.ltb CHANNEL_CAPACITY]; by rewrite Hl.
Qed.

Lemma run_carry r n : forall c ot mn ac pr,
  mn <> MExited -> length c + n <= CHANNEL_CAPACITY ->
  run (concat (replicate n (carry r))) (mkSys [] true false c (CDrain false) ot mn ac pr) =
  Some (mkSys [] true false (c ++ replicate n (Raw r)) (CDrain false) ot mn ac (pr ++ replicate n r)).
Proof.
  induction n as [|n IH]; intros c ot mn ac pr Hm Hl; [cbn; by rewrite !app_nil_r|].
  cbn [replicate concat]. rewrite run_app, carry_one by (done || lia). cbn [mbind option_bind].
  rewrite IH by (rewrite ?length_app; done || (cbn [length]; lia)).
  by rewrite <- !app_assoc.
Qed.

(** Startup can hang: a startup diagnostic is sent before anything receives, so
    4095 records that arrive first leave no room for it, and from then on no
    event, signal included, moves [main] or writes a line. *)
Theorem startup_can_hang ready d (r : list byte) :
  exists ls s, run ls (sys_init ready [d]) = Some s /\ main s = MDiagnose [d] /\
    forall ls' s', run ls' s = Some s' -> main s' = MDiagnose [d] /\ accepted s' = [].
Proof.
  set (s0 := mkSys [] true false [Synthesized ready] (CDrain false) true (MDiagnose [d]) [] []).
  assert (H0 : run [KNotify; MSend; CStep; MStart] (sys_init ready [d]) = Some s0) by reflexivity.
  set (c := [Synthesized ready] ++ replicate (CHANNEL_CAPACITY - 1) (Raw r)).
  set (s := mkSys [] true false c (CDrain false) true (MDiagnose [d]) []
              (replicate (CHANNEL_CAPACITY - 1) r)).
  assert (H1 : run (concat (replicate (CHANNEL_CAPACITY - 1) (carry r))) s0 = Some s).
  { unfold s0, s. rewrite run_carry; [done..|]. cbn [length]. unfold CHANNEL_CAPACITY. lia. }
  assert (Hst : stalled s).
  { split; [|by do 2 eexists]. unfold room, s, c. cbn [chan]. rewrite length_app, length_replicate.
    apply Nat.ltb_ge. cbn [length]. lia. }
  exists ([KNotify; MSend; CStep; MStart] ++ concat (replicate (CHANNEL_CAPACITY - 1) (carry r))), s.
  split_and!; [|done|].
  - rewrite run_app, H0. exact H1.
  - intros ls' s' Hr. by apply (stalled_forever ls' s s').
Qed.

(** Without startup diagnostics [main] always reaches its receive loop. *)
Lemma no_diagnostics_step l s s' :
  next l s = Some s' ->
  match main s with MReady _ ds | MAwait ds | MDiagnose ds => ds = [] | _ => True end ->
  match main s' with MReady _ ds | MAwait ds | MDiagnose ds => ds = [] | _ => True end.
Proof.
  intros Hn Hd. destruct s as [rg tk dt ch co ot mn ac pr]. cbn in Hd.
  destruct l; step_of Hn; cbn; try done; by simplify_eq.
Qed.

Lemma never_stalls_run ls : forall s s',
  run ls s = Some s' ->
  match main s with MReady _ ds | MAwait ds | MDiagnose ds => ds = [] | _ => True end -> ~ stalled s'.
Proof.
  induction ls as [|l ls IH]; intros s s' Hr Hd; cbn in Hr.
  - simplify_eq. intros (_ & d & ds & Em). by rewrite Em in Hd.
  - destruct (next l s) as [s1|] eqn:E; [|done]. eapply IH; [exact Hr|]. by eapply no_diagnostics_step.
Qed.

Theorem no_diagnostics_no_stall ready s : reachable (sys_init ready []) s -> ~ stalled s.
Proof. intros [ls Hr]. by apply (never_stalls_run ls _ _ Hr). Qed.

(** ** The first line *)

Section FirstLine.
Context `{Base64} (now : Z -> Z) (writes : list BehaviorEvent -> BehaviorEvent -> bool).

Lemma accept_all_extends ins : forall q,
  lines q `prefix_of` lines (accept_all now writes ins q).2.
Proof.
  induction ins as [|i ins IH]; intros q; cbn; [done|].
  pose proof (accept_prefix now writes i q) as Hp.
  destruct (accept now writes i q) as [[] q1]; [|done]. etrans; [exact Hp|apply IH].
Qed.

(** Whatever the kernel, the monitors and the scheduler do, and whether or not
    the writer fails, stdout is empty or begins with the readiness event. *)
Theorem readiness_line_first ready diagnostics s :
  reachable (sys_init ready diagnostics) s ->
  lines (accept_all now writes (accepted s) seq_new).2 = [] \/
  head (lines (accept_all now writes (accepted s) seq_new).2) = Some ready.
Proof.
  intros Hr. pose proof (inv_reachable ready diagnostics s Hr) as [_ _ Hf _ Hm].
  destruct (accepted s) as [|i ins] eqn:Ea; [by left|].
  assert (i = Synthesized ready) as ->.
  { unfold ready_first, main_ok in *. rewrite Ea in *. destruct (main s); cbn in Hf; naive_solver. }
  cbn. unfold write. cbn. destruct (writes [] ready); [right|by left].
  destruct (accept_all_extends ins
    (mkSequencer [ready] (lifecycle seq_new) (wrapping_add 0 1) 0)) as [rest Er].
  cbn in Er. by rewrite Er.
Qed.
End FirstLine.
