(* ===== verification/Wire.v ===== *)
(** * From wire records to events

    What [deserialize] makes of a record: the bytes of an [EventHeader]
    (with arbitrary padding) followed by a payload.  The lemmas here are what
    the kernel-side theorems use to read their own records back. *)

From S2P Require Import Prelude Layout Records Common Json Utf8 Event Usdt Deserializer.

Local Open Scope string_scope.
Local Open Scope Z_scope.
Local Open Scope list_scope.

Section Wire.
Context `{Base64}.

Definition is_packet (k : EventKind.t) : bool :=
  match k with EventKind.PacketIngress | EventKind.PacketEgress => true | _ => false end.

(** The arguments of the event built from a parsed payload. *)
Definition final_args (k : EventKind.t) (hj : EventHeaderJson) (args : option json) : option json :=
  match k, h_process_ref hj with
  | EventKind.ProcessStart, Some r =>
      Some (obj [("process_ref", process_ref_json (pr_tgid r) (pr_start_boottime_ns r))])
  | _, _ => args
  end.

Definition event_of (k : EventKind.t) (h : EventHeader.t) (p : parsed) : BehaviorEvent :=
  let '(event_type, name, layer, args, return_code) := p in
  mkEvent (header_json h) (mkEventType event_type name layer) None
    (final_args k (header_json h) args) return_code.

Lemma unsigned_of_Z z : in_u 8 z -> byte.unsigned (byte.of_Z z) = z.
Proof. intros [? ?]. rewrite byte.unsigned_of_Z. unfold byte.wrap. apply Z.mod_small. cbn in *. lia. Qed.

(** The first byte of a record is its kind. *)
Lemma header_first_byte pad (h : EventHeader.t) rest :
  exists tl, as_bytes pad h ++ rest = byte.of_Z (EventHeader.kind h) :: tl.
Proof. eexists. reflexivity. Qed.

Lemma too_short_header pad (h : EventHeader.t) payload :
  too_short EventHeader.t (as_bytes pad h ++ payload) = false.
Proof.
  unfold too_short. rewrite length_app, length_as_bytes. apply Nat.ltb_ge. lia.
Qed.

(** The deserializer on an arbitrary record, with the payload parser's result. *)
Lemma deserialize_record pad (h : EventHeader.t) k payload :
  in_range h -> EventHeader.kind h = EventKind.to_u8 k -> is_packet k = false ->
  deserialize (as_bytes pad h ++ payload) =
  event_of k h <$> parse_kind k payload (EventHeader.capture h).
Proof.
  intros Hr Hk Hp. unfold deserialize, deserialize_with_authority.
  destruct (header_first_byte pad h payload) as [tl Etl]. rewrite Etl.
  rewrite unsigned_of_Z by (rewrite Hk; apply EventKind.to_u8_range).
  rewrite Hk, EventKind.from_to_u8.
  replace (match k with EventKind.PacketIngress | EventKind.PacketEgress => _ | _ => _ end)
    with (deserialize_process_event (byte.of_Z (EventKind.to_u8 k) :: tl) k)
    by (by destruct k).
  rewrite <- Hk, <- Etl. unfold deserialize_process_event.
  rewrite too_short_header, read_as_bytes by done. unfold after. rewrite drop_as_bytes.
  cbn [bail_if mbind result_bind]. destruct (parse_kind k payload _) as [p|m]; [|done].
  destruct p as [[[[ty name] layer] args] rc]. cbn.
  unfold final_args. destruct k; try done; by destruct (h_process_ref _).
Qed.

(** ** Acceptance *)

(** The payload size of the kinds whose payload has a fixed part only: their
    records are accepted by length alone. *)
Definition fixed_payload (k : EventKind.t) : option nat :=
  match k with
  | EventKind.RawSyscall => Some (size_of RawSyscallPayload.t)
  | EventKind.Read | EventKind.Write => Some (size_of ReadWritePayload.t)
  | EventKind.Connect | EventKind.Bind => Some (size_of ConnectBindPayload.t)
  | EventKind.Listen => Some (size_of ListenPayload.t)
  | EventKind.Socket => Some (size_of SocketPayload.t)
  | EventKind.Clone | EventKind.Clone3 => Some (size_of ClonePayload.t)
  | EventKind.Fchdir | EventKind.Fchmod | EventKind.Fchown | EventKind.Ftruncate =>
      Some (size_of FdPayload.t)
  | EventKind.Sendto | EventKind.Recvfrom => Some (size_of SendtoRecvfromPayload.t)
  | EventKind.Dup | EventKind.Dup2 | EventKind.Dup3 | EventKind.Fcntl =>
      Some (size_of DupPayload.t)
  | EventKind.Pread64 | EventKind.Pwrite64 => Some (size_of PreadPwritePayload.t)
  | EventKind.Readv | EventKind.Writev => Some (size_of ReadvWritevPayload.t)
  | EventKind.Mmap => Some (size_of MmapPayload.t)
  | EventKind.Sendfile | EventKind.Splice => Some (size_of SendfileSplicePayload.t)
  | EventKind.LsmTaskKill => Some (size_of LsmTaskKillPayload.t)
  | EventKind.LsmBpf => Some (size_of LsmBpfPayload.t)
  | EventKind.LsmPtraceAccessCheck => Some (size_of LsmPtracePayload.t)
  | EventKind.LsmTaskFixSetuid => Some (size_of LsmSetuidPayload.t)
  | EventKind.ProcessFork => Some (size_of ProcessForkPayload.t)
  | EventKind.ProcessExit => Some (size_of ProcessExitPayload.t)
  | EventKind.SignalGenerate => Some (size_of SignalGeneratePayload.t)
  | _ => None
  end.

Lemma is_ok_bail {A} b m (f : unit -> result A) :
  (forall u, is_ok (f u) = true) -> is_ok (bail_if b m ≫= f) = negb b.
Proof. intros Hf. destruct b; cbn; auto. Qed.

Lemma parse_fixed_ok k n payload capture :
  fixed_payload k = Some n -> is_ok (parse_kind k payload capture) = (n <=? length payload)%nat.
Proof.
  intros Hk. destruct k; cbn in Hk; try discriminate Hk; injection Hk as <-; cbn [parse_kind];
    (etransitivity; [apply is_ok_bail; intros; done|]);
    unfold too_short; by rewrite Nat.ltb_antisym, negb_involutive.
Qed.

(** A kind byte and enough bytes: when the deserializer accepts. *)
Lemma deserialize_kind b rest k :
  EventKind.from_u8 (byte.unsigned b) = Some k -> is_packet k = false ->
  is_ok (deserialize (b :: rest)) =
  (size_of EventHeader.t <=? length (b :: rest))%nat &&
  is_ok (parse_kind k (after EventHeader.t (b :: rest))
           (EventHeader.capture (read_unaligned (b :: rest)))).
Proof.
  intros Hk Hp. unfold deserialize, deserialize_with_authority. rewrite Hk.
  replace (match k with EventKind.PacketIngress | EventKind.PacketEgress => _ | _ => _ end)
    with (deserialize_process_event (b :: rest) k) by (by destruct k).
  unfold deserialize_process_event, too_short. rewrite Nat.ltb_antisym.
  destruct (size_of EventHeader.t <=? length (b :: rest))%nat; [|done].
  cbn [negb bail_if mbind result_bind andb].
  destruct (parse_kind k _ _) as [[[[[ty name] layer] args] rc]|]; done.
Qed.

(** Records of the fixed-payload kinds are accepted exactly when they are long
    enough, whatever their contents. *)
Theorem fixed_records_accepted_by_length b rest k n :
  EventKind.from_u8 (byte.unsigned b) = Some k -> fixed_payload k = Some n ->
  is_ok (deserialize (b :: rest)) =
  (size_of EventHeader.t + n <=? length (b :: rest))%nat.
Proof.
  intros Hk Hn. assert (Hp : is_packet k = false) by (by destruct k).
  rewrite (deserialize_kind b rest k Hk Hp), (parse_fixed_ok k n _ _ Hn).
  unfold after. rewrite length_drop.
  destruct (Nat.leb_spec (size_of EventHeader.t) (length (b :: rest)));
    destruct (Nat.leb_spec n (length (b :: rest) - size_of EventHeader.t));
    destruct (Nat.leb_spec (size_of EventHeader.t + n) (length (b :: rest))); (done || lia).
Qed.
(** ** What accepted records mean *)

(** The argument [key] of an event. *)
Definition arg (key : string) (e : BehaviorEvent) : option json := be_args e ≫= json_get key.

(** An accepted record: its header was read, its payload parsed. *)
Lemma deserialize_inv b rest k e :
  EventKind.from_u8 (byte.unsigned b) = Some k -> is_packet k = false ->
  deserialize (b :: rest) = Ok e ->
  let h : EventHeader.t := read_unaligned (b :: rest) in
  in_range h /\ exists p, parse_kind k (after EventHeader.t (b :: rest)) (EventHeader.capture h) = Ok p /\
                e = event_of k h p.
Proof.
  intros Hk Hp. unfold deserialize, deserialize_with_authority. rewrite Hk.
  replace (match k with EventKind.PacketIngress | EventKind.PacketEgress => _ | _ => _ end)
    with (deserialize_process_event (b :: rest) k) by (by destruct k).
  unfold deserialize_process_event. destruct (too_short _ _) eqn:Es; [done|].
  cbn [negb bail_if mbind result_bind]. intros E. cbn zeta. split.
  { apply read_in_range. apply Nat.ltb_ge in Es. exact Es. }
  destruct (parse_kind k _ _) as [p|]; [|done]. exists p. split; [done|].
  destruct p as [[[[ty name] layer] args] rc]. cbn in E. simplify_eq. cbn.
  unfold final_args. destruct k; try done; by destruct (h_process_ref _).
Qed.

(** What a version 1 TTY status says about the captured bytes. *)
Definition tty_status_means (status : string) (d : list byte) : Prop :=
  (status = "complete" /\ 0 < len d < MAX_TTY_DATA) \/
  (status = "truncated" /\ len d = MAX_TTY_DATA - 1) \/
  (status = "read_error" /\ d = []).

Lemma tty_status_v1 c declared (d : list byte) status :
  HeaderCapture.version c = 1 -> tty_status c declared (len d) = Ok status ->
  declared = len d /\ tty_status_means status d.
Proof.
  intros Hv. unfold tty_status, tty_status_means. rewrite Hv. intros Hok. ok_inv.
  bool_inv. subst declared. split; [done|]. pose proof (len_nonneg d).
  destruct a1; ok_inv; bool_inv; subst; [left|right; left|right; right];
    (split; [done|]); [lia|lia|by apply len_zero].
Qed.

(** An accepted version 1 TTY record carries all of its variable part
    and nothing else, and its status is true of it. *)
Theorem tty_status_sound b rest k e :
  EventKind.from_u8 (byte.unsigned b) = Some k ->
  k = EventKind.TtyRead \/ k = EventKind.TtyWrite ->
  deserialize (b :: rest) = Ok e -> arg "tty_capture_version" e = Some (JNum 1) ->
  exists status,
    let d := after TtyPayload.t (after EventHeader.t (b :: rest)) in
    arg "data" e = Some (JStr (b64_encode d)) /\
    arg "data_status" e = Some (JStr status) /\ tty_status_means status d.
Proof.
  intros Hk Hkind He Hv.
  apply (deserialize_inv b rest k) in He as (_ & p & Hp & ->);
    [|done|by destruct Hkind as [-> | ->]].
  set (payload := after EventHeader.t (b :: rest)) in *. clearbody payload.
  revert Hp Hv. generalize (read_unaligned (b :: rest) : EventHeader.t). intros h Hp Hv.
  assert (Htty : exists name, parse_tty payload name (EventHeader.capture h) = Ok p)
    by (destruct Hkind as [-> | ->]; eauto).
  destruct Htty as [name Htty]. unfold parse_tty in Htty. ok_inv. subst p.
  assert (Hv1 : HeaderCapture.version (EventHeader.capture h) = 1).
  { unfold arg, event_of, final_args in Hv.
    destruct Hkind as [-> | ->]; cbn [be_args mbind option_bind] in Hv;
      json_simpl_in Hv; congruence. }
  apply tty_status_v1 in Hok1 as [Hlen Hmeans]; [|done]. exists a0. cbn zeta.
  rewrite Hlen, Z.min_id. unfold arg, event_of, final_args, prefix, len.
  rewrite Nat2Z.id, firstn_all.
  destruct Hkind as [-> | ->]; cbn [be_args mbind option_bind]; json_simpl; done.
Qed.
(** ** File identity *)

Lemma land3_cases z : let v := Z.land z 3 in v = 0 \/ v = 1 \/ v = 2 \/ v = 3.
Proof.
  cbn zeta. assert (E : Z.land z 3 = z mod 4) by apply (Z.land_ones z 2 ltac:(lia)).
  pose proof (Z.mod_pos_bound z 4 ltac:(lia)). lia.
Qed.

(** The status that the presence of the identity fields justifies. *)
Definition identity_status_of (rc : Z) (dev ino : option json) : string :=
  if rc <? 0 then "not_attempted"
  else match dev, ino with
       | Some _, Some _ => "complete"
       | None, None => "unavailable"
       | _, _ => "partial"
       end.

Lemma openat_v1_identity o var_len filename args :
  is_obj args = true -> json_get "dev" args = None -> json_get "ino" args = None ->
  json_get "dev_major" args = None ->
  openat_metadata_invalid o var_len = false ->
  let args := openat_v1_args o filename args in
  let rc := OpenatPayload.return_code o in
  json_get "file_identity_status" args =
    Some (JStr (identity_status_of rc (json_get "dev" args) (json_get "ino" args))) /\
  (rc < 0 -> json_get "dev" args = None /\ json_get "ino" args = None /\
             json_get "dev_major" args = None) /\
  json_get "capture_version" args = Some (JNum 1).
Proof.
  intros Hobj Hdev Hino Hmaj Hinv. unfold openat_metadata_invalid in Hinv. cbn zeta in Hinv |- *.
  bool_inv. unfold openat_v1_args, identity_status_of, DEV_VALID, INO_VALID in *. cbn zeta.
  change (Z.lor 1 2) with 3 in *.
  apply andb_false_iff in Hinv3 as [Hrc|Hv]; bool_inv.
  all: destruct (land3_cases (OpenatPayload.capture_flags o)) as [E|[E|[E|E]]];
    rewrite E in *; try done; clear E;
    repeat match goal with |- context [has ?a ?b] =>
             let v := eval vm_compute in (has a b) in change (has a b) with v end;
    cbv iota;
    repeat (rewrite json_get_insert by (rewrite ?is_obj_insert; done);
            cbn [String.eqb Ascii.eqb Bool.eqb]);
    rewrite ?Hdev, ?Hino, ?Hmaj;
    destruct (Z.ltb_spec (OpenatPayload.return_code o) 0);
    try (exfalso; lia); (split; [done|]); (split; [|done]); intros; (lia || done).
Qed.

(** An accepted version 1 openat record states a device or an inode
    only when the kernel side validated it, never for a failed open, and its
    identity status is exactly what the fields justify. *)
Theorem openat_identity_honest b rest e :
  EventKind.from_u8 (byte.unsigned b) = Some EventKind.Openat ->
  deserialize (b :: rest) = Ok e -> arg "capture_version" e = Some (JNum 1) ->
  exists rc, be_return_code e = Some rc /\
    arg "file_identity_status" e =
      Some (JStr (identity_status_of rc (arg "dev" e) (arg "ino" e))) /\
    (rc < 0 -> arg "dev" e = None /\ arg "ino" e = None /\ arg "dev_major" e = None).
Proof.
  intros Hk He Hv.
  apply (deserialize_inv b rest EventKind.Openat) in He as (_ & p & Hp & ->); [|done|done].
  revert Hp Hv. generalize (read_unaligned (b :: rest) : EventHeader.t),
    (after EventHeader.t (b :: rest)). intros h payload Hp Hv.
  cbn [parse_kind] in Hp. unfold parse_openat in Hp. cbn zeta in Hp. ok_inv. subst p.
  exists (OpenatPayload.return_code (read_unaligned payload)). split; [done|].
  unfold arg, event_of, final_args in *. cbn [be_args mbind option_bind] in *.
  destruct (OpenatPayload.capture_version _ =? 1) eqn:Ev; ok_inv; subst.
  - match goal with Hm : openat_metadata_invalid _ _ = false |- _ =>
      edestruct openat_v1_identity as (? & ? & _); [..|exact Hm|by split] end;
      [done|by json_simpl..].
  - exfalso. destruct (negb _ || negb _); ok_inv; subst; json_simpl_in Hv; done.
Qed.

(** ** Execution views *)

(** An accepted exec-view record names a root only when the view is
    complete, and then with a mount namespace and a mount id. *)
Theorem exec_view_complete_or_absent b rest e :
  EventKind.from_u8 (byte.unsigned b) = Some EventKind.ExecView ->
  deserialize (b :: rest) = Ok e ->
  (arg "view_status" e = Some (JStr "complete") /\
     exists ns id ino, arg "mount_namespace" e = Some (JNum ns) /\ 0 < ns /\
       arg "root_mount_id" e = Some (JNum id) /\ 0 < id /\ arg "root_inode" e = Some (JNum ino)) \/
  (arg "view_status" e <> Some (JStr "complete") /\
     arg "mount_namespace" e = None /\ arg "root_mount_id" e = None /\ arg "root_inode" e = None).
Proof.
  intros Hk He.
  apply (deserialize_inv b rest EventKind.ExecView) in He as (_ & p & Hp & ->); [|done|done].
  revert Hp. generalize (read_unaligned (b :: rest) : EventHeader.t),
    (after EventHeader.t (b :: rest)). intros h payload Hp.
  cbn [parse_kind] in Hp. unfold parse_exec_view in Hp. cbn zeta in Hp. ok_inv. subst p.
  unfold wrong_size in Hok. apply negb_false_iff, Nat.eqb_eq in Hok.
  assert (Hr : in_range (read_unaligned payload : ExecViewPayload.t)) by (apply read_in_range; lia).
  unfold arg, event_of, final_args. cbn [be_args mbind option_bind].
  revert Hr Hok1 Hok0. generalize (read_unaligned payload : ExecViewPayload.t).
  intros v Hr Hst Hc. unfold in_range in Hr. cbn in Hr. unfold in_u in Hr.
  destruct (bool_decide (a0 = "complete")) eqn:Ea; bool_inv; subst.
  - left. json_simpl. split; [done|]. do 3 eexists. split_and!; try reflexivity.
    all: destruct (ExecViewPayload.version v =? 1); cbn [negb andb] in *; [|by simplify_eq];
      destruct (Z.eqb_spec (ExecViewPayload.status v) 1) as [E1|];
      [cbn [negb andb orb] in Hc; rewrite orb_false_r in Hc; bool_inv; lia|];
      exfalso; revert Hst; destruct (ExecViewPayload.status v) as [|[[]|[]|]|]; done.
  - right. json_simpl. split; [|done]. congruence.
Qed.
End Wire.

Lemma fixed_records_accepted_by_length_witness :
  exists b n, EventKind.from_u8 (byte.unsigned b) = Some EventKind.Listen /\
    fixed_payload EventKind.Listen = Some n /\
    is_ok (@deserialize identity_base64 (b :: replicate 200 NUL)) =
    (size_of EventHeader.t + n <=? 201)%nat.
Proof.
  exists (byte.of_Z (EventKind.to_u8 EventKind.Listen)), (size_of ListenPayload.t).
  split; [reflexivity|]. split; [reflexivity|].
  apply (@fixed_records_accepted_by_length identity_base64 _ (replicate 200 NUL) EventKind.Listen);
    reflexivity.
Defined.
