(* ===== verification/Bpf.v ===== *)
(** * The BPF side: kernel interface and shared helpers

    A BPF program runs in one hook invocation.  What it learns from the kernel
    during that invocation (clock, current task, memory, the outcomes of map
    and ring operations) is a [Hook]; what it keeps between invocations (maps,
    counters, per-CPU scratch, the ring) is the state [Bpf]; the globals set
    before load are [Globals].  A handler is a computation in a small
    state-and-error monad: [None] is the [Err(_)] of the source, whose value no
    caller looks at.

    Models bloodhound-ebpf/src/{maps,helpers,filter}.rs. *)

From S2P Require Import Prelude Layout Records Common.

Local Open Scope Z_scope.
Local Open Scope list_scope.

(** ** Globals (main.rs) *)
Record Globals : Type := mkGlobals {
  TARGET_AUID : Z; DAEMON_PID : Z;
  OFF_LOGINUID : Z; OFF_SESSIONID : Z; OFF_TGID : Z; OFF_PID : Z; OFF_GROUP_LEADER : Z;
  OFF_START_BOOTTIME : Z; OFF_SIGNAL : Z; OFF_EXIT_CODE : Z; OFF_COMM : Z;
  OFF_SIGNAL_LIVE : Z; OFF_SIGNAL_GROUP_EXIT_CODE : Z;
  OFF_EXEC_VIEW : list Z; EXEC_VIEW_SUPPORTED : Z;
  OFF_FD_IDENT : list Z; FD_IDENT_SUPPORTED : Z;
  OFF_TTY : list Z; TTY_SUPPORTED : Z;
  OFF_NS : list Z; NS_SUPPORTED : Z }.

(** ** Maps and scratch (maps.rs) *)

Inductive MapId : Type :=
| EXECVE_ENTRY_MAP | SYSCALL_ENTRY_MAP | RICH_ENTRY_MAP | OPENAT_ENTRY_MAP
| PATH_ENTRY_MAP | TTY_READ_ENTRY_MAP | EXIT_CLAIMS.

(** Per-CPU arrays whose slot may be missing; [SCRATCH_BUF] has four slots. *)
Inductive ScratchId : Type :=
| SYSCALL_TMP_BUF | OPENAT_TMP_BUF | PATH_TMP_BUF | EXECVE_TMP_BUF | ASSEMBLY_BUF
| SCRATCH_BUF (slot : nat).

Record OpenatEntry : Type := mkOpenatEntry {
  oe_header : EventHeader.t; oe_flags : Z; oe_mode : Z; oe_filename_len : Z;
  oe_capture_flags : Z; oe_dirfd : Z; oe_filename : list byte }.

Record PathEntry : Type := mkPathEntry {
  pe_header : EventHeader.t; pe_path1_len : Z; pe_path2_len : Z;
  pe_path1 : list byte; pe_path2 : list byte }.

Record RichSyscallEntry : Type := mkRichEntry {
  re_header : EventHeader.t; re_data : list byte; re_data_len : Z }.

Record SyscallEntry : Type := mkSyscallEntry {
  se_header : EventHeader.t; se_syscall_nr : Z; se_args : list Z }.

Record ExecveEntry : Type := mkExecveEntry {
  xe_header : EventHeader.t; xe_filename_len : Z; xe_argv_len : Z;
  xe_filename_buf : list byte; xe_argv_buf : list byte }.

Record TtyReadEntry : Type := mkTtyReadEntry { te_buf_ptr : Z; te_count : Z }.

(** The failure-counter arrays, one slot per reason. *)
Record Failures : Type := mkFailures {
  openat_failures : list Z; exec_failures : list Z; syscall_failures : list Z;
  raw_syscall_failures : list Z; tty_failures : list Z; exit_failures : list Z }.

(** Scratch contents survive between invocations: stale bytes are modelled. *)
Record Scratch : Type := mkScratch {
  tmp_rich_data : list byte; tmp_openat_filename : list byte;
  tmp_path1 : list byte; tmp_path2 : list byte;
  tmp_exec_filename : list byte; tmp_exec_argv : list byte;
  assembly : list byte; scratch_buf : list (list byte) }.

Record Bpf : Type := mkBpf {
  EVENTS : list (list byte);
  DROP_COUNT : Z;
  failures : Failures;
  execve_map : gmap Z ExecveEntry;
  syscall_map : gmap Z SyscallEntry;
  rich_map : gmap Z RichSyscallEntry;
  openat_map : gmap Z OpenatEntry;
  path_map : gmap Z PathEntry;
  tty_map : gmap Z TtyReadEntry;
  exit_claims : gmap ExitClaimKey Z;
  exclusion_bitmap : list Z;
  tier2_bitmap : list Z;
  scratch : Scratch }.

Definition ASSEMBLY_BUF_SIZE : Z := 2 * MAX_PATH_SIZE + 256.

(** ** The kernel during one invocation *)
Record Hook : Type := mkHook {
  hk_now : Z;                                    (* bpf_ktime_get_ns *)
  hk_pid_tgid : Z;                               (* bpf_get_current_pid_tgid *)
  hk_task : Z;                                   (* bpf_get_current_task *)
  hk_comm : option (list byte);                  (* bpf_get_current_comm *)
  hk_kread : Z -> nat -> option (list byte);     (* bpf_probe_read_kernel *)
  hk_kread_again : Z -> nat -> option (list byte); (* the same, at a later moment *)
  hk_errno : Z;                                  (* its negative result when it fails *)
  hk_uread : Z -> nat -> option (list byte);     (* bpf_probe_read_user *)
  hk_ustr : Z -> nat -> option (list byte);      (* bpf_probe_read_user_str_bytes *)
  hk_ctx : Z -> nat -> option (list byte);       (* TracePointContext::read_at *)
  hk_raw_arg : nat -> Z;                         (* RawTracePointContext args *)
  hk_arg : nat -> option Z;                      (* ProbeContext::arg *)
  hk_ret : option Z;                             (* RetProbeContext::ret *)
  hk_scratch : ScratchId -> bool;                (* PerCpuArray::get_ptr_mut is Some *)
  hk_insert : MapId -> map_result;               (* HashMap::insert, beyond BPF_NOEXIST *)
  hk_remove : MapId -> map_result;               (* HashMap::remove of a present key *)
  hk_memcpy : nat -> bool;                       (* bpf_probe_read_kernel map to map *)
  hk_room : list (list byte) -> list byte -> bool; (* RingBuf::output succeeds *)
  hk_garbage : list byte -> list byte;           (* a buffer after a failed read into it *)
  hk_pad : nat -> byte }.                        (* padding bytes of stack structs *)

(** ** The monad *)
Definition M (A : Type) : Type := Bpf -> option A * Bpf.

#[export] Instance M_ret : MRet M := fun A a s => (Some a, s).
#[export] Instance M_bind : MBind M := fun A B f m s =>
  match m s with
  | (Some a, s1) => f a s1
  | (None, s1) => (None, s1)
  end.

Definition fail {A} : M A := fun s => (None, s).
Definition get_state : M Bpf := fun s => (Some s, s).
Definition modify (f : Bpf -> Bpf) : M unit := fun s => (Some tt, f s).
Definition lift {A} (o : option A) : M A := fun s => (o, s).

(** A handler behind its tracepoint entry: [Err] runs the recovery. *)
Definition or_else (m : M unit) (recover : M unit) : M unit := fun s =>
  match m s with
  | (Some _, s1) => (Some tt, s1)
  | (None, s1) => recover s1
  end.

(** [match m { Ok(v) => v, Err(_) => { recover; return Err(-1) } }] *)
Definition on_err {A} (m : M A) (recover : M unit) : M A := fun s =>
  match m s with
  | (Some a, s1) => (Some a, s1)
  | (None, s1) => (None, (recover s1).2)
  end.

Lemma bind_some {A B} (m : M A) (f : A -> M B) s a s1 :
  m s = (Some a, s1) -> mbind f m s = f a s1.
Proof. intros E. unfold mbind, M_bind. by rewrite E. Qed.

Lemma bind_none {A B} (m : M A) (f : A -> M B) s s1 :
  m s = (None, s1) -> mbind f m s = (None, s1).
Proof. intros E. unfold mbind, M_bind. by rewrite E. Qed.

(** State updates, one per component. *)
Definition set_EVENTS (v : list (list byte)) (s : Bpf) : Bpf :=
  mkBpf v (DROP_COUNT s) (failures s) (execve_map s) (syscall_map s) (rich_map s)
    (openat_map s) (path_map s) (tty_map s) (exit_claims s) (exclusion_bitmap s)
    (tier2_bitmap s) (scratch s).
Definition set_DROP_COUNT (v : Z) (s : Bpf) : Bpf :=
  mkBpf (EVENTS s) v (failures s) (execve_map s) (syscall_map s) (rich_map s)
    (openat_map s) (path_map s) (tty_map s) (exit_claims s) (exclusion_bitmap s)
    (tier2_bitmap s) (scratch s).
Definition set_failures (v : Failures) (s : Bpf) : Bpf :=
  mkBpf (EVENTS s) (DROP_COUNT s) v (execve_map s) (syscall_map s) (rich_map s)
    (openat_map s) (path_map s) (tty_map s) (exit_claims s) (exclusion_bitmap s)
    (tier2_bitmap s) (scratch s).
Definition set_execve_map (v : gmap Z ExecveEntry) (s : Bpf) : Bpf :=
  mkBpf (EVENTS s) (DROP_COUNT s) (failures s) v (syscall_map s) (rich_map s)
    (openat_map s) (path_map s) (tty_map s) (exit_claims s) (exclusion_bitmap s)
    (tier2_bitmap s) (scratch s).
Definition set_syscall_map (v : gmap Z SyscallEntry) (s : Bpf) : Bpf :=
  mkBpf (EVENTS s) (DROP_COUNT s) (failures s) (execve_map s) v (rich_map s)
    (openat_map s) (path_map s) (tty_map s) (exit_claims s) (exclusion_bitmap s)
    (tier2_bitmap s) (scratch s).
Definition set_rich_map (v : gmap Z RichSyscallEntry) (s : Bpf) : Bpf :=
  mkBpf (EVENTS s) (DROP_COUNT s) (failures s) (execve_map s) (syscall_map s) v
    (openat_map s) (path_map s) (tty_map s) (exit_claims s) (exclusion_bitmap s)
    (tier2_bitmap s) (scratch s).
Definition set_openat_map (v : gmap Z OpenatEntry) (s : Bpf) : Bpf :=
  mkBpf (EVENTS s) (DROP_COUNT s) (failures s) (execve_map s) (syscall_map s) (rich_map s)
    v (path_map s) (tty_map s) (exit_claims s) (exclusion_bitmap s)
    (tier2_bitmap s) (scratch s).
Definition set_path_map (v : gmap Z PathEntry) (s : Bpf) : Bpf :=
  mkBpf (EVENTS s) (DROP_COUNT s) (failures s) (execve_map s) (syscall_map s) (rich_map s)
    (openat_map s) v (tty_map s) (exit_claims s) (exclusion_bitmap s)
    (tier2_bitmap s) (scratch s).
Definition set_tty_map (v : gmap Z TtyReadEntry) (s : Bpf) : Bpf :=
  mkBpf (EVENTS s) (DROP_COUNT s) (failures s) (execve_map s) (syscall_map s) (rich_map s)
    (openat_map s) (path_map s) v (exit_claims s) (exclusion_bitmap s)
    (tier2_bitmap s) (scratch s).
Definition set_exit_claims (v : gmap ExitClaimKey Z) (s : Bpf) : Bpf :=
  mkBpf (EVENTS s) (DROP_COUNT s) (failures s) (execve_map s) (syscall_map s) (rich_map s)
    (openat_map s) (path_map s) (tty_map s) v (exclusion_bitmap s)
    (tier2_bitmap s) (scratch s).
Definition set_scratch (v : Scratch) (s : Bpf) : Bpf :=
  mkBpf (EVENTS s) (DROP_COUNT s) (failures s) (execve_map s) (syscall_map s) (rich_map s)
    (openat_map s) (path_map s) (tty_map s) (exit_claims s) (exclusion_bitmap s)
    (tier2_bitmap s) v.

(** ** Map, buffer and counter operations *)

(** [HashMap::insert(key, value, 0)] with the outcome the kernel reports *)
Definition map_insert `{Countable K} {V} (r : map_result) (k : K) (v : V) (m : gmap K V)
    : map_result * gmap K V :=
  match r with
  | None => (None, <[k := v]> m)
  | Some e => (Some e, m)
  end.

(** [HashMap::insert(key, value, BPF_NOEXIST)] *)
Definition map_insert_noexist `{Countable K} {V} (r : map_result) (k : K) (v : V)
    (m : gmap K V) : map_result * gmap K V :=
  match m !! k with
  | Some _ => (Some EEXIST, m)
  | None => map_insert r k v m
  end.

(** [HashMap::remove(key)]: an absent key is [ENOENT]. *)
Definition map_remove `{Countable K} {V} (r : map_result) (k : K) (m : gmap K V)
    : map_result * gmap K V :=
  match m !! k with
  | None => (Some ENOENT, m)
  | Some _ => match r with None => (None, delete k m) | Some e => (Some e, m) end
  end.

(** Write [bs] into [buf] at [off]. *)
Definition overwrite (off : nat) (bs buf : list byte) : list byte :=
  take off buf ++ bs ++ drop (off + length bs) buf.

(** [if let Some(c) = COUNTERS.get_ptr_mut(reason) { *c = c.wrapping_add(1) }] *)
Definition bump (reason : nat) (counters : list Z) : list Z :=
  alter (fun c => wrapping_add c 1) reason counters.

Definition openat_failure (reason : nat) : M unit := modify (fun s =>
  let f := failures s in
  set_failures (mkFailures (bump reason (openat_failures f)) (exec_failures f)
    (syscall_failures f) (raw_syscall_failures f) (tty_failures f) (exit_failures f)) s).
Definition exec_failure (reason : nat) : M unit := modify (fun s =>
  let f := failures s in
  set_failures (mkFailures (openat_failures f) (bump reason (exec_failures f))
    (syscall_failures f) (raw_syscall_failures f) (tty_failures f) (exit_failures f)) s).
Definition syscall_failure (reason : nat) : M unit := modify (fun s =>
  let f := failures s in
  set_failures (mkFailures (openat_failures f) (exec_failures f)
    (bump reason (syscall_failures f)) (raw_syscall_failures f) (tty_failures f)
    (exit_failures f)) s).
Definition raw_syscall_failure (reason : nat) : M unit := modify (fun s =>
  let f := failures s in
  set_failures (mkFailures (openat_failures f) (exec_failures f) (syscall_failures f)
    (bump reason (raw_syscall_failures f)) (tty_failures f) (exit_failures f)) s).
Definition tty_failure (reason : nat) : M unit := modify (fun s =>
  let f := failures s in
  set_failures (mkFailures (openat_failures f) (exec_failures f) (syscall_failures f)
    (raw_syscall_failures f) (bump reason (tty_failures f)) (exit_failures f)) s).
Definition exit_failure (reason : nat) : M unit := modify (fun s =>
  let f := failures s in
  set_failures (mkFailures (openat_failures f) (exec_failures f) (syscall_failures f)
    (raw_syscall_failures f) (tty_failures f) (bump reason (exit_failures f))) s).

(** [if let Some(reason) = outcome(result) { failure(reason) }] *)
Definition report (failure : nat -> M unit) (outcome : option nat) : M unit :=
  match outcome with Some reason => failure reason | None => mret tt end.

Definition syscall_save (r : map_result) : M unit := report syscall_failure (save_outcome r).
Definition syscall_cleanup (r : map_result) : M unit :=
  report syscall_failure (cleanup_outcome r).
Definition raw_syscall_save (r : map_result) : M unit :=
  report raw_syscall_failure (save_outcome r).
Definition raw_syscall_cleanup (r : map_result) : M unit :=
  report raw_syscall_failure (cleanup_outcome r).
Definition tty_save (r : map_result) : M unit := report tty_failure (save_outcome r).
Definition tty_cleanup (r : map_result) : M unit := report tty_failure (cleanup_outcome r).

Section Invocation.
Context (g : Globals) (h : Hook).

Definition rich_insert (k : Z) (e : RichSyscallEntry) : M map_result := fun s =>
  let '(r, m) := map_insert (hk_insert h RICH_ENTRY_MAP) k e (rich_map s) in
  (Some r, set_rich_map m s).
Definition rich_remove (k : Z) : M map_result := fun s =>
  let '(r, m) := map_remove (hk_remove h RICH_ENTRY_MAP) k (rich_map s) in
  (Some r, set_rich_map m s).
Definition path_insert (k : Z) (e : PathEntry) : M map_result := fun s =>
  let '(r, m) := map_insert (hk_insert h PATH_ENTRY_MAP) k e (path_map s) in
  (Some r, set_path_map m s).
Definition path_remove (k : Z) : M map_result := fun s =>
  let '(r, m) := map_remove (hk_remove h PATH_ENTRY_MAP) k (path_map s) in
  (Some r, set_path_map m s).
Definition openat_insert (k : Z) (e : OpenatEntry) : M map_result := fun s =>
  let '(r, m) := map_insert (hk_insert h OPENAT_ENTRY_MAP) k e (openat_map s) in
  (Some r, set_openat_map m s).
Definition openat_remove (k : Z) : M map_result := fun s =>
  let '(r, m) := map_remove (hk_remove h OPENAT_ENTRY_MAP) k (openat_map s) in
  (Some r, set_openat_map m s).
Definition syscall_insert (k : Z) (e : SyscallEntry) : M map_result := fun s =>
  let '(r, m) := map_insert (hk_insert h SYSCALL_ENTRY_MAP) k e (syscall_map s) in
  (Some r, set_syscall_map m s).
Definition syscall_remove (k : Z) : M map_result := fun s =>
  let '(r, m) := map_remove (hk_remove h SYSCALL_ENTRY_MAP) k (syscall_map s) in
  (Some r, set_syscall_map m s).
Definition execve_insert (k : Z) (e : ExecveEntry) : M map_result := fun s =>
  let '(r, m) := map_insert (hk_insert h EXECVE_ENTRY_MAP) k e (execve_map s) in
  (Some r, set_execve_map m s).
Definition execve_remove (k : Z) : M map_result := fun s =>
  let '(r, m) := map_remove (hk_remove h EXECVE_ENTRY_MAP) k (execve_map s) in
  (Some r, set_execve_map m s).
Definition tty_insert (k : Z) (e : TtyReadEntry) : M map_result := fun s =>
  let '(r, m) := map_insert (hk_insert h TTY_READ_ENTRY_MAP) k e (tty_map s) in
  (Some r, set_tty_map m s).
Definition tty_remove (k : Z) : M map_result := fun s =>
  let '(r, m) := map_remove (hk_remove h TTY_READ_ENTRY_MAP) k (tty_map s) in
  (Some r, set_tty_map m s).

(** [tty_interrupt]: reclaim only recorded reads. *)
Definition tty_interrupt (pid_tgid : Z) : M unit :=
  s ← get_state;
  match tty_map s !! pid_tgid with
  | Some _ =>
      _ ← tty_failure SYSCALL_INVOCATION_INTERRUPTED;
      r ← tty_remove pid_tgid;
      tty_cleanup r
  | None => mret tt
  end.

(** ** helpers.rs *)

Definition read_user_str (src : Z) (buffer : list byte)
    : Z * CaptureStatus.t * list byte :=
  match hk_ustr h src (Z.to_nat MAX_PATH_SIZE) with
  | Some s =>
      (wrap 16 (len s),
       if len s <? MAX_PATH_SIZE - 1 then CaptureStatus.Complete else CaptureStatus.Truncated,
       overwrite 0 (s ++ [NUL]) buffer)
  | None => (0, CaptureStatus.ReadError, hk_garbage h buffer)
  end.

Definition increment_drop_count : M unit :=
  modify (fun s => set_DROP_COUNT (wrapping_add (DROP_COUNT s) 1) s).

Definition emit_event (data : list byte) : M bool := fun s =>
  match data with
  | [] => (Some false, s)
  | _ =>
      if hk_room h (EVENTS s) data then (Some true, set_EVENTS (EVENTS s ++ [data]) s)
      else match increment_drop_count s with (_, s1) => (Some false, s1) end
  end.

(** The copies of header and payload into a zeroed stack buffer of [n] bytes,
    and the emission of the first [total] of them. *)
Definition emit_stack (n : nat) (header : EventHeader.t) (payload : list byte) : M unit :=
  let buf := replicate n NUL in
  let buf := overwrite 0 (as_bytes (hk_pad h) header) buf in
  let buf := overwrite (size_of EventHeader.t) payload buf in
  _ ← emit_event (take (size_of EventHeader.t + length payload) buf);
  mret tt.

(** [helpers::emit_fixed], a 128-byte buffer; [None] is a header-only record *)
Definition emit_fixed_opt {T} `{ReprC T} (header : EventHeader.t) (payload : option T) : M unit :=
  emit_stack 128 header (match payload with Some p => as_bytes (hk_pad h) p | None => [] end).

(** [bpf_memcpy]: the [call]-th kernel copy of the invocation *)
Definition bpf_memcpy (call : nat) (dst_off : nat) (src : list byte) (dst : list byte)
    : option (list byte) :=
  match src with
  | [] => Some dst
  | _ => if hk_memcpy h call then Some (overwrite dst_off src dst) else None
  end.

(** ** Typed reads *)

Definition read_at_u64 (off : Z) : M Z := lift (le_combine <$> hk_ctx h off 8).
Definition read_at_i64 (off : Z) : M Z := lift ((fun b => swrap 64 (le_combine b)) <$> hk_ctx h off 8).
Definition read_at_u32 (off : Z) : M Z := lift (le_combine <$> hk_ctx h off 4).
Definition read_at_i32 (off : Z) : M Z := lift ((fun b => swrap 32 (le_combine b)) <$> hk_ctx h off 4).
(** [ctx.read_at(off).unwrap_or(default)] *)
Definition read_at_u64_or (off default_value : Z) : Z :=
  default default_value (le_combine <$> hk_ctx h off 8).
Definition read_at_i64_or (off default_value : Z) : Z :=
  default default_value ((fun b => swrap 64 (le_combine b)) <$> hk_ctx h off 8).

Definition kread_u32 (addr : Z) : option Z := le_combine <$> hk_kread h addr 4.
Definition kread_i32 (addr : Z) : option Z := (fun b => swrap 32 (le_combine b)) <$> hk_kread h addr 4.
Definition kread_i16 (addr : Z) : option Z := (fun b => swrap 16 (le_combine b)) <$> hk_kread h addr 2.
Definition kread_u64 (addr : Z) : option Z := le_combine <$> hk_kread h addr 8.
Definition uread_u8 (addr : Z) : option Z := le_combine <$> hk_uread h addr 1.
Definition uread_u16 (addr : Z) : option Z := le_combine <$> hk_uread h addr 2.
Definition uread_u32 (addr : Z) : option Z := le_combine <$> hk_uread h addr 4.
Definition uread_u64 (addr : Z) : option Z := le_combine <$> hk_uread h addr 8.

(** ** filter.rs *)

Record KernelProcessRef : Type := mkKernelProcessRef {
  kr_tgid : Z; kr_start_boottime_ns : Z; kr_group_leader : Z }.

Definition process_ref_from_task (task : Z) : option KernelProcessRef :=
  if task =? 0 then None else
  match kread_u64 (wrapping_add task (OFF_GROUP_LEADER g)) with
  | Some leader =>
      if leader =? 0 then None else
      match kread_u32 (wrapping_add leader (OFF_TGID g)) with
      | None => None
      | Some tgid =>
          match kread_u64 (wrapping_add leader (OFF_START_BOOTTIME g)) with
          | None => None
          | Some start =>
              if (tgid =? 0) || (start =? 0) then None
              else Some (mkKernelProcessRef tgid start leader)
          end
      end
  | None => None
  end.

Definition task_auid (task : Z) : Z :=
  if task =? 0 then U32_MAX else default U32_MAX (kread_u32 (wrapping_add task (OFF_LOGINUID g))).
Definition task_sessionid (task : Z) : Z :=
  if task =? 0 then U32_MAX else default U32_MAX (kread_u32 (wrapping_add task (OFF_SESSIONID g))).
Definition task_tid (task : Z) : Z :=
  if task =? 0 then 0 else default 0 (kread_u32 (wrapping_add task (OFF_PID g))).
Definition task_comm (task : Z) : list byte :=
  if task =? 0 then replicate 16 NUL
  else default (replicate 16 NUL) (hk_kread h (wrapping_add task (OFF_COMM g)) 16).

Definition get_current_auid : Z := task_auid (hk_task h).
Definition get_current_sessionid : Z := task_sessionid (hk_task h).

(** [(pid_tgid >> 32) as u32] and [pid_tgid as u32] *)
Definition current_tgid : Z := wrap 32 (Z.shiftr (hk_pid_tgid h) 32).
Definition current_tid : Z := wrap 32 (hk_pid_tgid h).

Definition should_trace : bool :=
  if negb (get_current_auid =? TARGET_AUID g) then false
  else negb (current_tgid =? DAEMON_PID g).

Definition should_trace_signal (target_task : Z) : bool :=
  if (current_tgid =? DAEMON_PID g) || (target_task =? 0) then false
  else (get_current_auid =? TARGET_AUID g) || (task_auid target_task =? TARGET_AUID g).
End Invocation.
