(* ===== verification/Task.v ===== *)
(** * Task and file observations

    What the programs read from kernel structures: the namespace snapshot
    (ns.rs), the event header of a task (the rest of filter.rs), the identity
    of a descriptor's file (fd_ident.rs) and the execution view (exec_view.rs). *)

From S2P Require Import Prelude Layout Records Common Bpf.

Local Open Scope Z_scope.
Local Open Scope list_scope.

(** ** Namespace snapshots (ns.rs) *)

(** 1 when [value] is nonzero, else 0, without a branch. *)
Definition nonzero (value : Z) : Z :=
  Z.shiftr (Z.lor value (wrapping_sub 0 value)) 63.

(** [put]: the status and inode of one slot. *)
Definition ns_put (slot supported inum failed : Z) : Z * Z :=
  let supported := Z.land (Z.shiftr supported slot) 1 in
  let complete := Z.land (Z.land supported (nonzero inum)) (Z.lxor (nonzero failed) 1) in
  let unavailable := Z.land supported (Z.lxor complete 1) in
  let status :=
    wrapping_add (wrapping_add (wrap 64 (complete * NS_STATUS_COMPLETE))
      (wrap 64 (unavailable * NS_STATUS_UNAVAILABLE)))
      (wrap 64 (Z.lxor supported 1 * NS_STATUS_UNSUPPORTED)) in
  (wrap 8 status, Z.land inum (wrap 32 (wrapping_sub 0 complete))).

(** What a slot should say. *)
Definition ns_slot_spec (slot supported inum failed : Z) : Z * Z :=
  if negb (Z.testbit supported slot) then (NS_STATUS_UNSUPPORTED, 0)
  else if (failed =? 0) && negb (inum =? 0) then (NS_STATUS_COMPLETE, inum)
  else (NS_STATUS_UNAVAILABLE, 0).

Lemma nonzero_spec v : in_u 64 v -> nonzero v = if v =? 0 then 0 else 1.
Proof.
  unfold in_u, nonzero, wrapping_sub, wrap. intros Hv.
  rewrite Z.shiftr_lor, !Z.shiftr_div_pow2 by lia.
  destruct (Z.eqb_spec v 0) as [->|Hn]; [reflexivity|].
  replace ((0 - v) mod 2 ^ 64) with (2 ^ 64 - v).
  2: { apply Z.mod_unique with (q := -1); lia. }
  assert (H63 : 2 ^ 64 = 2 * 2 ^ 63) by reflexivity.
  destruct (Z.lt_ge_cases v (2 ^ 63)) as [Hl|Hg].
  - rewrite Z.div_small by lia.
    replace ((2 ^ 64 - v) / 2 ^ 63) with 1; [done|].
    apply Z.div_unique with (r := 2 ^ 63 - v); lia.
  - replace (v / 2 ^ 63) with 1 by (apply Z.div_unique with (r := v - 2 ^ 63); lia).
    destruct (Z.eq_dec v (2 ^ 63)) as [->|Hne]; [reflexivity|].
    by rewrite (Z.div_small (2 ^ 64 - v)) by lia.
Qed.

Lemma land_shiftr_1 z slot : 0 <= slot ->
  Z.land (Z.shiftr z slot) 1 = Z.b2z (Z.testbit z slot).
Proof.
  intros Hs. change 1 with (Z.ones 1). rewrite Z.land_ones by lia.
  rewrite <- Z.bit0_mod, Z.shiftr_spec by lia. done.
Qed.

(** The branch-free arithmetic of [put] computes the slot. *)
Lemma ns_put_spec slot supported inum failed :
  0 <= slot -> in_u 32 inum -> in_u 64 failed ->
  ns_put slot supported inum failed = ns_slot_spec slot supported inum failed.
Proof.
  intros Hs Hi Hf. unfold ns_put, ns_slot_spec. rewrite land_shiftr_1 by done.
  rewrite !nonzero_spec by (unfold in_u in *; cbn in *; lia).
  destruct (Z.testbit supported slot), (failed =? 0), (Z.eqb_spec inum 0) as [->|Hn];
    cbn [Z.b2z negb andb]; try reflexivity;
    (apply pair_eq; split; [reflexivity|]); try exact (Z.land_0_r inum).
  change (Z.land inum _) with (Z.land inum (Z.ones 32)). rewrite Z.land_ones by lia.
  apply Z.mod_small. exact Hi.
Qed.

Section Task.
Context (g : Globals) (h : Hook).

Definition ns_offset (index : nat) : Z := nth index (OFF_NS g) 0.

(** [read::<T>(address, &mut failed)]: the helper zeroes the value on failure. *)
Definition ns_read (size : nat) (address failed : Z) : Z * Z :=
  match hk_kread h address size with
  | Some b => (le_combine b, failed)
  | None => (0, Z.lor failed (wrap 64 (hk_errno h)))
  end.

(** The inode of the namespace object at [ns]. *)
Definition ns_inum (ns : Z) (ns_member : nat) (failed : Z) : Z * Z :=
  ns_read 4 (wrapping_add (wrapping_add ns (ns_offset ns_member)) (ns_offset 13)) failed.

Definition active_pid_ns (task failed : Z) : Z * Z :=
  let '(pid, failed) := ns_read 8 (wrapping_add task (ns_offset 8)) failed in
  let '(level, failed) := ns_read 4 (wrapping_add pid (ns_offset 9)) failed in
  let upid := wrapping_add (wrapping_add pid (ns_offset 10))
                (wrap 64 (level * ns_offset 21)) in
  ns_read 8 (wrapping_add upid (ns_offset 11)) failed.

(** One of the five slots reached through [nsproxy]. *)
Definition nsproxy_slot (nsproxy nsproxy_failed : Z) (slot : nat) : Z * Z :=
  let '(ns, failed) := ns_read 8 (wrapping_add nsproxy (ns_offset (slot + 1))) nsproxy_failed in
  let '(value, failed) := ns_inum ns (slot + 14) failed in
  ns_put (Z.of_nat slot) (NS_SUPPORTED g) value failed.

Definition snapshot (task : Z) : NsSnapshot.t :=
  let '(nsproxy, nsproxy_failed) := ns_read 8 (wrapping_add task (ns_offset 0)) 0 in
  let proxied := nsproxy_slot nsproxy nsproxy_failed <$> seq 0 5 in
  let '(cred, failed) := ns_read 8 (wrapping_add task (ns_offset 6)) 0 in
  let '(user, failed) := ns_read 8 (wrapping_add cred (ns_offset 7)) failed in
  let '(value, failed) := ns_inum user 19 failed in
  let user_slot := ns_put 5 (NS_SUPPORTED g) value failed in
  let '(pid, failed) := active_pid_ns task 0 in
  let '(value, failed) := ns_inum pid 20 failed in
  let pid_slot := ns_put 6 (NS_SUPPORTED g) value failed in
  let slots := proxied ++ [user_slot; pid_slot] in
  NsSnapshot.mk (snd <$> slots) (fst <$> slots) 0.

(** ** Event headers (filter.rs) *)

Definition get_task_info (kind : Z) : EventHeader.t :=
  EventHeader.mk kind HeaderCapture.default (hk_now h) (get_current_auid g h)
    (get_current_sessionid g h) (current_tgid h) 0
    (default 0 (kr_start_boottime_ns <$> process_ref_from_task g h (hk_task h)))
    (default (replicate 16 NUL) (hk_comm h)) (current_tid h) (snapshot (hk_task h)).

(** [get_task_info_from_task]: the hook supplies the task. *)
Definition get_task_info_from_task (kind task : Z) : EventHeader.t :=
  let process_ref := process_ref_from_task g h task in
  EventHeader.mk kind HeaderCapture.default (hk_now h) (task_auid g h task)
    (task_sessionid g h task) (default 0 (kr_tgid <$> process_ref)) 0
    (default 0 (kr_start_boottime_ns <$> process_ref)) (task_comm g h task)
    (task_tid g h task)
    (if negb (task =? 0) then snapshot task else NsSnapshot.default).

(** ** Descriptor identity (fd_ident.rs) *)

Record DevIno : Type := mkDevIno { di_dev : Z; di_ino : Z; di_valid : Z }.
Definition DevIno_default : DevIno := mkDevIno 0 0 0.

Definition fd_off (base : Z) (index : nat) : Z := wrapping_add base (nth index (OFF_FD_IDENT g) 0).

Definition fd_pointer (base : Z) (index : nat) : option Z :=
  value ← kread_u64 h (fd_off base index);
  if value =? 0 then None else Some value.

Definition inode_for_fd (fd : Z) : option Z :=
  let task := hk_task h in
  if task =? 0 then None else
  files ← fd_pointer task 0;
  fdt ← fd_pointer files 1;
  max_fds ← kread_u32 h (fd_off fdt 2);
  if max_fds <=? fd then None else
  array ← fd_pointer fdt 3;
  file ← kread_u64 h (wrapping_add array (wrap 64 (fd * 8)));
  if file =? 0 then None else fd_pointer file 4.

Definition fd_to_dev_ino (fd : Z) : DevIno :=
  if (fd <? 0) || (FD_IDENT_SUPPORTED g =? 0) then DevIno_default else
  match inode_for_fd (wrap 32 fd) with
  | None => DevIno_default
  | Some inode =>
      let '(ino, ino_valid) :=
        match kread_u64 h (fd_off inode 5) with
        | Some value => (value, INO_VALID)
        | None => (0, 0)
        end in
      match fd_pointer inode 6 with
      | None => mkDevIno 0 ino ino_valid
      | Some sb =>
          let '(dev, dev_valid) :=
            match kread_u32 h (fd_off sb 7) with
            | Some value => (value, DEV_VALID)
            | None => (0, 0)
            end in
          mkDevIno dev ino (Z.lor ino_valid dev_valid)
      end
  end.

(** ** Execution view (exec_view.rs) *)

Inductive CaptureError : Type := ReadFailed | Changed.

Definition xv_off (base : Z) (index : nat) : Z := wrapping_add base (nth index (OFF_EXEC_VIEW g) 0).

(** [pointer(base, index)?] in the capture: a failed read is [CaptureError::Read]. *)
Definition xv_pointer (base : Z) (index : nat) : option Z :=
  value ← kread_u64 h (xv_off base index);
  if value =? 0 then None else Some value.

(** The first reads of [capture]: the pointers that are rechecked, with where
    they were read, and the payload.  [None] is [CaptureError::Read]. *)
Definition xv_walk : option (list (Z * nat * Z) * ExecViewPayload.t) :=
  let task := hk_task h in
  fs ← xv_pointer task 0;
  nsproxy ← xv_pointer task 1;
  let root := xv_off fs 2 in
  mnt ← xv_pointer root 3;
  dentry ← xv_pointer root 4;
  inode ← xv_pointer dentry 5;
  sb ← xv_pointer inode 7;
  ns ← xv_pointer nsproxy 9;
  mount ← (let off := nth 12 (OFF_EXEC_VIEW g) 0 in if mnt <? off then None else Some (mnt - off));
  root_inode ← kread_u64 h (xv_off inode 6);
  root_dev ← kread_u32 h (xv_off sb 8);
  mount_namespace ← kread_u32 h (xv_off (xv_off ns 10) 11);
  root_mount_id ← kread_u32 h (xv_off mount 13);
  Some ([(task, 0%nat, fs); (task, 1%nat, nsproxy); (root, 3%nat, mnt); (root, 4%nat, dentry);
         (nsproxy, 9%nat, ns)],
        ExecViewPayload.mk root_inode root_dev mount_namespace root_mount_id 1 1
          (replicate 2 NUL)).

(** [pointer(a, i)? != x || pointer(b, j)? != y || ...], left to right, with
    the memory as it is by then. *)
Fixpoint xv_recheck (reads : list (Z * nat * Z)) : option CaptureError :=
  match reads with
  | [] => None
  | (base, index, expected) :: rest =>
      match le_combine <$> hk_kread_again h (xv_off base index) 8 with
      | None => Some ReadFailed
      | Some value =>
          if value =? 0 then Some ReadFailed
          else if value =? expected then xv_recheck rest else Some Changed
      end
  end.

Definition capture : CaptureError + ExecViewPayload.t :=
  match xv_walk with
  | None => inl ReadFailed
  | Some (reads, payload) =>
      if (ExecViewPayload.mount_namespace payload =? 0) ||
         (ExecViewPayload.root_mount_id payload =? 0) then inl ReadFailed
      else match xv_recheck reads with
           | Some e => inl e
           | None => inr payload
           end
  end.

(** A view without fields: version 1 and a status. *)
Definition exec_view_status (status : Z) : ExecViewPayload.t :=
  ExecViewPayload.mk 0 0 0 0 1 status (replicate 2 NUL).

Definition exec_view_payload : ExecViewPayload.t :=
  if EXEC_VIEW_SUPPORTED g =? 0 then exec_view_status 0
  else match capture with
       | inr payload => payload
       | inl ReadFailed => exec_view_status 2
       | inl Changed => exec_view_status 3
       end.

(** [exec_view::emit] *)
Definition exec_view_emit (exec_header : EventHeader.t) : M unit :=
  let header :=
    EventHeader.mk (EventKind.to_u8 EventKind.ExecView) HeaderCapture.default
      (EventHeader.timestamp_ns exec_header) (EventHeader.auid exec_header)
      (EventHeader.sessionid exec_header) (EventHeader.pid exec_header)
      (EventHeader.ppid exec_header) (EventHeader.process_start_boottime_ns exec_header)
      (EventHeader.comm exec_header) (EventHeader.tid exec_header)
      (EventHeader.ns exec_header) in
  emit_fixed_opt h header (Some exec_view_payload).
End Task.
