(* ===== verification/HookFacts.v ===== *)
(** * Facts about the kernel interface

    What the documentation of the BPF helpers promises ([HookOk]) and what
    follows for the shared helpers: typed reads are in range, headers are in
    range, an emitted record is the header followed by the payload whatever
    the buffers held before. *)

From S2P Require Import Prelude Layout Records Common Bpf Task.

Local Open Scope Z_scope.
Local Open Scope list_scope.

(** A successful read returns as many bytes as were asked for; a string read
    returns the bytes before the terminator and fits its buffer; a failure is
    a negative errno; the values of the helpers have their C types. *)
Record HookOk (h : Hook) : Prop := mkHookOk {
  ok_now : in_u 64 (hk_now h);
  ok_pid_tgid : in_u 64 (hk_pid_tgid h);
  ok_task : in_u 64 (hk_task h);
  ok_comm : forall c, hk_comm h = Some c -> length c = 16%nat;
  ok_kread : forall a n b, hk_kread h a n = Some b -> length b = n;
  ok_errno : - 2 ^ 63 <= hk_errno h < 0;
  ok_uread : forall a n b, hk_uread h a n = Some b -> length b = n;
  ok_ustr : forall a n b, hk_ustr h a n = Some b -> (length b < n)%nat /\ NUL ∉ b;
  ok_ctx : forall a n b, hk_ctx h a n = Some b -> length b = n;
  ok_raw_arg : forall i, in_u 64 (hk_raw_arg h i);
  ok_ret : forall r, hk_ret h = Some r -> in_s 64 r;
  ok_arg : forall i v, hk_arg h i = Some v -> in_u 64 v;
  ok_garbage : forall b, length (hk_garbage h b) = length b }.

(** The globals have their declared types. *)
Record GlobalsOk (g : Globals) : Prop := mkGlobalsOk {
  ok_target : in_u 32 (TARGET_AUID g);
  ok_supported : in_u 32 (NS_SUPPORTED g) }.

Lemma le_combine_range n b : length b = n -> in_u (8 * Z.of_nat n) (le_combine b).
Proof. intros <-. apply le_combine_bound. Qed.

Lemma lor_range w a b : 0 <= w -> in_u w a -> in_u w b -> in_u w (Z.lor a b).
Proof.
  unfold in_u. intros Hw Ha Hb.
  assert (Hn : 0 <= Z.lor a b) by (apply Z.lor_nonneg; lia). split; [done|].
  assert (Hz : forall z i, 0 <= z < 2 ^ w -> w <= i -> Z.testbit z i = false).
  { intros z i Hz Hi. destruct (Z.eq_dec z 0) as [->|]; [apply Z.testbit_0_l|].
    apply Z.bits_above_log2; [lia|]. assert (Z.log2 z < w) by (apply Z.log2_lt_pow2; lia). lia. }
  destruct (Z.eq_dec (Z.lor a b) 0) as [->|]; [pose proof (Z.pow_pos_nonneg 2 w); lia|].
  apply Z.log2_lt_pow2; [lia|]. apply Z.nle_gt. intros Hle.
  pose proof (Z.bit_log2 (Z.lor a b) ltac:(lia)) as Hbit.
  rewrite Z.lor_spec, !Hz in Hbit by lia. discriminate.
Qed.

(** ** Buffers *)

Lemma take_overwrite off bs buf :
  (off <= length buf)%nat ->
  take (off + length bs) (overwrite off bs buf) = take off buf ++ bs.
Proof.
  intros Hl. unfold overwrite. rewrite app_assoc.
  apply take_app_length'. rewrite length_app, length_take. lia.
Qed.

Lemma length_overwrite off bs buf :
  (off + length bs <= length buf)%nat -> length (overwrite off bs buf) = length buf.
Proof.
  intros Hl. unfold overwrite. rewrite !length_app, length_take, length_drop. lia.
Qed.

(** Two adjacent writes from the start leave exactly their bytes in front. *)
Lemma take_overwrite2 a b buf :
  (length a <= length buf)%nat ->
  take (length a + length b) (overwrite (length a) b (overwrite 0 a buf)) = a ++ b.
Proof.
  intros Hl. rewrite take_overwrite.
  - f_equal. exact (take_overwrite 0 a buf ltac:(lia)).
  - unfold overwrite. rewrite !length_app. lia.
Qed.

Lemma overwrite_nil off buf : overwrite off [] buf = buf.
Proof. unfold overwrite. cbn. rewrite Nat.add_0_r. apply take_drop. Qed.

Lemma drop_take_overwrite a buf : take (length a) (overwrite 0 a buf) = a.
Proof. exact (take_overwrite 0 a buf ltac:(lia)). Qed.

(** Header and payload written in front of what is already there. *)
Lemma overwrite_front a b buf :
  overwrite (length a) b (overwrite 0 a buf) = a ++ b ++ drop (length a + length b) buf.
Proof.
  unfold overwrite. rewrite take_0, app_nil_l, Nat.add_0_l, take_app_length.
  f_equal. f_equal. rewrite drop_app_ge by lia. rewrite drop_drop. f_equal. lia.
Qed.

Lemma take_overwrite3 a b c buf :
  take (length a + length b + length c)
    (overwrite (length a + length b) c (overwrite (length a) b (overwrite 0 a buf))) =
  a ++ b ++ c.
Proof.
  rewrite take_overwrite.
  - rewrite app_assoc. f_equal. rewrite take_overwrite.
    + f_equal. apply drop_take_overwrite.
    + unfold overwrite. rewrite !length_app. lia.
  - unfold overwrite at 1. rewrite !length_app, length_take.
    unfold overwrite. rewrite !length_app. lia.
Qed.

Lemma take_overwrite4 w x y z buf :
  take (length w + length x + length y + length z)
    (overwrite (length w + length x + length y) z
      (overwrite (length w + length x) y (overwrite (length w) x (overwrite 0 w buf)))) =
  w ++ x ++ y ++ z.
Proof.
  rewrite take_overwrite.
  - rewrite take_overwrite3. by rewrite <- !app_assoc.
  - unfold overwrite at 1. rewrite !length_app, length_take.
    enough (length w + length x <= length (overwrite (length w) x (overwrite 0 w buf)))%nat by lia.
    unfold overwrite at 1. rewrite !length_app, length_take. unfold overwrite.
    rewrite !length_app. lia.
Qed.

Section Hook.
Context (g : Globals) (h : Hook).

(** The bytes [emit_fixed] sends: no stale and no padding bytes beyond the
    structs themselves. *)
Lemma emit_stack_spec n (header : EventHeader.t) payload s :
  (size_of EventHeader.t + length payload <= n)%nat ->
  emit_stack h n header payload s =
  (Some tt, (emit_event h (as_bytes (hk_pad h) header ++ payload) s).2).
Proof.
  intros Hn. unfold emit_stack. cbn zeta.
  rewrite <- (length_as_bytes (hk_pad h) header).
  rewrite take_overwrite2 by (rewrite length_as_bytes, length_replicate; lia).
  unfold mbind, M_bind. destruct (emit_event h _ s) as [[b|] s1] eqn:E; [done|].
  exfalso. revert E. unfold emit_event. destruct (_ ++ payload); [done|].
  by destruct (hk_room h _ _).
Qed.

(** What emission does to the state: one more record, or one more drop. *)
Lemma emit_event_spec d s :
  d <> [] ->
  emit_event h d s =
  if hk_room h (EVENTS s) d then (Some true, set_EVENTS (EVENTS s ++ [d]) s)
  else (Some false, set_DROP_COUNT (wrapping_add (DROP_COUNT s) 1) s).
Proof. by destruct d. Qed.

Lemma as_bytes_not_nil pad (header : EventHeader.t) rest : as_bytes pad header ++ rest <> [].
Proof.
  intros E. apply (f_equal length) in E. rewrite length_app, length_as_bytes in E.
  discriminate E.
Qed.

(** ** Ranges *)

Context (Hok : HookOk h).

Lemma kread_u32_range a v : kread_u32 h a = Some v -> in_u 32 v.
Proof.
  unfold kread_u32. destruct (hk_kread h a 4) as [b|] eqn:E; [|done]. intros [= <-].
  by apply (le_combine_range 4), (ok_kread h Hok a).
Qed.
Lemma kread_u64_range a v : kread_u64 h a = Some v -> in_u 64 v.
Proof.
  unfold kread_u64. destruct (hk_kread h a 8) as [b|] eqn:E; [|done]. intros [= <-].
  by apply (le_combine_range 8), (ok_kread h Hok a).
Qed.
Lemma default_range w d o : in_u w d -> (forall v, o = Some v -> in_u w v) -> in_u w (default d o).
Proof. destruct o; cbn; auto. Qed.

Lemma process_ref_range task r :
  process_ref_from_task g h task = Some r ->
  in_u 32 (kr_tgid r) /\ in_u 64 (kr_start_boottime_ns r) /\
  kr_tgid r <> 0 /\ kr_start_boottime_ns r <> 0.
Proof.
  unfold process_ref_from_task. destruct (task =? 0); [done|].
  destruct (kread_u64 h _) as [leader|]; [|done]. destruct (leader =? 0); [done|].
  destruct (kread_u32 h _) as [tgid|] eqn:Et; [|done].
  destruct (kread_u64 h (wrapping_add leader _)) as [start|] eqn:Es; [|done].
  destruct ((tgid =? 0) || (start =? 0)) eqn:Ez; [done|]. intros [= <-]. cbn.
  bool_inv. split_and!; eauto using kread_u32_range, kread_u64_range.
Qed.

Lemma start_range task :
  in_u 64 (default 0 (kr_start_boottime_ns <$> process_ref_from_task g h task)).
Proof.
  destruct (process_ref_from_task g h task) as [r|] eqn:E; cbn; [|unfold in_u; lia].
  by apply process_ref_range in E as (_ & ? & _).
Qed.

Lemma u32_max_range : in_u 32 U32_MAX.
Proof. unfold in_u, U32_MAX. lia. Qed.
Lemma zero_range w : 0 <= w -> in_u w 0.
Proof. unfold in_u. intros. pose proof (Z.pow_pos_nonneg 2 w). lia. Qed.
Hint Resolve u32_max_range zero_range kread_u32_range kread_u64_range : bloodhound.

Lemma task_auid_range task : in_u 32 (task_auid g h task).
Proof.
  unfold task_auid. destruct (task =? 0); [apply u32_max_range|].
  apply default_range; [apply u32_max_range|]. apply kread_u32_range.
Qed.
Lemma task_sessionid_range task : in_u 32 (task_sessionid g h task).
Proof.
  unfold task_sessionid. destruct (task =? 0); [apply u32_max_range|].
  apply default_range; [apply u32_max_range|]. apply kread_u32_range.
Qed.
Lemma task_tid_range task : in_u 32 (task_tid g h task).
Proof.
  unfold task_tid. destruct (task =? 0); [apply zero_range; lia|].
  apply default_range; [apply zero_range; lia|]. apply kread_u32_range.
Qed.

(** *** The snapshot *)

Lemma ns_read_range n a failed :
  in_u 64 failed ->
  in_u (8 * Z.of_nat n) (ns_read h n a failed).1 /\ in_u 64 (ns_read h n a failed).2.
Proof.
  intros Hf. unfold ns_read. destruct (hk_kread h a n) as [b|] eqn:E; cbn.
  - split; [|done]. by eapply le_combine_range, ok_kread.
  - split; [apply zero_range; lia|]. apply lor_range; [lia|done|]. apply wrap_bounds; lia.
Qed.

Lemma ns_slot_range slot supported inum failed :
  in_u 32 inum ->
  in_u 8 (ns_slot_spec slot supported inum failed).1 /\
  in_u 32 (ns_slot_spec slot supported inum failed).2.
Proof.
  intros Hi. unfold ns_slot_spec, NS_STATUS_UNSUPPORTED, NS_STATUS_COMPLETE,
    NS_STATUS_UNAVAILABLE.
  destruct (negb _); [|destruct (_ && _)]; cbn [fst snd]; (split; [unfold in_u; lia|]); try done;
    apply zero_range; lia.
Qed.

Lemma ns_inum_range ns member failed :
  in_u 64 failed ->
  in_u 32 (ns_inum g h ns member failed).1 /\ in_u 64 (ns_inum g h ns member failed).2.
Proof. apply (ns_read_range 4). Qed.

(** What the slots say, [failed] and [inum] being what the reads gave. *)
Definition slot_honest (slot : Z) (o : Z * Z) : Prop :=
  exists inum failed, in_u 32 inum /\ o = ns_slot_spec slot (NS_SUPPORTED g) inum failed.

Lemma put_honest slot inum failed :
  0 <= slot -> in_u 32 inum -> in_u 64 failed ->
  slot_honest slot (ns_put slot (NS_SUPPORTED g) inum failed).
Proof. intros. exists inum, failed. split; [done|]. by apply ns_put_spec. Qed.

(** Open one [ns_read] or [ns_inum] of the goal, with its ranges. *)
Ltac ns_step :=
  match goal with
  | |- context [ns_read h ?n ?a ?f] =>
      let R := fresh "R" in
      assert (R := ns_read_range n a f ltac:(first [assumption | apply zero_range; lia]));
      destruct (ns_read h n a f) as [? ?]; cbn [fst snd] in R; destruct R
  | |- context [ns_inum g h ?a ?m ?f] =>
      let R := fresh "R" in
      assert (R := ns_inum_range a m f ltac:(assumption));
      destruct (ns_inum g h a m f) as [? ?]; cbn [fst snd] in R; destruct R
  end.

Lemma nsproxy_slot_honest nsproxy failed slot :
  in_u 64 failed -> slot_honest (Z.of_nat slot) (nsproxy_slot g h nsproxy failed slot).
Proof.
  intros Hf. unfold nsproxy_slot. repeat ns_step. apply put_honest; [lia|done|done].
Qed.

Lemma snapshot_slots task :
  exists slots, snapshot g h task = NsSnapshot.mk (snd <$> slots) (fst <$> slots) 0 /\
    length slots = 7%nat /\ forall i o, slots !! i = Some o -> slot_honest (Z.of_nat i) o.
Proof.
  unfold snapshot, active_pid_ns. repeat ns_step.
  eexists. split; [reflexivity|]. split; [done|]. intros i o Hi.
  do 7 (destruct i as [|i]; [cbn in Hi; injection Hi as <-;
    first [by apply (nsproxy_slot_honest _ _ _) | apply put_honest; [lia|done|done]]|]).
  done.
Qed.

Lemma snapshot_in_range task : in_range (snapshot g h task).
Proof.
  destruct (snapshot_slots task) as (slots & -> & Hl & Hs).
  assert (Hr : Forall (fun o => in_u 8 o.1 /\ in_u 32 o.2) slots).
  { apply Forall_lookup. intros i o Hi. destruct (Hs i o Hi) as (inum & failed & Hi' & ->).
    by apply ns_slot_range. }
  unfold in_range. cbn. rewrite !length_fmap, Hl. split_and!; try done; try (unfold in_u; cbn; lia);
    apply Forall_fmap; eapply Forall_impl; try exact Hr; cbn; tauto.
Qed.

(** *** Headers *)

Lemma comm_length : length (default (replicate 16 NUL) (hk_comm h)) = 16%nat.
Proof. destruct (hk_comm h) as [c|] eqn:E; [by apply (ok_comm h Hok)|done]. Qed.

Lemma get_task_info_range kind : in_u 8 kind -> in_range (get_task_info g h kind).
Proof.
  intros Hk. pose proof (snapshot_in_range (hk_task h)) as Hns.
  unfold in_range in Hns |- *. cbn in Hns |- *. destruct Hns as ((?&?)&(?&?)&?&_).
  pose proof (task_auid_range (hk_task h)). pose proof (task_sessionid_range (hk_task h)).
  pose proof (start_range (hk_task h)). pose proof comm_length.
  pose proof (wrap_bounds 32 (Z.shiftr (hk_pid_tgid h) 32) ltac:(lia)).
  pose proof (wrap_bounds 32 (hk_pid_tgid h) ltac:(lia)). pose proof (ok_now h Hok).
  split_and!; try assumption; try exact I; apply zero_range; lia.
Qed.
End Hook.

(** A namespace slot is complete with a nonzero inode exactly when the
    kernel has its fields and the inode was read; an unsupported or unavailable
    slot never carries a number.  Every slot has exactly one of the three
    statuses. *)
Theorem namespace_slots_honest g h task i :
  HookOk h -> (i < 7)%nat ->
  exists status inum,
    NsSnapshot.status (snapshot g h task) !! i = Some status /\
    NsSnapshot.inum (snapshot g h task) !! i = Some inum /\
    ((status = NS_STATUS_UNSUPPORTED /\ inum = 0 /\ Z.testbit (NS_SUPPORTED g) (Z.of_nat i) = false) \/
     (status = NS_STATUS_UNAVAILABLE /\ inum = 0 /\ Z.testbit (NS_SUPPORTED g) (Z.of_nat i) = true) \/
     (status = NS_STATUS_COMPLETE /\ 0 < inum < 2 ^ 32 /\
        Z.testbit (NS_SUPPORTED g) (Z.of_nat i) = true)).
Proof.
  intros Hok Hi. destruct (snapshot_slots g h Hok task) as (slots & E & Hl & Hs).
  destruct (lookup_lt_is_Some_2 slots i ltac:(lia)) as [[status inum] Ho].
  exists status, inum. rewrite E. cbn. rewrite !list_lookup_fmap, Ho. cbn.
  do 2 (split; [done|]). destruct (Hs i _ Ho) as (v & failed & Hv & Eo).
  unfold ns_slot_spec in Eo. unfold in_u in Hv.
  destruct (Z.testbit (NS_SUPPORTED g) (Z.of_nat i)); cbn [negb] in Eo.
  - destruct ((failed =? 0) && negb (v =? 0)) eqn:Ev; simplify_eq; [|by right; left].
    bool_inv. right; right. split; [done|]. split; [lia|done].
  - simplify_eq. by left.
Qed.
