(* ===== verification/Entries.v ===== *)
(** * Entry data of the rich syscall handlers (layer3_rich.rs)

    The [#[repr(C)]] structs a handler stashes in [RichSyscallEntry::data] at
    syscall entry and reads back at exit. *)

From S2P Require Import Prelude Layout Records.

#[local] Obligation Tactic := idtac.

Module ReadWriteEntryData.
Record ReadWriteEntryData : Type := mk {
    fd : Z; requested_size : Z; fd_type : Z }.

#[global] Program Instance repr : ReprC ReadWriteEntryData := {|
  layout := [FU 4; FU 8; FU 1]%nat;
  of_vals := fun v => let '(fd, (requested_size, (fd_type, tt))) := v in
    mk fd requested_size fd_type;
  to_vals := fun p =>
    (fd p, (requested_size p, (fd_type p, tt))) |}.
Next Obligation. by intros []. Qed.
Next Obligation. by intros; destruct_prod. Qed.
Next Obligation. solve_pos. Qed.
Abbreviation t := ReadWriteEntryData (only parsing).
End ReadWriteEntryData.

Module ConnBindData.
Record ConnBindData : Type := mk {
    family : Z; port : Z; addr_v4 : Z; addr_v6 : list byte }.

#[global] Program Instance repr : ReprC ConnBindData := {|
  layout := [FU 2; FU 2; FU 4; FBytes 16]%nat;
  of_vals := fun v => let '(family, (port, (addr_v4, (addr_v6, tt)))) := v in
    mk family port addr_v4 addr_v6;
  to_vals := fun p =>
    (family p, (port p, (addr_v4 p, (addr_v6 p, tt)))) |}.
Next Obligation. by intros []. Qed.
Next Obligation. by intros; destruct_prod. Qed.
Next Obligation. solve_pos. Qed.
Abbreviation t := ConnBindData (only parsing).
End ConnBindData.

Module ListenData.
Record ListenData : Type := mk {
    fd : Z; backlog : Z }.

#[global] Program Instance repr : ReprC ListenData := {|
  layout := [FU 4; FU 4]%nat;
  of_vals := fun v => let '(fd, (backlog, tt)) := v in
    mk fd backlog;
  to_vals := fun p =>
    (fd p, (backlog p, tt)) |}.
Next Obligation. by intros []. Qed.
Next Obligation. by intros; destruct_prod. Qed.
Next Obligation. solve_pos. Qed.
Abbreviation t := ListenData (only parsing).
End ListenData.

Module SocketData.
Record SocketData : Type := mk {
    domain : Z; sock_type : Z; protocol : Z }.

#[global] Program Instance repr : ReprC SocketData := {|
  layout := [FU 4; FU 4; FU 4]%nat;
  of_vals := fun v => let '(domain, (sock_type, (protocol, tt))) := v in
    mk domain sock_type protocol;
  to_vals := fun p =>
    (domain p, (sock_type p, (protocol p, tt))) |}.
Next Obligation. by intros []. Qed.
Next Obligation. by intros; destruct_prod. Qed.
Next Obligation. solve_pos. Qed.
Abbreviation t := SocketData (only parsing).
End SocketData.

Module CloneData.
Record CloneData : Type := mk {
    flags : Z }.

#[global] Program Instance repr : ReprC CloneData := {|
  layout := [FU 8]%nat;
  of_vals := fun v => let '(flags, tt) := v in
    mk flags;
  to_vals := fun p =>
    (flags p, tt) |}.
Next Obligation. by intros []. Qed.
Next Obligation. by intros; destruct_prod. Qed.
Next Obligation. solve_pos. Qed.
Abbreviation t := CloneData (only parsing).
End CloneData.

Module FdData.
Record FdData : Type := mk {
    fd : Z }.

#[global] Program Instance repr : ReprC FdData := {|
  layout := [FU 4]%nat;
  of_vals := fun v => let '(fd, tt) := v in
    mk fd;
  to_vals := fun p =>
    (fd p, tt) |}.
Next Obligation. by intros []. Qed.
Next Obligation. by intros; destruct_prod. Qed.
Next Obligation. solve_pos. Qed.
Abbreviation t := FdData (only parsing).
End FdData.

Module SendRecvData.
Record SendRecvData : Type := mk {
    fd : Z; family : Z; port : Z; addr_v4 : Z; addr_v6 : list byte;
    size : Z }.

#[global] Program Instance repr : ReprC SendRecvData := {|
  layout := [FU 4; FU 2; FU 2; FU 4; FBytes 16; FU 8]%nat;
  of_vals := fun v => let '(fd, (family, (port, (addr_v4, (addr_v6, (size, tt)))))) := v in
    mk fd family port addr_v4 addr_v6 size;
  to_vals := fun p =>
    (fd p, (family p, (port p, (addr_v4 p, (addr_v6 p, (size p, tt)))))) |}.
Next Obligation. by intros []. Qed.
Next Obligation. by intros; destruct_prod. Qed.
Next Obligation. solve_pos. Qed.
Abbreviation t := SendRecvData (only parsing).
End SendRecvData.

Module DupEntryData.
Record DupEntryData : Type := mk {
    oldfd : Z; cloexec : Z; _pad : list byte }.

#[global] Program Instance repr : ReprC DupEntryData := {|
  layout := [FU 4; FU 1; FBytes 3]%nat;
  of_vals := fun v => let '(oldfd, (cloexec, (_pad, tt))) := v in
    mk oldfd cloexec _pad;
  to_vals := fun p =>
    (oldfd p, (cloexec p, (_pad p, tt))) |}.
Next Obligation. by intros []. Qed.
Next Obligation. by intros; destruct_prod. Qed.
Next Obligation. solve_pos. Qed.
Abbreviation t := DupEntryData (only parsing).
End DupEntryData.

Module PreadPwriteEntryData.
Record PreadPwriteEntryData : Type := mk {
    fd : Z; requested_size : Z; offset : Z; fd_type : Z }.

#[global] Program Instance repr : ReprC PreadPwriteEntryData := {|
  layout := [FU 4; FU 8; FS 8; FU 1]%nat;
  of_vals := fun v => let '(fd, (requested_size, (offset, (fd_type, tt)))) := v in
    mk fd requested_size offset fd_type;
  to_vals := fun p =>
    (fd p, (requested_size p, (offset p, (fd_type p, tt)))) |}.
Next Obligation. by intros []. Qed.
Next Obligation. by intros; destruct_prod. Qed.
Next Obligation. solve_pos. Qed.
Abbreviation t := PreadPwriteEntryData (only parsing).
End PreadPwriteEntryData.

Module UserIovec.
Record UserIovec : Type := mk {
    iov_base : Z; iov_len : Z }.

#[global] Program Instance repr : ReprC UserIovec := {|
  layout := [FU 8; FU 8]%nat;
  of_vals := fun v => let '(iov_base, (iov_len, tt)) := v in
    mk iov_base iov_len;
  to_vals := fun p =>
    (iov_base p, (iov_len p, tt)) |}.
Next Obligation. by intros []. Qed.
Next Obligation. by intros; destruct_prod. Qed.
Next Obligation. solve_pos. Qed.
Abbreviation t := UserIovec (only parsing).
End UserIovec.

Module ReadvWritevEntryData.
Record ReadvWritevEntryData : Type := mk {
    fd : Z; iov_count : Z; iov_truncated : Z; _pad : list byte;
    requested_size : Z; fd_type : Z }.

#[global] Program Instance repr : ReprC ReadvWritevEntryData := {|
  layout := [FU 4; FU 4; FU 1; FBytes 3; FU 8; FU 1]%nat;
  of_vals := fun v => let '(fd, (iov_count, (iov_truncated, (_pad, (requested_size, (fd_type, tt)))))) := v in
    mk fd iov_count iov_truncated _pad requested_size fd_type;
  to_vals := fun p =>
    (fd p, (iov_count p, (iov_truncated p, (_pad p,
    (requested_size p, (fd_type p, tt)))))) |}.
Next Obligation. by intros []. Qed.
Next Obligation. by intros; destruct_prod. Qed.
Next Obligation. solve_pos. Qed.
Abbreviation t := ReadvWritevEntryData (only parsing).
End ReadvWritevEntryData.

Module MmapEntryData.
Record MmapEntryData : Type := mk {
    fd : Z; prot : Z; flags : Z; length : Z; offset : Z }.

#[global] Program Instance repr : ReprC MmapEntryData := {|
  layout := [FS 4; FU 4; FU 4; FU 8; FU 8]%nat;
  of_vals := fun v => let '(fd, (prot, (flags, (length, (offset, tt))))) := v in
    mk fd prot flags length offset;
  to_vals := fun p =>
    (fd p, (prot p, (flags p, (length p, (offset p, tt))))) |}.
Next Obligation. by intros []. Qed.
Next Obligation. by intros; destruct_prod. Qed.
Next Obligation. solve_pos. Qed.
Abbreviation t := MmapEntryData (only parsing).
End MmapEntryData.

Module SendfileSpliceEntryData.
Record SendfileSpliceEntryData : Type := mk {
    in_fd : Z; out_fd : Z; in_fd_type : Z; out_fd_type : Z;
    _pad : list byte; size : Z }.

#[global] Program Instance repr : ReprC SendfileSpliceEntryData := {|
  layout := [FU 4; FU 4; FU 1; FU 1; FBytes 2; FU 8]%nat;
  of_vals := fun v => let '(in_fd, (out_fd, (in_fd_type, (out_fd_type, (_pad, (size, tt)))))) := v in
    mk in_fd out_fd in_fd_type out_fd_type _pad size;
  to_vals := fun p =>
    (in_fd p, (out_fd p, (in_fd_type p, (out_fd_type p, (_pad p,
    (size p, tt)))))) |}.
Next Obligation. by intros []. Qed.
Next Obligation. by intros; destruct_prod. Qed.
Next Obligation. solve_pos. Qed.
Abbreviation t := SendfileSpliceEntryData (only parsing).
End SendfileSpliceEntryData.
