(* ===== verification/Rich.v ===== *)
(** * Tier 2 syscall handlers (bloodhound-ebpf/src/layer3_rich.rs)

    One definition per handler: what [sys_enter_*] stashes, what [sys_exit_*]
    emits, and the recovery around them. *)

From S2P Require Import Prelude Layout Records Common Bpf Task Entries.

Local Open Scope Z_scope.
Local Open Scope list_scope.

Section Rich.
Context (g : Globals) (h : Hook).

(** ** Emit helpers *)

(** [emit_fixed]: a 256-byte stack buffer *)
Definition emit_fixed {T} `{ReprC T} (header : EventHeader.t) (payload : T) : M unit :=
  emit_stack h 256 header (as_bytes (hk_pad h) payload).

Definition set_assembly (buf : list byte) : M unit := modify (fun s =>
  let c := scratch s in
  set_scratch (mkScratch (tmp_rich_data c) (tmp_openat_filename c) (tmp_path1 c) (tmp_path2 c)
    (tmp_exec_filename c) (tmp_exec_argv c) buf (scratch_buf c)) s).

(** [emit_varlen]: [false] means nothing was emitted and the caller fails. *)
Definition emit_varlen {T} `{ReprC T} (header : EventHeader.t) (payload : T)
    (var_data : list byte) : M bool :=
  let fixed := (size_of EventHeader.t + size_of T)%nat in
  let total := (fixed + length var_data)%nat in
  if negb (hk_scratch h ASSEMBLY_BUF) then mret false else
  if ASSEMBLY_BUF_SIZE <? Z.of_nat total then mret false else
  s ← get_state;
  let buf := assembly (scratch s) in
  let buf := overwrite 0 (as_bytes (hk_pad h) header) buf in
  let buf := overwrite (size_of EventHeader.t) (as_bytes (hk_pad h) payload) buf in
  match bpf_memcpy h 0 fixed var_data buf with
  | None => _ ← set_assembly buf; mret false
  | Some buf =>
      _ ← set_assembly buf;
      _ ← emit_event h (take total buf);
      mret true
  end.

(** ** Handler results *)

Definition entry_result (m : M unit) : M unit :=
  or_else m (syscall_failure SYSCALL_ENTRY_CAPTURE_FAILED).

Definition exit_result (m : M unit) : M unit :=
  or_else m
    (_ ← syscall_failure SYSCALL_EXIT_CAPTURE_FAILED;
     let key := hk_pid_tgid h in
     r ← rich_remove h key;
     _ ← syscall_cleanup r;
     r ← path_remove h key;
     syscall_cleanup r).

(** ** openat *)

Definition set_tmp_openat (buf : list byte) : M unit := modify (fun s =>
  let c := scratch s in
  set_scratch (mkScratch (tmp_rich_data c) buf (tmp_path1 c) (tmp_path2 c)
    (tmp_exec_filename c) (tmp_exec_argv c) (assembly c) (scratch_buf c)) s).

Definition path_capture_flags (status : CaptureStatus.t) : Z :=
  match status with
  | CaptureStatus.Complete => PATH_COMPLETE
  | CaptureStatus.Truncated => 0
  | CaptureStatus.ReadError => PATH_READ_FAILED
  end.

Definition try_sys_enter_openat : M unit :=
  if negb (should_trace g h) then mret tt else
  filename_ptr ← read_at_u64 h 24;
  flags ← read_at_u32 h 32;
  mode ← read_at_u64 h 40;
  let header := get_task_info g h (EventKind.to_u8 EventKind.Openat) in
  if negb (hk_scratch h OPENAT_TMP_BUF) then fail else
  dirfd ← read_at_i32 h 16;
  s ← get_state;
  let '(filename_len, status, filename) :=
    read_user_str h filename_ptr (tmp_openat_filename (scratch s)) in
  _ ← set_tmp_openat filename;
  r ← openat_insert h (hk_pid_tgid h)
        (mkOpenatEntry header flags (wrap 32 mode) filename_len (path_capture_flags status)
           dirfd filename);
  match r with
  | Some _ => openat_failure OPENAT_ENTRY_SAVE_FAILED
  | None => mret tt
  end.

Definition sys_enter_openat : M unit :=
  or_else try_sys_enter_openat (openat_failure OPENAT_ENTRY_CAPTURE_FAILED).

Definition try_sys_exit_openat : M unit :=
  s ← get_state;
  match openat_map s !! hk_pid_tgid h with
  | None => mret tt
  | Some entry =>
      ret ← read_at_i64 h 16;
      let dev_ino := if 0 <=? ret then fd_to_dev_ino g h (swrap 32 ret) else DevIno_default in
      let filename_len := Z.land (oe_filename_len entry) (MAX_PATH_SIZE - 1) in
      let payload :=
        OpenatPayload.mk (oe_flags entry) (oe_mode entry) (wrap 16 filename_len) 1
          (Z.lor (oe_capture_flags entry) (di_valid dev_ino)) (swrap 32 ret) (oe_dirfd entry)
          (di_dev dev_ino) (di_ino dev_ino) in
      ok ← emit_varlen (oe_header entry) payload
             (take (Z.to_nat filename_len) (oe_filename entry));
      if negb ok then fail else
      _ ← openat_remove h (hk_pid_tgid h);
      mret tt
  end.

Definition sys_exit_openat : M unit :=
  or_else try_sys_exit_openat
    (_ ← openat_failure OPENAT_EXIT_CAPTURE_FAILED;
     _ ← openat_remove h (hk_pid_tgid h);
     mret tt).

(** ** The rich entry *)

(** The block every rich entry handler ends with: build the entry in
    [SYSCALL_TMP_BUF], copy the data struct over its first bytes, insert. *)
Definition stash_rich {A} `{ReprC A} (kind : Z) (ed : A) : M unit :=
  let header := get_task_info g h kind in
  if negb (hk_scratch h SYSCALL_TMP_BUF) then fail else
  s ← get_state;
  let data := overwrite 0 (as_bytes (hk_pad h) ed) (tmp_rich_data (scratch s)) in
  _ ← modify (fun s => let c := scratch s in
        set_scratch (mkScratch data (tmp_openat_filename c) (tmp_path1 c) (tmp_path2 c)
          (tmp_exec_filename c) (tmp_exec_argv c) (assembly c) (scratch_buf c)) s);
  r ← rich_insert h (hk_pid_tgid h)
        (mkRichEntry header data (wrap 16 (Z.of_nat (size_of A))));
  syscall_save r.

(** The block every rich exit handler ends with. *)
Definition emit_rich {P} `{ReprC P} (entry : RichSyscallEntry) (payload : P) : M unit :=
  _ ← emit_fixed (re_header entry) payload;
  r ← rich_remove h (hk_pid_tgid h);
  syscall_cleanup r.

(** The block every rich exit handler starts with: no recorded entry is not a
    failure; an unreadable return value is. *)
Definition with_rich_entry (k : RichSyscallEntry -> Z -> M unit) : M unit :=
  s ← get_state;
  match rich_map s !! hk_pid_tgid h with
  | None => mret tt
  | Some entry => ret ← read_at_i64 h 16; k entry ret
  end.

(** ** read / write *)

Definition try_sys_enter_rw (kind : Z) : M unit :=
  if negb (should_trace g h) then mret tt else
  fd ← read_at_u64 h 16;
  let count := read_at_u64_or h 32 0 in
  stash_rich kind (ReadWriteEntryData.mk (wrap 32 fd) count FD_TYPE_OTHER).

Definition try_sys_exit_rw : M unit := with_rich_entry (fun entry ret =>
  let ed : ReadWriteEntryData.t := read_unaligned (re_data entry) in
  emit_rich entry (ReadWritePayload.mk (ReadWriteEntryData.fd ed) (ReadWriteEntryData.fd_type ed)
    (replicate 3 NUL) (ReadWriteEntryData.requested_size ed) ret)).

(** ** connect / bind *)

Definition u16_from_be (p : Z) : Z := Z.lor (Z.shiftl (Z.land p 0xff) 8) (Z.shiftr p 8).

(** [bpf_probe_read_user(addr as *const u8)], keeping 0 when it fails *)
Definition user_byte (addr : Z) : byte :=
  match hk_uread h addr 1 with Some (b :: _) => b | _ => NUL end.

(** The sockaddr reads: family, port, IPv4 and IPv6 address. *)
Definition read_sockaddr (uservaddr addrlen : Z) : Z * Z * Z * list byte :=
  if negb (uservaddr =? 0) && (2 <=? addrlen) then
    let family := default 0 (uread_u16 h uservaddr) in
    let port := default 0 (u16_from_be <$> uread_u16 h (wrapping_add uservaddr 2)) in
    if (family =? 2) && (8 <=? addrlen) then
      (family, port, default 0 (uread_u32 h (wrapping_add uservaddr 4)), replicate 16 NUL)
    else if (family =? 10) && (28 <=? addrlen) then
      (family, port, 0,
       (fun i => user_byte (wrapping_add (wrapping_add uservaddr 8) (Z.of_nat i))) <$> seq 0 16)
    else (family, 0, 0, replicate 16 NUL)
  else (0, 0, 0, replicate 16 NUL).

Definition try_sys_enter_sockaddr (kind : Z) : M unit :=
  if negb (should_trace g h) then mret tt else
  uservaddr ← read_at_u64 h 24;
  let addrlen := read_at_u64_or h 32 0 in
  let '(family, port, addr_v4, addr_v6) := read_sockaddr uservaddr addrlen in
  stash_rich kind (ConnBindData.mk family port addr_v4 addr_v6).

Definition try_sys_exit_sockaddr : M unit := with_rich_entry (fun entry ret =>
  let ed : ConnBindData.t := read_unaligned (re_data entry) in
  emit_rich entry (ConnectBindPayload.mk (ConnBindData.family ed) (ConnBindData.port ed)
    (ConnBindData.addr_v4 ed) (ConnBindData.addr_v6 ed) (swrap 32 ret))).

(** ** listen, socket *)

Definition try_enter_listen : M unit :=
  if negb (should_trace g h) then mret tt else
  fd ← read_at_u64 h 16;
  let backlog := read_at_u64_or h 24 0 in
  stash_rich (EventKind.to_u8 EventKind.Listen) (ListenData.mk (wrap 32 fd) (wrap 32 backlog)).

Definition try_exit_listen : M unit := with_rich_entry (fun entry ret =>
  let ed : ListenData.t := read_unaligned (re_data entry) in
  emit_rich entry (ListenPayload.mk (ListenData.fd ed) (ListenData.backlog ed) (swrap 32 ret))).

Definition try_enter_socket : M unit :=
  if negb (should_trace g h) then mret tt else
  domain ← read_at_u64 h 16;
  let stype := read_at_u64_or h 24 0 in
  let proto := read_at_u64_or h 32 0 in
  stash_rich (EventKind.to_u8 EventKind.Socket)
    (SocketData.mk (wrap 32 domain) (wrap 32 stype) (wrap 32 proto)).

Definition try_exit_socket : M unit := with_rich_entry (fun entry ret =>
  let ed : SocketData.t := read_unaligned (re_data entry) in
  emit_rich entry (SocketPayload.mk (SocketData.domain ed) (SocketData.sock_type ed)
    (SocketData.protocol ed) (swrap 32 ret))).

(** ** clone / clone3 *)

Definition try_enter_clone (kind : Z) : M unit :=
  if negb (should_trace g h) then mret tt else
  let first_arg := read_at_u64_or h 16 0 in
  let flags :=
    if (kind =? EventKind.to_u8 EventKind.Clone3) && negb (first_arg =? 0)
    then default 0 (uread_u64 h first_arg) else first_arg in
  stash_rich kind (CloneData.mk flags).

Definition pending_clone_flags (s : Bpf) : Z :=
  match rich_map s !! hk_pid_tgid h with
  | None => 0
  | Some entry =>
      let kind := EventHeader.kind (re_header entry) in
      if negb (kind =? EventKind.to_u8 EventKind.Clone)
         && negb (kind =? EventKind.to_u8 EventKind.Clone3) then 0
      else CloneData.flags (read_unaligned (re_data entry))
  end.

Definition try_exit_clone : M unit := with_rich_entry (fun entry ret =>
  let ed : CloneData.t := read_unaligned (re_data entry) in
  emit_rich entry (ClonePayload.mk (CloneData.flags ed) ret)).

(** ** Paths *)

Definition set_tmp_paths (p1 p2 : list byte) : M unit := modify (fun s =>
  let c := scratch s in
  set_scratch (mkScratch (tmp_rich_data c) (tmp_openat_filename c) p1 p2
    (tmp_exec_filename c) (tmp_exec_argv c) (assembly c) (scratch_buf c)) s).

Definition with_capture (header : EventHeader.t) (c : HeaderCapture.t) : EventHeader.t :=
  EventHeader.mk (EventHeader.kind header) c (EventHeader.timestamp_ns header)
    (EventHeader.auid header) (EventHeader.sessionid header) (EventHeader.pid header)
    (EventHeader.ppid header) (EventHeader.process_start_boottime_ns header)
    (EventHeader.comm header) (EventHeader.tid header) (EventHeader.ns header).

Definition enter_path_arg (kind : Z) (path_arg : Z) : M unit :=
  if negb (should_trace g h) then mret tt else
  pathname ← read_at_u64 h (16 + 8 * path_arg);
  if negb (hk_scratch h PATH_TMP_BUF) then fail else
  s ← get_state;
  let '(path_len, status, path1) := read_user_str h pathname (tmp_path1 (scratch s)) in
  let path2 := tmp_path2 (scratch s) in
  _ ← set_tmp_paths path1 path2;
  let header := with_capture (get_task_info g h kind)
                  (HeaderCapture.mk 1 (CaptureStatus.as_u8 status) 0) in
  r ← path_insert h (hk_pid_tgid h) (mkPathEntry header path_len 0 path1 path2);
  syscall_save r.

Definition try_enter_path (kind : Z) : M unit := enter_path_arg kind 0.
Definition try_enter_at_path (kind : Z) : M unit := enter_path_arg kind 1.

(** No recorded entry is not a failure; an unreadable return value is. *)
Definition with_path_entry (k : PathEntry -> Z -> M unit) : M unit :=
  s ← get_state;
  match path_map s !! hk_pid_tgid h with
  | None => mret tt
  | Some entry => ret ← read_at_i64 h 16; k entry ret
  end.

Definition try_exit_path : M unit := with_path_entry (fun entry ret =>
  let path_len := Z.land (pe_path1_len entry) (MAX_PATH_SIZE - 1) in
  let payload := PathPayload.mk (wrap 16 path_len) (replicate 2 NUL) (swrap 32 ret) in
  ok ← emit_varlen (pe_header entry) payload (take (Z.to_nat path_len) (pe_path1 entry));
  if negb ok then fail else
  r ← path_remove h (hk_pid_tgid h);
  syscall_cleanup r).

(** ** Descriptors *)

Definition try_enter_fd (kind : Z) : M unit :=
  if negb (should_trace g h) then mret tt else
  fd ← read_at_u64 h 16;
  stash_rich kind (FdData.mk (wrap 32 fd)).

Definition try_exit_fd : M unit := with_rich_entry (fun entry ret =>
  let ed : FdData.t := read_unaligned (re_data entry) in
  emit_rich entry (FdPayload.mk (FdData.fd ed) (swrap 32 ret))).

(** ** Two paths *)

Inductive TwoPathKind : Type :=
| TP_Rename | TP_Renameat2 | TP_Link | TP_Linkat | TP_Symlink | TP_Symlinkat | TP_Mount.

Definition two_path_kind (k : TwoPathKind) : EventKind.t :=
  match k with
  | TP_Rename => EventKind.Rename
  | TP_Renameat2 => EventKind.Renameat2
  | TP_Link => EventKind.Link
  | TP_Linkat => EventKind.Linkat
  | TP_Symlink => EventKind.Symlink
  | TP_Symlinkat => EventKind.Symlinkat
  | TP_Mount => EventKind.Mount
  end.

Definition two_path_args (k : TwoPathKind) : Z * Z :=
  match k with
  | TP_Rename | TP_Link | TP_Symlink | TP_Mount => (0, 1)
  | TP_Renameat2 | TP_Linkat => (1, 3)
  | TP_Symlinkat => (0, 2)
  end.

Definition try_enter_two_path (kind : TwoPathKind) : M unit :=
  if negb (should_trace g h) then mret tt else
  let '(path1_arg, path2_arg) := two_path_args kind in
  path1_ptr ← read_at_u64 h (16 + 8 * path1_arg);
  path2_ptr ← read_at_u64 h (16 + 8 * path2_arg);
  if negb (hk_scratch h PATH_TMP_BUF) then fail else
  s ← get_state;
  let '(path1_len, status1, path1) := read_user_str h path1_ptr (tmp_path1 (scratch s)) in
  let '(path2_len, status2, path2) := read_user_str h path2_ptr (tmp_path2 (scratch s)) in
  _ ← set_tmp_paths path1 path2;
  let header := with_capture (get_task_info g h (EventKind.to_u8 (two_path_kind kind)))
                  (HeaderCapture.mk 1 (CaptureStatus.as_u8 status1)
                     (CaptureStatus.as_u8 status2)) in
  r ← path_insert h (hk_pid_tgid h) (mkPathEntry header path1_len path2_len path1 path2);
  syscall_save r.

Definition try_exit_two_path : M unit := with_path_entry (fun entry ret =>
  let p1 := Z.land (pe_path1_len entry) (MAX_PATH_SIZE - 1) in
  let p2 := Z.land (pe_path2_len entry) (MAX_PATH_SIZE - 1) in
  let payload := TwoPathPayload.mk (wrap 16 p1) (wrap 16 p2) (swrap 32 ret) in
  if negb (hk_scratch h ASSEMBLY_BUF) then fail else
  let fixed := (size_of EventHeader.t + size_of TwoPathPayload.t)%nat in
  let total := (fixed + Z.to_nat p1 + Z.to_nat p2)%nat in
  if ASSEMBLY_BUF_SIZE <? Z.of_nat total then fail else
  s ← get_state;
  let dst := assembly (scratch s) in
  let dst := overwrite 0 (as_bytes (hk_pad h) (pe_header entry)) dst in
  let dst := overwrite (size_of EventHeader.t) (as_bytes (hk_pad h) payload) dst in
  dst ← lift (bpf_memcpy h 0 fixed (take (Z.to_nat p1) (pe_path1 entry)) dst);
  dst ← lift (bpf_memcpy h 1 (fixed + Z.to_nat p1) (take (Z.to_nat p2) (pe_path2 entry)) dst);
  _ ← set_assembly dst;
  _ ← emit_event h (take total dst);
  r ← path_remove h (hk_pid_tgid h);
  syscall_cleanup r).

(** ** sendto / recvfrom *)

Definition try_enter_sendto_recvfrom (kind : Z) : M unit :=
  if negb (should_trace g h) then mret tt else
  fd ← read_at_u64 h 16;
  let len := read_at_u64_or h 32 0 in
  let addr := read_at_u64_or h 48 0 in
  let addrlen := read_at_u64_or h 56 0 in
  let '(family, port, addr_v4, addr_v6) := read_sockaddr addr addrlen in
  stash_rich kind (SendRecvData.mk (wrap 32 fd) family port addr_v4 addr_v6 len).

Definition try_exit_sendto_recvfrom : M unit := with_rich_entry (fun entry ret =>
  let ed : SendRecvData.t := read_unaligned (re_data entry) in
  emit_rich entry (SendtoRecvfromPayload.mk (SendRecvData.fd ed) (SendRecvData.family ed)
    (SendRecvData.port ed) (SendRecvData.addr_v4 ed) (SendRecvData.addr_v6 ed)
    (SendRecvData.size ed) ret)).

(** ** dup, dup2, dup3, fcntl *)

Definition stash_dup_entry (kind oldfd cloexec : Z) : M unit :=
  stash_rich kind (DupEntryData.mk oldfd cloexec (replicate 3 NUL)).

Definition try_enter_dup_family (kind cloexec : Z) : M unit :=
  if negb (should_trace g h) then mret tt else
  oldfd ← read_at_u64 h 16;
  stash_dup_entry kind (wrap 32 oldfd) cloexec.

Definition try_enter_dup3 : M unit :=
  if negb (should_trace g h) then mret tt else
  oldfd ← read_at_u64 h 16;
  let flags := read_at_u64_or h 32 0 in
  let cloexec := if negb (Z.land (wrap 32 flags) O_CLOEXEC =? 0) then 1 else 0 in
  stash_dup_entry (EventKind.to_u8 EventKind.Dup3) (wrap 32 oldfd) cloexec.

Definition try_enter_fcntl : M unit :=
  if negb (should_trace g h) then mret tt else
  fd ← read_at_u64 h 16;
  let cmd32 := wrap 32 (read_at_u64_or h 24 0) in
  if negb (cmd32 =? F_DUPFD) && negb (cmd32 =? F_DUPFD_CLOEXEC) then mret tt else
  let cloexec := if cmd32 =? F_DUPFD_CLOEXEC then 1 else 0 in
  stash_dup_entry (EventKind.to_u8 EventKind.Fcntl) (wrap 32 fd) cloexec.

Definition try_exit_dup_family : M unit := with_rich_entry (fun entry ret =>
  let ed : DupEntryData.t := read_unaligned (re_data entry) in
  emit_rich entry (DupPayload.mk (DupEntryData.oldfd ed) (swrap 32 ret) (DupEntryData.cloexec ed)
    (replicate 3 NUL) ret)).

(** ** pread64 / pwrite64 *)

Definition try_enter_prw (kind : Z) : M unit :=
  if negb (should_trace g h) then mret tt else
  fd ← read_at_u64 h 16;
  let count := read_at_u64_or h 32 0 in
  let pos := read_at_u64_or h 40 0 in
  stash_rich kind (PreadPwriteEntryData.mk (wrap 32 fd) count (swrap 64 pos) FD_TYPE_OTHER).

Definition try_exit_prw : M unit := with_rich_entry (fun entry ret =>
  let ed : PreadPwriteEntryData.t := read_unaligned (re_data entry) in
  emit_rich entry (PreadPwritePayload.mk (PreadPwriteEntryData.fd ed)
    (PreadPwriteEntryData.fd_type ed) (replicate 3 NUL) (PreadPwriteEntryData.requested_size ed)
    (PreadPwriteEntryData.offset ed) ret)).

(** ** readv / writev *)

(** The bounded traversal: the sum of [iov_len] over the first [n] entries,
    starting at index [i]. *)
Fixpoint iov_sum (iov_ptr : Z) (i : Z) (n : nat) (total : Z) : Z :=
  match n with
  | O => total
  | S n =>
      let addr := wrapping_add iov_ptr (i * Z.of_nat (size_of UserIovec.t)) in
      let total :=
        match hk_uread h addr (size_of UserIovec.t) with
        | Some b => wrapping_add total (UserIovec.iov_len (read_unaligned b))
        | None => total
        end in
      iov_sum iov_ptr (i + 1) n total
  end.

Definition try_enter_rwv (kind : Z) : M unit :=
  if negb (should_trace g h) then mret tt else
  fd ← read_at_u64 h 16;
  let iov_ptr := read_at_u64_or h 24 0 in
  let iovcnt := read_at_u64_or h 32 0 in
  let traverse := if MAX_IOV_TRAVERSE <? iovcnt then MAX_IOV_TRAVERSE else wrap 32 iovcnt in
  let truncated := if MAX_IOV_TRAVERSE <? iovcnt then 1 else 0 in
  let total := if negb (iov_ptr =? 0) then iov_sum iov_ptr 0 (Z.to_nat traverse) 0 else 0 in
  stash_rich kind (ReadvWritevEntryData.mk (wrap 32 fd) (wrap 32 iovcnt) truncated
    (replicate 3 NUL) total FD_TYPE_OTHER).

Definition try_exit_rwv : M unit := with_rich_entry (fun entry ret =>
  let ed : ReadvWritevEntryData.t := read_unaligned (re_data entry) in
  emit_rich entry (ReadvWritevPayload.mk (ReadvWritevEntryData.fd ed)
    (ReadvWritevEntryData.fd_type ed) (ReadvWritevEntryData.iov_truncated ed) (replicate 2 NUL)
    (ReadvWritevEntryData.iov_count ed) (replicate 4 NUL)
    (ReadvWritevEntryData.requested_size ed) ret)).

(** ** mmap *)

Definition try_enter_mmap : M unit :=
  if negb (should_trace g h) then mret tt else
  let length := read_at_u64_or h 24 0 in
  let prot := read_at_u64_or h 32 0 in
  let flags := read_at_u64_or h 40 0 in
  let fd_raw := read_at_i64_or h 48 (-1) in
  let offset := read_at_u64_or h 56 0 in
  if (fd_raw <? 0) || negb (Z.land (wrap 32 flags) MAP_ANONYMOUS =? 0) then mret tt else
  stash_rich (EventKind.to_u8 EventKind.Mmap)
    (MmapEntryData.mk (swrap 32 fd_raw) (wrap 32 prot) (wrap 32 flags) length offset).

Definition try_exit_mmap : M unit := with_rich_entry (fun entry ret =>
  let ed : MmapEntryData.t := read_unaligned (re_data entry) in
  let dev_ino := fd_to_dev_ino g h (MmapEntryData.fd ed) in
  emit_rich entry (MmapPayload.mk (MmapEntryData.fd ed) (MmapEntryData.prot ed)
    (MmapEntryData.flags ed) (replicate 4 NUL) (MmapEntryData.length ed)
    (MmapEntryData.offset ed) (di_dev dev_ino) (di_ino dev_ino) ret)).

(** ** sendfile / splice *)

Definition stash_sendfile_splice_entry (kind in_fd out_fd size : Z) : M unit :=
  stash_rich kind (SendfileSpliceEntryData.mk in_fd out_fd FD_TYPE_OTHER FD_TYPE_OTHER
    (replicate 2 NUL) size).

Definition try_enter_sendfile : M unit :=
  if negb (should_trace g h) then mret tt else
  out_fd ← read_at_u64 h 16;
  let in_fd := read_at_u64_or h 24 0 in
  let count := read_at_u64_or h 40 0 in
  stash_sendfile_splice_entry (EventKind.to_u8 EventKind.Sendfile) (wrap 32 in_fd)
    (wrap 32 out_fd) count.

Definition try_enter_splice : M unit :=
  if negb (should_trace g h) then mret tt else
  in_fd ← read_at_u64 h 16;
  let out_fd := read_at_u64_or h 32 0 in
  let len := read_at_u64_or h 48 0 in
  stash_sendfile_splice_entry (EventKind.to_u8 EventKind.Splice) (wrap 32 in_fd)
    (wrap 32 out_fd) len.

Definition try_exit_sendfile_splice : M unit := with_rich_entry (fun entry ret =>
  let ed : SendfileSpliceEntryData.t := read_unaligned (re_data entry) in
  emit_rich entry (SendfileSplicePayload.mk (SendfileSpliceEntryData.in_fd ed)
    (SendfileSpliceEntryData.out_fd ed) (SendfileSpliceEntryData.in_fd_type ed)
    (SendfileSpliceEntryData.out_fd_type ed) (replicate 6 NUL)
    (SendfileSpliceEntryData.size ed) ret)).

(** ** The tracepoint programs

    [sys_enter_*] and [sys_exit_*] of every Tier 2 syscall, by the kind of the
    event they produce; [None] for the kinds other programs emit. *)
Definition sys_enter (k : EventKind.t) : option (M unit) :=
  let kind := EventKind.to_u8 k in
  match k with
  | EventKind.Openat => Some sys_enter_openat
  | EventKind.Read | EventKind.Write => Some (entry_result (try_sys_enter_rw kind))
  | EventKind.Connect | EventKind.Bind => Some (entry_result (try_sys_enter_sockaddr kind))
  | EventKind.Listen => Some (entry_result try_enter_listen)
  | EventKind.Socket => Some (entry_result try_enter_socket)
  | EventKind.Clone | EventKind.Clone3 => Some (entry_result (try_enter_clone kind))
  | EventKind.Chdir | EventKind.Unlink | EventKind.Rmdir | EventKind.Mkdir | EventKind.Chmod
  | EventKind.Chown | EventKind.Truncate | EventKind.Umount2 =>
      Some (entry_result (try_enter_path kind))
  | EventKind.Unlinkat | EventKind.Mkdirat | EventKind.Fchmodat | EventKind.Fchownat =>
      Some (entry_result (try_enter_at_path kind))
  | EventKind.Fchdir | EventKind.Fchmod | EventKind.Fchown | EventKind.Ftruncate =>
      Some (entry_result (try_enter_fd kind))
  | EventKind.Rename => Some (entry_result (try_enter_two_path TP_Rename))
  | EventKind.Renameat2 => Some (entry_result (try_enter_two_path TP_Renameat2))
  | EventKind.Link => Some (entry_result (try_enter_two_path TP_Link))
  | EventKind.Linkat => Some (entry_result (try_enter_two_path TP_Linkat))
  | EventKind.Symlink => Some (entry_result (try_enter_two_path TP_Symlink))
  | EventKind.Symlinkat => Some (entry_result (try_enter_two_path TP_Symlinkat))
  | EventKind.Mount => Some (entry_result (try_enter_two_path TP_Mount))
  | EventKind.Sendto | EventKind.Recvfrom =>
      Some (entry_result (try_enter_sendto_recvfrom kind))
  | EventKind.Dup | EventKind.Dup2 => Some (entry_result (try_enter_dup_family kind 0))
  | EventKind.Dup3 => Some (entry_result try_enter_dup3)
  | EventKind.Fcntl => Some (entry_result try_enter_fcntl)
  | EventKind.Pread64 | EventKind.Pwrite64 => Some (entry_result (try_enter_prw kind))
  | EventKind.Readv | EventKind.Writev => Some (entry_result (try_enter_rwv kind))
  | EventKind.Mmap => Some (entry_result try_enter_mmap)
  | EventKind.Sendfile => Some (entry_result try_enter_sendfile)
  | EventKind.Splice => Some (entry_result try_enter_splice)
  | _ => None
  end.

Definition sys_exit (k : EventKind.t) : option (M unit) :=
  match k with
  | EventKind.Openat => Some sys_exit_openat
  | EventKind.Read | EventKind.Write => Some (exit_result try_sys_exit_rw)
  | EventKind.Connect | EventKind.Bind => Some (exit_result try_sys_exit_sockaddr)
  | EventKind.Listen => Some (exit_result try_exit_listen)
  | EventKind.Socket => Some (exit_result try_exit_socket)
  | EventKind.Clone | EventKind.Clone3 => Some (exit_result try_exit_clone)
  | EventKind.Chdir | EventKind.Unlink | EventKind.Rmdir | EventKind.Mkdir | EventKind.Chmod
  | EventKind.Chown | EventKind.Truncate | EventKind.Umount2
  | EventKind.Unlinkat | EventKind.Mkdirat | EventKind.Fchmodat | EventKind.Fchownat =>
      Some (exit_result try_exit_path)
  | EventKind.Fchdir | EventKind.Fchmod | EventKind.Fchown | EventKind.Ftruncate =>
      Some (exit_result try_exit_fd)
  | EventKind.Rename | EventKind.Renameat2 | EventKind.Link | EventKind.Linkat
  | EventKind.Symlink | EventKind.Symlinkat | EventKind.Mount =>
      Some (exit_result try_exit_two_path)
  | EventKind.Sendto | EventKind.Recvfrom => Some (exit_result try_exit_sendto_recvfrom)
  | EventKind.Dup | EventKind.Dup2 | EventKind.Dup3 | EventKind.Fcntl =>
      Some (exit_result try_exit_dup_family)
  | EventKind.Pread64 | EventKind.Pwrite64 => Some (exit_result try_exit_prw)
  | EventKind.Readv | EventKind.Writev => Some (exit_result try_exit_rwv)
  | EventKind.Mmap => Some (exit_result try_exit_mmap)
  | EventKind.Sendfile | EventKind.Splice => Some (exit_result try_exit_sendfile_splice)
  | _ => None
  end.
End Rich.
