(* ===== verification/RichFacts.v ===== *)
(** * Rich syscalls end to end

    What a traced syscall becomes: the entry handler stashes its arguments,
    the exit handler emits a record, and the daemon's deserializer turns the
    record into the event that names the call, its arguments and its result.
    Anything may happen to other tasks in between. *)

From S2P Require Import Prelude Layout Records Common Json Utf8 Event Usdt Deserializer Wire Bpf.
From S2P Require Import Task HookFacts Entries Rich.

Local Open Scope string_scope.
Local Open Scope Z_scope.
Local Open Scope list_scope.

(** ** Conditions *)

(** Nothing the kernel may refuse is refused in this invocation. *)
Record Healthy (h : Hook) : Prop := mkHealthy {
  he_scratch : forall i, hk_scratch h i = true;
  he_insert : forall m, hk_insert h m = None;
  he_remove : forall m, hk_remove h m = None;
  he_memcpy : forall n, hk_memcpy h n = true;
  he_room : forall r d, hk_room h r d = true;
  he_ctx : forall off n, is_Some (hk_ctx h off n) }.

(** The [i]-th argument word of a [sys_enter] tracepoint and the return value
    of a [sys_exit] one. *)
Definition sysarg (h : Hook) (i : Z) : Z := read_at_u64_or h (16 + 8 * i) 0.
Definition sysret (h : Hook) : Z := read_at_i64_or h 16 0.

(** Two states agree on what is pending for a task. *)
Definition same_pending (key : Z) (s s' : Bpf) : Prop :=
  rich_map s' !! key = rich_map s !! key /\ path_map s' !! key = path_map s !! key /\
  openat_map s' !! key = openat_map s !! key.

Definition none_pending (key : Z) (s : Bpf) : Prop :=
  rich_map s !! key = None /\ path_map s !! key = None /\ openat_map s !! key = None.

(** Entry then exit, with anything in between that leaves the task's own
    entries alone, adds exactly one record, which decodes to [e]. *)
Definition reports `{Base64} (key : Z) (enter exit : M unit) (e : BehaviorEvent) : Prop :=
  forall s1, none_pending key s1 ->
  exists s1', enter s1 = (Some tt, s1') /\ EVENTS s1' = EVENTS s1 /\
    forall s2, same_pending key s1' s2 ->
    exists s3 rec, exit s2 = (Some tt, s3) /\ EVENTS s3 = EVENTS s2 ++ [rec] /\
      deserialize rec = Ok e /\ none_pending key s3 /\
      failures s3 = failures s2 /\ DROP_COUNT s3 = DROP_COUNT s2.

Lemma or_else_ok m recover s s' : m s = (Some tt, s') -> or_else m recover s = (Some tt, s').
Proof. intros E. unfold or_else. by rewrite E. Qed.

(** A record of [n] fixed bytes after the header, when the ring has room. *)
Lemma emit_healthy h n (header : EventHeader.t) payload s :
  Healthy h -> (size_of EventHeader.t + length payload <= n)%nat ->
  emit_stack h n header payload s =
  (Some tt, set_EVENTS (EVENTS s ++ [as_bytes (hk_pad h) header ++ payload]) s).
Proof.
  intros He Hn. rewrite emit_stack_spec by done.
  rewrite emit_event_spec by apply as_bytes_not_nil. by rewrite (he_room h He).
Qed.

Section Reads.
Context (h : Hook) (Hok : HookOk h) (He : Healthy h).

Lemma read_u64_healthy off s : read_at_u64 h off s = (Some (read_at_u64_or h off 0), s).
Proof.
  unfold read_at_u64, read_at_u64_or, lift. by destruct (he_ctx h He off 8) as [b ->].
Qed.
Lemma read_i64_healthy off s : read_at_i64 h off s = (Some (read_at_i64_or h off 0), s).
Proof.
  unfold read_at_i64, read_at_i64_or, lift. by destruct (he_ctx h He off 8) as [b ->].
Qed.
Lemma read_u64_or_range off : in_u 64 (read_at_u64_or h off 0).
Proof.
  unfold read_at_u64_or. destruct (hk_ctx h off 8) as [b|] eqn:E; cbn; [|unfold in_u; lia].
  by apply (le_combine_range 8), (ok_ctx h Hok off).
Qed.
Lemma sysarg_range i : in_u 64 (sysarg h i).
Proof. apply read_u64_or_range. Qed.
Lemma sysret_range : in_s 64 (sysret h).
Proof.
  unfold sysret, read_at_i64_or. destruct (hk_ctx h 16 8); cbn.
  - apply swrap_bounds; lia.
  - unfold in_s; lia.
Qed.
End Reads.

(** ** The rich map *)

Section RichPair.
Context `{Base64} (g : Globals) (h1 h2 : Hook).
Context (Hok1 : HookOk h1) (Hok2 : HookOk h2) (He1 : Healthy h1) (He2 : Healthy h2).
Context (Hkey : hk_pid_tgid h2 = hk_pid_tgid h1).
Let key : Z := hk_pid_tgid h1.

Lemma stash_rich_healthy {A} `{ReprC A} kind (ed : A) s :
  exists s' junk n, stash_rich g h1 kind ed s = (Some tt, s') /\ EVENTS s' = EVENTS s /\
    rich_map s' = <[key := mkRichEntry (get_task_info g h1 kind)
                             (as_bytes (hk_pad h1) ed ++ junk) n]> (rich_map s) /\
    path_map s' = path_map s /\ openat_map s' = openat_map s.
Proof.
  do 3 eexists. unfold stash_rich. rewrite (he_scratch h1 He1). cbn [negb].
  unfold mbind, M_bind, get_state, modify, rich_insert, map_insert.
  rewrite (he_insert h1 He1). cbn. split_and!; try reflexivity.
Qed.

(** The exit block on a recorded entry. *)
Lemma rich_exit_healthy {A P} `{ReprC A} `{ReprC P} header (ed : A) junk n
    (payload : A -> Z -> P) s :
  in_range ed -> (size_of EventHeader.t + size_of P <= 256)%nat ->
  rich_map s !! key = Some (mkRichEntry header (as_bytes (hk_pad h1) ed ++ junk) n) ->
  exists s', with_rich_entry h2 (fun entry ret =>
      emit_rich h2 entry (payload (read_unaligned (re_data entry)) ret)) s = (Some tt, s') /\
    EVENTS s' = EVENTS s ++
      [as_bytes (hk_pad h2) header ++ as_bytes (hk_pad h2) (payload ed (sysret h2))] /\
    rich_map s' = delete key (rich_map s) /\ path_map s' = path_map s /\
    openat_map s' = openat_map s /\ failures s' = failures s /\ DROP_COUNT s' = DROP_COUNT s.
Proof.
  intros Hr Hsize Hm. unfold with_rich_entry. unfold mbind, M_bind, get_state.
  rewrite Hkey. fold key. rewrite Hm, (read_i64_healthy h2 He2). fold (sysret h2).
  unfold emit_rich, emit_fixed. cbn [re_data re_header]. rewrite read_as_bytes by done.
  unfold mbind, M_bind. rewrite emit_stack_spec by (rewrite length_as_bytes; done).
  rewrite emit_event_spec by apply as_bytes_not_nil. rewrite (he_room h2 He2). cbn [snd].
  unfold rich_remove, map_remove. cbn. rewrite Hkey. fold key. rewrite Hm, (he_remove h2 He2).
  cbn. eexists. split; [reflexivity|]. cbn. done.
Qed.

(** A rich handler pair reports its event, given what the parser makes of the
    payload. *)
Lemma rich_reports {A P} `{ReprC A} `{ReprC P} k (ed : A) (payload : A -> Z -> P)
    (enter : M unit) ty name layer args rc :
  is_packet k = false -> k <> EventKind.ProcessStart ->
  (forall s, enter s = stash_rich g h1 (EventKind.to_u8 k) ed s) ->
  in_range ed -> (size_of EventHeader.t + size_of P <= 256)%nat ->
  parse_kind k (as_bytes (hk_pad h2) (payload ed (sysret h2))) HeaderCapture.default =
    Ok (ty, name, layer, args, rc) ->
  reports key (entry_result enter)
    (exit_result h2 (with_rich_entry h2 (fun entry ret =>
       emit_rich h2 entry (payload (read_unaligned (re_data entry)) ret))))
    (mkEvent (header_json (get_task_info g h1 (EventKind.to_u8 k)))
       (mkEventType ty name layer) None args rc).
Proof.
  intros Hpk Hps Hen Hr Hsize Hparse s1 (Hn1 & Hn2 & Hn3).
  destruct (stash_rich_healthy (EventKind.to_u8 k) ed s1)
    as (s1' & junk & n & E1 & Hev & Hm & Hp & Ho).
  exists s1'. split; [apply or_else_ok; by rewrite Hen|]. split; [done|].
  intros s2 (Hs & Hs' & Hs'').
  rewrite Hm, lookup_insert_eq in Hs.
  destruct (rich_exit_healthy _ ed junk n payload s2 Hr Hsize Hs)
    as (s3 & E3 & Hev3 & Hm3 & Hp3 & Ho3 & Hf3 & Hd3).
  exists s3. eexists. split; [by apply or_else_ok|]. split; [exact Hev3|].
  split; [|unfold none_pending; rewrite Hm3, Hp3, Ho3, lookup_delete_eq, Hs', Hs'', Hp, Ho; done].
  rewrite (deserialize_record (hk_pad h2) _ k); [|apply get_task_info_range; auto using EventKind.to_u8_range|done|done].
  cbn [EventHeader.capture get_task_info]. rewrite Hparse. cbn. unfold final_args.
  destruct k; try done.
Qed.
End RichPair.

(** ** What each rich syscall should report *)

Definition num (z : Z) : json := JNum z.

(** The contract of the syscalls whose record has a fixed size: the event name,
    its arguments and its return code, from the argument words at entry, the
    memory they point to and the result at exit.  [None]: the call is not
    reported here (other [fcntl] commands, anonymous mappings). *)
Definition rich_spec (g : Globals) (h1 h2 : Hook) (k : EventKind.t)
    : option (string * json * Z) :=
  let a := sysarg h1 in
  let fd i := num (wrap 32 (a i)) in
  let ret := sysret h2 in
  let rw name := Some (name, obj [("fd", fd 0); ("fd_type", JStr "other");
                                  ("requested_size", num (a 2))], ret) in
  let sock name :=
    let '(family, port, v4, v6) := read_sockaddr h1 (a 1) (a 2) in
    Some (name, obj [("family", num family); ("port", num port);
                     ("addr", JStr (format_addr family v4 v6))], swrap 32 ret) in
  let clone name flags := Some (name, obj [("flags", strs (decode_clone_flags flags))], ret) in
  let on_fd name := Some (name, obj [("fd", fd 0)], swrap 32 ret) in
  let sendrecv name :=
    let '(family, port, v4, v6) := read_sockaddr h1 (a 4) (a 5) in
    Some (name, obj [("fd", fd 0); ("family", num family); ("port", num port);
                     ("addr", JStr (format_addr family v4 v6)); ("size", num (a 2))], ret) in
  let dup name cloexec :=
    Some (name, obj [("oldfd", fd 0); ("newfd", num (swrap 32 ret));
                     ("cloexec", JBool cloexec)], ret) in
  let prw name :=
    Some (name, obj [("fd", fd 0); ("fd_type", JStr "other"); ("size", num (a 2));
                     ("offset", num (swrap 64 (a 3)))], ret) in
  let rwv name :=
    let n := a 2 in
    let sum := if a 1 =? 0 then 0 else iov_sum h1 (a 1) 0 (Z.to_nat (Z.min n MAX_IOV_TRAVERSE)) 0 in
    Some (name, obj [("fd", fd 0); ("fd_type", JStr "other"); ("size", num sum);
                     ("iov_count", num (wrap 32 n));
                     ("iov_truncated", JBool (MAX_IOV_TRAVERSE <? n))], ret) in
  let move name in_fd out_fd size :=
    Some (name, obj [("in_fd", num (wrap 32 in_fd)); ("out_fd", num (wrap 32 out_fd));
                     ("in_fd_type", JStr "other"); ("out_fd_type", JStr "other");
                     ("size", num size)], ret) in
  match k with
  | EventKind.Read => rw "read"
  | EventKind.Write => rw "write"
  | EventKind.Connect => sock "connect"
  | EventKind.Bind => sock "bind"
  | EventKind.Listen =>
      Some ("listen", obj [("fd", fd 0); ("backlog", num (wrap 32 (a 1)))], swrap 32 ret)
  | EventKind.Socket =>
      Some ("socket", obj [("domain", fd 0); ("type", num (wrap 32 (a 1)));
                           ("protocol", num (wrap 32 (a 2)))], swrap 32 ret)
  | EventKind.Clone => clone "clone" (a 0)
  | EventKind.Clone3 => clone "clone3" (if a 0 =? 0 then 0 else default 0 (uread_u64 h1 (a 0)))
  | EventKind.Fchdir => on_fd "fchdir"
  | EventKind.Fchmod => on_fd "fchmod"
  | EventKind.Fchown => on_fd "fchown"
  | EventKind.Ftruncate => on_fd "ftruncate"
  | EventKind.Sendto => sendrecv "sendto"
  | EventKind.Recvfrom => sendrecv "recvfrom"
  | EventKind.Dup => dup "dup" false
  | EventKind.Dup2 => dup "dup2" false
  | EventKind.Dup3 => dup "dup3" (has (wrap 32 (a 2)) O_CLOEXEC)
  | EventKind.Fcntl =>
      let cmd := wrap 32 (a 1) in
      if cmd =? F_DUPFD then dup "fcntl" false
      else if cmd =? F_DUPFD_CLOEXEC then dup "fcntl" true else None
  | EventKind.Pread64 => prw "pread64"
  | EventKind.Pwrite64 => prw "pwrite64"
  | EventKind.Readv => rwv "readv"
  | EventKind.Writev => rwv "writev"
  | EventKind.Mmap =>
      let fd := swrap 64 (a 4) in
      let flags := wrap 32 (a 3) in
      if (fd <? 0) || has flags MAP_ANONYMOUS then None else
      let di := fd_to_dev_ino g h2 (swrap 32 fd) in
      let args :=
        obj [("fd", num (swrap 32 fd)); ("prot", strs (decode_mmap_prot (wrap 32 (a 2))));
             ("flags", strs (decode_mmap_flags flags)); ("length", num (a 1));
             ("offset", num (a 5))] in
      Some ("mmap",
            if negb (di_dev di =? 0) || negb (di_ino di =? 0)
            then json_insert "ino" (num (di_ino di)) (json_insert "dev" (num (di_dev di)) args)
            else args, ret)
  | EventKind.Sendfile => move "sendfile" (a 1) (a 0) (a 3)
  | EventKind.Splice => move "splice" (a 0) (a 2) (a 4)
  | _ => None
  end.

(** ** Parsing one's own payload *)

Lemma read_own {T} `{ReprC T} pad (p : T) : in_range p -> read_unaligned (as_bytes pad p) = p.
Proof. intros Hr. rewrite <- (app_nil_r (as_bytes pad p)). by apply read_as_bytes. Qed.

Lemma too_short_own {T} `{ReprC T} pad (p : T) rest : too_short T (as_bytes pad p ++ rest) = false.
Proof. unfold too_short. rewrite length_app, length_as_bytes. apply Nat.ltb_ge. lia. Qed.

Lemma too_short_own' {T} `{ReprC T} pad (p : T) : too_short T (as_bytes pad p) = false.
Proof. rewrite <- (app_nil_r (as_bytes pad p)). apply too_short_own. Qed.


(** ** Ranges of what the handlers read *)

Section Ranges.
Context (g : Globals) (h : Hook) (Hok : HookOk h).

Lemma uread_range n a b : hk_uread h a n = Some b -> in_u (8 * Z.of_nat n) (le_combine b).
Proof. intros E. by apply le_combine_range, (ok_uread h Hok a). Qed.

Lemma u16_from_be_range p : in_u 16 p -> in_u 16 (u16_from_be p).
Proof.
  intros Hp. unfold u16_from_be. apply lor_range; [lia| |].
  - change 0xff with (Z.ones 8). rewrite Z.land_ones, Z.shiftl_mul_pow2 by lia. unfold in_u.
    pose proof (Z.mod_pos_bound p (2 ^ 8)). cbn in *. lia.
  - rewrite Z.shiftr_div_pow2 by lia. unfold in_u in *.
    pose proof (Z.div_pos p (2 ^ 8)). pose proof (Z.div_lt_upper_bound p (2 ^ 8) (2 ^ 16)).
    cbn in *. lia.
Qed.

Lemma read_sockaddr_range addr n :
  let '(family, port, v4, v6) := read_sockaddr h addr n in
  in_u 16 family /\ in_u 16 port /\ in_u 32 v4 /\ length v6 = 16%nat.
Proof.
  assert (H16 : forall a, in_u 16 (default 0 (uread_u16 h a))).
  { intros a. unfold uread_u16. destruct (hk_uread h a 2) as [b|] eqn:E; cbn;
      [exact (uread_range 2 a b E)|unfold in_u; lia]. }
  assert (Hp : forall a, in_u 16 (default 0 (u16_from_be <$> uread_u16 h a))).
  { intros a. specialize (H16 a). destruct (uread_u16 h a); cbn in *;
      [by apply u16_from_be_range|done]. }
  assert (H32 : in_u 32 (default 0 (uread_u32 h (wrapping_add addr 4)))).
  { unfold uread_u32. destruct (hk_uread h _ 4) as [b|] eqn:E; cbn;
      [exact (uread_range 4 _ b E)|unfold in_u; lia]. }
  unfold read_sockaddr. destruct (_ && _); [destruct (_ && _); [|destruct (_ && _)]|];
    split_and!; try apply H16; try apply Hp; try apply H32; try done; unfold in_u; lia.
Qed.

Lemma uread_u64_range a : in_u 64 (default 0 (uread_u64 h a)).
Proof.
  unfold uread_u64. destruct (hk_uread h a 8) as [b|] eqn:E; cbn;
    [exact (uread_range 8 a b E)|unfold in_u; lia].
Qed.

Lemma iov_sum_range ptr n : forall i total, in_u 64 total -> in_u 64 (iov_sum h ptr i n total).
Proof.
  induction n as [|n IH]; intros i total Ht; cbn; [done|]. apply IH.
  destruct (hk_uread h _ _); [apply wrap_bounds; lia|done].
Qed.

Lemma fd_to_dev_ino_range fd :
  in_u 64 (di_dev (fd_to_dev_ino g h fd)) /\ in_u 64 (di_ino (fd_to_dev_ino g h fd)) /\
  Z.land (di_valid (fd_to_dev_ino g h fd)) 3 = di_valid (fd_to_dev_ino g h fd).
Proof.
  assert (H0 : in_u 64 0) by (unfold in_u; lia).
  unfold fd_to_dev_ino. destruct (_ || _); [done|].
  destruct (inode_for_fd g h _) as [inode|]; [|done].
  destruct (kread_u64 h (fd_off g inode 5)) as [ino|] eqn:Ei;
    destruct (fd_pointer g h inode 6) as [sb|]; cbn;
    try destruct (kread_u32 h (fd_off g sb 7)) as [dev|] eqn:Ed; cbn;
    try apply (kread_u32_range h Hok) in Ed; try apply (kread_u64_range h Hok) in Ei;
    unfold in_u in *; split_and!; try done; lia.
Qed.
End Ranges.

Ltac range1 :=
  match goal with
  | |- True => exact I
  | |- (_ < _)%nat => lia
  | |- length _ = _ => first [reflexivity | assumption]
  | |- in_u _ (sysarg ?h _) => apply (sysarg_range h); assumption
  | |- in_u _ (read_at_u64_or ?h _ _) => apply (read_u64_or_range h); assumption
  | |- in_s _ (sysret ?h) => apply (sysret_range h)
  | |- in_u _ (wrap ?w _) => apply (wrap_bounds w); lia
  | |- in_s _ (swrap ?w _) => apply (swrap_bounds w); lia
  | |- _ => assumption
  | |- in_u _ _ => vm_compute; split; [discriminate|reflexivity]
  end.

(** A record of values the handlers computed is in range. *)
Ltac solve_ranges :=
  unfold in_range; cbn -[sysarg sysret wrap swrap in_u in_s read_at_u64_or replicate];
  split_and!; range1.

(** The parser on the handler's own payload. *)
Ltac parse_own parser :=
  repeat match goal with x := _ : EventKind.EventKind |- _ => subst x end;
  cbn [parse_kind]; unfold parser; rewrite too_short_own', read_own by solve_ranges;
  cbn [bail_if mbind result_bind]; reflexivity.

(** The entry handler of a traced task in a healthy invocation. *)
Ltac open_enter Ht He handler :=
  intros s; unfold handler; rewrite Ht; cbn [negb]; unfold mbind at 1, M_bind at 1;
  rewrite (read_u64_healthy _ He); reflexivity.

Section Families.
Context `{Base64} (g : Globals) (h1 h2 : Hook).
Context (Hok1 : HookOk h1) (Hok2 : HookOk h2) (He1 : Healthy h1) (He2 : Healthy h2).
Context (Hkey : hk_pid_tgid h2 = hk_pid_tgid h1) (Ht : should_trace g h1 = true).
Let key : Z := hk_pid_tgid h1.
Local Abbreviation a := (sysarg h1).
Local Abbreviation ret := (sysret h2).
Let event (k : EventKind.t) (name : string) (args : json) (rc : Z) : BehaviorEvent :=
  mkEvent (header_json (get_task_info g h1 (EventKind.to_u8 k)))
    (mkEventType "TRACEPOINT" name "behavior") None (Some args) (Some rc).

(** One handler family: entry data, payload, entry handler and parser. *)
Ltac family k ed payload handler parser :=
  refine (rich_reports g h1 h2 Hok1 He1 He2 Hkey k ed payload _ _ _ _ _ _ _ _ _ _ _ _);
  [done|done|open_enter Ht He1 handler|solve_ranges|vm_compute; lia|parse_own parser].

Lemma listen_reports :
  reports key (entry_result (try_enter_listen g h1)) (exit_result h2 (try_exit_listen h2))
    (event EventKind.Listen "listen"
       (obj [("fd", num (wrap 32 (a 0))); ("backlog", num (wrap 32 (a 1)))]) (swrap 32 ret)).
Proof.
  family EventKind.Listen (ListenData.mk (wrap 32 (a 0)) (wrap 32 (a 1)))
    (fun ed ret => ListenPayload.mk (ListenData.fd ed) (ListenData.backlog ed) (swrap 32 ret))
    try_enter_listen parse_listen.
Qed.

Lemma socket_reports :
  reports key (entry_result (try_enter_socket g h1)) (exit_result h2 (try_exit_socket h2))
    (event EventKind.Socket "socket"
       (obj [("domain", num (wrap 32 (a 0))); ("type", num (wrap 32 (a 1)));
             ("protocol", num (wrap 32 (a 2)))]) (swrap 32 ret)).
Proof.
  family EventKind.Socket (SocketData.mk (wrap 32 (a 0)) (wrap 32 (a 1)) (wrap 32 (a 2)))
    (fun ed ret => SocketPayload.mk (SocketData.domain ed) (SocketData.sock_type ed)
       (SocketData.protocol ed) (swrap 32 ret))
    try_enter_socket parse_socket.
Qed.

Lemma rw_reports k name :
  (k, name) = (EventKind.Read, "read") \/ (k, name) = (EventKind.Write, "write") ->
  reports key (entry_result (try_sys_enter_rw g h1 (EventKind.to_u8 k)))
    (exit_result h2 (try_sys_exit_rw h2))
    (event k name (obj [("fd", num (wrap 32 (a 0))); ("fd_type", JStr "other");
                        ("requested_size", num (a 2))]) ret).
Proof.
  intros [[= -> ->]|[= -> ->]];
    [set (k := EventKind.Read)|set (k := EventKind.Write)];
    family k (ReadWriteEntryData.mk (wrap 32 (a 0)) (a 2) FD_TYPE_OTHER)
      (fun ed ret => ReadWritePayload.mk (ReadWriteEntryData.fd ed) (ReadWriteEntryData.fd_type ed)
         (replicate 3 NUL) (ReadWriteEntryData.requested_size ed) ret)
      try_sys_enter_rw parse_read_write.
Qed.

Lemma sockaddr_reports k name family port v4 v6 :
  (k, name) = (EventKind.Connect, "connect") \/ (k, name) = (EventKind.Bind, "bind") ->
  read_sockaddr h1 (a 1) (a 2) = (family, port, v4, v6) ->
  reports key (entry_result (try_sys_enter_sockaddr g h1 (EventKind.to_u8 k)))
    (exit_result h2 (try_sys_exit_sockaddr h2))
    (event k name (obj [("family", num family); ("port", num port);
                        ("addr", JStr (format_addr family v4 v6))]) (swrap 32 ret)).
Proof.
  intros Hk Ea. pose proof (read_sockaddr_range h1 Hok1 (a 1) (a 2)) as Hr. rewrite Ea in Hr.
  destruct Hr as (? & ? & ? & ?).
  assert (Hen : forall k s, try_sys_enter_sockaddr g h1 k s =
    stash_rich g h1 k (ConnBindData.mk family port v4 v6) s).
  { intros k' s. unfold try_sys_enter_sockaddr. rewrite Ht. cbn [negb].
    unfold mbind at 1, M_bind at 1. rewrite (read_u64_healthy _ He1).
    change (read_at_u64_or h1 24 0) with (a 1). change (read_at_u64_or h1 32 0) with (a 2).
    by rewrite Ea. }
  destruct Hk as [[= -> ->]|[= -> ->]]; [set (k := EventKind.Connect)|set (k := EventKind.Bind)];
    (refine (rich_reports g h1 h2 Hok1 He1 He2 Hkey k (ConnBindData.mk family port v4 v6)
       (fun ed ret => ConnectBindPayload.mk (ConnBindData.family ed) (ConnBindData.port ed)
          (ConnBindData.addr_v4 ed) (ConnBindData.addr_v6 ed) (swrap 32 ret))
       _ _ _ _ _ _ _ _ _ _ _ _);
     [done|done|apply Hen|solve_ranges|vm_compute; lia|parse_own parse_connect_bind]).
Qed.

Lemma clone_reports k name :
  (k, name) = (EventKind.Clone, "clone") \/ (k, name) = (EventKind.Clone3, "clone3") ->
  reports key (entry_result (try_enter_clone g h1 (EventKind.to_u8 k)))
    (exit_result h2 (try_exit_clone h2))
    (event k name (obj [("flags", strs (decode_clone_flags
       match k with
       | EventKind.Clone3 => if a 0 =? 0 then 0 else default 0 (uread_u64 h1 (a 0))
       | _ => a 0
       end))]) ret).
Proof.
  intros Hk. pose proof (uread_u64_range h1 Hok1 (a 0)). pose proof (sysarg_range h1 Hok1 0).
  destruct Hk as [[= -> ->]|[= -> ->]].
  - refine (rich_reports g h1 h2 Hok1 He1 He2 Hkey EventKind.Clone (CloneData.mk (a 0))
      (fun ed ret => ClonePayload.mk (CloneData.flags ed) ret) _ _ _ _ _ _ _ _ _ _ _ _);
      [done|done| |solve_ranges|vm_compute; lia|parse_own parse_clone].
    intros s. unfold try_enter_clone. by rewrite Ht.
  - assert (Hz : a 0 = 0 -> in_u 64 0) by (unfold in_u; lia).
    set (flags := if a 0 =? 0 then 0 else default 0 (uread_u64 h1 (a 0))).
    assert (in_u 64 flags) by (unfold flags; destruct (Z.eqb_spec (a 0) 0); auto).
    refine (rich_reports g h1 h2 Hok1 He1 He2 Hkey EventKind.Clone3 (CloneData.mk flags)
      (fun ed ret => ClonePayload.mk (CloneData.flags ed) ret) _ _ _ _ _ _ _ _ _ _ _ _);
      [done|done| |solve_ranges|vm_compute; lia|parse_own parse_clone].
    intros s. unfold try_enter_clone, flags. rewrite Ht. cbn [negb].
    change (read_at_u64_or h1 16 0) with (a 0). rewrite Z.eqb_refl. cbn [andb].
    destruct (Z.eqb_spec (a 0) 0) as [E|]; cbn [negb]; [by rewrite E|done].
Qed.

Lemma fd_reports k name :
  (k, name) ∈ [(EventKind.Fchdir, "fchdir"); (EventKind.Fchmod, "fchmod");
               (EventKind.Fchown, "fchown"); (EventKind.Ftruncate, "ftruncate")] ->
  reports key (entry_result (try_enter_fd g h1 (EventKind.to_u8 k)))
    (exit_result h2 (try_exit_fd h2))
    (event k name (obj [("fd", num (wrap 32 (a 0)))]) (swrap 32 ret)).
Proof.
  intros Hk. assert (Hp : forall payload, parse_kind k payload HeaderCapture.default =
                                       parse_fd_event payload name).
  { intros. repeat (apply elem_of_cons in Hk as [[= -> ->]|Hk]; [done|]).
    by apply elem_of_nil in Hk. }
  assert (Hn : is_packet k = false /\ k <> EventKind.ProcessStart).
  { repeat (apply elem_of_cons in Hk as [[= -> ->]|Hk]; [done|]). by apply elem_of_nil in Hk. }
  destruct Hn.
  refine (rich_reports g h1 h2 Hok1 He1 He2 Hkey k (FdData.mk (wrap 32 (a 0)))
    (fun ed ret => FdPayload.mk (FdData.fd ed) (swrap 32 ret)) _ _ _ _ _ _ _ _ _ _ _ _);
    [done|done|open_enter Ht He1 try_enter_fd|solve_ranges|vm_compute; lia|].
  rewrite Hp. parse_own parse_fd_event.
Qed.

Lemma sendrecv_reports k name family port v4 v6 :
  (k, name) = (EventKind.Sendto, "sendto") \/ (k, name) = (EventKind.Recvfrom, "recvfrom") ->
  read_sockaddr h1 (a 4) (a 5) = (family, port, v4, v6) ->
  reports key (entry_result (try_enter_sendto_recvfrom g h1 (EventKind.to_u8 k)))
    (exit_result h2 (try_exit_sendto_recvfrom h2))
    (event k name (obj [("fd", num (wrap 32 (a 0))); ("family", num family); ("port", num port);
                        ("addr", JStr (format_addr family v4 v6)); ("size", num (a 2))]) ret).
Proof.
  intros Hk Ea. pose proof (read_sockaddr_range h1 Hok1 (a 4) (a 5)) as Hr. rewrite Ea in Hr.
  destruct Hr as (? & ? & ? & ?).
  assert (Hen : forall k s, try_enter_sendto_recvfrom g h1 k s =
    stash_rich g h1 k (SendRecvData.mk (wrap 32 (a 0)) family port v4 v6 (a 2)) s).
  { intros k' s. unfold try_enter_sendto_recvfrom. rewrite Ht. cbn [negb].
    unfold mbind at 1, M_bind at 1. rewrite (read_u64_healthy _ He1).
    change (read_at_u64_or h1 48 0) with (a 4). change (read_at_u64_or h1 56 0) with (a 5).
    by rewrite Ea. }
  destruct Hk as [[= -> ->]|[= -> ->]]; [set (k := EventKind.Sendto)|set (k := EventKind.Recvfrom)];
    (refine (rich_reports g h1 h2 Hok1 He1 He2 Hkey k
       (SendRecvData.mk (wrap 32 (a 0)) family port v4 v6 (a 2))
       (fun ed ret => SendtoRecvfromPayload.mk (SendRecvData.fd ed) (SendRecvData.family ed)
          (SendRecvData.port ed) (SendRecvData.addr_v4 ed) (SendRecvData.addr_v6 ed)
          (SendRecvData.size ed) ret) _ _ _ _ _ _ _ _ _ _ _ _);
     [done|done|apply Hen|solve_ranges|vm_compute; lia|parse_own parse_sendto_recvfrom]).
Qed.

(** The dup family, whatever entry handler computed the cloexec flag. *)
Lemma dup_reports k name enter (cloexec : bool) :
  (k, name) ∈ [(EventKind.Dup, "dup"); (EventKind.Dup2, "dup2"); (EventKind.Dup3, "dup3");
               (EventKind.Fcntl, "fcntl")] ->
  (forall s, enter s = stash_dup_entry g h1 (EventKind.to_u8 k) (wrap 32 (a 0))
                         (if cloexec then 1 else 0) s) ->
  reports key (entry_result enter) (exit_result h2 (try_exit_dup_family h2))
    (event k name (obj [("oldfd", num (wrap 32 (a 0))); ("newfd", num (swrap 32 ret));
                        ("cloexec", JBool cloexec)]) ret).
Proof.
  intros Hk Hen. assert (Hp : forall payload, parse_kind k payload HeaderCapture.default =
                                       parse_dup payload name).
  { intros. repeat (apply elem_of_cons in Hk as [[= -> ->]|Hk]; [done|]).
    by apply elem_of_nil in Hk. }
  assert (Hn : is_packet k = false /\ k <> EventKind.ProcessStart).
  { repeat (apply elem_of_cons in Hk as [[= -> ->]|Hk]; [done|]). by apply elem_of_nil in Hk. }
  destruct Hn. assert (in_u 8 (if cloexec then 1 else 0)) by (destruct cloexec; unfold in_u; lia).
  refine (rich_reports g h1 h2 Hok1 He1 He2 Hkey k
    (DupEntryData.mk (wrap 32 (a 0)) (if cloexec then 1 else 0) (replicate 3 NUL))
    (fun ed ret => DupPayload.mk (DupEntryData.oldfd ed) (swrap 32 ret) (DupEntryData.cloexec ed)
       (replicate 3 NUL) ret) _ _ _ _ _ _ _ _ _ _ _ _);
    [done|done|apply Hen|solve_ranges|vm_compute; lia|].
  rewrite Hp. destruct cloexec; parse_own parse_dup.
Qed.

Lemma prw_reports k name :
  (k, name) = (EventKind.Pread64, "pread64") \/ (k, name) = (EventKind.Pwrite64, "pwrite64") ->
  reports key (entry_result (try_enter_prw g h1 (EventKind.to_u8 k)))
    (exit_result h2 (try_exit_prw h2))
    (event k name (obj [("fd", num (wrap 32 (a 0))); ("fd_type", JStr "other");
                        ("size", num (a 2)); ("offset", num (swrap 64 (a 3)))]) ret).
Proof.
  intros [[= -> ->]|[= -> ->]]; [set (k := EventKind.Pread64)|set (k := EventKind.Pwrite64)];
    family k (PreadPwriteEntryData.mk (wrap 32 (a 0)) (a 2) (swrap 64 (a 3)) FD_TYPE_OTHER)
      (fun ed ret => PreadPwritePayload.mk (PreadPwriteEntryData.fd ed)
         (PreadPwriteEntryData.fd_type ed) (replicate 3 NUL)
         (PreadPwriteEntryData.requested_size ed) (PreadPwriteEntryData.offset ed) ret)
      try_enter_prw parse_pread_pwrite.
Qed.

(** The traversal bound of the handler is the minimum of the two counts. *)
Lemma traverse_min n :
  in_u 64 n ->
  (if MAX_IOV_TRAVERSE <? n then MAX_IOV_TRAVERSE else wrap 32 n) = Z.min n MAX_IOV_TRAVERSE.
Proof.
  unfold in_u, MAX_IOV_TRAVERSE. intros. destruct (Z.ltb_spec 8 n); [lia|].
  rewrite wrap_id by (unfold in_u; lia). lia.
Qed.

Lemma rwv_reports k name :
  (k, name) = (EventKind.Readv, "readv") \/ (k, name) = (EventKind.Writev, "writev") ->
  let sum := if a 1 =? 0 then 0
             else iov_sum h1 (a 1) 0 (Z.to_nat (Z.min (a 2) MAX_IOV_TRAVERSE)) 0 in
  reports key (entry_result (try_enter_rwv g h1 (EventKind.to_u8 k)))
    (exit_result h2 (try_exit_rwv h2))
    (event k name (obj [("fd", num (wrap 32 (a 0))); ("fd_type", JStr "other"); ("size", num sum);
                        ("iov_count", num (wrap 32 (a 2)));
                        ("iov_truncated", JBool (MAX_IOV_TRAVERSE <? a 2))]) ret).
Proof.
  intros Hk sum. pose proof (sysarg_range h1 Hok1 2) as H2.
  assert (Hsum : in_u 64 sum).
  { unfold sum. destruct (a 1 =? 0); [unfold in_u; lia|]. apply iov_sum_range. unfold in_u; lia. }
  set (tr := if MAX_IOV_TRAVERSE <? a 2 then 1 else 0).
  assert (Htr : in_u 8 tr) by (unfold tr, in_u; destruct (_ <? _); lia).
  set (ed := ReadvWritevEntryData.mk (wrap 32 (a 0)) (wrap 32 (a 2)) tr (replicate 3 NUL) sum
               FD_TYPE_OTHER).
  assert (Hen : forall k s, try_enter_rwv g h1 k s = stash_rich g h1 k ed s).
  { intros k' s. unfold try_enter_rwv. rewrite Ht. cbn [negb]. unfold mbind at 1, M_bind at 1.
    rewrite (read_u64_healthy _ He1).
    change (read_at_u64_or h1 24 0) with (a 1). change (read_at_u64_or h1 32 0) with (a 2).
    rewrite (traverse_min (a 2) H2). unfold ed, sum, tr. by destruct (a 1 =? 0). }
  replace (MAX_IOV_TRAVERSE <? a 2) with (negb (tr =? 0))
    by (unfold tr; by destruct (MAX_IOV_TRAVERSE <? a 2)).
  destruct Hk as [[= -> ->]|[= -> ->]]; [set (k := EventKind.Readv)|set (k := EventKind.Writev)];
    (refine (rich_reports g h1 h2 Hok1 He1 He2 Hkey k ed
      (fun ed ret => ReadvWritevPayload.mk (ReadvWritevEntryData.fd ed)
         (ReadvWritevEntryData.fd_type ed) (ReadvWritevEntryData.iov_truncated ed)
         (replicate 2 NUL) (ReadvWritevEntryData.iov_count ed) (replicate 4 NUL)
         (ReadvWritevEntryData.requested_size ed) ret) _ _ _ _ _ _ _ _ _ _ _ _);
     [done|done|apply Hen|unfold ed; solve_ranges|vm_compute; lia
     |unfold ed; parse_own parse_readv_writev]).
Qed.

Lemma read_i64_or_sysarg off :
  read_at_i64_or h1 off (-1) = swrap 64 (read_at_u64_or h1 off 0).
Proof.
  unfold read_at_i64_or, read_at_u64_or. by destruct (he_ctx h1 He1 off 8) as [b ->].
Qed.

(** The daemon's arguments of a file-backed mapping. *)
Definition mmap_args (fd : Z) (di : DevIno) : json :=
  let args :=
    obj [("fd", num (swrap 32 fd)); ("prot", strs (decode_mmap_prot (wrap 32 (a 2))));
         ("flags", strs (decode_mmap_flags (wrap 32 (a 3)))); ("length", num (a 1));
         ("offset", num (a 5))] in
  if negb (di_dev di =? 0) || negb (di_ino di =? 0)
  then json_insert "ino" (num (di_ino di)) (json_insert "dev" (num (di_dev di)) args)
  else args.

Lemma mmap_reports :
  let fd := swrap 64 (a 4) in
  (fd <? 0) = false -> has (wrap 32 (a 3)) MAP_ANONYMOUS = false ->
  reports key (entry_result (try_enter_mmap g h1)) (exit_result h2 (try_exit_mmap g h2))
    (event EventKind.Mmap "mmap" (mmap_args fd (fd_to_dev_ino g h2 (swrap 32 fd))) ret).
Proof.
  intros fd Hfd Hanon. pose proof (sysarg_range h1 Hok1 1). pose proof (sysarg_range h1 Hok1 5).
  set (ed := MmapEntryData.mk (swrap 32 fd) (wrap 32 (a 2)) (wrap 32 (a 3)) (a 1) (a 5)).
  destruct (fd_to_dev_ino_range g h2 Hok2 (swrap 32 fd)) as (? & ? & _).
  refine (rich_reports g h1 h2 Hok1 He1 He2 Hkey EventKind.Mmap ed
    (fun ed ret => MmapPayload.mk (MmapEntryData.fd ed) (MmapEntryData.prot ed)
       (MmapEntryData.flags ed) (replicate 4 NUL) (MmapEntryData.length ed)
       (MmapEntryData.offset ed) (di_dev (fd_to_dev_ino g h2 (MmapEntryData.fd ed)))
       (di_ino (fd_to_dev_ino g h2 (MmapEntryData.fd ed))) ret) _ _ _ _ _ _ _ _ _ _ _ _);
    [done|done| |unfold ed; solve_ranges|vm_compute; lia|].
  - intros s. unfold try_enter_mmap. rewrite Ht. cbn [negb].
    rewrite read_i64_or_sysarg. change (read_at_u64_or h1 48 0) with (a 4). fold fd.
    change (read_at_u64_or h1 40 0) with (a 3). rewrite Hfd. unfold has in Hanon.
    rewrite Hanon. reflexivity.
  - unfold ed, mmap_args.
    cbn [parse_kind]. unfold parse_mmap. rewrite too_short_own', read_own.
    + cbn [bail_if mbind result_bind MmapPayload.fd MmapPayload.dev MmapPayload.ino
           MmapPayload.prot MmapPayload.flags MmapPayload.length MmapPayload.offset
           MmapPayload.return_code MmapEntryData.fd MmapEntryData.prot MmapEntryData.flags
           MmapEntryData.length MmapEntryData.offset].
      reflexivity.
    + solve_ranges.
Qed.

Lemma move_reports k name enter in_fd out_fd size :
  (k, name) = (EventKind.Sendfile, "sendfile") \/ (k, name) = (EventKind.Splice, "splice") ->
  in_u 64 size ->
  (forall s, enter s = stash_sendfile_splice_entry g h1 (EventKind.to_u8 k) (wrap 32 in_fd)
                         (wrap 32 out_fd) size s) ->
  reports key (entry_result enter) (exit_result h2 (try_exit_sendfile_splice h2))
    (event k name (obj [("in_fd", num (wrap 32 in_fd)); ("out_fd", num (wrap 32 out_fd));
                        ("in_fd_type", JStr "other"); ("out_fd_type", JStr "other");
                        ("size", num size)]) ret).
Proof.
  intros Hk Hs Hen.
  destruct Hk as [[= -> ->]|[= -> ->]];
    [set (k := EventKind.Sendfile)|set (k := EventKind.Splice)];
    (refine (rich_reports g h1 h2 Hok1 He1 He2 Hkey k
      (SendfileSpliceEntryData.mk (wrap 32 in_fd) (wrap 32 out_fd) FD_TYPE_OTHER FD_TYPE_OTHER
         (replicate 2 NUL) size)
      (fun ed ret => SendfileSplicePayload.mk (SendfileSpliceEntryData.in_fd ed)
         (SendfileSpliceEntryData.out_fd ed) (SendfileSpliceEntryData.in_fd_type ed)
         (SendfileSpliceEntryData.out_fd_type ed) (replicate 6 NUL)
         (SendfileSpliceEntryData.size ed) ret) _ _ _ _ _ _ _ _ _ _ _ _);
     [done|done|apply Hen|solve_ranges|vm_compute; lia|parse_own parse_sendfile_splice]).
Qed.

(** A handler that reads its first argument word and stashes. *)
Ltac read_first handler :=
  let s := fresh "s" in
  intros s; unfold handler; rewrite Ht; cbn [negb]; unfold mbind at 1, M_bind at 1;
  rewrite (read_u64_healthy _ He1).

Lemma dup3_enter s :
  try_enter_dup3 g h1 s =
  stash_dup_entry g h1 (EventKind.to_u8 EventKind.Dup3) (wrap 32 (a 0))
    (if has (wrap 32 (a 2)) O_CLOEXEC then 1 else 0) s.
Proof. revert s. read_first try_enter_dup3. reflexivity. Qed.

Lemma fcntl_enter cloexec s :
  wrap 32 (a 1) = (if cloexec : bool then F_DUPFD_CLOEXEC else F_DUPFD) ->
  try_enter_fcntl g h1 s =
  stash_dup_entry g h1 (EventKind.to_u8 EventKind.Fcntl) (wrap 32 (a 0))
    (if cloexec then 1 else 0) s.
Proof.
  intros Hc. revert s. read_first try_enter_fcntl.
  change (read_at_u64_or h1 24 0) with (a 1). rewrite Hc. by destruct cloexec.
Qed.
End Families.

(** ** The refinement *)

(** Every rich syscall with a fixed-size record reports what its contract
    [rich_spec] says: the event name, the arguments read at entry, the return
    code read at exit and the header of the entering task. *)
Lemma rich_reports_spec `{Base64} g h1 h2 k name args rc :
  HookOk h1 -> HookOk h2 -> Healthy h1 -> Healthy h2 ->
  hk_pid_tgid h2 = hk_pid_tgid h1 -> should_trace g h1 = true ->
  rich_spec g h1 h2 k = Some (name, args, rc) ->
  exists enter exit, sys_enter g h1 k = Some enter /\ sys_exit g h2 k = Some exit /\
    reports (hk_pid_tgid h1) enter exit
      (mkEvent (header_json (get_task_info g h1 (EventKind.to_u8 k)))
         (mkEventType "TRACEPOINT" name "behavior") None (Some args) (Some rc)).
Proof.
  intros Hok1 Hok2 He1 He2 Hkey Ht Hs.
  destruct k; cbn [rich_spec] in Hs; try discriminate Hs;
    try (destruct (read_sockaddr h1 _ _) as [[[family port] v4] v6] eqn:Ea);
    repeat match type of Hs with
    | (if ?b then _ else _) = _ => destruct b eqn:?; try discriminate Hs
    end;
    injection Hs as <- <- <-;
    do 2 eexists; (split; [reflexivity|]); (split; [reflexivity|]).
  all: lazymatch goal with
    | |- reports _ (entry_result (try_sys_enter_rw _ _ _)) _ _ => apply rw_reports; auto
    | |- reports _ (entry_result (try_sys_enter_sockaddr _ _ _)) _ _ =>
        apply sockaddr_reports; auto
    | |- reports _ (entry_result (try_enter_listen _ _)) _ _ => apply listen_reports; auto
    | |- reports _ (entry_result (try_enter_socket _ _)) _ _ => apply socket_reports; auto
    | |- reports _ (entry_result (try_enter_clone _ _ (EventKind.to_u8 ?k))) _ _ =>
        refine (clone_reports g h1 h2 Hok1 He1 He2 Hkey Ht k _ _); auto
    | |- reports _ (entry_result (try_enter_fd _ _ (EventKind.to_u8 ?k))) _ _ =>
        refine (fd_reports g h1 h2 Hok1 He1 He2 Hkey Ht k _ _); set_solver
    | |- reports _ (entry_result (try_enter_sendto_recvfrom _ _ _)) _ _ =>
        apply sendrecv_reports; auto
    | |- reports _ (entry_result (try_enter_dup_family _ _ (EventKind.to_u8 ?k) _)) _ _ =>
        refine (dup_reports g h1 h2 Hok1 He1 He2 Hkey k _ _ false _ _);
          [set_solver|open_enter Ht He1 try_enter_dup_family]
    | |- reports _ (entry_result (try_enter_dup3 _ _)) _ _ =>
        apply dup_reports; [assumption..|set_solver|intros; by apply dup3_enter]
    | |- reports _ (entry_result (try_enter_prw _ _ _)) _ _ => apply prw_reports; auto
    | |- reports _ (entry_result (try_enter_rwv _ _ (EventKind.to_u8 ?k))) _ _ =>
        refine (rwv_reports g h1 h2 Hok1 He1 He2 Hkey Ht k _ _); auto
    | |- reports _ (entry_result (try_enter_mmap _ _)) _ _ =>
        match goal with Hb : _ || _ = false |- _ => apply orb_false_iff in Hb as [? ?] end;
          apply mmap_reports; auto
    | |- reports _ (entry_result (try_enter_sendfile _ _)) _ _ =>
        apply move_reports; [assumption..|auto|by apply sysarg_range|open_enter Ht He1 try_enter_sendfile]
    | |- reports _ (entry_result (try_enter_splice _ _)) _ _ =>
        apply move_reports; [assumption..|auto|by apply sysarg_range|open_enter Ht He1 try_enter_splice]
    | |- _ => idtac
    end.
  all: bool_inv.
  - refine (dup_reports g h1 h2 Hok1 He1 He2 Hkey EventKind.Fcntl _ _ false _ _); [set_solver|].
    intros s. by apply (fcntl_enter g h1 He1 Ht false).
  - refine (dup_reports g h1 h2 Hok1 He1 He2 Hkey EventKind.Fcntl _ _ true _ _); [set_solver|].
    intros s. by apply (fcntl_enter g h1 He1 Ht true).
Qed.
