(* ===== verification/PathFacts.v ===== *)
(** * Path syscalls end to end

    The syscalls whose record carries pathnames: one path, two paths, openat.
    The bytes come from user memory through per-CPU scratch; what the daemon
    reports is exactly what was read, with a status that says whether that is
    the whole name. *)

From S2P Require Import Prelude Layout Records Common Json Utf8 Event Usdt Deserializer Wire Bpf.
From S2P Require Import Task HookFacts Entries Rich RichFacts.

Local Open Scope string_scope.
Local Open Scope Z_scope.
Local Open Scope list_scope.

(** ** Specification *)

(** What reading a user string of a path argument gives: its bytes, or nothing. *)
Definition user_path (h : Hook) (ptr : Z) : option (list byte) :=
  hk_ustr h ptr (Z.to_nat MAX_PATH_SIZE).

Definition path_bytes (o : option (list byte)) : list byte := default [] o.

(** The status the daemon must report: a name that fills the buffer cannot be
    called complete, and neither can one that is not valid UTF-8. *)
Definition path_status (o : option (list byte)) : string :=
  match o with
  | None => "read_error"
  | Some p => if len p <? MAX_PATH_SIZE - 1
              then (if utf8_valid p then "complete" else "invalid_encoding")
              else "truncated"
  end.

(** The capture status the kernel side records. *)
Definition user_status (o : option (list byte)) : CaptureStatus.t :=
  match o with
  | None => CaptureStatus.ReadError
  | Some p => if len p <? MAX_PATH_SIZE - 1 then CaptureStatus.Complete else CaptureStatus.Truncated
  end.

(** The capture status says what the daemon will report. *)
Lemma user_status_reported o :
  path_capture_status 1 (CaptureStatus.as_u8 (user_status o)) (default [] o) = Ok (path_status o).
Proof.
  destruct o as [p|]; [|done]. cbn. unfold path_capture_status.
  destruct (len p <? MAX_PATH_SIZE - 1); cbn; [by destruct (utf8_valid p)|done].
Qed.

Lemma user_status_range o : in_u 8 (CaptureStatus.as_u8 (user_status o)).
Proof. destruct o as [p|]; cbn; [destruct (_ <? _)|]; unfold in_u; cbn; lia. Qed.

Definition path_text (o : option (list byte)) : json := JStr (lossy_string (path_bytes o)).

(** ** Buffers *)

Lemma memcpy_healthy h n off src dst :
  Healthy h -> bpf_memcpy h n off src dst = Some (overwrite off src dst).
Proof.
  intros He. unfold bpf_memcpy. rewrite (he_memcpy h He).
  destruct src; [by rewrite overwrite_nil|done].
Qed.

Lemma prefix_app (x y : list byte) : prefix (len x) (x ++ y) = x.
Proof. unfold prefix, len. by rewrite Nat2Z.id, take_app_length. Qed.

Lemma slice_app (x y z : list byte) : slice (len x) (len y) (x ++ y ++ z) = y.
Proof. unfold slice, len. by rewrite !Nat2Z.id, drop_app_length, take_app_length. Qed.

Lemma slice_app_end (x y : list byte) : slice (len x) (len y) (x ++ y) = y.
Proof. rewrite <- (app_nil_r y) at 2. apply slice_app. Qed.

(** What [emit_varlen] adds to the ring: header, payload, data; nothing stale. *)
Lemma emit_varlen_healthy {T} `{ReprC T} h (header : EventHeader.t) (payload : T) var s :
  Healthy h ->
  Z.of_nat (size_of EventHeader.t + size_of T + length var) <= ASSEMBLY_BUF_SIZE ->
  exists s', emit_varlen h header payload var s = (Some true, s') /\
    EVENTS s' = EVENTS s ++ [as_bytes (hk_pad h) header ++ as_bytes (hk_pad h) payload ++ var] /\
    rich_map s' = rich_map s /\ path_map s' = path_map s /\ openat_map s' = openat_map s /\
    failures s' = failures s /\ DROP_COUNT s' = DROP_COUNT s.
Proof.
  intros He Hsize. unfold emit_varlen. rewrite (he_scratch h He). cbn [negb].
  rewrite (proj2 (Z.ltb_ge _ _)) by exact Hsize.
  unfold mbind, M_bind, get_state. rewrite memcpy_healthy by done.
  unfold set_assembly, modify. cbn [scratch set_scratch].
  set (buf := overwrite _ var _).
  replace (take _ buf) with (as_bytes (hk_pad h) header ++ as_bytes (hk_pad h) payload ++ var).
  - rewrite emit_event_spec by apply as_bytes_not_nil. rewrite (he_room h He).
    eexists. split; [reflexivity|]. cbn. done.
  - unfold buf. rewrite <- (length_as_bytes (hk_pad h) header), <- (length_as_bytes (hk_pad h) payload).
    symmetry. apply take_overwrite3.
Qed.

(** ** Reading the path *)

Lemma mask_len n : 0 <= n <= MAX_PATH_SIZE - 1 -> Z.land n (MAX_PATH_SIZE - 1) = n.
Proof.
  intros Hn. change (MAX_PATH_SIZE - 1) with (Z.ones 12). rewrite Z.land_ones by lia.
  apply Z.mod_small. unfold MAX_PATH_SIZE in Hn. lia.
Qed.

Section Path.
Context `{Base64} (g : Globals) (h1 h2 : Hook).
Context (Hok1 : HookOk h1) (Hok2 : HookOk h2) (He1 : Healthy h1) (He2 : Healthy h2).
Context (Hkey : hk_pid_tgid h2 = hk_pid_tgid h1) (Ht : should_trace g h1 = true).
Local Abbreviation a := (sysarg h1).
Local Abbreviation ret := (sysret h2).
Let key : Z := hk_pid_tgid h1.

Lemma user_path_len ptr : len (path_bytes (user_path h1 ptr)) <= MAX_PATH_SIZE - 1.
Proof.
  unfold path_bytes, user_path. destruct (hk_ustr h1 ptr _) as [p|] eqn:E; cbn [from_option id];
    [|by vm_compute].
  apply (ok_ustr h1 Hok1) in E as [Hl _]. unfold len, MAX_PATH_SIZE in *. lia.
Qed.

Lemma user_path_no_nul ptr : NUL ∉ path_bytes (user_path h1 ptr).
Proof.
  unfold path_bytes, user_path. destruct (hk_ustr h1 ptr _) as [p|] eqn:E; cbn.
  - by apply (ok_ustr h1 Hok1) in E as [_ ?].
  - apply not_elem_of_nil.
Qed.

(** [read_user_str] as a function of the user string: length, status and a
    buffer that starts with the bytes. *)
Lemma read_user_str_spec ptr buf :
  let o := user_path h1 ptr in
  exists buf', read_user_str h1 ptr buf = (len (path_bytes o), user_status o, buf') /\
    take (length (path_bytes o)) buf' = path_bytes o.
Proof.
  cbn zeta. pose proof (user_path_len ptr) as Hl.
  unfold read_user_str, user_path, path_bytes, user_status in *.
  destruct (hk_ustr h1 ptr _) as [p|]; cbn [from_option id] in *.
  - rewrite wrap_id by (unfold in_u, MAX_PATH_SIZE in *; pose proof (len_nonneg p); lia).
    eexists. split; [reflexivity|].
    unfold overwrite. rewrite take_0, app_nil_l, <- !app_assoc. apply take_app_length.
  - eexists. split; [reflexivity|done].
Qed.

Lemma with_capture_range kind v p q :
  in_u 8 kind -> in_u 8 v -> in_u 8 p -> in_u 8 q ->
  in_range (with_capture (get_task_info g h1 kind) (HeaderCapture.mk v p q)).
Proof.
  intros Hk Hv Hp Hq. pose proof (get_task_info_range g h1 Hok1 kind Hk) as Hr.
  unfold in_range in *. cbn in *. tauto.
Qed.

(** ** One path *)

Lemma enter_path_healthy kind i s :
  let o := user_path h1 (a i) in
  exists s' buf p2,
    enter_path_arg g h1 kind i s = (Some tt, s') /\ EVENTS s' = EVENTS s /\
    path_map s' = <[key := mkPathEntry
        (with_capture (get_task_info g h1 kind) (HeaderCapture.mk 1 (CaptureStatus.as_u8 (user_status o)) 0))
        (len (path_bytes o)) 0 buf p2]> (path_map s) /\
    rich_map s' = rich_map s /\ openat_map s' = openat_map s /\
    take (length (path_bytes o)) buf = path_bytes o.
Proof.
  cbn zeta. destruct (read_user_str_spec (a i) (tmp_path1 (scratch s)))
    as (buf & Er & Hbuf). cbn zeta in *.
  unfold enter_path_arg. rewrite Ht. cbn [negb]. unfold mbind, M_bind.
  rewrite (read_u64_healthy h1 He1), (he_scratch h1 He1). cbn [negb].
  change (read_at_u64_or h1 (16 + 8 * i) 0) with (a i).
  unfold get_state, set_tmp_paths, modify, path_insert, map_insert.
  rewrite Er, (he_insert h1 He1). cbn [scratch].
  do 3 eexists. split_and!; try reflexivity; assumption.
Qed.

Lemma path_payload_range n (r : Z) :
  0 <= n <= MAX_PATH_SIZE - 1 ->
  in_range (PathPayload.mk (wrap 16 n) (replicate 2 NUL) (swrap 32 r)).
Proof. intros _. solve_ranges. Qed.

Lemma exit_path_healthy entry o s :
  path_map s !! key = Some entry ->
  len (path_bytes o) <= MAX_PATH_SIZE - 1 ->
  pe_path1_len entry = len (path_bytes o) ->
  take (length (path_bytes o)) (pe_path1 entry) = path_bytes o ->
  exists s', try_exit_path h2 s = (Some tt, s') /\
    EVENTS s' = EVENTS s ++ [as_bytes (hk_pad h2) (pe_header entry) ++
      as_bytes (hk_pad h2) (PathPayload.mk (len (path_bytes o)) (replicate 2 NUL) (swrap 32 ret)) ++
      path_bytes o] /\
    path_map s' = delete key (path_map s) /\ rich_map s' = rich_map s /\
    openat_map s' = openat_map s /\ failures s' = failures s /\ DROP_COUNT s' = DROP_COUNT s.
Proof.
  intros Hm Hl Hlen Hbuf. pose proof (len_nonneg (path_bytes o)) as Hnn.
  unfold try_exit_path, with_path_entry, mbind, M_bind, get_state.
  rewrite Hkey. fold key. rewrite Hm, (read_i64_healthy h2 He2). fold ret.
  rewrite Hlen, mask_len by lia.
  rewrite (wrap_id 16) by (unfold in_u, MAX_PATH_SIZE in *; lia).
  replace (Z.to_nat (len (path_bytes o))) with (length (path_bytes o)) by (unfold len; lia).
  rewrite Hbuf.
  destruct (emit_varlen_healthy h2 (pe_header entry)
    (PathPayload.mk (len (path_bytes o)) (replicate 2 NUL) (swrap 32 ret)) (path_bytes o) s He2)
    as (s' & E & Hev & Hr & Hp & Ho & Hf & Hd).
  { rewrite !Nat2Z.inj_add. fold (len (path_bytes o)). unfold ASSEMBLY_BUF_SIZE, MAX_PATH_SIZE in *.
    change (Z.of_nat (size_of EventHeader.t)) with 96.
    change (Z.of_nat (size_of PathPayload.t)) with 8. lia. }
  rewrite E. cbn [negb]. unfold path_remove, map_remove.
  rewrite Hp, Hm, (he_remove h2 He2). cbn. eexists. split; [reflexivity|]. cbn. done.
Qed.

(** The path parser on the handler's record. *)
Lemma parse_path_own name c o (r : Z) :
  len (path_bytes o) <= MAX_PATH_SIZE - 1 -> NUL ∉ path_bytes o ->
  HeaderCapture.version c = 1 -> HeaderCapture.secondary c = 0 ->
  path_capture_status 1 (HeaderCapture.primary c) (path_bytes o) = Ok (path_status o) ->
  parse_path_event (as_bytes (hk_pad h2)
      (PathPayload.mk (len (path_bytes o)) (replicate 2 NUL) (swrap 32 r)) ++ path_bytes o) name c =
  Ok ("TRACEPOINT", name, "behavior",
      Some (obj [("filename", path_text o); ("path_capture_version", JNum 1);
                 ("path_status", JStr (path_status o))]), Some (swrap 32 r)).
Proof.
  intros Hl Hn Hv H2 Hst. pose proof (len_nonneg (path_bytes o)).
  assert (Hr : in_range (PathPayload.mk (len (path_bytes o)) (replicate 2 NUL) (swrap 32 r))).
  { assert (in_u 16 (len (path_bytes o))) by (unfold in_u, MAX_PATH_SIZE in *; lia).
    solve_ranges. }
  unfold parse_path_event. rewrite too_short_own, read_as_bytes by done.
  unfold after. rewrite drop_as_bytes. cbn [bail_if mbind result_bind PathPayload.path_len
    PathPayload.return_code]. rewrite Hv, H2, Z.eqb_refl. cbn [negb andb Z.eqb Pos.eqb bail_if].
  rewrite Z.min_id. unfold prefix, len at 1 2. rewrite Nat2Z.id, firstn_all, Hst.
  unfold extract_string. by rewrite until_nul_no_nul, Z.eqb_refl by done.
Qed.

(** The one-path syscalls: event name and which argument is the path. *)
Definition path_syscall (k : EventKind.t) : option (string * Z) :=
  match k with
  | EventKind.Chdir => Some ("chdir", 0)
  | EventKind.Unlink => Some ("unlink", 0)
  | EventKind.Unlinkat => Some ("unlinkat", 1)
  | EventKind.Mkdir => Some ("mkdir", 0)
  | EventKind.Mkdirat => Some ("mkdirat", 1)
  | EventKind.Rmdir => Some ("rmdir", 0)
  | EventKind.Chmod => Some ("chmod", 0)
  | EventKind.Fchmodat => Some ("fchmodat", 1)
  | EventKind.Chown => Some ("chown", 0)
  | EventKind.Fchownat => Some ("fchownat", 1)
  | EventKind.Truncate => Some ("truncate", 0)
  | EventKind.Umount2 => Some ("umount2", 0)
  | _ => None
  end.

Lemma path_syscall_programs k name i :
  path_syscall k = Some (name, i) ->
  sys_enter g h1 k = Some (entry_result (enter_path_arg g h1 (EventKind.to_u8 k) i)) /\
  sys_exit g h2 k = Some (exit_result h2 (try_exit_path h2)) /\
  (forall payload c, parse_kind k payload c = parse_path_event payload name c) /\
  is_packet k = false /\ k <> EventKind.ProcessStart.
Proof. destruct k; cbn; intros Hk; try discriminate Hk; injection Hk as <- <-; done. Qed.

Lemma path_reports k name i :
  path_syscall k = Some (name, i) ->
  let o := user_path h1 (a i) in
  reports key (entry_result (enter_path_arg g h1 (EventKind.to_u8 k) i))
    (exit_result h2 (try_exit_path h2))
    (mkEvent (header_json (get_task_info g h1 (EventKind.to_u8 k)))
       (mkEventType "TRACEPOINT" name "behavior") None
       (Some (obj [("filename", path_text o); ("path_capture_version", JNum 1);
                   ("path_status", JStr (path_status o))])) (Some (swrap 32 ret))).
Proof.
  intros Hk o s1 (Hn1 & Hn2 & Hn3).
  destruct (path_syscall_programs k name i Hk) as (_ & _ & Hparse & Hpk & Hps).
  destruct (enter_path_healthy (EventKind.to_u8 k) i s1)
    as (s1' & buf & p2 & E1 & Hev & Hm & Hr & Ho & Hbuf). fold o in Hm, Hbuf.
  exists s1'. split; [by apply or_else_ok|]. split; [done|]. intros s2 (Hs & Hs' & Hs'').
  rewrite Hm, lookup_insert_eq in Hs'.
  destruct (exit_path_healthy _ o s2 Hs' (user_path_len (a i)) eq_refl Hbuf)
    as (s3 & E3 & Hev3 & Hm3 & Hr3 & Ho3 & Hf3 & Hd3). cbn [pe_header] in Hev3.
  exists s3. eexists. split; [by apply or_else_ok|]. split; [exact Hev3|].
  split; [|unfold none_pending; rewrite Hm3, Hr3, Ho3, lookup_delete_eq, Hs, Hs'', Hr, Ho; done].
  assert (Hz : in_u 8 0) by (unfold in_u; lia). assert (H1' : in_u 8 1) by (unfold in_u; lia).
  rewrite (deserialize_record (hk_pad h2) _ k); [|apply with_capture_range;
    auto using EventKind.to_u8_range, user_status_range|done|done].
  rewrite Hparse. cbn [EventHeader.capture with_capture].
  rewrite parse_path_own;
    [|apply user_path_len|apply user_path_no_nul|done|done|apply user_status_reported].
  cbn [fmap result_fmap event_of]. unfold final_args. by destruct k.
Qed.
End Path.

(** C33: a traced one-path syscall reports the bytes of its path argument
    (lossily decoded), its return code and a status that is "complete" only if
    the whole name was read and is valid UTF-8. *)
Theorem path_syscalls_report `{Base64} g h1 h2 k name i :
  HookOk h1 -> Healthy h1 -> Healthy h2 ->
  hk_pid_tgid h2 = hk_pid_tgid h1 -> should_trace g h1 = true ->
  path_syscall k = Some (name, i) ->
  let o := user_path h1 (sysarg h1 i) in
  exists enter exit, sys_enter g h1 k = Some enter /\ sys_exit g h2 k = Some exit /\
    reports (hk_pid_tgid h1) enter exit
      (mkEvent (header_json (get_task_info g h1 (EventKind.to_u8 k)))
         (mkEventType "TRACEPOINT" name "behavior") None
         (Some (obj [("filename", path_text o); ("path_capture_version", JNum 1);
                     ("path_status", JStr (path_status o))])) (Some (swrap 32 (sysret h2)))).
Proof.
  intros Hok1 He1 He2 Hkey Ht Hk.
  destruct (path_syscall_programs g h1 h2 k name i Hk) as (Hen & Hex & _).
  do 2 eexists. split; [exact Hen|]. split; [exact Hex|]. by apply path_reports.
Qed.

(** ** Two paths *)

Section TwoPath.
Context `{Base64} (g : Globals) (h1 h2 : Hook).
Context (Hok1 : HookOk h1) (He1 : Healthy h1) (He2 : Healthy h2).
Context (Hkey : hk_pid_tgid h2 = hk_pid_tgid h1) (Ht : should_trace g h1 = true).
Local Abbreviation a := (sysarg h1).
Local Abbreviation ret := (sysret h2).
Let key : Z := hk_pid_tgid h1.

Definition two_path_payload (o1 o2 : option (list byte)) (r : Z) : TwoPathPayload.t :=
  TwoPathPayload.mk (len (path_bytes o1)) (len (path_bytes o2)) (swrap 32 r).

(** The record of a two-path call. *)
Definition two_path_record (header : EventHeader.t) (o1 o2 : option (list byte)) : list byte :=
  as_bytes (hk_pad h2) header ++ as_bytes (hk_pad h2) (two_path_payload o1 o2 ret) ++
  path_bytes o1 ++ path_bytes o2.

Lemma enter_two_path_healthy k s :
  let '(i, j) := two_path_args k in
  let o1 := user_path h1 (a i) in
  let o2 := user_path h1 (a j) in
  exists s' buf1 buf2,
    try_enter_two_path g h1 k s = (Some tt, s') /\ EVENTS s' = EVENTS s /\
    path_map s' = <[key := mkPathEntry
        (with_capture (get_task_info g h1 (EventKind.to_u8 (two_path_kind k)))
           (HeaderCapture.mk 1 (CaptureStatus.as_u8 (user_status o1)) (CaptureStatus.as_u8 (user_status o2))))
        (len (path_bytes o1)) (len (path_bytes o2)) buf1 buf2]> (path_map s) /\
    rich_map s' = rich_map s /\ openat_map s' = openat_map s /\
    (take (length (path_bytes o1)) buf1 = path_bytes o1 /\
     take (length (path_bytes o2)) buf2 = path_bytes o2).
Proof.
  unfold try_enter_two_path. destruct (two_path_args k) as [i j]. cbn zeta.
  destruct (read_user_str_spec h1 Hok1 (a i) (tmp_path1 (scratch s)))
    as (buf1 & Er1 & Hb1).
  destruct (read_user_str_spec h1 Hok1 (a j) (tmp_path2 (scratch s)))
    as (buf2 & Er2 & Hb2).
  rewrite Ht. cbn [negb]. unfold mbind, M_bind. rewrite !(read_u64_healthy h1 He1).
  rewrite (he_scratch h1 He1). cbn [negb].
  change (read_at_u64_or h1 (16 + 8 * i) 0) with (a i).
  change (read_at_u64_or h1 (16 + 8 * j) 0) with (a j).
  unfold get_state, set_tmp_paths, modify, path_insert, map_insert.
  rewrite Er1, Er2, (he_insert h1 He1). cbn [scratch].
  do 3 eexists. split_and!; try reflexivity; assumption.
Qed.

Lemma exit_two_path_healthy entry o1 o2 s :
  path_map s !! key = Some entry ->
  len (path_bytes o1) <= MAX_PATH_SIZE - 1 -> len (path_bytes o2) <= MAX_PATH_SIZE - 1 ->
  pe_path1_len entry = len (path_bytes o1) -> pe_path2_len entry = len (path_bytes o2) ->
  take (length (path_bytes o1)) (pe_path1 entry) = path_bytes o1 /\
  take (length (path_bytes o2)) (pe_path2 entry) = path_bytes o2 ->
  exists s', try_exit_two_path h2 s = (Some tt, s') /\
    EVENTS s' = EVENTS s ++ [two_path_record (pe_header entry) o1 o2] /\
    path_map s' = delete key (path_map s) /\ rich_map s' = rich_map s /\
    openat_map s' = openat_map s /\ failures s' = failures s /\ DROP_COUNT s' = DROP_COUNT s.
Proof.
  intros Hm Hl1 Hl2 El1 El2 [Hb1 Hb2].
  pose proof (len_nonneg (path_bytes o1)). pose proof (len_nonneg (path_bytes o2)).
  unfold try_exit_two_path, with_path_entry, mbind, M_bind, get_state.
  rewrite Hkey. fold key. rewrite Hm, (read_i64_healthy h2 He2). fold ret.
  rewrite El1, El2, (he_scratch h2 He2), (mask_len (len (path_bytes o1))),
    (mask_len (len (path_bytes o2))) by lia. cbn [negb].
  rewrite (wrap_id 16 (len (path_bytes o1))), (wrap_id 16 (len (path_bytes o2)))
    by (unfold in_u, MAX_PATH_SIZE in *; lia).
  replace (Z.to_nat (len (path_bytes o1))) with (length (path_bytes o1)) by (unfold len; lia).
  replace (Z.to_nat (len (path_bytes o2))) with (length (path_bytes o2)) by (unfold len; lia).
  rewrite (proj2 (Z.ltb_ge _ _)).
  2: { rewrite !Nat2Z.inj_add. change (Z.of_nat (size_of EventHeader.t)) with 96.
       change (Z.of_nat (size_of TwoPathPayload.t)) with 8.
       unfold len, ASSEMBLY_BUF_SIZE, MAX_PATH_SIZE in *. lia. }
  unfold lift. rewrite !memcpy_healthy, Hb1, Hb2 by done. fold (two_path_payload o1 o2 ret).
  unfold set_assembly, modify. cbn [scratch set_scratch].
  rewrite <- (length_as_bytes (hk_pad h2) (pe_header entry)),
    <- (length_as_bytes (hk_pad h2) (two_path_payload o1 o2 ret)), take_overwrite4.
  rewrite emit_event_spec by apply as_bytes_not_nil. rewrite (he_room h2 He2).
  unfold path_remove, map_remove. cbn. rewrite Hm, (he_remove h2 He2). cbn.
  eexists. split; [reflexivity|]. cbn. done.
Qed.

Lemma parse_two_path_own name c o1 o2 (r : Z) :
  len (path_bytes o1) <= MAX_PATH_SIZE - 1 -> len (path_bytes o2) <= MAX_PATH_SIZE - 1 ->
  NUL ∉ path_bytes o1 -> NUL ∉ path_bytes o2 -> HeaderCapture.version c = 1 ->
  path_capture_status 1 (HeaderCapture.primary c) (path_bytes o1) = Ok (path_status o1) ->
  path_capture_status 1 (HeaderCapture.secondary c) (path_bytes o2) = Ok (path_status o2) ->
  parse_two_path_event (as_bytes (hk_pad h2) (two_path_payload o1 o2 r) ++
      path_bytes o1 ++ path_bytes o2) name c =
  Ok ("TRACEPOINT", name, "behavior",
      Some (obj [("oldpath", path_text o1); ("newpath", path_text o2);
                 ("path_capture_version", JNum 1); ("path1_status", JStr (path_status o1));
                 ("path2_status", JStr (path_status o2))]), Some (swrap 32 r)).
Proof.
  intros Hl1 Hl2 Hn1 Hn2 Hv Hst1 Hst2.
  pose proof (len_nonneg (path_bytes o1)). pose proof (len_nonneg (path_bytes o2)).
  assert (Hr : in_range (two_path_payload o1 o2 r)).
  { assert (in_u 16 (len (path_bytes o1)) /\ in_u 16 (len (path_bytes o2))) as [? ?]
      by (unfold in_u, MAX_PATH_SIZE in *; lia).
    unfold two_path_payload. solve_ranges. }
  unfold parse_two_path_event. rewrite too_short_own, read_as_bytes by done.
  unfold after. rewrite drop_as_bytes. rewrite Hv, len_app.
  unfold two_path_payload. cbn [TwoPathPayload.path1_len TwoPathPayload.path2_len
    TwoPathPayload.return_code]. rewrite !Z.eqb_refl. cbn [negb andb bail_if mbind result_bind].
  rewrite Z.min_l by lia. unfold saturating_sub.
  replace (Z.min (len (path_bytes o2)) _) with (len (path_bytes o2)) by lia.
  rewrite prefix_app, slice_app_end, Hst1, Hst2. unfold extract_string. by rewrite !until_nul_no_nul by done.
Qed.

Definition two_path_name (k : TwoPathKind) : string :=
  match k with
  | TP_Rename => "rename" | TP_Renameat2 => "renameat2" | TP_Link => "link"
  | TP_Linkat => "linkat" | TP_Symlink => "symlink" | TP_Symlinkat => "symlinkat"
  | TP_Mount => "mount"
  end.

Lemma two_path_programs k :
  sys_enter g h1 (two_path_kind k) = Some (entry_result (try_enter_two_path g h1 k)) /\
  sys_exit g h2 (two_path_kind k) = Some (exit_result h2 (try_exit_two_path h2)) /\
  (forall payload c, parse_kind (two_path_kind k) payload c =
                     parse_two_path_event payload (two_path_name k) c) /\
  is_packet (two_path_kind k) = false.
Proof. by destruct k. Qed.

Lemma two_path_reports k i j :
  two_path_args k = (i, j) ->
  let o1 := user_path h1 (a i) in
  let o2 := user_path h1 (a j) in
  reports key (entry_result (try_enter_two_path g h1 k)) (exit_result h2 (try_exit_two_path h2))
    (mkEvent (header_json (get_task_info g h1 (EventKind.to_u8 (two_path_kind k))))
       (mkEventType "TRACEPOINT" (two_path_name k) "behavior") None
       (Some (obj [("oldpath", path_text o1); ("newpath", path_text o2);
                   ("path_capture_version", JNum 1); ("path1_status", JStr (path_status o1));
                   ("path2_status", JStr (path_status o2))])) (Some (swrap 32 ret))).
Proof.
  intros Hargs o1 o2 s1 (Hn1 & Hn2 & Hn3).
  destruct (two_path_programs k) as (_ & _ & Hparse & Hpk).
  pose proof (enter_two_path_healthy k s1) as Hen. rewrite Hargs in Hen. cbn zeta in Hen.
  destruct Hen as (s1' & b1 & b2 & E1 & Hev & Hm & Hr & Ho & Hb). fold o1 o2 in Hm, Hb.
  exists s1'. split; [by apply or_else_ok|]. split; [done|]. intros s2 (Hs & Hs' & Hs'').
  rewrite Hm, lookup_insert_eq in Hs'.
  destruct (exit_two_path_healthy _ o1 o2 s2 Hs' (user_path_len h1 Hok1 (a i))
    (user_path_len h1 Hok1 (a j)) eq_refl eq_refl Hb)
    as (s3 & E3 & Hev3 & Hm3 & Hr3 & Ho3 & Hf3 & Hd3). cbn [pe_header] in Hev3.
  exists s3. eexists. split; [by apply or_else_ok|]. split; [exact Hev3|].
  split; [|unfold none_pending; rewrite Hm3, Hr3, Ho3, lookup_delete_eq, Hs, Hs'', Hr, Ho; done].
  assert (in_u 8 1) by (unfold in_u; lia). unfold two_path_record.
  rewrite (deserialize_record (hk_pad h2) _ (two_path_kind k));
    [|apply with_capture_range; auto using EventKind.to_u8_range, user_status_range|done|done].
  rewrite Hparse. cbn [EventHeader.capture with_capture].
  rewrite parse_two_path_own;
    [|by apply user_path_len|by apply user_path_len|by apply user_path_no_nul
     |by apply user_path_no_nul|done|apply user_status_reported..].
  cbn [fmap result_fmap event_of]. unfold final_args. by destruct k.
Qed.
End TwoPath.

(** The arguments of these syscalls as the kernel declares them, and the two
    that are names. *)
Definition declared_arguments (k : TwoPathKind) : list string :=
  match k with
  | TP_Rename | TP_Link | TP_Symlink => ["oldname"; "newname"]
  | TP_Renameat2 | TP_Linkat => ["olddfd"; "oldname"; "newdfd"; "newname"; "flags"]
  | TP_Symlinkat => ["oldname"; "newdfd"; "newname"]
  | TP_Mount => ["dev_name"; "dir_name"; "type"; "flags"; "data"]
  end.
Definition source_argument (k : TwoPathKind) : string :=
  match k with TP_Mount => "dev_name" | _ => "oldname" end.
Definition target_argument (k : TwoPathKind) : string :=
  match k with TP_Mount => "dir_name" | _ => "newname" end.

Lemma two_path_positions k i j :
  declared_arguments k !! i = Some (source_argument k) -> declared_arguments k !! j = Some (target_argument k) ->
  two_path_args k = (Z.of_nat i, Z.of_nat j).
Proof.
  destruct k, i as [|[|[|[|[|i]]]]]; try discriminate; destruct j as [|[|[|[|[|j]]]]];
    try discriminate; reflexivity.
Qed.

(** C40: a traced two-path syscall reports both names with the right roles: the
    argument the kernel declares as the source is the old path and the one it
    declares as the target the new path, each with its own status, under the
    name of the syscall and with its return code. *)
Theorem two_path_syscalls_report `{Base64} g h1 h2 k i j :
  HookOk h1 -> Healthy h1 -> Healthy h2 ->
  hk_pid_tgid h2 = hk_pid_tgid h1 -> should_trace g h1 = true ->
  declared_arguments k !! i = Some (source_argument k) -> declared_arguments k !! j = Some (target_argument k) ->
  let o1 := user_path h1 (sysarg h1 (Z.of_nat i)) in
  let o2 := user_path h1 (sysarg h1 (Z.of_nat j)) in
  exists enter exit,
    sys_enter g h1 (two_path_kind k) = Some enter /\ sys_exit g h2 (two_path_kind k) = Some exit /\
    reports (hk_pid_tgid h1) enter exit
      (mkEvent (header_json (get_task_info g h1 (EventKind.to_u8 (two_path_kind k))))
         (mkEventType "TRACEPOINT" (two_path_name k) "behavior") None
         (Some (obj [("oldpath", path_text o1); ("newpath", path_text o2);
                     ("path_capture_version", JNum 1); ("path1_status", JStr (path_status o1));
                     ("path2_status", JStr (path_status o2))])) (Some (swrap 32 (sysret h2)))).
Proof.
  intros Hok1 He1 He2 Hkey Ht Hi Hj. pose proof (two_path_positions k i j Hi Hj) as Hargs.
  destruct (two_path_programs g h1 h2 k) as (Hen & Hex & _).
  do 2 eexists. split; [exact Hen|]. split; [exact Hex|]. by apply two_path_reports.
Qed.

(** ** openat *)

Section Openat.
Context `{Base64} (g : Globals) (h1 h2 : Hook).
Context (Hok1 : HookOk h1) (Hok2 : HookOk h2) (He1 : Healthy h1) (He2 : Healthy h2).
Context (Hkey : hk_pid_tgid h2 = hk_pid_tgid h1) (Ht : should_trace g h1 = true).
Local Abbreviation a := (sysarg h1).
Local Abbreviation ret := (sysret h2).
Let key : Z := hk_pid_tgid h1.

(** 32-bit reads of an argument word *)
Definition sysarg_u32 (i : Z) : Z := default 0 (le_combine <$> hk_ctx h1 (16 + 8 * i) 4).
Definition sysarg_i32 (i : Z) : Z :=
  default 0 ((fun b => swrap 32 (le_combine b)) <$> hk_ctx h1 (16 + 8 * i) 4).

(** The file identity seen at exit. *)
Definition exit_identity : DevIno :=
  if 0 <=? ret then fd_to_dev_ino g h2 (swrap 32 ret) else DevIno_default.

Lemma sysarg_u32_range i : in_u 32 (sysarg_u32 i).
Proof.
  unfold sysarg_u32. destruct (hk_ctx h1 _ 4) as [b|] eqn:E; cbn; [|unfold in_u; lia].
  by apply (le_combine_range 4), (ok_ctx h1 Hok1 (16 + 8 * i) 4).
Qed.
Lemma sysarg_i32_range i : in_s 32 (sysarg_i32 i).
Proof.
  unfold sysarg_i32. destruct (hk_ctx h1 _ 4); cbn; [apply swrap_bounds; lia|unfold in_s; lia].
Qed.

Lemma exit_identity_range :
  in_u 64 (di_dev exit_identity) /\ in_u 64 (di_ino exit_identity) /\
  Z.land (di_valid exit_identity) 3 = di_valid exit_identity /\
  (swrap 32 ret < 0 -> di_valid exit_identity = 0).
Proof.
  unfold exit_identity. destruct (0 <=? ret).
  - destruct (fd_to_dev_ino_range g h2 Hok2 (swrap 32 ret)) as (? & ? & ?). split_and!; try done.
    intros Hneg. unfold fd_to_dev_ino. by rewrite (proj2 (Z.ltb_lt _ _) Hneg).
  - split_and!; try done; unfold in_u; cbn; lia.
Qed.

Definition openat_payload (o : option (list byte)) (flags : Z) : OpenatPayload.t :=
  OpenatPayload.mk (sysarg_u32 2) (wrap 32 (a 3)) (len (path_bytes o)) 1
    (Z.lor flags (di_valid exit_identity)) (swrap 32 ret) (sysarg_i32 0)
    (di_dev exit_identity) (di_ino exit_identity).

Lemma enter_openat_healthy s :
  let o := user_path h1 (a 1) in
  exists s' buf,
    try_sys_enter_openat g h1 s = (Some tt, s') /\ EVENTS s' = EVENTS s /\
    openat_map s' = <[key := mkOpenatEntry (get_task_info g h1 (EventKind.to_u8 EventKind.Openat))
        (sysarg_u32 2) (wrap 32 (a 3)) (len (path_bytes o)) (path_capture_flags (user_status o))
        (sysarg_i32 0) buf]> (openat_map s) /\
    rich_map s' = rich_map s /\ path_map s' = path_map s /\
    take (length (path_bytes o)) buf = path_bytes o.
Proof.
  cbn zeta. destruct (read_user_str_spec h1 Hok1 (a 1) (tmp_openat_filename (scratch s)))
    as (buf & Er & Hbuf). cbn zeta in *.
  assert (E32 : forall i s, read_at_u32 h1 (16 + 8 * i) s = (Some (sysarg_u32 i), s)).
  { intros i s0. unfold read_at_u32, sysarg_u32, lift. by destruct (he_ctx h1 He1 (16 + 8 * i) 4) as [b ->]. }
  assert (Ei32 : forall i s, read_at_i32 h1 (16 + 8 * i) s = (Some (sysarg_i32 i), s)).
  { intros i s0. unfold read_at_i32, sysarg_i32, lift. by destruct (he_ctx h1 He1 (16 + 8 * i) 4) as [b ->]. }
  unfold try_sys_enter_openat. rewrite Ht. cbn [negb]. unfold mbind, M_bind.
  rewrite (read_u64_healthy h1 He1), (E32 2), (read_u64_healthy h1 He1), (he_scratch h1 He1).
  cbn [negb]. rewrite (Ei32 0).
  change (read_at_u64_or h1 24 0) with (a 1). change (read_at_u64_or h1 40 0) with (a 3).
  unfold get_state, set_tmp_openat, modify, openat_insert, map_insert.
  rewrite Er, (he_insert h1 He1). cbn [scratch].
  do 2 eexists. split_and!; try reflexivity; assumption.
Qed.

Lemma exit_openat_healthy entry o s :
  openat_map s !! key = Some entry ->
  len (path_bytes o) <= MAX_PATH_SIZE - 1 ->
  oe_filename_len entry = len (path_bytes o) ->
  take (length (path_bytes o)) (oe_filename entry) = path_bytes o ->
  oe_flags entry = sysarg_u32 2 -> oe_mode entry = wrap 32 (a 3) ->
  oe_dirfd entry = sysarg_i32 0 ->
  exists s', try_sys_exit_openat g h2 s = (Some tt, s') /\
    EVENTS s' = EVENTS s ++ [as_bytes (hk_pad h2) (oe_header entry) ++
      as_bytes (hk_pad h2) (openat_payload o (oe_capture_flags entry)) ++ path_bytes o] /\
    openat_map s' = delete key (openat_map s) /\ rich_map s' = rich_map s /\
    path_map s' = path_map s /\ failures s' = failures s /\ DROP_COUNT s' = DROP_COUNT s.
Proof.
  intros Hm Hl Hlen Hbuf Hfl Hmo Hdi. pose proof (len_nonneg (path_bytes o)) as Hnn.
  unfold try_sys_exit_openat, mbind, M_bind, get_state.
  rewrite Hkey. fold key. rewrite Hm, (read_i64_healthy h2 He2). fold ret.
  rewrite Hlen, mask_len, Hfl, Hmo, Hdi by lia.
  rewrite (wrap_id 16 (len (path_bytes o))) by (unfold in_u, MAX_PATH_SIZE in *; lia).
  replace (Z.to_nat (len (path_bytes o))) with (length (path_bytes o)) by (unfold len; lia).
  rewrite Hbuf. fold exit_identity. fold (openat_payload o (oe_capture_flags entry)).
  destruct (emit_varlen_healthy h2 (oe_header entry) (openat_payload o (oe_capture_flags entry))
    (path_bytes o) s He2) as (s' & E & Hev & Hr & Hp & Ho & Hf & Hd).
  { rewrite !Nat2Z.inj_add. fold (len (path_bytes o)). unfold ASSEMBLY_BUF_SIZE, MAX_PATH_SIZE in *.
    change (Z.of_nat (size_of EventHeader.t)) with 96.
    change (Z.of_nat (size_of OpenatPayload.t)) with 40. lia. }
  rewrite E. cbn [negb]. unfold openat_remove, map_remove.
  rewrite Ho, Hm, (he_remove h2 He2). cbn. eexists. split; [reflexivity|]. cbn. done.
Qed.

Lemma openat_payload_range o flags :
  len (path_bytes o) <= MAX_PATH_SIZE - 1 -> in_u 8 flags ->
  in_range (openat_payload o flags).
Proof.
  intros Hl Hf. pose proof (len_nonneg (path_bytes o)).
  destruct exit_identity_range as (Hd & Hi & Hv & _).
  assert (in_u 16 (len (path_bytes o))) by (unfold in_u, MAX_PATH_SIZE in *; lia).
  assert (in_u 8 (Z.lor flags (di_valid exit_identity))).
  { apply lor_range; [lia|done|]. destruct (land3_cases (di_valid exit_identity)) as [E|[E|[E|E]]];
      rewrite <- Hv, E; unfold in_u; lia. }
  pose proof (sysarg_u32_range 2). pose proof (sysarg_i32_range 0).
  unfold openat_payload. solve_ranges.
Qed.

(** The capture flags keep the path status and the validity bits apart. *)
Lemma capture_flags_parts st v :
  Z.land v 3 = v ->
  let fl := Z.lor (path_capture_flags st) v in
  Z.land fl (Z.lor DEV_VALID INO_VALID) = v /\
  Z.land fl (Z.lor PATH_COMPLETE PATH_READ_FAILED) = path_capture_flags st /\
  Z.land fl (wrap 8 (Z.lnot (Z.lor (Z.lor DEV_VALID INO_VALID)
    (Z.lor PATH_COMPLETE PATH_READ_FAILED)))) = 0 /\ in_u 8 (path_capture_flags st).
Proof.
  intros Hv. destruct (land3_cases v) as [E|[E|[E|E]]]; rewrite <- Hv, E; destruct st;
    vm_compute; split_and!; (reflexivity || discriminate).
Qed.

(** The arguments the daemon builds from the payload. *)
Definition openat_event_args (o : option (list byte)) (flags : Z) : json :=
  openat_v1_args (openat_payload o flags) (path_bytes o)
    (obj [("filename", path_text o);
          ("flags", strs (decode_open_flags (sysarg_u32 2))); ("mode", JNum (wrap 32 (a 3)));
          ("file_identity_status", JStr "unknown"); ("filename_status", JStr "unknown")]).

Lemma parse_openat_own o st :
  len (path_bytes o) <= MAX_PATH_SIZE - 1 -> NUL ∉ path_bytes o ->
  parse_openat (as_bytes (hk_pad h2) (openat_payload o (path_capture_flags st)) ++ path_bytes o) =
  Ok ("TRACEPOINT", "openat", "behavior",
      Some (openat_event_args o (path_capture_flags st)), Some (swrap 32 ret)).
Proof.
  intros Hl Hn. pose proof (len_nonneg (path_bytes o)).
  destruct exit_identity_range as (_ & _ & Hv & Hneg).
  destruct (capture_flags_parts st _ Hv) as (P1 & P2 & P3 & P4).
  unfold parse_openat. rewrite too_short_own, read_as_bytes by (by apply openat_payload_range).
  unfold after. rewrite drop_as_bytes. cbn [bail_if mbind result_bind].
  assert (Hmeta : openat_metadata_invalid (openat_payload o (path_capture_flags st))
                    (len (path_bytes o)) = false).
  { unfold openat_metadata_invalid, openat_payload.
    cbn [OpenatPayload.capture_flags OpenatPayload.return_code OpenatPayload.filename_len].
    rewrite P1, P2, P3. repeat (apply orb_false_iff; split).
    - done.
    - by destruct st.
    - destruct (Z.ltb_spec (swrap 32 ret) 0); [by rewrite (Hneg H1)|done].
    - apply Z.ltb_irrefl. }
  unfold openat_event_args. rewrite Hmeta. unfold openat_payload at 1 2 3 4 5.
  cbn [OpenatPayload.filename_len OpenatPayload.capture_version OpenatPayload.flags
       OpenatPayload.mode OpenatPayload.return_code Z.eqb Pos.eqb].
  rewrite Z.min_id. unfold prefix. replace (Z.to_nat (len (path_bytes o)))
    with (length (path_bytes o)) by (unfold len; lia).
  rewrite firstn_all. unfold extract_string. rewrite until_nul_no_nul by done. reflexivity.
Qed.

Lemma openat_reports :
  let o := user_path h1 (a 1) in
  reports key (sys_enter_openat g h1) (sys_exit_openat g h2)
    (mkEvent (header_json (get_task_info g h1 (EventKind.to_u8 EventKind.Openat)))
       (mkEventType "TRACEPOINT" "openat" "behavior") None
       (Some (openat_event_args o (path_capture_flags (user_status o)))) (Some (swrap 32 ret))).
Proof.
  intros o s1 (Hn1 & Hn2 & Hn3).
  destruct (enter_openat_healthy s1) as (s1' & buf & E1 & Hev & Hm & Hr & Hp & Hbuf).
  fold o in Hm, Hbuf.
  exists s1'. split; [by apply or_else_ok|]. split; [done|]. intros s2 (Hs & Hs' & Hs'').
  rewrite Hm, lookup_insert_eq in Hs''.
  destruct (exit_openat_healthy _ o s2 Hs'' (user_path_len h1 Hok1 (a 1)) eq_refl Hbuf eq_refl
    eq_refl eq_refl) as (s3 & E3 & Hev3 & Hm3 & Hr3 & Hp3 & Hf3 & Hd3).
  cbn [oe_header oe_capture_flags] in Hev3.
  exists s3. eexists. split; [by apply or_else_ok|]. split; [exact Hev3|].
  split; [|unfold none_pending; rewrite Hm3, Hr3, Hp3, lookup_delete_eq, Hs, Hs', Hr, Hp; done].
  rewrite (deserialize_record (hk_pad h2) _ EventKind.Openat);
    [|apply get_task_info_range; auto using EventKind.to_u8_range|done|done].
  cbn [parse_kind]. rewrite parse_openat_own;
    [|by apply user_path_len|by apply user_path_no_nul]. done.
Qed.
End Openat.

(** What an openat event says about the name and the file. *)
Definition openat_truthful (h1 h2 : Hook) (di : DevIno) (e : BehaviorEvent) : Prop :=
  let o := user_path h1 (sysarg h1 1) in
  let rc := swrap 32 (sysret h2) in
  be_return_code e = Some rc /\
  arg "filename" e = Some (path_text o) /\ arg "filename_status" e = Some (JStr (path_status o)) /\
  arg "dirfd" e = Some (JNum (sysarg_i32 h1 0)) /\
  arg "flags" e = Some (strs (decode_open_flags (sysarg_u32 h1 2))) /\
  arg "dev" e = (if has (di_valid di) DEV_VALID then Some (JNum (di_dev di)) else None) /\
  arg "ino" e = (if has (di_valid di) INO_VALID then Some (JNum (di_ino di)) else None) /\
  arg "file_identity_status" e = Some (JStr (identity_status_of rc (arg "dev" e) (arg "ino" e))).

Lemma openat_args_truthful g h1 h2 header :
  HookOk h2 ->
  let o := user_path h1 (sysarg h1 1) in
  openat_truthful h1 h2 (exit_identity g h2)
    (mkEvent header (mkEventType "TRACEPOINT" "openat" "behavior") None
       (Some (openat_event_args g h1 h2 o (path_capture_flags (user_status o))))
       (Some (swrap 32 (sysret h2)))).
Proof.
  intros Hok2 o. destruct (exit_identity_range g h2 Hok2) as (_ & _ & Hv & Hneg).
  destruct (capture_flags_parts (user_status o) _ Hv) as (P1 & P2 & _ & _).
  unfold openat_truthful. fold o. unfold arg. cbn [be_args be_return_code mbind option_bind].
  split; [done|]. unfold openat_event_args, openat_v1_args, openat_payload.
  cbn [OpenatPayload.capture_flags OpenatPayload.return_code OpenatPayload.dev OpenatPayload.ino
       OpenatPayload.dirfd].
  rewrite P1, P2. clear P1 P2. unfold identity_status_of.
  assert (Hfs : forall b, (if (path_capture_flags (user_status o) =? PATH_COMPLETE) && negb (utf8_valid (path_bytes o))
      then "invalid_encoding" else if path_capture_flags (user_status o) =? PATH_COMPLETE then "complete"
      else if path_capture_flags (user_status o) =? PATH_READ_FAILED then "read_error" else b) =
      match o with None => "read_error" | Some p => if len p <? MAX_PATH_SIZE - 1 then
        (if utf8_valid p then "complete" else "invalid_encoding") else b end).
  { intros b. unfold user_status, path_bytes. destruct o as [p|]; cbn; [|done].
    destruct (len p <? MAX_PATH_SIZE - 1); cbn; [by destruct (utf8_valid p)|done]. }
  rewrite Hfs. clear Hfs. fold (path_status o).
  destruct (land3_cases (di_valid (exit_identity g h2))) as [E|[E|[E|E]]]; rewrite Hv in E;
    rewrite E in *; clear E Hv;
    repeat match goal with |- context [has ?x ?y] =>
             let v := eval vm_compute in (has x y) in change (has x y) with v end;
    cbv iota; json_simpl;
    destruct (Z.ltb_spec (swrap 32 (sysret h2)) 0) as [Hlt|]; try (by discriminate (Hneg Hlt));
    split_and!; reflexivity.
Qed.

(** A traced openat reports the pathname it was given with a truthful
    status, the flags and descriptor arguments, the return code, and the device
    and inode only when the kernel structures yielded them for the descriptor
    it returned. *)
Theorem openat_reports_file `{Base64} g h1 h2 :
  HookOk h1 -> HookOk h2 -> Healthy h1 -> Healthy h2 ->
  hk_pid_tgid h2 = hk_pid_tgid h1 -> should_trace g h1 = true ->
  exists e, reports (hk_pid_tgid h1) (sys_enter_openat g h1) (sys_exit_openat g h2) e /\
    be_header e = header_json (get_task_info g h1 (EventKind.to_u8 EventKind.Openat)) /\
    openat_truthful h1 h2 (exit_identity g h2) e.
Proof.
  intros Hok1 Hok2 He1 He2 Hkey Ht. eexists.
  split; [by apply openat_reports|]. split; [done|]. by apply openat_args_truthful.
Qed.
