(* ===== verification/Loss.v ===== *)
(** * No silent loss in the rich handlers

    For arbitrary kernel behaviour (missing scratch, refused map operations,
    failed copies, a full ring): what an invocation of a Tier 2 handler leaves
    behind always accounts for the call. *)

From S2P Require Import Prelude Layout Records Common Bpf Task HookFacts Entries Rich.

Local Open Scope Z_scope.
Local Open Scope list_scope.

(** ** Counters *)

Lemma bump_eq i l c : l !! i = Some c -> bump i l !! i = Some (wrapping_add c 1).
Proof. intros E. unfold bump. by rewrite list_lookup_alter_eq, E. Qed.

Lemma bump_ne i j l : i <> j -> bump i l !! j = l !! j.
Proof. intros E. unfold bump. by apply list_lookup_alter_ne. Qed.

(** The failure counters of a kind's scope. *)
Definition scope (k : EventKind.t) (s : Bpf) : list Z :=
  match k with
  | EventKind.Openat => openat_failures (failures s)
  | _ => syscall_failures (failures s)
  end.

(** Counter [i] of the scope went up by one. *)
Definition counted_once (k : EventKind.t) (i : nat) (s s' : Bpf) : Prop :=
  exists c, scope k s !! i = Some c /\ scope k s' !! i = Some (wrapping_add c 1).

(** The counter arrays have a slot per reason. *)
Definition counters_ok (s : Bpf) : Prop :=
  length (openat_failures (failures s)) = length OPENAT_FAILURE_REASONS /\
  length (syscall_failures (failures s)) = length SYSCALL_FAILURE_REASONS.

Lemma counters_lookup k s i :
  counters_ok s -> (i < 4)%nat -> is_Some (scope k s !! i).
Proof.
  intros [H1 H2] Hi. apply lookup_lt_is_Some_2. destruct k; cbn; cbn in H1, H2; lia.
Qed.

(** ** What an exit may do *)

(** The record reached the ring, or its loss is a counted ring drop. *)
Definition emitted (s s' : Bpf) : Prop :=
  (exists rec, EVENTS s' = EVENTS s ++ [rec] /\ DROP_COUNT s' = DROP_COUNT s) \/
  (EVENTS s' = EVENTS s /\ DROP_COUNT s' = wrapping_add (DROP_COUNT s) 1).

(** Emitted, or a counted failure of the exit. *)
Definition accounted (k : EventKind.t) (s s' : Bpf) : Prop :=
  emitted s s' \/
  (EVENTS s' = EVENTS s /\ DROP_COUNT s' = DROP_COUNT s /\
     counted_once k SYSCALL_EXIT_CAPTURE_FAILED s s').

(** States that agree on the ring and the drop counter. *)
Definition same_ring (s s' : Bpf) : Prop :=
  EVENTS s' = EVENTS s /\ DROP_COUNT s' = DROP_COUNT s.

Lemma emit_emitted h d s : d <> [] -> emitted s (emit_event h d s).2.
Proof.
  intros Hd. rewrite emit_event_spec by done. unfold emitted.
  destruct (hk_room h (EVENTS s) d); cbn; [left; by exists d|by right].
Qed.

Lemma emitted_same_ring s s1 s2 : emitted s s1 -> same_ring s1 s2 -> emitted s s2.
Proof. intros He [E1 E2]. unfold emitted. by rewrite E1, E2. Qed.

Lemma same_ring_emitted s s1 s2 : same_ring s s1 -> emitted s1 s2 -> emitted s s2.
Proof. intros [E1 E2] He. unfold emitted in *. by rewrite E1, E2 in He. Qed.

Lemma report_syscall o s :
  exists s', report syscall_failure o s = (Some tt, s') /\ same_ring s s' /\
    rich_map s' = rich_map s /\ path_map s' = path_map s /\ openat_map s' = openat_map s /\
    openat_failures (failures s') = openat_failures (failures s) /\
    forall i, o <> Some i -> syscall_failures (failures s') !! i = syscall_failures (failures s) !! i.
Proof.
  destruct o as [r|]; cbn; eexists; (split; [reflexivity|]); cbn; split_and!; try done.
  intros i Hi. apply bump_ne. congruence.
Qed.

Lemma cleanup_reason r i : cleanup_outcome r = Some i -> i = SYSCALL_ENTRY_CLEANUP_FAILED.
Proof. destruct r as [e|]; cbn; [|done]. destruct (e =? ENOENT); congruence. Qed.

(** A cleanup never touches the exit-capture counter. *)
Lemma cleanup_keeps r s :
  exists s', syscall_cleanup r s = (Some tt, s') /\ same_ring s s' /\
    openat_failures (failures s') = openat_failures (failures s) /\
    syscall_failures (failures s') !! SYSCALL_EXIT_CAPTURE_FAILED =
      syscall_failures (failures s) !! SYSCALL_EXIT_CAPTURE_FAILED.
Proof.
  destruct (report_syscall (cleanup_outcome r) s) as (s' & E & Hr & _ & _ & _ & Ho & Hs).
  exists s'. split_and!; try done. apply Hs. intros Hc. by apply cleanup_reason in Hc.
Qed.

Lemma rich_remove_spec h k s :
  exists r m, rich_remove h k s = (Some r, set_rich_map m s).
Proof. unfold rich_remove. destruct (map_remove _ _ _) as [r m]. by exists r, m. Qed.
Lemma path_remove_spec h k s :
  exists r m, path_remove h k s = (Some r, set_path_map m s).
Proof. unfold path_remove. destruct (map_remove _ _ _) as [r m]. by exists r, m. Qed.
Lemma openat_remove_spec h k s :
  exists r m, openat_remove h k s = (Some r, set_openat_map m s).
Proof. unfold openat_remove. destruct (map_remove _ _ _) as [r m]. by exists r, m. Qed.

(** ** Exits *)

(** What the body of an exit handler leaves: a success emitted its record, a
    failure left ring and counters alone. *)
Definition exit_sound (m : M unit) (s : Bpf) : Prop :=
  match m s with
  | (Some _, s1) => emitted s s1
  | (None, s1) => same_ring s s1 /\ failures s1 = failures s
  end.

Section Exit.
Context (g : Globals) (h : Hook).

Lemma exit_result_accounts k m s :
  k <> EventKind.Openat -> counters_ok s -> exit_sound m s ->
  exists s', exit_result h m s = (Some tt, s') /\ accounted k s s'.
Proof.
  intros Hk Hc Hm. unfold exit_sound in Hm. unfold exit_result, or_else.
  destruct (m s) as [[u|] s1]; [exists s1; split; [done|by left]|].
  destruct Hm as [[Hev Hd] Hf].
  destruct (counters_lookup k s SYSCALL_EXIT_CAPTURE_FAILED Hc) as [c Ec];
    [unfold SYSCALL_EXIT_CAPTURE_FAILED; lia|].
  assert (Hs : forall t, scope k t = syscall_failures (failures t)) by (by destruct k).
  rewrite Hs in Ec.
  unfold mbind, M_bind, syscall_failure at 1, modify. cbv beta iota.
  set (s2 := set_failures _ s1).
  destruct (rich_remove_spec h (hk_pid_tgid h) s2) as (r1 & m1 & ->).
  destruct (cleanup_keeps r1 (set_rich_map m1 s2)) as (s3 & -> & [Hev3 Hd3] & _ & Hk3).
  destruct (path_remove_spec h (hk_pid_tgid h) s3) as (r2 & m2 & ->).
  destruct (cleanup_keeps r2 (set_path_map m2 s3)) as (s4 & -> & [Hev4 Hd4] & _ & Hk4).
  exists s4. split; [done|]. right.
  split; [by rewrite Hev4; cbn; rewrite Hev3; cbn; rewrite Hev|].
  split; [by rewrite Hd4; cbn; rewrite Hd3; cbn; rewrite Hd|].
  exists c. rewrite !Hs. split; [done|]. rewrite Hk4. cbn. rewrite Hk3. cbn.
  rewrite Hf. by apply bump_eq.
Qed.

Lemma emit_rich_emitted {P} `{ReprC P} entry (payload : P) s :
  (size_of EventHeader.t + size_of P <= 256)%nat ->
  exists s', emit_rich h entry payload s = (Some tt, s') /\ emitted s s'.
Proof.
  intros Hsize. unfold emit_rich, emit_fixed, mbind, M_bind.
  rewrite emit_stack_spec by (by rewrite length_as_bytes).
  pose proof (emit_emitted h _ s (as_bytes_not_nil (hk_pad h) (re_header entry)
    (as_bytes (hk_pad h) payload))) as He.
  destruct (rich_remove_spec h (hk_pid_tgid h) (emit_event h
    (as_bytes (hk_pad h) (re_header entry) ++ as_bytes (hk_pad h) payload) s).2) as (r & m & ->).
  destruct (cleanup_keeps r (set_rich_map m (emit_event h
    (as_bytes (hk_pad h) (re_header entry) ++ as_bytes (hk_pad h) payload) s).2))
    as (s' & -> & Hr & _).
  exists s'. split; [done|]. eapply emitted_same_ring; [exact He|]. exact Hr.
Qed.

Lemma rich_exit_sound {P} `{ReprC P} (payload : RichSyscallEntry -> Z -> P) s :
  (size_of EventHeader.t + size_of P <= 256)%nat -> is_Some (rich_map s !! hk_pid_tgid h) ->
  exit_sound (with_rich_entry h (fun entry ret => emit_rich h entry (payload entry ret))) s.
Proof.
  intros Hsize [entry He]. unfold exit_sound, with_rich_entry, mbind, M_bind, get_state.
  rewrite He. unfold read_at_i64, lift. destruct (_ <$> hk_ctx h 16 8) as [ret|]; [|done].
  by destruct (emit_rich_emitted entry (payload entry ret) s Hsize) as (s' & -> & ?).
Qed.

Lemma emit_varlen_sound {T} `{ReprC T} header (payload : T) var s :
  match emit_varlen h header payload var s with
  | (Some true, s') => emitted s s'
  | (Some false, s') => same_ring s s' /\ failures s' = failures s
  | (None, _) => False
  end.
Proof.
  unfold emit_varlen. destruct (hk_scratch h ASSEMBLY_BUF); cbn [negb]; [|done].
  destruct (_ <? _); [done|]. unfold mbind, M_bind, get_state.
  destruct (bpf_memcpy h 0 _ var _) as [buf|] eqn:Em; [|done].
  assert (Eb : buf = overwrite (size_of EventHeader.t + size_of T) var
    (overwrite (size_of EventHeader.t) (as_bytes (hk_pad h) payload)
       (overwrite 0 (as_bytes (hk_pad h) header) (assembly (scratch s))))).
  { unfold bpf_memcpy in Em. destruct var; [simplify_eq; by rewrite overwrite_nil|].
    destruct (hk_memcpy h 0); by simplify_eq. }
  unfold set_assembly, modify. cbn [scratch set_scratch].
  rewrite Eb, <- (length_as_bytes (hk_pad h) header), <- (length_as_bytes (hk_pad h) payload),
    take_overwrite3.
  set (s1 := set_scratch _ s).
  pose proof (emit_emitted h _ s1 (as_bytes_not_nil (hk_pad h) header
    (as_bytes (hk_pad h) payload ++ var))) as He.
  rewrite emit_event_spec in He |- * by apply as_bytes_not_nil.
  destruct (hk_room h _ _); cbn in *; exact He.
Qed.

Lemma path_exit_sound s :
  is_Some (path_map s !! hk_pid_tgid h) -> exit_sound (try_exit_path h) s.
Proof.
  intros [entry He]. unfold exit_sound, try_exit_path, with_path_entry, mbind, M_bind, get_state.
  rewrite He. unfold read_at_i64, lift. destruct (_ <$> hk_ctx h 16 8) as [ret|]; [|done].
  pose proof (emit_varlen_sound (pe_header entry)
    (PathPayload.mk (wrap 16 (Z.land (pe_path1_len entry) (MAX_PATH_SIZE - 1))) (replicate 2 NUL)
       (swrap 32 ret))
    (take (Z.to_nat (Z.land (pe_path1_len entry) (MAX_PATH_SIZE - 1))) (pe_path1 entry)) s) as Hv.
  destruct (emit_varlen h _ _ _ s) as [[[]|] s1]; cbn [negb]; [|done|done].
  destruct (path_remove_spec h (hk_pid_tgid h) s1) as (r & m & ->).
  destruct (cleanup_keeps r (set_path_map m s1)) as (s' & -> & Hr & _).
  by eapply emitted_same_ring.
Qed.

Lemma memcpy_some n off src dst dst' :
  bpf_memcpy h n off src dst = Some dst' -> dst' = overwrite off src dst.
Proof.
  unfold bpf_memcpy. destruct src; [intros [= <-]; by rewrite overwrite_nil|].
  by destruct (hk_memcpy h n); intros [= <-].
Qed.

(** Anything that starts with a header is not empty. *)
Lemma overwritten_not_nil (header : EventHeader.t) n off1 b1 off2 b2 off3 b3 buf :
  (0 < n)%nat -> (size_of EventHeader.t <= off1)%nat -> (size_of EventHeader.t <= off2)%nat ->
  (size_of EventHeader.t <= off3)%nat ->
  take n (overwrite off3 b3 (overwrite off2 b2 (overwrite off1 b1
    (overwrite 0 (as_bytes (hk_pad h) header) buf)))) <> [].
Proof.
  intros Hn H1 H2 H3 E. apply (f_equal length) in E. revert E. change (length []) with 0%nat.
  assert (Hlen : forall off b l, (size_of EventHeader.t <= length l)%nat ->
    (size_of EventHeader.t <= off)%nat -> (size_of EventHeader.t <= length (overwrite off b l))%nat).
  { intros off b l Hl Ho. unfold overwrite. rewrite !length_app, length_take. lia. }
  assert (Hp : (0 < size_of EventHeader.t)%nat) by (vm_compute; lia).
  rewrite length_take. intros E.
  pose proof (Hlen off3 b3 (overwrite off2 b2 (overwrite off1 b1
    (overwrite 0 (as_bytes (hk_pad h) header) buf)))) as L.
  enough (size_of EventHeader.t <= length (overwrite off2 b2 (overwrite off1 b1
    (overwrite 0 (as_bytes (hk_pad h) header) buf))))%nat by (specialize (L H H3); lia).
  apply Hlen; [|done]. apply Hlen; [|done]. unfold overwrite.
  rewrite !length_app, length_as_bytes. lia.
Qed.

Lemma two_path_exit_sound s :
  is_Some (path_map s !! hk_pid_tgid h) -> exit_sound (try_exit_two_path h) s.
Proof.
  intros [entry He]. unfold exit_sound, try_exit_two_path, with_path_entry, mbind, M_bind, get_state.
  rewrite He. unfold read_at_i64, lift. destruct (_ <$> hk_ctx h 16 8) as [ret|]; [|done].
  destruct (hk_scratch h ASSEMBLY_BUF); cbn [negb]; [|done]. destruct (_ <? _); [done|].
  destruct (bpf_memcpy h 0 _ _ _) as [d1|] eqn:E1; [|done].
  destruct (bpf_memcpy h 1 _ _ d1) as [d2|] eqn:E2; [|done].
  apply memcpy_some in E1, E2. subst d2 d1. unfold set_assembly, modify. cbn [scratch set_scratch].
  set (s1 := set_scratch _ s).
  match goal with |- context [emit_event h ?d s1] =>
    assert (Hd : d <> []) by (apply overwritten_not_nil; [change (size_of EventHeader.t) with 96%nat; lia|
      change (size_of EventHeader.t) with 96%nat; lia..]);
    pose proof (emit_emitted h d s1 Hd) as Hem; rewrite (emit_event_spec h d s1 Hd) in Hem |- *
  end.
  destruct (hk_room h _ _); cbn [snd] in Hem;
    (match goal with |- context [path_remove h ?k ?t] =>
       destruct (path_remove_spec h k t) as (r & m & ->);
       destruct (cleanup_keeps r (set_path_map m t)) as (s' & -> & Hr & _)
     end; eapply emitted_same_ring; [exact Hem|exact Hr]).
Qed.

(** ** openat has its own scope *)

Lemma openat_exit_sound s :
  is_Some (openat_map s !! hk_pid_tgid h) -> exit_sound (try_sys_exit_openat g h) s.
Proof.
  intros [entry He]. unfold exit_sound, try_sys_exit_openat, mbind, M_bind, get_state.
  rewrite He. unfold read_at_i64, lift. destruct (_ <$> hk_ctx h 16 8) as [ret|]; [|done].
  match goal with |- context [emit_varlen h ?a ?b ?c s] =>
    pose proof (emit_varlen_sound a b c s) as Hv;
    destruct (emit_varlen h a b c s) as [[[]|] s1]; cbn [negb]; [|done|done]
  end.
  destruct (openat_remove_spec h (hk_pid_tgid h) s1) as (r & m & ->).
  by eapply emitted_same_ring.
Qed.

Lemma openat_exit_accounts s :
  counters_ok s -> is_Some (openat_map s !! hk_pid_tgid h) ->
  exists s', sys_exit_openat g h s = (Some tt, s') /\ accounted EventKind.Openat s s'.
Proof.
  intros Hc He. pose proof (openat_exit_sound s He) as Hm. unfold exit_sound in Hm.
  unfold sys_exit_openat, or_else.
  destruct (try_sys_exit_openat g h s) as [[u|] s1]; [exists s1; split; [done|by left]|].
  destruct Hm as [[Hev Hd] Hf].
  destruct (counters_lookup EventKind.Openat s OPENAT_EXIT_CAPTURE_FAILED Hc) as [c Ec];
    [unfold OPENAT_EXIT_CAPTURE_FAILED; lia|].
  unfold mbind, M_bind, openat_failure, modify. cbv beta iota. set (s2 := set_failures _ s1).
  destruct (openat_remove_spec h (hk_pid_tgid h) s2) as (r1 & m1 & ->).
  eexists. split; [done|]. right. cbn. rewrite Hev, Hd. do 2 (split; [done|]).
  exists c. split; [exact Ec|]. cbn. rewrite Hf. by apply bump_eq.
Qed.
End Exit.

(** The kind's entry is pending for a task. *)
Definition pending (k : EventKind.t) (key : Z) (s : Bpf) : bool :=
  match k with
  | EventKind.Openat => bool_decide (is_Some (openat_map s !! key))
  | EventKind.Chdir | EventKind.Unlink | EventKind.Rmdir | EventKind.Mkdir | EventKind.Chmod
  | EventKind.Chown | EventKind.Truncate | EventKind.Umount2 | EventKind.Unlinkat
  | EventKind.Mkdirat | EventKind.Fchmodat | EventKind.Fchownat | EventKind.Rename
  | EventKind.Renameat2 | EventKind.Link | EventKind.Linkat | EventKind.Symlink
  | EventKind.Symlinkat | EventKind.Mount => bool_decide (is_Some (path_map s !! key))
  | _ => bool_decide (is_Some (rich_map s !! key))
  end.

(** C10: whatever the kernel does, the exit handler of a recorded syscall
    accounts for it: the record is in the ring, or a ring drop was counted, or
    the exit-failure counter of its scope went up. *)
Theorem exits_never_lose_silently g h k exit s :
  sys_exit g h k = Some exit -> counters_ok s -> pending k (hk_pid_tgid h) s = true ->
  exists s', exit s = (Some tt, s') /\ accounted k s s'.
Proof.
  intros Hx Hc Hp.
  destruct k; cbn [sys_exit] in Hx; try discriminate Hx; injection Hx as <-;
    cbn [pending] in Hp; apply bool_decide_eq_true in Hp;
    first [ by apply openat_exit_accounts
          | apply exit_result_accounts; [done|done|] ];
    first [ by apply path_exit_sound | by apply two_path_exit_sound
          | apply rich_exit_sound; [vm_compute; lia|done] ].
Qed.

(** ** Entries *)

(** The entry handler recorded this very invocation. *)
Definition recorded (k : EventKind.t) (h : Hook) (s : Bpf) : Prop :=
  exists header : EventHeader.t,
    EventHeader.kind header = EventKind.to_u8 k /\ EventHeader.timestamp_ns header = hk_now h /\
    ((exists e, rich_map s !! hk_pid_tgid h = Some e /\ re_header e = header) \/
     (exists e, path_map s !! hk_pid_tgid h = Some e /\ pe_header e = header) \/
     (exists e, openat_map s !! hk_pid_tgid h = Some e /\ oe_header e = header)).

(** A mapping that names no file: the descriptor or the flags say so. *)
Definition anonymous_mapping (h : Hook) : bool :=
  negb (Z.land (wrap 32 (read_at_u64_or h 40 0)) MAP_ANONYMOUS =? 0).

(** Calls of a traced task that the handlers skip on purpose: [fcntl] commands
    that do not duplicate a descriptor, which Tier 1 captures, and mappings
    without a file, which are filtered out. *)
Definition skipped_call (h : Hook) (k : EventKind.t) : bool :=
  match k with
  | EventKind.Fcntl =>
      let cmd := wrap 32 (read_at_u64_or h 24 0) in
      negb (cmd =? F_DUPFD) && negb (cmd =? F_DUPFD_CLOEXEC)
  | EventKind.Mmap =>
      anonymous_mapping h ||
      match hk_ctx h 48 8 with Some b => swrap 64 (le_combine b) <? 0 | None => false end
  | _ => false
  end.

(** A mapping whose descriptor cannot be read from the context.  The handler
    takes it for one without a file. *)
Definition unread_mapping (h : Hook) (k : EventKind.t) : bool :=
  match k, hk_ctx h 48 8 with
  | EventKind.Mmap, None => negb (anonymous_mapping h)
  | _, _ => false
  end.

(** The calls the handlers leave without a trace of any kind. *)
Definition left_out (h : Hook) (k : EventKind.t) : bool := skipped_call h k || unread_mapping h k.

Definition entry_sound (k : EventKind.t) (h : Hook) (m : M unit) (s : Bpf) : Prop :=
  match m s with
  | (Some _, s1) => recorded k h s1 \/ counted_once k SYSCALL_ENTRY_SAVE_FAILED s s1
  | (None, s1) => failures s1 = failures s
  end.

Section Entry.
Context (g : Globals) (h : Hook) (Ht : should_trace g h = true).

Lemma entry_result_accounts k m s :
  k <> EventKind.Openat -> counters_ok s -> entry_sound k h m s ->
  exists s', entry_result m s = (Some tt, s') /\
    (recorded k h s' \/ counted_once k SYSCALL_ENTRY_SAVE_FAILED s s' \/
     counted_once k SYSCALL_ENTRY_CAPTURE_FAILED s s').
Proof.
  intros Hk Hc Hm. unfold entry_sound in Hm. unfold entry_result, or_else.
  destruct (m s) as [[u|] s1]; [exists s1; split; [done|]; tauto|].
  destruct (counters_lookup k s SYSCALL_ENTRY_CAPTURE_FAILED Hc) as [c Ec];
    [unfold SYSCALL_ENTRY_CAPTURE_FAILED; lia|].
  eexists. split; [done|]. right; right. exists c. split; [done|].
  assert (Hs : forall t, scope k t = syscall_failures (failures t)) by (by destruct k).
  rewrite Hs in Ec |- *. cbn. rewrite Hm. by apply bump_eq.
Qed.

Lemma stash_rich_sound {A} `{ReprC A} k (ed : A) s :
  k <> EventKind.Openat -> counters_ok s ->
  entry_sound k h (stash_rich g h (EventKind.to_u8 k) ed) s.
Proof.
  intros Hk Hc. unfold entry_sound, stash_rich.
  destruct (hk_scratch h SYSCALL_TMP_BUF); cbn [negb]; [|done].
  unfold mbind, M_bind, get_state, modify, rich_insert, map_insert.
  destruct (hk_insert h RICH_ENTRY_MAP) as [e|]; cbn.
  - right. destruct (counters_lookup k s SYSCALL_ENTRY_SAVE_FAILED Hc) as [c Ec];
      [unfold SYSCALL_ENTRY_SAVE_FAILED; lia|].
    exists c. split; [done|].
    assert (Hs : forall t, scope k t = syscall_failures (failures t)) by (by destruct k).
    rewrite Hs in Ec |- *. cbn. by apply bump_eq.
  - left. exists (get_task_info g h (EventKind.to_u8 k)). do 2 (split; [done|]). left.
    eexists. split; [apply lookup_insert_eq|done].
Qed.

Lemma path_insert_sound k c n1 n2 p1 p2 s s0 :
  k <> EventKind.Openat -> counters_ok s0 -> failures s = failures s0 ->
  match (path_insert h (hk_pid_tgid h)
    (mkPathEntry (with_capture (get_task_info g h (EventKind.to_u8 k)) c) n1 n2 p1 p2)
    ≫= syscall_save) s with
  | (Some _, s1) => recorded k h s1 \/ counted_once k SYSCALL_ENTRY_SAVE_FAILED s0 s1
  | (None, s1) => failures s1 = failures s0
  end.
Proof.
  intros Hk Hc Hf. unfold mbind, M_bind, path_insert, map_insert.
  destruct (hk_insert h PATH_ENTRY_MAP) as [e|]; cbn.
  - right. destruct (counters_lookup k s0 SYSCALL_ENTRY_SAVE_FAILED Hc) as [x Ex];
      [unfold SYSCALL_ENTRY_SAVE_FAILED; lia|].
    exists x. split; [done|].
    assert (Hs : forall t, scope k t = syscall_failures (failures t)) by (by destruct k).
    rewrite Hs in Ex |- *. cbn. rewrite Hf. by apply bump_eq.
  - left. exists (with_capture (get_task_info g h (EventKind.to_u8 k)) c).
    do 2 (split; [done|]). right; left. eexists. split; [apply lookup_insert_eq|done].
Qed.

Lemma enter_path_sound k i s :
  k <> EventKind.Openat -> counters_ok s ->
  entry_sound k h (enter_path_arg g h (EventKind.to_u8 k) i) s.
Proof.
  intros Hk Hc. unfold entry_sound, enter_path_arg. rewrite Ht. cbn [negb].
  unfold mbind at 1, M_bind at 1, read_at_u64, lift.
  destruct (_ <$> hk_ctx h _ 8) as [p|]; [|done].
  destruct (hk_scratch h PATH_TMP_BUF); cbn [negb]; [|done].
  unfold mbind at 1, M_bind at 1, get_state.
  destruct (read_user_str h p _) as [[n st] buf].
  unfold mbind at 1, M_bind at 1, set_tmp_paths, modify.
  by apply path_insert_sound.
Qed.

Lemma enter_two_path_sound k s :
  counters_ok s -> entry_sound (two_path_kind k) h (try_enter_two_path g h k) s.
Proof.
  intros Hc. unfold entry_sound, try_enter_two_path. rewrite Ht. cbn [negb].
  destruct (two_path_args k) as [i j].
  unfold mbind at 1, M_bind at 1, read_at_u64 at 1, lift at 1.
  destruct (_ <$> hk_ctx h (16 + 8 * i) 8) as [p|]; [|done].
  unfold mbind at 1, M_bind at 1, read_at_u64, lift.
  destruct (_ <$> hk_ctx h (16 + 8 * j) 8) as [q|]; [|done].
  destruct (hk_scratch h PATH_TMP_BUF); cbn [negb]; [|done].
  unfold mbind at 1, M_bind at 1, get_state.
  destruct (read_user_str h p _) as [[n st] buf].
  destruct (read_user_str h q _) as [[n' st'] buf'].
  unfold mbind at 1, M_bind at 1, set_tmp_paths, modify.
  apply path_insert_sound; [by destruct k|done|done].
Qed.

(** A handler that reads an argument word and continues with [stash_rich]. *)
Lemma read_stash_sound k off (f : Z -> M unit) s :
  (forall v, entry_sound k h (f v) s) ->
  entry_sound k h (read_at_u64 h off ≫= f) s.
Proof.
  intros Hf. unfold entry_sound, mbind, M_bind, read_at_u64, lift.
  destruct (_ <$> hk_ctx h off 8) as [v|]; [apply Hf|done].
Qed.

Lemma openat_entry_accounts s :
  counters_ok s ->
  exists s', sys_enter_openat g h s = (Some tt, s') /\
    (recorded EventKind.Openat h s' \/
     counted_once EventKind.Openat SYSCALL_ENTRY_SAVE_FAILED s s' \/
     counted_once EventKind.Openat SYSCALL_ENTRY_CAPTURE_FAILED s s').
Proof.
  intros Hc.
  destruct (counters_lookup EventKind.Openat s OPENAT_ENTRY_CAPTURE_FAILED Hc) as [c0 E0];
    [unfold OPENAT_ENTRY_CAPTURE_FAILED; lia|].
  destruct (counters_lookup EventKind.Openat s OPENAT_ENTRY_SAVE_FAILED Hc) as [c1 E1];
    [unfold OPENAT_ENTRY_SAVE_FAILED; lia|].
  assert (Hfail : exists s', openat_failure OPENAT_ENTRY_CAPTURE_FAILED s = (Some tt, s') /\
    counted_once EventKind.Openat SYSCALL_ENTRY_CAPTURE_FAILED s s').
  { eexists. split; [done|]. exists c0. split; [done|]. cbn. by apply bump_eq. }
  unfold sys_enter_openat, or_else, try_sys_enter_openat. rewrite Ht. cbn [negb].
  unfold mbind, M_bind, read_at_u64, read_at_u32, read_at_i32, lift.
  destruct (_ <$> hk_ctx h 24 8) as [p|]; [|destruct Hfail as (? & ? & ?); eauto 10].
  destruct (_ <$> hk_ctx h 32 4) as [fl|]; [|destruct Hfail as (? & ? & ?); eauto 10].
  destruct (_ <$> hk_ctx h 40 8) as [mo|]; [|destruct Hfail as (? & ? & ?); eauto 10].
  destruct (hk_scratch h OPENAT_TMP_BUF); cbn [negb];
    [|unfold fail; destruct Hfail as (? & ? & ?); eauto 10].
  destruct (_ <$> hk_ctx h 16 4) as [fd|]; [|destruct Hfail as (? & ? & ?); eauto 10].
  unfold get_state. destruct (read_user_str h p _) as [[n st] buf].
  unfold set_tmp_openat, modify, openat_insert, map_insert.
  destruct (hk_insert h OPENAT_ENTRY_MAP) as [e|]; cbn.
  - eexists. split; [done|]. right; left. exists c1. split; [done|]. cbn. by apply bump_eq.
  - eexists. split; [done|]. left. exists (get_task_info g h (EventKind.to_u8 EventKind.Openat)).
    do 2 (split; [done|]). right; right. eexists. split; [apply lookup_insert_eq|done].
Qed.
End Entry.

Lemma left_out_mmap h :
  left_out h EventKind.Mmap =
  (read_at_i64_or h 48 (-1) <? 0) || negb (Z.land (wrap 32 (read_at_u64_or h 40 0)) MAP_ANONYMOUS =? 0).
Proof.
  unfold left_out, skipped_call, unread_mapping, anonymous_mapping, read_at_i64_or.
  destruct (hk_ctx h 48 8) as [b|]; cbn [fmap option_fmap option_map default];
    destruct (negb _); by rewrite ?orb_true_r, ?orb_false_r.
Qed.

Lemma entries_account g h k enter s :
  sys_enter g h k = Some enter -> should_trace g h = true -> left_out h k = false ->
  counters_ok s ->
  exists s', enter s = (Some tt, s') /\
    (recorded k h s' \/ counted_once k SYSCALL_ENTRY_SAVE_FAILED s s' \/
     counted_once k SYSCALL_ENTRY_CAPTURE_FAILED s s').
Proof.
  intros Hx Ht Hl Hc.
  destruct k; cbn [sys_enter] in Hx; try discriminate Hx; injection Hx as <-.
  1: by apply openat_entry_accounts.
  all: apply entry_result_accounts; [discriminate|assumption|].
  all: lazymatch goal with
    | |- entry_sound ?k _ (try_enter_path _ _ _) _ =>
        exact (enter_path_sound g h Ht k 0 s ltac:(discriminate) Hc)
    | |- entry_sound ?k _ (try_enter_at_path _ _ _) _ =>
        exact (enter_path_sound g h Ht k 1 s ltac:(discriminate) Hc)
    | |- entry_sound _ _ (try_enter_two_path _ _ ?k) _ =>
        exact (enter_two_path_sound g h Ht k s Hc)
    | |- _ =>
        cbv delta [try_sys_enter_rw try_sys_enter_sockaddr try_enter_listen try_enter_socket
          try_enter_clone try_enter_fd try_enter_sendto_recvfrom try_enter_dup_family
          try_enter_dup3 try_enter_fcntl try_enter_prw try_enter_rwv try_enter_mmap
          try_enter_sendfile try_enter_splice stash_dup_entry stash_sendfile_splice_entry];
        cbv beta; rewrite Ht; cbn [negb]
    end.
  all: rewrite ?left_out_mmap in Hl; cbv [left_out] in Hl; cbn [skipped_call unread_mapping] in Hl;
    rewrite ?orb_false_r in Hl; cbv zeta in Hl |- *.
  all: try (apply read_stash_sound; intros v).
  all: try rewrite Hl; try (destruct (read_sockaddr h _ _) as [[[? ?] ?] ?]).
  all: lazymatch goal with
    | |- entry_sound ?k _ (stash_rich _ _ _ ?ed) _ =>
        exact (stash_rich_sound g h k ed s ltac:(discriminate) Hc)
    end.
Qed.

(** A call that is left out leaves nothing, unless its descriptor cannot be
    read, which is counted. *)
Lemma left_out_accounts g h k enter s :
  sys_enter g h k = Some enter -> should_trace g h = true -> left_out h k = true -> counters_ok s ->
  exists s', enter s = (Some tt, s') /\ (s' = s \/ counted_once k SYSCALL_ENTRY_CAPTURE_FAILED s s').
Proof.
  intros Hx Ht Hl Hc. destruct k; try discriminate Hl; cbn [sys_enter] in Hx; injection Hx as <-.
  - unfold left_out in Hl. cbn [skipped_call unread_mapping] in Hl. rewrite orb_false_r in Hl. cbv zeta in Hl.
    destruct (hk_ctx h 16 8) as [b|] eqn:Eb.
    + exists s. split; [|by left].
      unfold entry_result, or_else, try_enter_fcntl, read_at_u64, lift, mbind, M_bind. rewrite Ht, Eb.
      cbn [negb fmap option_fmap option_map]. cbv zeta. by rewrite Hl.
    + destruct (counters_lookup EventKind.Fcntl s SYSCALL_ENTRY_CAPTURE_FAILED Hc) as [c Ec];
        [unfold SYSCALL_ENTRY_CAPTURE_FAILED; lia|].
      eexists. split; [|right; exists c; split; [done|]].
      * unfold entry_result, or_else, try_enter_fcntl, read_at_u64, lift, mbind, M_bind. rewrite Ht, Eb.
        reflexivity.
      * cbn in Ec |- *. by apply bump_eq.
  - exists s. split; [|by left]. rewrite left_out_mmap in Hl. unfold entry_result, or_else, try_enter_mmap.
    rewrite Ht. cbn [negb]. cbv zeta. by rewrite Hl.
Qed.

(** A mapping of a file whose descriptor cannot be read is lost and not
    counted. *)
Theorem unread_mapping_lost g h s :
  should_trace g h = true -> unread_mapping h EventKind.Mmap = true ->
  entry_result (try_enter_mmap g h) s = (Some tt, s).
Proof.
  intros Ht Hu. assert (Hl : left_out h EventKind.Mmap = true) by (unfold left_out; by rewrite Hu, orb_true_r).
  rewrite left_out_mmap in Hl. unfold entry_result, or_else, try_enter_mmap. rewrite Ht. cbn [negb]. cbv zeta.
  by rewrite Hl.
Qed.

(** C11: the entry handler of a traced Tier 2 syscall always returns, and
    whatever the kernel answers it records the call or counts its loss, with
    two exceptions that leave the state as it was: calls skipped on purpose,
    which are [fcntl] commands other than descriptor duplication and mappings
    without a file, and a mapping whose descriptor cannot be read from the
    context. *)
Theorem entries_never_lose_silently g h k enter s :
  sys_enter g h k = Some enter -> should_trace g h = true -> counters_ok s ->
  exists s', enter s = (Some tt, s') /\
    (recorded k h s' \/ counted_once k SYSCALL_ENTRY_SAVE_FAILED s s' \/
     counted_once k SYSCALL_ENTRY_CAPTURE_FAILED s s' \/
     (skipped_call h k = true \/ unread_mapping h k = true) /\ s' = s).
Proof.
  intros Hx Ht Hc. destruct (left_out h k) eqn:Hl.
  - destruct (left_out_accounts g h k enter s Hx Ht Hl Hc) as (s' & E & [->|Hs]); [|by exists s'; auto].
    exists s. split; [done|]. apply orb_prop in Hl. auto.
  - destruct (entries_account g h k enter s Hx Ht Hl Hc) as (s' & E & H). exists s'. split; [done|]. tauto.
Qed.
