(* ===== verification/Raw.v ===== *)
(** * Tier 1 raw syscalls (bloodhound-ebpf/src/layer3_raw.rs)

    Every syscall of a traced task that is neither excluded nor captured richly
    becomes one SYSCALL event with its number, its six argument words and its
    result. *)

From S2P Require Import Prelude Layout Records Common Json Event Usdt Deserializer Wire Bpf Task.
From S2P Require Import HookFacts RichFacts.

Local Open Scope string_scope.
Local Open Scope Z_scope.
Local Open Scope list_scope.

Section Raw.
Context (g : Globals) (h : Hook).

(** [if let Some(flag) = BITMAP.get(nr) { if *flag != 0 { ... } }] *)
Definition bitmap_set (bitmap : list Z) (nr : Z) : bool :=
  match bitmap !! Z.to_nat nr with Some flag => negb (flag =? 0) | None => false end.

(** [for i in 0..6 { args[i] = ctx.read_at(16 + i * 8)?; }] *)
Fixpoint read_args (i : Z) (n : nat) : M (list Z) :=
  match n with
  | O => mret []
  | S n => x ← read_at_u64 h (16 + i * 8); r ← read_args (i + 1) n; mret (x :: r)
  end.

Definition try_raw_sys_enter : M unit :=
  if negb (should_trace g h) then mret tt else
  nr ← read_at_i64 h 8;
  let nr := wrap 64 nr in
  if BITMAP_SIZE <=? nr then mret tt else
  s ← get_state;
  if bitmap_set (exclusion_bitmap s) nr then mret tt else
  if bitmap_set (tier2_bitmap s) nr then mret tt else
  let header := get_task_info g h (EventKind.to_u8 EventKind.RawSyscall) in
  args ← read_args 0 6;
  if (nr =? NR_EXIT) || (nr =? NR_EXIT_GROUP) then
    emit_stack h 256 header (as_bytes (hk_pad h) (RawSyscallPayload.mk nr args 0))
  else
    r ← syscall_insert h (hk_pid_tgid h) (mkSyscallEntry header nr args);
    raw_syscall_save r.

Definition raw_sys_enter : M unit :=
  or_else try_raw_sys_enter (raw_syscall_failure SYSCALL_ENTRY_CAPTURE_FAILED).

Definition try_raw_sys_exit : M unit :=
  s ← get_state;
  match syscall_map s !! hk_pid_tgid h with
  | None => mret tt
  | Some entry =>
      return_code ← on_err (read_at_i64 h 16)
        (r ← syscall_remove h (hk_pid_tgid h); raw_syscall_cleanup r);
      _ ← emit_stack h 256 (se_header entry) (as_bytes (hk_pad h)
            (RawSyscallPayload.mk (se_syscall_nr entry) (se_args entry) return_code));
      r ← syscall_remove h (hk_pid_tgid h);
      raw_syscall_cleanup r
  end.

Definition raw_sys_exit : M unit :=
  or_else try_raw_sys_exit (raw_syscall_failure SYSCALL_EXIT_CAPTURE_FAILED).
End Raw.

(** ** End to end *)

(** The syscall number and arguments of a raw [sys_enter]. *)
Definition raw_nr (h : Hook) : Z := wrap 64 (read_at_i64_or h 8 0).
Definition raw_args (h : Hook) : list Z := sysarg h <$> [0; 1; 2; 3; 4; 5].

Definition is_exit_nr (nr : Z) : bool := (nr =? NR_EXIT) || (nr =? NR_EXIT_GROUP).

(** The event of a raw syscall. *)
Definition raw_event (g : Globals) (h : Hook) (rc : Z) : BehaviorEvent :=
  mkEvent (header_json (get_task_info g h (EventKind.to_u8 EventKind.RawSyscall)))
    (mkEventType "SYSCALL" (dec_string (raw_nr h)) "behavior") None
    (Some (obj [("syscall_nr", JNum (raw_nr h)); ("raw_args", JArr (JNum <$> raw_args h))]))
    (Some rc).

Section RawFacts.
Context `{Base64} (g : Globals) (h : Hook) (Hok : HookOk h) (He : Healthy h).
Context (Ht : should_trace g h = true).

Lemma read_args_healthy s : read_args h 0 6 s = (Some (raw_args h), s).
Proof.
  assert (Hr : forall i, read_at_u64 h (16 + i * 8) = fun s => (Some (sysarg h i), s)).
  { intros i. unfold sysarg. rewrite (Z.mul_comm 8 i). unfold read_at_u64, read_at_u64_or, lift.
    by destruct (he_ctx h He (16 + i * 8) 8) as [b ->]. }
  unfold read_args. rewrite !Hr. reflexivity.
Qed.

Lemma raw_nr_range : in_u 64 (raw_nr h).
Proof. apply wrap_bounds; lia. Qed.

Lemma raw_payload_range rc :
  in_s 64 rc -> in_range (RawSyscallPayload.mk (raw_nr h) (raw_args h) rc).
Proof.
  intros Hrc. pose proof raw_nr_range. unfold in_range.
  cbn -[raw_nr raw_args in_u in_s]. split_and!; try done; try lia.
  unfold raw_args. cbn [fmap list_fmap]. repeat (constructor; [by apply (sysarg_range h)|]).
  constructor.
Qed.

(** What reading back a raw record gives. *)
Lemma raw_record_decodes pad rc :
  in_s 64 rc ->
  deserialize (as_bytes pad (get_task_info g h (EventKind.to_u8 EventKind.RawSyscall)) ++
    as_bytes pad (RawSyscallPayload.mk (raw_nr h) (raw_args h) rc)) = Ok (raw_event g h rc).
Proof.
  intros Hrc. rewrite (deserialize_record pad _ EventKind.RawSyscall);
    [|apply get_task_info_range; auto using EventKind.to_u8_range|done|done].
  cbn [parse_kind]. unfold parse_raw_syscall.
  rewrite too_short_own', read_own by (by apply raw_payload_range). reflexivity.
Qed.

(** The filters of the entry program. *)
Definition raw_captures (s : Bpf) : bool :=
  (raw_nr h <? BITMAP_SIZE) && negb (bitmap_set (exclusion_bitmap s) (raw_nr h)) &&
  negb (bitmap_set (tier2_bitmap s) (raw_nr h)).

Lemma raw_enter_healthy s :
  raw_sys_enter g h s =
  if negb (raw_captures s) then (Some tt, s)
  else if is_exit_nr (raw_nr h) then
    emit_stack h 256 (get_task_info g h (EventKind.to_u8 EventKind.RawSyscall))
      (as_bytes (hk_pad h) (RawSyscallPayload.mk (raw_nr h) (raw_args h) 0)) s
  else (Some tt, set_syscall_map (<[hk_pid_tgid h := mkSyscallEntry
         (get_task_info g h (EventKind.to_u8 EventKind.RawSyscall)) (raw_nr h) (raw_args h)]>
           (syscall_map s)) s).
Proof.
  unfold raw_sys_enter, or_else, try_raw_sys_enter, raw_captures. rewrite Ht. cbn [negb].
  unfold mbind at 1, M_bind at 1. rewrite (read_i64_healthy h He). cbv zeta. fold (raw_nr h).
  rewrite Z.ltb_antisym. destruct (BITMAP_SIZE <=? raw_nr h); [done|]. cbn [negb andb].
  unfold mbind at 1, M_bind at 1, get_state.
  destruct (bitmap_set (exclusion_bitmap s) (raw_nr h)); [done|]. cbn [negb andb].
  destruct (bitmap_set (tier2_bitmap s) (raw_nr h)); [done|]. cbn [negb].
  unfold mbind at 1, M_bind at 1. rewrite read_args_healthy. fold (is_exit_nr (raw_nr h)).
  destruct (is_exit_nr (raw_nr h)).
  - by rewrite emit_stack_spec by (rewrite length_as_bytes; vm_compute; lia).
  - unfold mbind, M_bind, syscall_insert, map_insert. rewrite (he_insert h He). done.
Qed.
End RawFacts.

(** C38: a captured raw syscall that returns is reported exactly once, with
    its number, its six arguments and its result, however other tasks run in
    between; the pending entry is gone afterwards. *)
Theorem raw_syscall_reported `{Base64} g h1 h2 s1 s2 :
  HookOk h1 -> Healthy h1 -> Healthy h2 -> hk_pid_tgid h2 = hk_pid_tgid h1 ->
  should_trace g h1 = true -> raw_captures h1 s1 = true -> is_exit_nr (raw_nr h1) = false ->
  syscall_map s2 !! hk_pid_tgid h1 = syscall_map (raw_sys_enter g h1 s1).2 !! hk_pid_tgid h1 ->
  EVENTS (raw_sys_enter g h1 s1).2 = EVENTS s1 /\
  exists s3 rec, raw_sys_exit h2 s2 = (Some tt, s3) /\ EVENTS s3 = EVENTS s2 ++ [rec] /\
    deserialize rec = Ok (raw_event g h1 (sysret h2)) /\
    syscall_map s3 = delete (hk_pid_tgid h1) (syscall_map s2) /\ failures s3 = failures s2.
Proof.
  intros Hok1 He1 He2 Hkey Ht Hc Hx Hs. rewrite (raw_enter_healthy g h1 He1 Ht) in Hs |- *.
  rewrite Hc, Hx in Hs |- *. cbn [negb snd] in Hs |- *. split; [done|].
  change (syscall_map (set_syscall_map ?m _)) with m in Hs. rewrite lookup_insert_eq in Hs.
  unfold raw_sys_exit, or_else, try_raw_sys_exit, mbind, M_bind, get_state, on_err.
  rewrite Hkey, Hs, (read_i64_healthy h2 He2). fold (sysret h2). cbn [se_header se_syscall_nr se_args].
  rewrite emit_stack_spec by (rewrite length_as_bytes; vm_compute; lia).
  rewrite emit_event_spec by apply as_bytes_not_nil. rewrite (he_room h2 He2). cbn [snd].
  unfold syscall_remove, map_remove. cbn. rewrite Hs, (he_remove h2 He2). cbn.
  do 2 eexists. split; [reflexivity|]. split; [reflexivity|]. split; [|done].
  apply raw_record_decodes; [done|apply sysret_range].
Qed.

(** [exit] and [exit_group], which never return, are reported at entry
    and leave nothing pending. *)
Theorem raw_exit_reported_at_entry `{Base64} g h s :
  HookOk h -> Healthy h -> should_trace g h = true ->
  raw_captures h s = true -> is_exit_nr (raw_nr h) = true ->
  exists s' rec, raw_sys_enter g h s = (Some tt, s') /\ EVENTS s' = EVENTS s ++ [rec] /\
    deserialize rec = Ok (raw_event g h 0) /\ syscall_map s' = syscall_map s.
Proof.
  intros Hok He Ht Hc Hx. rewrite (raw_enter_healthy g h He Ht), Hc, Hx. cbn [negb].
  rewrite emit_stack_spec by (rewrite length_as_bytes; vm_compute; lia).
  rewrite emit_event_spec by apply as_bytes_not_nil. rewrite (he_room h He).
  do 2 eexists. split; [reflexivity|]. split; [reflexivity|]. split; [|done].
  apply raw_record_decodes; [done|unfold in_s; lia].
Qed.
