(* ===== verification/ProcLifecycle.v ===== *)
(** * Process lifecycle programs (bloodhound-ebpf/src/lifecycle.rs, signal.rs)

    [sched_process_fork], [sched_process_exit], [sched_process_free] and
    [signal_generate].  The exit program elects one emitter per process
    instance with an atomic claim; the free program releases the claim. *)

From S2P Require Import Prelude Layout Records Common Json Event Usdt Deserializer Wire Bpf Task.
From S2P Require Import HookFacts Entries Rich RichFacts.

Local Open Scope string_scope.
Local Open Scope Z_scope.
Local Open Scope list_scope.

Section Programs.
Context (g : Globals) (h : Hook).

Definition set_header_ids (header : EventHeader.t) (pid ppid start : Z) : EventHeader.t :=
  EventHeader.mk (EventHeader.kind header) (EventHeader.capture header)
    (EventHeader.timestamp_ns header) (EventHeader.auid header) (EventHeader.sessionid header)
    pid ppid start (EventHeader.comm header) (EventHeader.tid header) (EventHeader.ns header).

(** ** Fork *)

Definition try_process_fork : M unit :=
  if negb (should_trace g h) then mret tt else
  let parent := hk_raw_arg h 0 in
  let child := hk_raw_arg h 1 in
  if (parent =? 0) || (child =? 0) then mret tt else
  child_pid ← lift (kread_u32 h (wrapping_add child (OFF_PID g)));
  let fork_header := get_task_info g h (EventKind.to_u8 EventKind.ProcessFork) in
  let parent_ref :=
    default (mkKernelProcessRef (EventHeader.pid fork_header) 0 0)
      (process_ref_from_task g h parent) in
  match process_ref_from_task g h child with
  | None => mret tt
  | Some child_ref =>
      if negb (child_pid =? kr_tgid child_ref) || (kr_start_boottime_ns child_ref =? 0)
      then mret tt else
      let child_header :=
        set_header_ids (get_task_info_from_task g h (EventKind.to_u8 EventKind.ProcessStart) child)
          (kr_tgid child_ref) (kr_tgid parent_ref) (kr_start_boottime_ns child_ref) in
      _ ← emit_stack h 128 child_header [];
      let fork_header :=
        set_header_ids fork_header (kr_tgid parent_ref) (EventHeader.ppid fork_header)
          (kr_start_boottime_ns parent_ref) in
      s ← get_state;
      emit_fixed_opt h fork_header (Some (ProcessForkPayload.mk (kr_tgid parent_ref)
        (kr_tgid child_ref) (kr_start_boottime_ns parent_ref) (kr_start_boottime_ns child_ref)
        (pending_clone_flags h s)))
  end.

Definition sched_process_fork : M unit := or_else try_process_fork (mret tt).

(** ** Exit *)

(** Reclaim what a task that never reached its syscall exit left behind. *)
Definition reclaim_pending : M unit :=
  let tid := hk_pid_tgid h in
  _ ← tty_interrupt h tid;
  s ← get_state;
  _ ← (match openat_map s !! tid with
       | Some _ => _ ← openat_failure OPENAT_INVOCATION_INTERRUPTED;
                   _ ← openat_remove h tid; mret tt
       | None => mret tt
       end);
  s ← get_state;
  _ ← (match syscall_map s !! tid with
       | Some _ => _ ← raw_syscall_failure SYSCALL_INVOCATION_INTERRUPTED;
                   r ← syscall_remove h tid; raw_syscall_cleanup r
       | None => mret tt
       end);
  s ← get_state;
  _ ← (match path_map s !! tid with
       | Some _ => _ ← syscall_failure SYSCALL_INVOCATION_INTERRUPTED;
                   r ← path_remove h tid; syscall_cleanup r
       | None => mret tt
       end);
  s ← get_state;
  _ ← (match rich_map s !! tid with
       | Some _ => _ ← syscall_failure SYSCALL_INVOCATION_INTERRUPTED;
                   r ← rich_remove h tid; syscall_cleanup r
       | None => mret tt
       end);
  let task_key := hk_task h in
  s ← get_state;
  match execve_map s !! task_key with
  | Some _ =>
      _ ← exec_failure EXEC_INVOCATION_INTERRUPTED;
      r ← execve_remove h task_key;
      match r with Some _ => exec_failure EXEC_ENTRY_CLEANUP_FAILED | None => mret tt end
  | None => mret tt
  end.

(** [EXIT_CLAIMS.insert(&key, &1, BPF_NOEXIST)] *)
Definition claim_insert (k : ExitClaimKey) : M map_result := fun s =>
  let '(r, m) := map_insert_noexist (hk_insert h EXIT_CLAIMS) k 1 (exit_claims s) in
  (Some r, set_exit_claims m s).

Definition claim_remove (k : ExitClaimKey) : M map_result := fun s =>
  let '(r, m) := map_remove (hk_remove h EXIT_CLAIMS) k (exit_claims s) in
  (Some r, set_exit_claims m s).

(** Elect the emitter and emit. *)
Definition claim_and_emit (process_ref : KernelProcessRef) (raw_status : Z) : M unit :=
  let header :=
    get_task_info g h (EventKind.to_u8 EventKind.ProcessExit) in
  let header := set_header_ids header (kr_tgid process_ref) (EventHeader.ppid header)
                  (kr_start_boottime_ns process_ref) in
  let key := ExitClaimKey_new (kr_tgid process_ref) (kr_start_boottime_ns process_ref) in
  r ← claim_insert key;
  match claim_outcome r with
  | Emit => emit_fixed_opt h header (Some (ProcessExitPayload.mk raw_status 0))
  | Duplicate => mret tt
  | Failed => exit_failure EXIT_CLAIM_FAILED
  end.

Definition try_process_exit : M unit :=
  _ ← reclaim_pending;
  if negb (should_trace g h) then mret tt else
  let task := hk_raw_arg h 0 in
  if task =? 0 then fail else
  signal ← lift (kread_u64 h (wrapping_add task (OFF_SIGNAL g)));
  if signal =? 0 then fail else
  live ← lift (kread_i32 h (wrapping_add signal (OFF_SIGNAL_LIVE g)));
  if negb (live =? 0) then mret tt else
  process_ref ← lift (process_ref_from_task g h task);
  leader_status ← lift (kread_i32 h (wrapping_add (kr_group_leader process_ref) (OFF_EXIT_CODE g)));
  group_status ← lift (kread_i32 h (wrapping_add signal (OFF_SIGNAL_GROUP_EXIT_CODE g)));
  claim_and_emit process_ref (select_process_exit_status group_status leader_status).

Definition sched_process_exit : M unit :=
  or_else try_process_exit (exit_failure EXIT_CAPTURE_FAILED).

(** ** Free *)

Definition try_process_free : M unit :=
  let task := hk_raw_arg h 0 in
  if task =? 0 then fail else
  pid ← lift (kread_u32 h (wrapping_add task (OFF_PID g)));
  tgid ← lift (kread_u32 h (wrapping_add task (OFF_TGID g)));
  if negb (pid =? tgid) || (tgid =? 0) then mret tt else
  start ← lift (kread_u64 h (wrapping_add task (OFF_START_BOOTTIME g)));
  key ← lift (for_freed_task pid tgid start);
  r ← claim_remove key;
  if cleanup_failed r then exit_failure CLEANUP_DELETE_FAILED else mret tt.

Definition sched_process_free : M unit :=
  or_else try_process_free (exit_failure CLEANUP_CAPTURE_FAILED).

(** ** Signals (signal.rs) *)

Definition try_signal_generate : M unit :=
  let signal := wrap 32 (hk_raw_arg h 0) in
  let target_task := hk_raw_arg h 2 in
  if negb (should_trace_signal g h target_task) then mret tt else
  let group := wrap 32 (hk_raw_arg h 3) in
  let result := swrap 32 (hk_raw_arg h 4) in
  let target_ref := process_ref_from_task g h target_task in
  let target_tgid :=
    match target_ref with
    | Some r => kr_tgid r
    | None => default 0 (kread_u32 h (wrapping_add target_task (OFF_TGID g)))
    end in
  emit_fixed_opt h (get_task_info g h (EventKind.to_u8 EventKind.SignalGenerate))
    (Some (SignalGeneratePayload.mk target_tgid signal
      (default 0 (kr_start_boottime_ns <$> target_ref)) group result)).

Definition signal_generate : M unit := or_else try_signal_generate (mret tt).
End Programs.

(** ** Quiet computations

    Computations that leave the ring, the drop counter and the claims alone. *)

Definition quiet {A} (m : M A) : Prop := forall s,
  EVENTS (m s).2 = EVENTS s /\ DROP_COUNT (m s).2 = DROP_COUNT s /\
  exit_claims (m s).2 = exit_claims s.

Create HintDb quiet.

Lemma quiet_ret {A} (a : A) : quiet (mret a).
Proof. by intros s. Qed.
Lemma quiet_fail {A} : quiet (@fail A).
Proof. by intros s. Qed.
Lemma quiet_lift {A} (o : option A) : quiet (lift o).
Proof. by intros s. Qed.
Lemma quiet_get : quiet get_state.
Proof. by intros s. Qed.
Lemma quiet_bind {A B} (m : M A) (f : A -> M B) :
  quiet m -> (forall a, quiet (f a)) -> quiet (m ≫= f).
Proof.
  intros Hm Hf s. unfold mbind, M_bind. specialize (Hm s).
  destruct (m s) as [[a|] s1]; cbn in *; [|done].
  destruct (Hf a s1) as (-> & -> & ->). done.
Qed.
Lemma quiet_failures f : quiet (modify (fun s => set_failures (f s) s)).
Proof. by intros s. Qed.
Lemma quiet_report fl o : (forall r, quiet (fl r)) -> quiet (report fl o).
Proof. intros Hf. destruct o; [apply Hf|apply quiet_ret]. Qed.
Lemma quiet_openat_failure r : quiet (openat_failure r).
Proof. by intros s. Qed.
Lemma quiet_exec_failure r : quiet (exec_failure r).
Proof. by intros s. Qed.
Lemma quiet_syscall_failure r : quiet (syscall_failure r).
Proof. by intros s. Qed.
Lemma quiet_raw_failure r : quiet (raw_syscall_failure r).
Proof. by intros s. Qed.
Lemma quiet_tty_failure r : quiet (tty_failure r).
Proof. by intros s. Qed.
Lemma quiet_exit_failure r : quiet (exit_failure r).
Proof. by intros s. Qed.
Lemma quiet_rich_remove h k : quiet (rich_remove h k).
Proof. intros s. unfold rich_remove. by destruct (map_remove _ _ _). Qed.
Lemma quiet_path_remove h k : quiet (path_remove h k).
Proof. intros s. unfold path_remove. by destruct (map_remove _ _ _). Qed.
Lemma quiet_openat_remove h k : quiet (openat_remove h k).
Proof. intros s. unfold openat_remove. by destruct (map_remove _ _ _). Qed.
Lemma quiet_syscall_remove h k : quiet (syscall_remove h k).
Proof. intros s. unfold syscall_remove. by destruct (map_remove _ _ _). Qed.
Lemma quiet_execve_remove h k : quiet (execve_remove h k).
Proof. intros s. unfold execve_remove. by destruct (map_remove _ _ _). Qed.
Lemma quiet_tty_remove h k : quiet (tty_remove h k).
Proof. intros s. unfold tty_remove. by destruct (map_remove _ _ _). Qed.
Lemma quiet_syscall_cleanup r : quiet (syscall_cleanup r).
Proof. apply quiet_report, quiet_syscall_failure. Qed.
Lemma quiet_raw_cleanup r : quiet (raw_syscall_cleanup r).
Proof. apply quiet_report, quiet_raw_failure. Qed.
Lemma quiet_tty_cleanup r : quiet (tty_cleanup r).
Proof. apply quiet_report, quiet_tty_failure. Qed.
#[export] Hint Resolve quiet_syscall_cleanup quiet_raw_cleanup quiet_tty_cleanup : quiet.
#[export] Hint Resolve quiet_ret quiet_fail quiet_lift quiet_get quiet_bind quiet_report
  quiet_openat_failure quiet_exec_failure quiet_syscall_failure quiet_raw_failure
  quiet_tty_failure quiet_exit_failure quiet_rich_remove quiet_path_remove
  quiet_openat_remove quiet_syscall_remove quiet_execve_remove quiet_tty_remove : quiet.

Ltac solve_quiet :=
  repeat first
    [ progress intros
    | match goal with
      | |- quiet (match ?x with _ => _ end) => destruct x
      | |- quiet (if ?b then _ else _) => destruct b
      end
    | apply quiet_bind
    | solve [auto with quiet] ].

Lemma quiet_reclaim h : quiet (reclaim_pending h).
Proof. unfold reclaim_pending, tty_interrupt. solve_quiet. Qed.

(** ** One exit record per process instance *)

(** The record is the exit of this process instance. *)
Definition exit_record_of (k : ExitClaimKey) (rec : list byte) : bool :=
  let header : EventHeader.t := read_unaligned rec in
  (EventHeader.kind header =? EventKind.to_u8 EventKind.ProcessExit) &&
  (EventHeader.pid header =? ec_tgid k) &&
  (EventHeader.process_start_boottime_ns header =? ec_start_boottime_ns k).

(** What the exit program does: nothing to the ring, or one claim and at most
    the one record of the claimed process. *)
Definition exit_effect (s s' : Bpf) : Prop :=
  (EVENTS s' = EVENTS s /\ exit_claims s' = exit_claims s) \/
  exists k, ec_padding k = 0 /\ exit_claims s !! k = None /\
    exit_claims s' = <[k := 1]> (exit_claims s) /\
    (EVENTS s' = EVENTS s \/
     exists rec, EVENTS s' = EVENTS s ++ [rec] /\
       forall k', ec_padding k' = 0 -> exit_record_of k' rec = bool_decide (k' = k)).

Section Exit.
Context (g : Globals) (h : Hook) (Hok : HookOk h).

Lemma exit_header_range r :
  process_ref_from_task g h (hk_raw_arg h 0) = Some r ->
  in_range (set_header_ids (get_task_info g h (EventKind.to_u8 EventKind.ProcessExit))
    (kr_tgid r) 0 (kr_start_boottime_ns r)).
Proof.
  intros Hr. apply (process_ref_range g h Hok) in Hr as (? & ? & _).
  pose proof (get_task_info_range g h Hok (EventKind.to_u8 EventKind.ProcessExit)
    (EventKind.to_u8_range _)) as Hi.
  unfold in_range in *. cbn in *. tauto.
Qed.

Lemma exit_record_header pad (hd : EventHeader.t) payload k k' :
  in_range hd -> EventHeader.kind hd = EventKind.to_u8 EventKind.ProcessExit ->
  EventHeader.pid hd = ec_tgid k -> EventHeader.process_start_boottime_ns hd = ec_start_boottime_ns k ->
  ec_padding k = 0 -> ec_padding k' = 0 ->
  exit_record_of k' (as_bytes pad hd ++ payload) = bool_decide (k' = k).
Proof.
  intros Hr Hk Hp Hs Hz Hz'. unfold exit_record_of. rewrite read_as_bytes by done.
  rewrite Hk, Hp, Hs, Z.eqb_refl. cbn [andb].
  clear Hp Hs Hk Hr hd. destruct k as [t z u], k' as [t' z' u']. cbn in *. subst z z'.
  destruct (Z.eqb_spec t t') as [->|]; [destruct (Z.eqb_spec u u') as [->|]|]; cbn;
    symmetry; [by apply bool_decide_eq_true|apply bool_decide_eq_false; congruence..].
Qed.

Lemma claim_and_emit_effect r status s :
  process_ref_from_task g h (hk_raw_arg h 0) = Some r ->
  exists s', claim_and_emit g h r status s = (Some tt, s') /\ exit_effect s s'.
Proof.
  intros Hr. unfold claim_and_emit, mbind, M_bind, claim_insert, map_insert_noexist.
  set (k := ExitClaimKey_new (kr_tgid r) (kr_start_boottime_ns r)).
  destruct (exit_claims s !! k) eqn:Ek.
  { eexists. split; [reflexivity|]. by left. }
  unfold map_insert. destruct (hk_insert h EXIT_CLAIMS) as [e|].
  { cbn. destruct (e =? EEXIST); eexists; (split; [reflexivity|]); by left. }
  cbn [claim_outcome]. unfold emit_fixed_opt.
  rewrite emit_stack_spec by (rewrite length_as_bytes; vm_compute; lia).
  rewrite emit_event_spec by apply as_bytes_not_nil.
  eexists. split; [reflexivity|]. right. exists k. split; [done|]. split; [done|].
  destruct (hk_room h _ _); cbn [snd]; (split; [done|]); [right|by left].
  eexists. split; [reflexivity|]. intros k' Hk'.
  by apply exit_record_header; [apply exit_header_range|..].
Qed.
End Exit.

(** [exit_effect] along the program: quiet prefixes and fallible reads. *)
Definition has_effect (m : M unit) : Prop := forall s, exit_effect s (m s).2.

Lemma effect_quiet m : quiet m -> has_effect m.
Proof. intros Hq s. left. by destruct (Hq s) as (-> & _ & ->). Qed.

Lemma effect_bind_quiet {A} (m : M A) (f : A -> M unit) :
  quiet m -> (forall a, has_effect (f a)) -> has_effect (m ≫= f).
Proof.
  intros Hq Hf s. unfold mbind, M_bind. destruct (Hq s) as (He & _ & Hc).
  destruct (m s) as [[a|] s1]; cbn [snd] in *; [|by left].
  specialize (Hf a s1). unfold exit_effect in *. by rewrite He, Hc in Hf.
Qed.

Lemma effect_bind_lift {A} (o : option A) (f : A -> M unit) :
  (forall a, o = Some a -> has_effect (f a)) -> has_effect (lift o ≫= f).
Proof. intros Hf s. destruct o as [a|]; [by apply (Hf a)|by left]. Qed.

Lemma effect_or_else m r : has_effect m -> quiet r -> has_effect (or_else m r).
Proof.
  intros Hm Hr s. unfold or_else. specialize (Hm s). destruct (m s) as [[u|] s1]; [done|].
  cbn [snd] in Hm. destruct (Hr s1) as (He & _ & Hc). unfold exit_effect in *. by rewrite He, Hc.
Qed.

Lemma sched_process_exit_effect g h : HookOk h -> has_effect (sched_process_exit g h).
Proof.
  intros Hok. apply effect_or_else; [|apply quiet_exit_failure].
  apply effect_bind_quiet; [apply quiet_reclaim|]. intros _.
  destruct (negb (should_trace g h)); [apply effect_quiet, quiet_ret|]. cbn zeta.
  destruct (hk_raw_arg h 0 =? 0); [apply effect_quiet, quiet_fail|].
  apply effect_bind_lift. intros sg _. destruct (sg =? 0); [apply effect_quiet, quiet_fail|].
  apply effect_bind_lift. intros live _. destruct (negb (live =? 0)); [apply effect_quiet, quiet_ret|].
  apply effect_bind_lift. intros r Hr. do 2 (apply effect_bind_lift; intros ? _).
  intros s. by edestruct (claim_and_emit_effect g h Hok) as (s' & -> & He).
Qed.

(** ** Threads, processes and their records *)

Lemma clone_flags_range h s : in_u 64 (pending_clone_flags h s).
Proof.
  unfold pending_clone_flags. destruct (rich_map s !! _) as [e|]; [|apply zero_range; lia].
  destruct (negb _ && negb _); [apply zero_range; lia|].
  change (CloneData.flags (read_unaligned (re_data e)))
    with (le_combine (take 8 (drop 0 (re_data e)))).
  pose proof (LittleEndianList.le_combine_bound (take 8 (drop 0 (re_data e)))) as Hb.
  rewrite length_take in Hb. unfold in_u.
  pose proof (Z.pow_le_mono_r 2 (8 * Z.of_nat (8 `min` length (drop 0 (re_data e)))) 64).
  lia.
Qed.

Lemma set_header_ids_range (hd : EventHeader.t) pid ppid start :
  in_range hd -> in_u 32 pid -> in_u 32 ppid -> in_u 64 start ->
  in_range (set_header_ids hd pid ppid start).
Proof. unfold in_range. cbn. tauto. Qed.

Section Records.
Context `{Base64} (g : Globals) (h : Hook) (Hok : HookOk h) (He : Healthy h).

Lemma task_info_from_task_range k child :
  in_range (get_task_info_from_task g h (EventKind.to_u8 k) child).
Proof.
  pose proof (EventKind.to_u8_range k).
  assert (Hns : in_range (if negb (child =? 0) then snapshot g h child else NsSnapshot.default)).
  { destruct (negb (child =? 0)); [by apply snapshot_in_range|].
    unfold in_range. cbn -[in_u]. split_and!; try done; try (apply zero_range; lia);
      repeat (apply Forall_cons; split; [apply zero_range; lia|]); by apply Forall_nil. }
  pose proof (task_auid_range g h Hok child). pose proof (task_sessionid_range g h Hok child).
  pose proof (ok_now h Hok).
  assert (Hc : length (task_comm g h child) = 16%nat).
  { unfold task_comm. destruct (child =? 0); [done|].
    destruct (hk_kread h _ 16) as [b|] eqn:E; [by apply (ok_kread h Hok _ _ _ E)|done]. }
  assert (Ht : in_u 32 (task_tid g h child)).
  { unfold task_tid. destruct (child =? 0); [apply zero_range; lia|].
    apply default_range; [apply zero_range; lia|]. intros v. by apply kread_u32_range. }
  assert (in_u 32 (default 0 (kr_tgid <$> process_ref_from_task g h child)) /\
          in_u 64 (default 0 (kr_start_boottime_ns <$> process_ref_from_task g h child))) as [? ?].
  { destruct (process_ref_from_task g h child) as [r|] eqn:E; cbn;
      [apply (process_ref_range g h Hok) in E; tauto|split; apply zero_range; lia]. }
  unfold in_range in Hns |- *. cbn in Hns |- *. destruct Hns as ((?&?)&(?&?)&?&_).
  split_and!; try assumption; try exact I; apply zero_range; lia.
Qed.

(** The header of the child's start and of the parent's fork record. *)
Definition start_header (pr cr : KernelProcessRef) : EventHeader.t :=
  set_header_ids
    (get_task_info_from_task g h (EventKind.to_u8 EventKind.ProcessStart) (hk_raw_arg h 1))
    (kr_tgid cr) (kr_tgid pr) (kr_start_boottime_ns cr).
Definition fork_header (pr : KernelProcessRef) : EventHeader.t :=
  let info := get_task_info g h (EventKind.to_u8 EventKind.ProcessFork) in
  set_header_ids info (kr_tgid pr) (EventHeader.ppid info) (kr_start_boottime_ns pr).

Definition start_event (pr cr : KernelProcessRef) : BehaviorEvent :=
  mkEvent (header_json (start_header pr cr))
    (mkEventType "LIFECYCLE" "process_start" "behavior") None
    (Some (obj [("process_ref", process_ref_json (kr_tgid cr) (kr_start_boottime_ns cr))])) None.

Definition fork_event (pr cr : KernelProcessRef) (flags : Z) : BehaviorEvent :=
  mkEvent (header_json (fork_header pr))
    (mkEventType "LIFECYCLE" "process_fork" "behavior") None
    (Some (json_insert "clone_flags" (strs (decode_clone_flags flags))
      (json_insert "child_ref" (process_ref_json (kr_tgid cr) (kr_start_boottime_ns cr))
        (json_insert "parent_ref" (process_ref_json (kr_tgid pr) (kr_start_boottime_ns pr))
          (obj []))))) None.

Context (pr cr : KernelProcessRef).
Context (Hp : process_ref_from_task g h (hk_raw_arg h 0) = Some pr).
Context (Hc : process_ref_from_task g h (hk_raw_arg h 1) = Some cr).

Lemma eqb_nonzero a : a <> 0 -> (a =? 0) = false.
Proof. apply Z.eqb_neq. Qed.

Lemma start_record_decodes :
  deserialize (as_bytes (hk_pad h) (start_header pr cr) ++ []) = Ok (start_event pr cr).
Proof.
  destruct (process_ref_range g h Hok _ _ Hp) as (? & ? & ? & ?).
  destruct (process_ref_range g h Hok _ _ Hc) as (? & ? & Hn & Hn').
  rewrite (deserialize_record _ _ EventKind.ProcessStart);
    [|apply set_header_ids_range; auto using task_info_from_task_range|done|done].
  cbn [parse_kind parse_process_start]. unfold parse_process_start. cbn [length Nat.eqb negb bail_if].
  cbn [mbind result_bind fmap result_fmap event_of]. unfold final_args, start_event.
  cbn [h_process_ref header_json]. unfold start_header at 2 3. cbn [EventHeader.pid
    EventHeader.process_start_boottime_ns set_header_ids].
  rewrite (eqb_nonzero _ Hn), (eqb_nonzero _ Hn'). reflexivity.
Qed.

Lemma fork_record_decodes s :
  deserialize (as_bytes (hk_pad h) (fork_header pr) ++ as_bytes (hk_pad h)
    (ProcessForkPayload.mk (kr_tgid pr) (kr_tgid cr) (kr_start_boottime_ns pr)
       (kr_start_boottime_ns cr) (pending_clone_flags h s))) =
  Ok (fork_event pr cr (pending_clone_flags h s)).
Proof.
  destruct (process_ref_range g h Hok _ _ Hp) as (? & ? & Hm & Hm').
  destruct (process_ref_range g h Hok _ _ Hc) as (? & ? & Hn & Hn').
  pose proof (get_task_info_range g h Hok _ (EventKind.to_u8_range EventKind.ProcessFork)) as Hi.
  rewrite (deserialize_record _ _ EventKind.ProcessFork);
    [|apply set_header_ids_range; auto; unfold in_range in Hi; cbn in Hi; tauto|done|done].
  cbn [parse_kind]. unfold parse_process_fork. rewrite too_short_own', read_own.
  2:{ unfold in_range. cbn -[in_u]. pose proof (clone_flags_range h s). tauto. }
  cbn [bail_if mbind result_bind]. unfold insert_ref. cbn [ProcessForkPayload.parent_tgid
    ProcessForkPayload.child_tgid ProcessForkPayload.parent_start_boottime_ns
    ProcessForkPayload.child_start_boottime_ns ProcessForkPayload.clone_flags].
  rewrite (eqb_nonzero _ Hn), (eqb_nonzero _ Hn'), (eqb_nonzero _ Hm), (eqb_nonzero _ Hm').
  reflexivity.
Qed.
End Records.

(** C36: a fork of a traced process puts two records on the ring, the
    child's start first and the parent's fork second, which decode to events
    with the child's and the parent's identities and the clone flags of the
    pending call; the creation of a thread puts nothing on the ring. *)
Theorem fork_reported `{Base64} g h s pr cr pid :
  HookOk h -> Healthy h -> should_trace g h = true ->
  process_ref_from_task g h (hk_raw_arg h 0) = Some pr ->
  process_ref_from_task g h (hk_raw_arg h 1) = Some cr ->
  kread_u32 h (wrapping_add (hk_raw_arg h 1) (OFF_PID g)) = Some pid ->
  if pid =? kr_tgid cr then
    exists s' start fork, sched_process_fork g h s = (Some tt, s') /\
      EVENTS s' = EVENTS s ++ [start; fork] /\
      deserialize start = Ok (start_event g h pr cr) /\
      deserialize fork = Ok (fork_event g h pr cr (pending_clone_flags h s)) /\
      exit_claims s' = exit_claims s /\ failures s' = failures s
  else sched_process_fork g h s = (Some tt, s).
Proof.
  intros Hok He Ht Hp Hc Hpid.
  assert (Hz : forall a r, process_ref_from_task g h a = Some r -> (a =? 0) = false).
  { intros a r. unfold process_ref_from_task. by destruct (a =? 0). }
  destruct (process_ref_range g h Hok _ _ Hc) as (_ & _ & _ & Hn).
  assert (E : forall s, sched_process_fork g h s =
    if pid =? kr_tgid cr then
      or_else (_ ← emit_stack h 128 (start_header g h pr cr) [];
               s ← get_state;
               emit_fixed_opt h (fork_header g h pr) (Some (ProcessForkPayload.mk (kr_tgid pr)
                 (kr_tgid cr) (kr_start_boottime_ns pr) (kr_start_boottime_ns cr)
                 (pending_clone_flags h s)))) (mret tt) s
    else (Some tt, s)).
  { intros s'. unfold sched_process_fork, or_else, try_process_fork. rewrite Ht. cbn [negb].
    rewrite (Hz _ _ Hp), (Hz _ _ Hc). cbn [orb]. erewrite bind_some by (unfold lift; by rewrite Hpid).
    rewrite Hp, Hc. cbn [default from_option id]. rewrite (eqb_nonzero _ Hn), orb_false_r.
    by destruct (pid =? kr_tgid cr). }
  rewrite !E. clear E. destruct (pid =? kr_tgid cr); [|done]. unfold or_else.
  unfold mbind, M_bind, get_state, emit_fixed_opt.
  rewrite emit_healthy by (done || (vm_compute; lia)).
  rewrite emit_healthy by (done || (rewrite length_as_bytes; vm_compute; lia)).
  do 3 eexists. split; [reflexivity|]. cbn. rewrite <- app_assoc. split; [reflexivity|].
  split; [by apply start_record_decodes|]. split; [|done].
  exact (fork_record_decodes g h Hok pr cr Hp Hc s).
Qed.

(** ** What a dying task leaves behind *)

(** One count per interrupted invocation. *)
Definition bump_if {V} (o : option V) (reason : nat) (counters : list Z) : list Z :=
  match o with Some _ => bump reason counters | None => counters end.

(** The state after reclaiming the pending invocations of a task: every map
    without its entries, every interrupted invocation counted. *)
Definition reclaimed (tid task : Z) (s : Bpf) : Bpf :=
  let f := failures s in
  mkBpf (EVENTS s) (DROP_COUNT s)
    (mkFailures (bump_if (openat_map s !! tid) OPENAT_INVOCATION_INTERRUPTED (openat_failures f))
       (bump_if (execve_map s !! task) EXEC_INVOCATION_INTERRUPTED (exec_failures f))
       (bump_if (rich_map s !! tid) SYSCALL_INVOCATION_INTERRUPTED
         (bump_if (path_map s !! tid) SYSCALL_INVOCATION_INTERRUPTED (syscall_failures f)))
       (bump_if (syscall_map s !! tid) SYSCALL_INVOCATION_INTERRUPTED (raw_syscall_failures f))
       (bump_if (tty_map s !! tid) SYSCALL_INVOCATION_INTERRUPTED (tty_failures f))
       (exit_failures f))
    (delete task (execve_map s)) (delete tid (syscall_map s)) (delete tid (rich_map s))
    (delete tid (openat_map s)) (delete tid (path_map s)) (delete tid (tty_map s))
    (exit_claims s) (exclusion_bitmap s) (tier2_bitmap s) (scratch s).

Lemma reclaim_pending_spec h s :
  Healthy h -> reclaim_pending h s = (Some tt, reclaimed (hk_pid_tgid h) (hk_task h) s).
Proof.
  intros He. pose proof (he_remove h He) as Hr.
  destruct s as [ev dc f ex sy ri op pa ty ecl eb tb sc]. destruct f.
  unfold reclaim_pending, tty_interrupt, tty_remove, openat_remove, syscall_remove, path_remove,
    rich_remove, execve_remove, map_remove, mbind, M_bind, get_state, reclaimed.
  set (tid := hk_pid_tgid h). set (task := hk_task h).
  cbn [execve_map syscall_map rich_map openat_map path_map tty_map].
  destruct (ty !! tid) eqn:E1; cbn; rewrite ?E1, ?Hr; cbn; rewrite ?(delete_id ty) by done;
  destruct (op !! tid) eqn:E2; cbn; rewrite ?E2, ?Hr; cbn; rewrite ?(delete_id op) by done;
  destruct (sy !! tid) eqn:E3; cbn; rewrite ?E3, ?Hr; cbn; rewrite ?(delete_id sy) by done;
  destruct (pa !! tid) eqn:E4; cbn; rewrite ?E4, ?Hr; cbn; rewrite ?(delete_id pa) by done;
  destruct (ri !! tid) eqn:E5; cbn; rewrite ?E5, ?Hr; cbn; rewrite ?(delete_id ri) by done;
  destruct (ex !! task) eqn:E6; cbn; rewrite ?E6, ?Hr; cbn; rewrite ?(delete_id ex) by done;
  reflexivity.
Qed.

(** What is pending, and what was counted as interrupted. *)
Definition pending_view (s : Bpf) :=
  (execve_map s, syscall_map s, rich_map s, openat_map s, path_map s, tty_map s,
   (openat_failures (failures s), exec_failures (failures s), syscall_failures (failures s),
    raw_syscall_failures (failures s), tty_failures (failures s))).

Lemma emit_pending_view h n (hd : EventHeader.t) payload s :
  pending_view (emit_stack h n hd payload s).2 = pending_view s.
Proof.
  unfold emit_stack, mbind, M_bind, emit_event. cbn zeta.
  destruct (take _ _); [done|]. by destruct (hk_room h _ _).
Qed.

Lemma claim_and_emit_view g h r st s :
  pending_view (claim_and_emit g h r st s).2 = pending_view s.
Proof.
  unfold claim_and_emit, mbind, M_bind, claim_insert. destruct (map_insert_noexist _ _ _ _) as [o m].
  destruct (claim_outcome o); [|done|done].
  unfold emit_fixed_opt. by rewrite emit_pending_view.
Qed.

Lemma exit_view g h s :
  Healthy h ->
  pending_view (sched_process_exit g h s).2 =
  pending_view (reclaimed (hk_pid_tgid h) (hk_task h) s).
Proof.
  intros He. unfold sched_process_exit, or_else, try_process_exit.
  rewrite (bind_some _ _ _ _ _ (reclaim_pending_spec h s He)). cbn zeta.
  destruct (should_trace g h); [|done]. cbn [negb].
  destruct (hk_raw_arg h 0 =? 0); [done|]. unfold mbind, M_bind, lift.
  destruct (kread_u64 h _) as [sg|]; [|done]. destruct (sg =? 0); [done|].
  destruct (kread_i32 h (wrapping_add sg (OFF_SIGNAL_LIVE g))) as [live|]; [|done].
  destruct (negb (live =? 0)); [done|].
  destruct (process_ref_from_task g h _) as [r|]; [|done].
  destruct (kread_i32 h _) as [ls|]; [|done]. destruct (kread_i32 h _) as [gs|]; [|done].
  pose proof (claim_and_emit_view g h r (select_process_exit_status gs ls)
    (reclaimed (hk_pid_tgid h) (hk_task h) s)) as Hv.
  by destruct (claim_and_emit g h r _ _) as [[[]|] s'].
Qed.

(** C37: whatever a task was doing when it died, traced or not, thread or
    last thread: its exit leaves no entry of it in any pending map, leaves
    every other task's entries alone, and counts exactly one interruption per
    entry it removed. *)
Theorem exit_releases_pending g h s :
  Healthy h ->
  pending_view (sched_process_exit g h s).2 =
    pending_view (reclaimed (hk_pid_tgid h) (hk_task h) s) /\
  none_pending (hk_pid_tgid h) (sched_process_exit g h s).2 /\
  syscall_map (sched_process_exit g h s).2 !! hk_pid_tgid h = None /\
  tty_map (sched_process_exit g h s).2 !! hk_pid_tgid h = None /\
  execve_map (sched_process_exit g h s).2 !! hk_task h = None.
Proof.
  intros He. pose proof (exit_view g h s He) as Hv. split; [done|].
  unfold pending_view in Hv. injection Hv as Hex Hsy Hri Hop Hpa Hty _ _ _ _ _. unfold none_pending.
  rewrite Hex, Hsy, Hri, Hop, Hpa, Hty. cbn. by rewrite !lookup_delete_eq.
Qed.

(** The event of a process's exit. *)
Definition exit_event (g : Globals) (h : Hook) (r : KernelProcessRef) (status : Z) : BehaviorEvent :=
  let info := get_task_info g h (EventKind.to_u8 EventKind.ProcessExit) in
  mkEvent (header_json (set_header_ids info (kr_tgid r) (EventHeader.ppid info)
             (kr_start_boottime_ns r)))
    (mkEventType "LIFECYCLE" "process_exit" "behavior") None
    (Some (if status mod 128 =? 0 then
             obj [("exit_kind", JStr "code"); ("exit_code", JNum ((status / 256) mod 256));
                  ("raw_status", JNum status)]
           else
             obj [("exit_kind", JStr "signal"); ("signal", JNum (status mod 128));
                  ("core_dumped", JBool (Z.testbit status 7)); ("raw_status", JNum status)])) None.

Lemma has_pow2 st n : 0 <= n -> has st (2 ^ n) = Z.testbit st n.
Proof.
  intros Hn. unfold has. destruct (Z.testbit st n) eqn:E.
  - apply negb_true_iff, Z.eqb_neq. intros Hz. apply (f_equal (fun z => Z.testbit z n)) in Hz.
    rewrite Z.land_spec, E, Z.pow2_bits_true, Z.bits_0 in Hz by done. done.
  - apply negb_false_iff, Z.eqb_eq, Z.bits_inj_0. intros m.
    rewrite Z.land_spec, Z.pow2_bits_eqb by done.
    destruct (Z.eqb_spec n m) as [<-|]; [by rewrite E|apply andb_false_r].
Qed.

Lemma exit_status_parse pad st :
  in_s 32 st ->
  exists args, parse_process_exit (as_bytes pad (ProcessExitPayload.mk st 0)) =
    Ok ("LIFECYCLE", "process_exit", "behavior", Some args, None) /\
    args = if st mod 128 =? 0 then
             obj [("exit_kind", JStr "code"); ("exit_code", JNum ((st / 256) mod 256));
                  ("raw_status", JNum st)]
           else
             obj [("exit_kind", JStr "signal"); ("signal", JNum (st mod 128));
                  ("core_dumped", JBool (Z.testbit st 7)); ("raw_status", JNum st)].
Proof.
  intros Hst. unfold parse_process_exit. rewrite too_short_own', read_own.
  2:{ unfold in_range. cbn -[in_u in_s]. split_and!; try done; lia. }
  eexists. split; [reflexivity|]. cbn [ProcessExitPayload.raw_status].
  rewrite (Z.land_ones st 7 ltac:(lia) : Z.land st 0x7f = st mod 128).
  rewrite (has_pow2 st 7 ltac:(lia) : has st 0x80 = Z.testbit st 7).
  rewrite Z.shiftr_div_pow2 by lia.
  by rewrite (Z.land_ones (st / 2 ^ 8) 8 ltac:(lia) : Z.land (st / 2 ^ 8) 0xff = _).
Qed.

(** What the program reads of the last thread of a process: its identity and
    the status it leaves. *)
Record LastThread (g : Globals) (h : Hook) (r : KernelProcessRef) (leader group : Z) : Prop := {
  lt_ref : process_ref_from_task g h (hk_raw_arg h 0) = Some r;
  lt_signal : exists signal, signal <> 0 /\
    kread_u64 h (wrapping_add (hk_raw_arg h 0) (OFF_SIGNAL g)) = Some signal /\
    kread_i32 h (wrapping_add signal (OFF_SIGNAL_LIVE g)) = Some 0 /\
    kread_i32 h (wrapping_add signal (OFF_SIGNAL_GROUP_EXIT_CODE g)) = Some group;
  lt_leader : kread_i32 h (wrapping_add (kr_group_leader r) (OFF_EXIT_CODE g)) = Some leader }.

Lemma exit_runs_claim g h s r leader group :
  Healthy h -> should_trace g h = true -> LastThread g h r leader group ->
  sched_process_exit g h s =
  or_else (claim_and_emit g h r (select_process_exit_status group leader))
    (exit_failure EXIT_CAPTURE_FAILED) (reclaimed (hk_pid_tgid h) (hk_task h) s).
Proof.
  intros He Ht [Hr (sg & Hs & E1 & E2 & E3) El].
  unfold sched_process_exit, or_else, try_process_exit.
  rewrite (bind_some _ _ _ _ _ (reclaim_pending_spec h s He)). cbn zeta. rewrite Ht. cbn [negb].
  assert ((hk_raw_arg h 0 =? 0) = false) as ->.
  { revert Hr. unfold process_ref_from_task. by destruct (hk_raw_arg h 0 =? 0). }
  unfold mbind, M_bind, lift. rewrite E1, (eqb_nonzero _ Hs), E2. cbn [Z.eqb negb].
  by rewrite Hr, El, E3.
Qed.

Lemma kread_i32_range h a v : kread_i32 h a = Some v -> in_s 32 v.
Proof.
  unfold kread_i32. destruct (hk_kread h a 4); [|done]. intros [= <-]. apply swrap_bounds; lia.
Qed.

(** C35: the last thread of a traced process to exit reports the process
    exactly once: if the instance was not claimed, one record that decodes to
    the exit event with the group's status when there is one and the leader's
    otherwise, told apart as exit code or signal; if it was claimed, nothing. *)
Theorem process_exit_reported `{Base64} g h s r leader group :
  HookOk h -> Healthy h -> should_trace g h = true -> LastThread g h r leader group ->
  let key := ExitClaimKey_new (kr_tgid r) (kr_start_boottime_ns r) in
  let s' := (sched_process_exit g h s).2 in
  match exit_claims s !! key with
  | None => exists rec, EVENTS s' = EVENTS s ++ [rec] /\ exit_claims s' !! key = Some 1 /\
      deserialize rec =
        Ok (exit_event g h r (if negb (group =? 0) then group else leader))
  | Some _ => EVENTS s' = EVENTS s /\ exit_claims s' = exit_claims s
  end.
Proof.
  intros Hok He Ht Hl. cbn zeta. rewrite (exit_runs_claim g h s r leader group) by done.
  fold (select_process_exit_status group leader).
  assert (Hst : in_s 32 (select_process_exit_status group leader)).
  { destruct Hl as [_ (? & _ & _ & _ & E3) El]. unfold select_process_exit_status.
    destruct (negb _); by eapply kread_i32_range. }
  destruct Hl as [Hr _ _]. set (st := select_process_exit_status group leader) in *.
  destruct (process_ref_range g h Hok _ _ Hr) as (? & ? & Hn & Hn').
  pose proof (get_task_info_range g h Hok _ (EventKind.to_u8_range EventKind.ProcessExit)) as Hi.
  unfold or_else, claim_and_emit, mbind, M_bind, claim_insert, map_insert_noexist.
  cbn [reclaimed exit_claims]. destruct (exit_claims s !! _) eqn:Ek; [done|].
  unfold map_insert. rewrite (he_insert h He). cbn [claim_outcome]. unfold emit_fixed_opt.
  rewrite emit_healthy by (done || (rewrite length_as_bytes; vm_compute; lia)).
  eexists. split; [reflexivity|]. split; [apply lookup_insert_eq|].
  rewrite (deserialize_record _ _ EventKind.ProcessExit);
    [|apply set_header_ids_range; auto; unfold in_range in Hi; cbn in Hi; tauto|done|done].
  cbn [parse_kind]. destruct (exit_status_parse (hk_pad h) st Hst) as (args & -> & ->).
  reflexivity.
Qed.
