(* ===== verification/Exec.v ===== *)
(** * Exec capture (bloodhound-ebpf/src/layer2_exec.rs)

    The entry programs of [execve] and [execveat] copy the filename and the
    argument vector out of user memory within fixed bounds; the exit program
    joins them with the result.  The pending entry is keyed by the task, which
    survives the thread-group takeover of a non-leader exec. *)

From S2P Require Import Prelude Layout Records Common Json Utf8 Event Usdt Deserializer Wire Bpf.
From S2P Require Import Task HookFacts Entries Rich RichFacts PathFacts.

Local Open Scope string_scope.
Local Open Scope Z_scope.
Local Open Scope list_scope.

Definition MAX_SINGLE_ARG : Z := 256.
Definition ARGV_MASK : Z := MAX_ARGV_SIZE - 1.
Definition OFFSET_LIMIT : Z := MAX_ARGV_SIZE - MAX_SINGLE_ARG - 1.
Definition MAX_ARGS : nat := 20.

Section Exec.
Context (g : Globals) (h : Hook).

(** [copy_checked], the [call]-th kernel copy of the invocation; the helper
    zeroes the destination when it fails. *)
Definition copy_checked (call : nat) (off : nat) (src dst : list byte) : bool * list byte :=
  if hk_memcpy h call then (true, overwrite off src dst)
  else (false, overwrite off (replicate (length src) NUL) dst).

(** [SCRATCH_BUF], by slot *)
Definition slot (i : nat) (s : Bpf) : list byte := nth i (scratch_buf (scratch s)) [].
Definition set_slot (i : nat) (buf : list byte) : M unit := modify (fun s =>
  let c := scratch s in
  set_scratch (mkScratch (tmp_rich_data c) (tmp_openat_filename c) (tmp_path1 c) (tmp_path2 c)
    (tmp_exec_filename c) (tmp_exec_argv c) (assembly c) (<[i := buf]> (scratch_buf c))) s).

Definition read_filename (filename_ptr : Z) : M (Z * CaptureStatus.t) :=
  if negb (hk_scratch h (SCRATCH_BUF 0)) then mret (0, CaptureStatus.ReadError) else
  s ← get_state;
  let '(n, status, buf) := read_user_str h filename_ptr (slot 0 s) in
  _ ← set_slot 0 buf;
  mret (n, status).

(** The loop over [0..MAX_ARGS], from argument [i] on, and the check of the
    word after it; with the two scratch buffers. *)
Fixpoint argv_loop (n i : nat) (argv_ptr offset : Z) (buf tmp : list byte)
    : Z * CaptureStatus.t * list byte * list byte :=
  let word := uread_u64 h (wrapping_add argv_ptr (8 * Z.of_nat i)) in
  match n with
  | O =>
      match word with
      | Some p =>
          (wrap 16 offset, if p =? 0 then CaptureStatus.Complete else CaptureStatus.Truncated,
           buf, tmp)
      | None => (wrap 16 offset, CaptureStatus.ReadError, buf, tmp)
      end
  | S n =>
      match word with
      | None => (wrap 16 offset, CaptureStatus.ReadError, buf, tmp)
      | Some arg =>
          if arg =? 0 then (wrap 16 offset, CaptureStatus.Complete, buf, tmp) else
          let safe_offset := Z.land offset ARGV_MASK in
          if OFFSET_LIMIT <? safe_offset then (wrap 16 offset, CaptureStatus.Truncated, buf, tmp)
          else
          match hk_ustr h arg (Z.to_nat MAX_PATH_SIZE) with
          | None => (wrap 16 offset, CaptureStatus.ReadError, buf, hk_garbage h tmp)
          | Some s =>
              let arg_len := len s in
              let tmp := overwrite 0 (s ++ [NUL]) tmp in
              let '(copied, buf) :=
                copy_checked i (Z.to_nat safe_offset) (take (Z.to_nat MAX_SINGLE_ARG) tmp) buf in
              if negb copied then (wrap 16 offset, CaptureStatus.ReadError, buf, tmp)
              else if MAX_SINGLE_ARG - 1 <? arg_len then
                (wrap 16 (safe_offset + MAX_SINGLE_ARG), CaptureStatus.Truncated,
                 <[Z.to_nat (Z.land (safe_offset + MAX_SINGLE_ARG - 1) ARGV_MASK) := NUL]> buf, tmp)
              else
                let l := Z.land arg_len (MAX_SINGLE_ARG - 1) in
                let separator := Z.land (safe_offset + l) ARGV_MASK in
                argv_loop n (S i) argv_ptr (separator + 1)
                  (<[Z.to_nat separator := NUL]> buf) tmp
          end
      end
  end.

Definition read_argv (argv_ptr : Z) : M (Z * CaptureStatus.t) :=
  if argv_ptr =? 0 then mret (0, CaptureStatus.Complete) else
  if negb (hk_scratch h (SCRATCH_BUF 1)) then mret (0, CaptureStatus.ReadError) else
  if negb (hk_scratch h (SCRATCH_BUF 3)) then mret (0, CaptureStatus.ReadError) else
  s ← get_state;
  let '(n, status, buf, tmp) := argv_loop MAX_ARGS 0 argv_ptr 0 (slot 1 s) (slot 3 s) in
  _ ← set_slot 1 buf;
  _ ← set_slot 3 tmp;
  mret (n, status).

(** One of the two copies of [capture_exec] into the entry: the bytes kept,
    their status and the entry's buffer. *)
Definition stage (call i : nat) (n : Z) (status : CaptureStatus.t) (entry_buf : list byte) (s : Bpf)
    : Z * CaptureStatus.t * list byte :=
  if 0 <? n then
    if hk_scratch h (SCRATCH_BUF i) then
      match copy_checked call 0 (take (Z.to_nat (Z.min n (MAX_PATH_SIZE - 1))) (slot i s)) entry_buf with
      | (true, buf) => (n, status, buf)
      | (false, buf) => (0, CaptureStatus.ReadError, buf)
      end
    else (0, CaptureStatus.ReadError, entry_buf)
  else (n, status, entry_buf).

Definition set_tmp_exec (filename argv : list byte) : M unit := modify (fun s =>
  let c := scratch s in
  set_scratch (mkScratch (tmp_rich_data c) (tmp_openat_filename c) (tmp_path1 c) (tmp_path2 c)
    filename argv (assembly c) (scratch_buf c)) s).

Definition capture_exec (kind : EventKind.t) (filename_ptr argv_ptr : Z) : M unit :=
  if negb (hk_scratch h EXECVE_TMP_BUF) then exec_failure EXEC_ENTRY_CAPTURE_FAILED else
  let header := get_task_info g h (EventKind.to_u8 kind) in
  f ← read_filename filename_ptr;
  a ← read_argv argv_ptr;
  s ← get_state;
  let '(filename_len, filename_status, filename_buf) :=
    stage MAX_ARGS 0 f.1 f.2 (tmp_exec_filename (scratch s)) s in
  let '(argv_len, argv_status, argv_buf) :=
    stage (MAX_ARGS + 1) 1 a.1 a.2 (tmp_exec_argv (scratch s)) s in
  let header := with_capture header (HeaderCapture.mk 1 (CaptureStatus.as_u8 argv_status)
                  (CaptureStatus.as_u8 filename_status)) in
  _ ← set_tmp_exec filename_buf argv_buf;
  _ ← exec_view_emit g h header;
  r ← execve_insert h (hk_task h)
        (mkExecveEntry header filename_len argv_len filename_buf argv_buf);
  match r with
  | Some _ => exec_failure EXEC_ENTRY_SAVE_FAILED
  | None => mret tt
  end.

Definition try_sys_enter_execve : M unit :=
  if negb (should_trace g h) then mret tt else
  filename_ptr ← read_at_u64 h 16;
  argv_ptr ← read_at_u64 h 24;
  capture_exec EventKind.Execve filename_ptr argv_ptr.

Definition sys_enter_execve : M unit :=
  or_else try_sys_enter_execve (exec_failure EXEC_ENTRY_CAPTURE_FAILED).

Definition try_sys_enter_execveat : M unit :=
  if negb (should_trace g h) then mret tt else
  filename_ptr ← read_at_u64 h 24;
  argv_ptr ← read_at_u64 h 32;
  capture_exec EventKind.Execveat filename_ptr argv_ptr.

Definition sys_enter_execveat : M unit :=
  or_else try_sys_enter_execveat (exec_failure EXEC_ENTRY_CAPTURE_FAILED).

Definition remove_entry (task_key : Z) : M unit :=
  r ← execve_remove h task_key;
  match r with
  | Some _ => exec_failure EXEC_ENTRY_CLEANUP_FAILED
  | None => mret tt
  end.

(** One of the two copies of the exit program: how much of [src] the record
    has, whether a nonempty copy failed, and the buffer. *)
Definition append (call off : nat) (n : Z) (src buf : list byte) : Z * bool * list byte :=
  if 0 <? n then
    match copy_checked call off (take (Z.to_nat n) src) buf with
    | (true, buf) => (n, true, buf)
    | (false, buf) => (0, false, buf)
    end
  else (n, true, buf).

Definition emit_exec (entry : ExecveEntry) (return_code : Z) : M unit :=
  let fixed := (size_of EventHeader.t + size_of ExecvePayload.t)%nat in
  if negb (hk_scratch h ASSEMBLY_BUF) then mret tt else
  s ← get_state;
  let c := EventHeader.capture (xe_header entry) in
  let '(filename_len, filename_ok, buf) :=
    append 0 fixed (Z.min (xe_filename_len entry) (MAX_PATH_SIZE - 1)) (xe_filename_buf entry)
      (assembly (scratch s)) in
  let '(argv_len, argv_ok, buf) :=
    append 1 (fixed + Z.to_nat filename_len) (Z.min (xe_argv_len entry) (MAX_ARGV_SIZE - 1))
      (xe_argv_buf entry) buf in
  let read_error := CaptureStatus.as_u8 CaptureStatus.ReadError in
  let header := with_capture (xe_header entry) (HeaderCapture.mk (HeaderCapture.version c)
    (if argv_ok then HeaderCapture.primary c else read_error)
    (if filename_ok then HeaderCapture.secondary c else read_error)) in
  let payload := ExecvePayload.mk (wrap 16 filename_len) (wrap 16 argv_len) (swrap 32 return_code) in
  let buf := overwrite 0 (as_bytes (hk_pad h) header) buf in
  let buf := overwrite (size_of EventHeader.t) (as_bytes (hk_pad h) payload) buf in
  let total := (fixed + Z.to_nat filename_len + Z.to_nat argv_len)%nat in
  _ ← set_assembly buf;
  if Z.of_nat total <=? ASSEMBLY_BUF_SIZE
  then _ ← emit_event h (take total buf); mret tt
  else mret tt.

Definition try_sys_exit_execve : M unit :=
  s ← get_state;
  match execve_map s !! hk_task h with
  | None => mret tt
  | Some entry =>
      return_code ← on_err (read_at_i64 h 16) (remove_entry (hk_task h));
      _ ← emit_exec entry return_code;
      remove_entry (hk_task h)
  end.

Definition sys_exit_execve : M unit :=
  or_else try_sys_exit_execve (exec_failure EXEC_EXIT_CAPTURE_FAILED).
Definition sys_exit_execveat : M unit :=
  or_else try_sys_exit_execve (exec_failure EXEC_EXIT_CAPTURE_FAILED).
End Exec.

(** ** The argument vector in user memory *)

Section Argv.
Context (h : Hook) (Hok : HookOk h) (argv_ptr : Z).

Definition argv_word (i : nat) : option Z := uread_u64 h (wrapping_add argv_ptr (8 * Z.of_nat i)).

(** The array starts with pointers to these strings. *)
Definition user_args (args : list (list byte)) : Prop :=
  forall i a, args !! i = Some a ->
  exists p, p <> 0 /\ argv_word i = Some p /\ hk_ustr h p (Z.to_nat MAX_PATH_SIZE) = Some a.

Lemma user_args_snoc args p a :
  user_args args -> p <> 0 -> argv_word (length args) = Some p ->
  hk_ustr h p (Z.to_nat MAX_PATH_SIZE) = Some a -> user_args (args ++ [a]).
Proof.
  intros Hu Hp Hw Ha i b Hi. apply lookup_app_Some in Hi as [Hi|[Hl Hi]]; [by apply Hu|].
  apply list_lookup_singleton_Some in Hi as [Hi <-]. assert (i = length args) as -> by lia. by exists p.
Qed.

Lemma land_mask x : 0 <= x < 4096 -> Z.land x ARGV_MASK = x.
Proof. intros Hx. rewrite (Z.land_ones x 12 ltac:(lia) : Z.land x ARGV_MASK = _). by apply Z.mod_small. Qed.

(** Separating the first [k] bytes of a 256-byte block written at [off]. *)
Lemma take_separated off k block buf :
  (k < length block)%nat -> (off + length block <= length buf)%nat ->
  take (off + k + 1) (<[(off + k)%nat := NUL]> (overwrite off block buf)) =
  take off buf ++ take k block ++ [NUL].
Proof.
  intros Hk Hl. rewrite Nat.add_1_r.
  rewrite (take_S_r _ _ NUL).
  2:{ apply list_lookup_insert_eq. rewrite length_overwrite; lia. }
  rewrite take_insert_ge by lia. unfold overwrite.
  rewrite take_app_ge by (rewrite length_take; lia).
  rewrite length_take, Nat.min_l by lia.
  replace (off + k - off)%nat with k by lia. rewrite take_app_le by lia. by rewrite <- app_assoc.
Qed.

Definition block (s tmp : list byte) : list byte :=
  take (Z.to_nat MAX_SINGLE_ARG) (overwrite 0 (s ++ [NUL]) tmp).

Lemma block_length s tmp :
  (length s < 4096)%nat -> length tmp = 4096%nat -> length (block s tmp) = 256%nat.
Proof.
  intros Hs Ht. unfold block. change (Z.to_nat MAX_SINGLE_ARG) with 256%nat.
  rewrite length_take, length_overwrite; rewrite ?length_app; cbn [length]; lia.
Qed.

Lemma take_block k s tmp :
  (k <= 255)%nat -> (k <= length s)%nat -> take k (block s tmp) = take k s.
Proof.
  intros Hk Hs. unfold block, overwrite. change (Z.to_nat MAX_SINGLE_ARG) with 256%nat.
  rewrite take_take, Nat.min_l by lia.
  rewrite take_0, app_nil_l, <- app_assoc. by rewrite take_app_le by lia.
Qed.

(** What the loop carries: the buffers and the arguments read so far. *)
Definition argv_inv (args : list (list byte)) (offset : Z) (buf tmp : list byte) : Prop :=
  user_args args /\ Forall (fun a => len a < MAX_SINGLE_ARG) args /\
  offset = len (argv_bytes args) /\ offset < MAX_ARGV_SIZE /\
  take (Z.to_nat offset) buf = argv_bytes args /\
  length buf = Z.to_nat MAX_PATH_SIZE /\ length tmp = Z.to_nat MAX_PATH_SIZE.

(** The buffers after one argument of at most 255 bytes. *)
Definition push_arg (offset : Z) (s buf tmp : list byte) : list byte :=
  <[Z.to_nat (offset + len s) := NUL]> (overwrite (Z.to_nat offset) (block s tmp) buf).

Lemma len_argv_snoc args a : len (argv_bytes (args ++ [a])) = len (argv_bytes args) + len a + 1.
Proof. rewrite argv_bytes_snoc. unfold len. rewrite !length_app. cbn. lia. Qed.

Lemma argv_inv_push args offset buf tmp p s :
  argv_inv args offset buf tmp -> p <> 0 -> argv_word (length args) = Some p ->
  hk_ustr h p (Z.to_nat MAX_PATH_SIZE) = Some s -> len s < MAX_SINGLE_ARG -> offset <= OFFSET_LIMIT ->
  argv_inv (args ++ [s]) (offset + len s + 1) (push_arg offset s buf tmp)
    (overwrite 0 (s ++ [NUL]) tmp).
Proof.
  intros (Hu & Hf & Ho & Hb & Ht & Hl1 & Hl2) Hp Hw Hs Hlen Hlim.
  pose proof (ok_ustr h Hok _ _ _ Hs) as [Hsl _]. pose proof (len_nonneg (argv_bytes args)).
  unfold argv_inv, OFFSET_LIMIT, MAX_SINGLE_ARG, MAX_ARGV_SIZE, MAX_PATH_SIZE in *.
  unfold len in Hlen. split; [by eapply user_args_snoc|]. split.
  { apply Forall_app. split; [done|]. by repeat constructor. }
  rewrite len_argv_snoc, <- Ho. split; [done|]. unfold len in *. split; [lia|].
  split; [|split].
  - unfold push_arg, len. rewrite argv_bytes_snoc, <- Ht.
    replace (Z.to_nat (offset + Z.of_nat (length s) + 1)) with (Z.to_nat offset + length s + 1)%nat by lia.
    replace (Z.to_nat (offset + Z.of_nat (length s))) with (Z.to_nat offset + length s)%nat by lia.
    pose proof (block_length s tmp ltac:(lia) ltac:(lia)).
    rewrite take_separated by lia. rewrite take_block, (take_ge s) by lia. by rewrite app_assoc.
  - unfold push_arg. rewrite length_insert, length_overwrite;
      rewrite ?(block_length s tmp); lia.
  - rewrite length_overwrite; rewrite ?length_app; cbn; lia.
Qed.

Lemma land_255 x : 0 <= x < 256 -> Z.land x (MAX_SINGLE_ARG - 1) = x.
Proof.
  intros Hx. rewrite (Z.land_ones x 8 ltac:(lia) : Z.land x (MAX_SINGLE_ARG - 1) = _).
  by apply Z.mod_small.
Qed.

(** One iteration that keeps its argument. *)
Lemma argv_loop_push n args offset buf tmp p s :
  argv_inv args offset buf tmp -> p <> 0 -> argv_word (length args) = Some p ->
  hk_ustr h p (Z.to_nat MAX_PATH_SIZE) = Some s -> len s < MAX_SINGLE_ARG -> offset <= OFFSET_LIMIT ->
  hk_memcpy h (length args) = true ->
  argv_loop h (S n) (length args) argv_ptr offset buf tmp =
  argv_loop h n (length (args ++ [s])) argv_ptr (offset + len s + 1) (push_arg offset s buf tmp)
    (overwrite 0 (s ++ [NUL]) tmp).
Proof.
  intros (_ & _ & Ho & Hb & _) Hp Hw Hs Hlen Hlim Hm. cbn [argv_loop].
  fold (argv_word (length args)). rewrite Hw, (proj2 (Z.eqb_neq p 0) Hp). cbn zeta.
  pose proof (len_nonneg (argv_bytes args)). pose proof (len_nonneg s).
  unfold OFFSET_LIMIT, MAX_SINGLE_ARG, MAX_ARGV_SIZE in Hlen, Hlim, Hb.
  rewrite (land_mask offset) by lia. rewrite (proj2 (Z.ltb_ge OFFSET_LIMIT offset)) by done.
  rewrite Hs. unfold copy_checked. rewrite Hm. cbn [negb].
  rewrite (proj2 (Z.ltb_ge (MAX_SINGLE_ARG - 1) (len s))) by (unfold MAX_SINGLE_ARG; lia).
  rewrite land_255, land_mask by lia. rewrite length_app, Nat.add_1_r. reflexivity.
Qed.

(** What a captured vector says of the array: its arguments in order, the last
    one possibly cut, with a status that tells whether it is all of them. *)
Definition argv_captured (status : CaptureStatus.t) (argv : list (list byte)) : Prop :=
  exists args cut,
    argv = args ++ cut /\
    user_args args /\ (length args <= MAX_ARGS)%nat /\ Forall (fun a => len a < MAX_SINGLE_ARG) args /\
    match status with
    | CaptureStatus.Complete => cut = [] /\ argv_word (length args) = Some 0
    | CaptureStatus.Truncated =>
        (exists p, p <> 0 /\ argv_word (length args) = Some p) /\
        (cut = [] \/ exists a, user_args (args ++ [a]) /\ MAX_SINGLE_ARG <= len a /\
                       cut = [take (Z.to_nat (MAX_SINGLE_ARG - 1)) a])
    | CaptureStatus.ReadError => cut = []
    end.

(** The buffer holds a captured vector with its terminators. *)
Definition argv_result (n : Z) (status : CaptureStatus.t) (buf : list byte) : Prop :=
  exists argv, argv_captured status argv /\ n = len (argv_bytes argv) /\ n < MAX_ARGV_SIZE /\
    take (Z.to_nat n) buf = argv_bytes argv.

Lemma argv_inv_result args offset buf tmp status :
  argv_inv args offset buf tmp -> (length args <= MAX_ARGS)%nat ->
  match status with
  | CaptureStatus.Complete => argv_word (length args) = Some 0
  | CaptureStatus.Truncated => exists p, p <> 0 /\ argv_word (length args) = Some p
  | CaptureStatus.ReadError => True
  end ->
  argv_result (wrap 16 offset) status buf.
Proof.
  intros (Hu & Hf & Ho & Hb & Ht & _) Hl Hs. pose proof (len_nonneg (argv_bytes args)).
  unfold MAX_ARGV_SIZE in Hb.
  assert (wrap 16 offset = offset) as -> by (apply wrap_id; unfold in_u; lia).
  exists args. split_and!; try done. exists args, []. rewrite app_nil_r. split_and!; try done.
  destruct status; [done| |done]. split; [done|]. by left.
Qed.

(** The iteration that cuts an argument that is too long. *)
Lemma argv_cut_result args offset buf tmp p s :
  argv_inv args offset buf tmp -> (length args <= MAX_ARGS)%nat ->
  p <> 0 -> argv_word (length args) = Some p ->
  hk_ustr h p (Z.to_nat MAX_PATH_SIZE) = Some s -> MAX_SINGLE_ARG <= len s -> offset <= OFFSET_LIMIT ->
  argv_result (wrap 16 (offset + MAX_SINGLE_ARG)) CaptureStatus.Truncated
    (<[Z.to_nat (offset + MAX_SINGLE_ARG - 1) := NUL]>
       (overwrite (Z.to_nat offset) (block s tmp) buf)).
Proof.
  intros (Hu & Hf & Ho & Hb & Ht & Hl1 & Hl2) Hl Hp Hw Hs Hlen Hlim.
  pose proof (ok_ustr h Hok _ _ _ Hs) as [Hsl _]. pose proof (len_nonneg (argv_bytes args)).
  exists (args ++ [take (Z.to_nat (MAX_SINGLE_ARG - 1)) s]).
  change (Z.to_nat (MAX_SINGLE_ARG - 1)) with 255%nat.
  unfold OFFSET_LIMIT, MAX_ARGV_SIZE, MAX_PATH_SIZE in *.
  assert (Hlen' : (256 <= length s)%nat) by (unfold len, MAX_SINGLE_ARG in Hlen; lia).
  change MAX_SINGLE_ARG with 256 in *.
  assert (wrap 16 (offset + 256) = offset + 256) as -> by (apply wrap_id; unfold in_u; lia).
  assert (len (take 255 s) = 255) by (unfold len; rewrite length_take; lia).
  rewrite len_argv_snoc, <- Ho. split_and!; try lia.
  - exists args, [take 255 s]. split_and!; try done; [by exists p|].
    right. exists s. split_and!; [by eapply user_args_snoc|done|done].
  - rewrite argv_bytes_snoc, <- Ht.
    replace (Z.to_nat (offset + 256)) with (Z.to_nat offset + 255 + 1)%nat by lia.
    replace (Z.to_nat (offset + 256 - 1)) with (Z.to_nat offset + 255)%nat by lia.
    pose proof (block_length s tmp ltac:(lia) ltac:(lia)).
    rewrite take_separated by lia. rewrite take_block by lia. by rewrite app_assoc.
Qed.

(** Writing past the offset keeps what was captured. *)
Lemma argv_inv_tail args offset buf tmp x :
  argv_inv args offset buf tmp -> offset <= OFFSET_LIMIT -> length x = 256%nat ->
  argv_inv args offset (overwrite (Z.to_nat offset) x buf) tmp.
Proof.
  intros (Hu & Hf & Ho & Hb & Ht & Hl1 & Hl2) Hlim Hx. pose proof (len_nonneg (argv_bytes args)).
  unfold argv_inv, OFFSET_LIMIT, MAX_SINGLE_ARG, MAX_ARGV_SIZE, MAX_PATH_SIZE in *.
  split_and!; try done.
  - rewrite <- Ht. unfold overwrite. rewrite take_app_le by (rewrite length_take; lia).
    by rewrite take_take, Nat.min_id.
  - rewrite length_overwrite; lia.
Qed.

Lemma argv_loop_sound n args offset buf tmp :
  argv_inv args offset buf tmp -> (length args + n = MAX_ARGS)%nat ->
  let '(m, status, buf', _) := argv_loop h n (length args) argv_ptr offset buf tmp in
  argv_result m status buf'.
Proof.
  revert args offset buf tmp. induction n as [|n IH]; intros args offset buf tmp Hi Hn.
  { cbn [argv_loop]. fold (argv_word (length args)). destruct (argv_word (length args)) as [p|] eqn:Hw.
    - eapply argv_inv_result; [done|lia|]. destruct (Z.eqb_spec p 0) as [->|]; [done|by exists p].
    - eapply argv_inv_result; [done|lia|done]. }
  destruct (argv_word (length args)) as [p|] eqn:Hw.
  2:{ cbn [argv_loop]. fold (argv_word (length args)). rewrite Hw.
      eapply argv_inv_result; [done|lia|done]. }
  destruct (Z.eqb_spec p 0) as [->|Hp].
  { cbn [argv_loop]. fold (argv_word (length args)). rewrite Hw. cbn [Z.eqb].
    eapply argv_inv_result; [done|lia|done]. }
  destruct (Z.ltb_spec OFFSET_LIMIT offset) as [Hlim|Hlim].
  { pose proof Hi as (_ & _ & Ho & Hb & _). pose proof (len_nonneg (argv_bytes args)).
    cbn [argv_loop]. fold (argv_word (length args)). rewrite Hw, (proj2 (Z.eqb_neq p 0) Hp). cbn zeta.
    rewrite land_mask by (unfold MAX_ARGV_SIZE in Hb; lia).
    rewrite (proj2 (Z.ltb_lt OFFSET_LIMIT offset)) by done.
    eapply argv_inv_result; [done|lia|by exists p]. }
  destruct (hk_ustr h p (Z.to_nat MAX_PATH_SIZE)) as [s|] eqn:Hs;
    [destruct (hk_memcpy h (length args)) eqn:Hm; [destruct (Z.ltb_spec (len s) MAX_SINGLE_ARG) as [Hl|Hl]|]|].
  { erewrite argv_loop_push by done. apply IH; [by eapply argv_inv_push|].
    rewrite length_app. cbn. lia. }
  all: pose proof Hi as (_ & _ & Ho & Hb & Ht & Hl1 & Hl2); pose proof (len_nonneg (argv_bytes args)).
  all: unfold MAX_ARGV_SIZE in Hb.
  all: cbn [argv_loop]; fold (argv_word (length args)); rewrite Hw, (proj2 (Z.eqb_neq p 0) Hp);
    cbn zeta; rewrite (land_mask offset) by lia;
    rewrite (proj2 (Z.ltb_ge OFFSET_LIMIT offset)) by done; rewrite Hs.
  - unfold copy_checked. rewrite Hm. cbn [negb].
    rewrite (proj2 (Z.ltb_lt (MAX_SINGLE_ARG - 1) (len s))) by lia.
    rewrite land_mask by (unfold OFFSET_LIMIT, MAX_ARGV_SIZE, MAX_SINGLE_ARG in *; lia).
    by eapply (argv_cut_result args _ _ _ p); [done|lia|..].
  - unfold copy_checked. rewrite Hm. cbn [negb].
    eapply (argv_inv_result args offset _ tmp); [|lia|done]. apply argv_inv_tail; [done|done|].
    rewrite length_replicate. apply block_length; [|done].
    apply (ok_ustr h Hok _ _ _ Hs).
  - eapply argv_inv_result; [done|lia|done].
Qed.
End Argv.

(** ** End to end *)

(** The scratch arrays have their declared sizes. *)
Record ScratchOk (s : Bpf) : Prop := mkScratchOk {
  so_slots : length (scratch_buf (scratch s)) = 4%nat;
  so_slot : forall i, (i < 4)%nat -> length (slot i s) = Z.to_nat MAX_PATH_SIZE;
  so_assembly : length (assembly (scratch s)) = Z.to_nat ASSEMBLY_BUF_SIZE }.

(** What the kernel side makes of an argument vector, absent or not. *)
Definition exec_argv (h : Hook) (argv_ptr : Z) (status : CaptureStatus.t)
    (argv : list (list byte)) : Prop :=
  if argv_ptr =? 0 then status = CaptureStatus.Complete /\ argv = []
  else argv_captured h argv_ptr status argv.

(** Everything but the scratch slots is as before. *)
Definition only_scratch (s s' : Bpf) : Prop :=
  s' = set_scratch (scratch s') s /\ tmp_exec_filename (scratch s') = tmp_exec_filename (scratch s) /\
  tmp_exec_argv (scratch s') = tmp_exec_argv (scratch s).

Lemma only_scratch_refl s : only_scratch s s.
Proof. by destruct s. Qed.

Lemma set_slot_only i buf s : only_scratch s (set_slot i buf s).2.
Proof. by destruct s. Qed.

Lemma slot_set_slot i j buf s :
  (i < length (scratch_buf (scratch s)))%nat ->
  slot j (set_slot i buf s).2 = if decide (j = i) then buf else slot j s.
Proof.
  intros Hi. unfold slot. cbn. rewrite !nth_lookup. destruct (decide (j = i)) as [->|].
  - by rewrite list_lookup_insert_eq.
  - by rewrite list_lookup_insert_ne.
Qed.

Lemma read_argv_sound h argv_ptr s :
  HookOk h -> ScratchOk s ->
  exists n status s' argv, read_argv h argv_ptr s = (Some (n, status), s') /\
    exec_argv h argv_ptr status argv /\ n = len (argv_bytes argv) /\ n < MAX_ARGV_SIZE /\
    take (Z.to_nat n) (slot 1 s') = argv_bytes argv /\ slot 0 s' = slot 0 s /\ only_scratch s s'.
Proof.
  intros Hok [Hn Hs _]. unfold read_argv, exec_argv.
  destruct (Z.eqb_spec argv_ptr 0) as [->|Hp].
  { exists 0, CaptureStatus.Complete, s, []. by repeat split; destruct s. }
  assert (Hi : argv_inv h argv_ptr [] 0 (slot 1 s) (slot 3 s)).
  { unfold argv_inv. rewrite !Hs by lia. split_and!; try done. }
  assert (He : argv_captured h argv_ptr CaptureStatus.ReadError []).
  { exists [], []. split_and!; try done; try (cbn; lia); constructor. }
  destruct (hk_scratch h (SCRATCH_BUF 1)); cbn [negb].
  2:{ exists 0, CaptureStatus.ReadError, s, []. split_and!; try done; apply only_scratch_refl. }
  destruct (hk_scratch h (SCRATCH_BUF 3)); cbn [negb].
  2:{ exists 0, CaptureStatus.ReadError, s, []. split_and!; try done; apply only_scratch_refl. }
  unfold mbind at 1, M_bind at 1, get_state.
  pose proof (argv_loop_sound h Hok argv_ptr MAX_ARGS [] 0 _ _ Hi eq_refl) as Hr.
  change (length []) with 0%nat in Hr.
  destruct (argv_loop h MAX_ARGS 0 argv_ptr 0 (slot 1 s) (slot 3 s)) as [[[m st] buf] tmp].
  destruct Hr as (argv & Hc & Hm & Hb & Ht).
  exists m, st, (set_slot 3 tmp (set_slot 1 buf s).2).2, argv.
  assert (Hn' : length (scratch_buf (scratch (set_slot 1 buf s).2)) = 4%nat)
    by (cbn; by rewrite length_insert).
  split; [reflexivity|]. rewrite !slot_set_slot by lia. split_and!; done.
Qed.

(** C13: what the kernel side calls a complete argument vector is all of
    it: the NULL after the last argument was read, no argument was cut, and the
    captured bytes are the arguments with their terminators.  A truncated or
    failed capture is a prefix of the vector, in which at most the last
    argument is cut.  The capture always returns, within the buffer. *)
Theorem argv_capture_sound h argv_ptr s :
  HookOk h -> ScratchOk s -> argv_ptr <> 0 ->
  exists n status s' argv, read_argv h argv_ptr s = (Some (n, status), s') /\
    argv_captured h argv_ptr status argv /\
    0 <= n < MAX_ARGV_SIZE /\ take (Z.to_nat n) (slot 1 s') = argv_bytes argv.
Proof.
  intros Hok Hs Hp. destruct (read_argv_sound h argv_ptr s Hok Hs)
    as (n & st & s' & argv & Hr & Hc & Hn & Hb & Ht & _).
  unfold exec_argv in Hc. rewrite (proj2 (Z.eqb_neq argv_ptr 0) Hp) in Hc.
  exists n, st, s', argv. split_and!; try done. rewrite Hn. apply len_nonneg.
Qed.

(** A vector within the bounds is captured whole. *)
Lemma argv_loop_complete h argv_ptr todo : forall n args offset buf tmp,
  HookOk h -> Healthy h -> argv_inv h argv_ptr args offset buf tmp ->
  (length args + n = MAX_ARGS)%nat -> (length todo <= n)%nat ->
  user_args h argv_ptr (args ++ todo) -> argv_word h argv_ptr (length (args ++ todo)) = Some 0 ->
  Forall (fun a => len a < MAX_SINGLE_ARG) todo ->
  len (argv_bytes (args ++ todo)) <= OFFSET_LIMIT + 1 ->
  exists buf' tmp', argv_loop h n (length args) argv_ptr offset buf tmp =
      (len (argv_bytes (args ++ todo)), CaptureStatus.Complete, buf', tmp') /\
    take (length (argv_bytes (args ++ todo))) buf' = argv_bytes (args ++ todo).
Proof.
  induction todo as [|a todo IH]; intros n args offset buf tmp Hok He Hi Hn Hl Hu Hz Hf Hb.
  - rewrite app_nil_r in *. pose proof Hi as (_ & _ & Ho & Hb' & Ht & _).
    unfold argv_word in Hz. exists buf, tmp.
    assert (wrap 16 offset = len (argv_bytes args)) as Hw.
    { rewrite <- Ho. apply wrap_id. pose proof (len_nonneg (argv_bytes args)).
      unfold in_u, MAX_ARGV_SIZE in *. lia. }
    split.
    + destruct n; cbn [argv_loop]; rewrite Hz; cbn [Z.eqb]; by rewrite Hw.
    + rewrite Ho in Ht. unfold len in Ht. by rewrite Nat2Z.id in Ht.
  - destruct n as [|n]; [cbn in Hl; lia|]. apply Forall_cons in Hf as [Ha Hf].
    destruct (Hu (length args) a) as (p & Hp & Hw & Hs).
    { by rewrite lookup_app_r, Nat.sub_diag by lia. }
    assert (Hlim : offset <= OFFSET_LIMIT).
    { pose proof Hi as (_ & _ & Ho & _). rewrite Ho. revert Hb. unfold argv_bytes.
      rewrite flat_map_app. unfold len. rewrite length_app. cbn [flat_map].
      rewrite !length_app. cbn [length]. lia. }
    assert (Ea : args ++ a :: todo = (args ++ [a]) ++ todo) by (by rewrite <- app_assoc).
    rewrite Ea in *. erewrite argv_loop_push by (done || apply (he_memcpy h He)).
    apply IH; try done; [by eapply argv_inv_push| |cbn in Hl; lia].
    rewrite length_app. cbn. lia.
Qed.

(** An argument vector of at most 20 arguments of at most 255 bytes
    each and 3840 bytes with their terminators is captured whole, and called
    complete. *)
Theorem argv_capture_complete h argv_ptr s args :
  HookOk h -> Healthy h -> ScratchOk s -> argv_ptr <> 0 ->
  user_args h argv_ptr args -> argv_word h argv_ptr (length args) = Some 0 ->
  (length args <= MAX_ARGS)%nat -> Forall (fun a => len a < MAX_SINGLE_ARG) args ->
  len (argv_bytes args) <= OFFSET_LIMIT + 1 ->
  exists s', read_argv h argv_ptr s = (Some (len (argv_bytes args), CaptureStatus.Complete), s') /\
    take (length (argv_bytes args)) (slot 1 s') = argv_bytes args.
Proof.
  intros Hok He [Hn Hs _] Hp Hu Hz Hl Hf Hb.
  assert (Hi : argv_inv h argv_ptr [] 0 (slot 1 s) (slot 3 s)).
  { unfold argv_inv. rewrite !Hs by lia. split_and!; try done. }
  destruct (argv_loop_complete h argv_ptr args MAX_ARGS [] 0 _ _ Hok He Hi eq_refl Hl Hu Hz Hf Hb)
    as (buf & tmp & Hr & Ht).
  unfold read_argv. rewrite (proj2 (Z.eqb_neq argv_ptr 0) Hp), !(he_scratch h He). cbn [negb].
  unfold mbind at 1, M_bind at 1, get_state. change (length []) with 0%nat in Hr. rewrite Hr.
  exists (set_slot 3 tmp (set_slot 1 buf s).2).2. split; [reflexivity|].
  rewrite !slot_set_slot by (cbn; rewrite ?length_insert; lia). done.
Qed.

Lemma read_user_str_length h ptr buf n status buf' :
  HookOk h -> length buf = Z.to_nat MAX_PATH_SIZE -> read_user_str h ptr buf = (n, status, buf') ->
  length buf' = length buf.
Proof.
  intros Hok Hl. unfold read_user_str. destruct (hk_ustr h ptr _) as [x|] eqn:E.
  - apply (ok_ustr h Hok) in E as [Hx _]. intros [= _ _ <-].
    apply length_overwrite. rewrite length_app. cbn [length]. lia.
  - intros [= _ _ <-]. apply (ok_garbage h Hok).
Qed.

Section ExecPair.
Context `{Base64} (g : Globals) (h1 h2 : Hook).
Context (Hok1 : HookOk h1) (Hok2 : HookOk h2) (He1 : Healthy h1) (He2 : Healthy h2).
Context (Htask : hk_task h2 = hk_task h1) (Ht : should_trace g h1 = true).

(** A staged copy keeps its bytes. *)
Lemma stage_healthy call i status (data entry_buf : list byte) s :
  (i < 4)%nat -> len data <= MAX_PATH_SIZE - 1 -> take (length data) (slot i s) = data ->
  exists buf, stage h1 call i (len data) status entry_buf s = (len data, status, buf) /\
    take (length data) buf = data.
Proof.
  intros Hi Hl Hd. unfold stage. destruct (Z.ltb_spec 0 (len data)) as [Hp|Hp].
  - rewrite (he_scratch h1 He1). unfold copy_checked. rewrite (he_memcpy h1 He1).
    rewrite Z.min_l by done. replace (Z.to_nat (len data)) with (length data) by (unfold len; lia).
    rewrite Hd. eexists. split; [reflexivity|]. apply drop_take_overwrite.
  - assert (data = []) as -> by (destruct data; [done|unfold len in Hp; cbn in Hp; lia]).
    by eexists.
Qed.

Definition exec_header (kind : EventKind.t) (argv_status filename_status : CaptureStatus.t)
    : EventHeader.t :=
  with_capture (get_task_info g h1 (EventKind.to_u8 kind))
    (HeaderCapture.mk 1 (CaptureStatus.as_u8 argv_status) (CaptureStatus.as_u8 filename_status)).

(** What an exec entry leaves: the view record on the ring and the pending
    entry with what was captured. *)
Lemma capture_exec_healthy kind filename_ptr argv_ptr s :
  ScratchOk s ->
  let o := user_path h1 filename_ptr in
  exists status argv fbuf abuf s' view,
    capture_exec g h1 kind filename_ptr argv_ptr s = (Some tt, s') /\
    exec_argv h1 argv_ptr status argv /\ len (argv_bytes argv) < MAX_ARGV_SIZE /\
    EVENTS s' = EVENTS s ++ [view] /\
    execve_map s' = <[hk_task h1 := mkExecveEntry (exec_header kind status (user_status o))
      (len (path_bytes o)) (len (argv_bytes argv)) fbuf abuf]> (execve_map s) /\
    take (length (path_bytes o)) fbuf = path_bytes o /\
    take (length (argv_bytes argv)) abuf = argv_bytes argv /\ failures s' = failures s.
Proof.
  intros Hso. cbn zeta. set (o := user_path h1 filename_ptr).
  pose proof (user_path_len h1 Hok1 filename_ptr) as Hol. fold o in Hol.
  destruct (read_user_str_spec h1 Hok1 filename_ptr (slot 0 s)) as (fb & Ef & Hfb).
  cbn zeta in *. fold o in Ef, Hfb. pose proof Hso as [Hn Hs Ha].
  set (s1 := (set_slot 0 fb s).2).
  assert (Hso1 : ScratchOk s1).
  { pose proof (read_user_str_length h1 _ _ _ _ _ Hok1 (Hs 0%nat ltac:(lia)) Ef) as Hfl.
    constructor; [cbn; by rewrite length_insert| |done]. intros i Hi. unfold s1.
    rewrite slot_set_slot by lia. case_decide; [rewrite Hfl; apply Hs; lia|by apply Hs]. }
  assert (Erf : read_filename h1 filename_ptr s = (Some (len (path_bytes o), user_status o), s1)).
  { unfold read_filename. rewrite (he_scratch h1 He1). cbn [negb].
    unfold mbind at 1, M_bind at 1, get_state. by rewrite Ef. }
  destruct (read_argv_sound h1 argv_ptr s1 Hok1 Hso1)
    as (n & st & s2 & argv & Era & Hc & Hna & Hb & Hta & Hs0 & Hos & Htf & Hte).
  assert (Hs0' : slot 0 s2 = fb) by (rewrite Hs0; unfold s1; by rewrite slot_set_slot by lia).
  destruct (stage_healthy MAX_ARGS 0 (user_status o) (path_bytes o) (tmp_exec_filename (scratch s2)) s2)
    as (fbuf & Esf & Hfbuf); [lia|done|by rewrite Hs0'|].
  destruct (stage_healthy (MAX_ARGS + 1) 1 st (argv_bytes argv) (tmp_exec_argv (scratch s2)) s2)
    as (abuf & Esa & Habuf); [lia|unfold MAX_ARGV_SIZE, MAX_PATH_SIZE in *; lia| |].
  { rewrite Hna in Hta. unfold len in Hta. by rewrite Nat2Z.id in Hta. }
  exists st, argv, fbuf, abuf. unfold capture_exec. rewrite (he_scratch h1 He1). cbn [negb]. cbn zeta.
  rewrite (bind_some _ _ _ _ _ Erf), (bind_some _ _ _ _ _ Era). cbn [fst snd].
  unfold mbind at 1, M_bind at 1, get_state. rewrite Hna, Esf, Esa.
  fold (exec_header kind st (user_status o)).
  unfold mbind, M_bind, set_tmp_exec, modify, exec_view_emit, emit_fixed_opt.
  rewrite emit_healthy by (done || (rewrite length_as_bytes; vm_compute; lia)).
  unfold execve_insert, map_insert. rewrite (he_insert h1 He1).
  do 2 eexists. split; [reflexivity|]. rewrite <- Hna.
  assert (EVENTS s2 = EVENTS s /\ execve_map s2 = execve_map s /\ failures s2 = failures s)
    as (Ev & Em & Efl) by (rewrite Hos; by destruct s).
  cbn. rewrite Ev, Em, Efl. done.
Qed.

Lemma append_healthy call off (d src buf : list byte) :
  take (length d) src = d ->
  append h2 call off (len d) src buf = (len d, true, overwrite off d buf).
Proof.
  intros Hd. unfold append. destruct (Z.ltb_spec 0 (len d)) as [Hp|Hp].
  - unfold copy_checked. rewrite (he_memcpy h2 He2).
    replace (Z.to_nat (len d)) with (length d) by (unfold len; lia). by rewrite Hd.
  - assert (d = []) as -> by (destruct d; [done|unfold len in Hp; cbn in Hp; lia]).
    by rewrite overwrite_nil.
Qed.

(** Filename and argv first, header and payload in front of them. *)
Lemma assembled (hd pl f a buf : list byte) :
  (length hd + length pl <= length buf)%nat ->
  take (length hd + length pl + length f + length a)
    (overwrite (length hd) pl (overwrite 0 hd
      (overwrite (length hd + length pl + length f) a (overwrite (length hd + length pl) f buf)))) =
  hd ++ pl ++ f ++ a.
Proof.
  intros Hl. rewrite overwrite_front. set (n := (length hd + length pl)%nat).
  rewrite app_assoc, take_app_ge by (rewrite length_app; lia).
  rewrite length_app. fold n. rewrite <- app_assoc. f_equal. f_equal.
  replace (n + length f + length a - n)%nat with (length f + length a)%nat by lia.
  rewrite take_drop_commute.
  replace (n + (length f + length a))%nat with (n + length f + length a)%nat by lia.
  rewrite take_overwrite by (unfold overwrite; rewrite !length_app, length_take; lia).
  rewrite take_overwrite by lia.
  rewrite <- app_assoc. apply drop_app_length'. rewrite length_take. lia.
Qed.

Lemma emit_exec_healthy (x : EventHeader.t) p q (f a fbuf abuf : list byte) rc s :
  ScratchOk s -> len f <= MAX_PATH_SIZE - 1 -> len a < MAX_ARGV_SIZE ->
  take (length f) fbuf = f -> take (length a) abuf = a ->
  exists buf, emit_exec h2 (mkExecveEntry (with_capture x (HeaderCapture.mk 1 p q)) (len f) (len a)
                fbuf abuf) rc s =
    (Some tt, set_EVENTS (EVENTS s ++
       [as_bytes (hk_pad h2) (with_capture x (HeaderCapture.mk 1 p q)) ++
        as_bytes (hk_pad h2) (ExecvePayload.mk (len f) (len a) (swrap 32 rc)) ++ f ++ a])
       (set_assembly buf s).2).
Proof.
  intros Hso Hf Ha Hff Haa. unfold emit_exec. rewrite (he_scratch h2 He2). cbn [negb]. cbn zeta.
  cbn [xe_header xe_filename_len xe_argv_len xe_filename_buf xe_argv_buf].
  unfold mbind at 1, M_bind at 1, get_state.
  pose proof (len_nonneg f). pose proof (len_nonneg a).
  unfold MAX_PATH_SIZE, MAX_ARGV_SIZE in *. rewrite !Z.min_l by lia.
  rewrite append_healthy by done. rewrite append_healthy by done.
  rewrite !wrap_id by (unfold in_u; lia).
  change (with_capture (with_capture x _) _) with (with_capture x (HeaderCapture.mk 1 p q)).
  set (hd := as_bytes (hk_pad h2) (with_capture x _)).
  set (pl := as_bytes (hk_pad h2) (ExecvePayload.mk _ _ _)).
  replace (Z.to_nat (len f)) with (length f) by (unfold len; lia).
  replace (Z.to_nat (len a)) with (length a) by (unfold len; lia).
  assert (Eh : size_of EventHeader.t = length hd) by (symmetry; apply length_as_bytes).
  assert (Ep : size_of ExecvePayload.t = length pl) by (symmetry; apply length_as_bytes).
  rewrite Eh, Ep.
  assert (Hsz : (length hd + length pl = 104)%nat) by (rewrite <- Eh, <- Ep; reflexivity).
  rewrite assembled by (rewrite (so_assembly s Hso), Hsz; vm_compute; lia).
  unfold mbind, M_bind, set_assembly, modify.
  rewrite (proj2 (Z.leb_le _ ASSEMBLY_BUF_SIZE)).
  2:{ rewrite Hsz. unfold ASSEMBLY_BUF_SIZE, MAX_PATH_SIZE, len in *. lia. }
  rewrite emit_event_spec by (unfold hd; apply as_bytes_not_nil).
  rewrite (he_room h2 He2). eexists. reflexivity.
Qed.

Definition exec_status_name (status : CaptureStatus.t) (bytes : list byte) : string :=
  match status with
  | CaptureStatus.Complete => if utf8_valid bytes then "complete" else "invalid_encoding"
  | CaptureStatus.Truncated => "truncated"
  | CaptureStatus.ReadError => "read_error"
  end.

Definition exec_name (kind : EventKind.t) : string :=
  match kind with EventKind.Execveat => "execveat" | _ => "execve" end.

(** The event of an exec. *)
Definition exec_event (kind : EventKind.t) (filename : option (list byte))
    (status : CaptureStatus.t) (argv : list (list byte)) (rc : Z) : BehaviorEvent :=
  mkEvent (header_json (get_task_info g h1 (EventKind.to_u8 kind)))
    (mkEventType "TRACEPOINT" (exec_name kind) "tooling") None
    (Some (obj [("filename", path_text filename); ("argv", strs (lossy_string <$> argv));
                ("exec_capture_version", JNum 1);
                ("argv_status", JStr (exec_status_name status (argv_bytes argv)));
                ("filename_status", JStr (path_status filename))]))
    (Some (swrap 32 rc)).

(** Captured arguments have no NUL in them. *)
Lemma exec_argv_no_nul ptr status argv :
  exec_argv h1 ptr status argv -> Forall (fun x => NUL ∉ x) argv.
Proof.
  unfold exec_argv. destruct (ptr =? 0); [intros [_ ->]; constructor|].
  assert (Hu : forall args, user_args h1 ptr args -> Forall (fun x => NUL ∉ x) args).
  { intros args Hu. apply Forall_lookup. intros i a Hi. destruct (Hu i a Hi) as (p & _ & _ & Hs).
    by apply (ok_ustr h1 Hok1) in Hs as [_ ?]. }
  intros (args & cut & -> & Ha & _ & _ & Hst). apply Forall_app. split; [by apply Hu|].
  assert (cut = [] \/ exists a n, (NUL ∉ a) /\ cut = [take n a]) as [->|(a & n & Hn & ->)].
  { destruct status; [left; tauto| |by left]. destruct Hst as [_ [->|(a & Hua & _ & ->)]]; [by left|].
    right. exists a, (Z.to_nat (MAX_SINGLE_ARG - 1)). split; [|done].
    apply Hu, Forall_app in Hua as [_ Hua]. by apply Forall_cons in Hua as [? _]. }
  - constructor.
  - repeat constructor. rewrite <- (take_drop n a) in Hn. by apply not_elem_of_app in Hn as [? _].
Qed.

Lemma as_u8_range st : in_u 8 (CaptureStatus.as_u8 st).
Proof. destruct st; unfold in_u; cbn; lia. Qed.

(** The last byte of a nonempty framed vector is a terminator. *)
Lemma argv_bytes_last argv : argv_bytes argv = [] \/ last (argv_bytes argv) = Some NUL.
Proof.
  destruct argv as [|a argv] using rev_ind; [by left|]. right. rewrite argv_bytes_snoc. apply last_snoc.
Qed.

Lemma status_name_exec st bytes :
  (if negb (utf8_valid bytes) && bool_decide (status_name st = "complete")
   then "invalid_encoding" else status_name st) = exec_status_name st bytes.
Proof. by destruct st; cbn; destruct (utf8_valid bytes). Qed.

Lemma user_status_exec o : exec_status_name (user_status o) (path_bytes o) = path_status o.
Proof. destruct o as [p|]; [|done]. cbn. by destruct (_ <? _). Qed.

Lemma exec_record_decodes kind ptr fptr status argv rc :
  kind = EventKind.Execve \/ kind = EventKind.Execveat ->
  exec_argv h1 ptr status argv -> len (argv_bytes argv) < MAX_ARGV_SIZE -> in_s 64 rc ->
  let o := user_path h1 fptr in
  deserialize (as_bytes (hk_pad h2) (exec_header kind status (user_status o)) ++
    as_bytes (hk_pad h2) (ExecvePayload.mk (len (path_bytes o)) (len (argv_bytes argv)) (swrap 32 rc)) ++
    path_bytes o ++ argv_bytes argv) = Ok (exec_event kind o status argv rc).
Proof.
  intros Hk Ha Hb Hrc. cbn zeta. set (o := user_path h1 fptr). set (av := argv_bytes argv).
  pose proof (user_path_len h1 Hok1 fptr) as Hf. fold o in Hf.
  pose proof (user_path_no_nul h1 Hok1 fptr) as Hnn. fold o in Hnn.
  pose proof (len_nonneg (path_bytes o)). pose proof (len_nonneg av).
  assert (Hr : in_range (ExecvePayload.mk (len (path_bytes o)) (len av) (swrap 32 rc))).
  { pose proof (swrap_bounds 32 rc ltac:(lia)). unfold in_range. cbn -[in_u in_s].
    unfold MAX_PATH_SIZE, MAX_ARGV_SIZE in *. fold av in Hb.
    split_and!; try done; try lia; unfold in_u; cbn; lia. }
  rewrite (deserialize_record _ _ kind); [|apply with_capture_range; auto using as_u8_range,
    EventKind.to_u8_range, user_status_range; unfold in_u; lia|done|by destruct Hk as [->| ->]].
  assert (Hp : parse_execve (as_bytes (hk_pad h2)
      (ExecvePayload.mk (len (path_bytes o)) (len av) (swrap 32 rc)) ++ path_bytes o ++ av)
      (exec_name kind) (HeaderCapture.mk 1 (CaptureStatus.as_u8 status)
        (CaptureStatus.as_u8 (user_status o))) =
    Ok ("TRACEPOINT", exec_name kind, "tooling",
        Some (obj [("filename", path_text o); ("argv", strs (lossy_string <$> argv));
                ("exec_capture_version", JNum 1);
                ("argv_status", JStr (exec_status_name status av));
                ("filename_status", JStr (path_status o))]), Some (swrap 32 rc))).
  2:{ destruct Hk as [-> | ->]; cbn [parse_kind exec_name] in *; cbn [EventHeader.capture
        exec_header with_capture]; rewrite Hp; reflexivity. }
  unfold parse_execve. rewrite too_short_own, read_as_bytes by done. unfold after.
  rewrite drop_as_bytes. cbn [bail_if mbind result_bind ExecvePayload.filename_len
    ExecvePayload.argv_len ExecvePayload.return_code]. cbn zeta.
  assert (El : len (path_bytes o ++ av) = len (path_bytes o) + len av)
    by (unfold len; rewrite length_app; lia).
  rewrite El, (Z.min_l (len (path_bytes o))) by lia.
  replace (saturating_sub (len (path_bytes o) + len av) (len (path_bytes o))) with (len av)
    by (unfold saturating_sub; lia).
  rewrite Z.min_id, prefix_app, slice_app_end. unfold exec_statuses.
  cbn [HeaderCapture.version HeaderCapture.primary HeaderCapture.secondary Z.eqb Pos.eqb].
  rewrite Z.eqb_refl, !CaptureStatus.try_from_as_u8. cbn [negb bail_if mbind result_bind].
  cbn [fmap option_fmap option_map with_context mbind result_bind].
  assert ((0 <? len av) && negb (bool_decide (last av = Some NUL)) = false) as ->.
  { destruct (argv_bytes_last argv) as [E|E]; fold av in E; [by rewrite E|].
    rewrite bool_decide_true by done. apply andb_false_r. }
  cbn [bail_if mbind result_bind fst snd]. rewrite !status_name_exec, user_status_exec.
  unfold av at 1. rewrite extract_argv_framed by (by eapply exec_argv_no_nul).
  unfold extract_string, path_text. rewrite until_nul_no_nul by done. reflexivity.
Qed.
End ExecPair.

(** The entry and exit programs of the two calls, and where their arguments
    are. *)
Definition enter_exec (g : Globals) (h : Hook) (kind : EventKind.t) : M unit :=
  match kind with EventKind.Execveat => sys_enter_execveat g h | _ => sys_enter_execve g h end.
Definition exit_exec (h : Hook) (kind : EventKind.t) : M unit :=
  match kind with EventKind.Execveat => sys_exit_execveat h | _ => sys_exit_execve h end.
Definition exec_arg (kind : EventKind.t) : Z :=
  match kind with EventKind.Execveat => 1 | _ => 0 end.

Lemma enter_exec_captures g h kind s s' :
  Healthy h -> should_trace g h = true -> kind = EventKind.Execve \/ kind = EventKind.Execveat ->
  capture_exec g h kind (sysarg h (exec_arg kind)) (sysarg h (exec_arg kind + 1)) s = (Some tt, s') ->
  enter_exec g h kind s = (Some tt, s').
Proof.
  intros He Ht [-> | ->] Hc; apply or_else_ok;
    [unfold try_sys_enter_execve|unfold try_sys_enter_execveat]; rewrite Ht; cbn [negb];
    unfold mbind at 1, M_bind at 1; rewrite (read_u64_healthy h He);
    unfold mbind at 1, M_bind at 1; rewrite (read_u64_healthy h He); exact Hc.
Qed.

(** C12: a traced exec is reported: the entry records the view of the
    filesystem at once, and the exit, in whatever thread id the task has by
    then, one record that decodes to the event with the filename, the captured
    argument vector and the result; the statuses say what was captured, and
    nothing stays pending. *)
Theorem exec_reported `{Base64} g h1 h2 kind s1 :
  HookOk h1 -> HookOk h2 -> Healthy h1 -> Healthy h2 -> hk_task h2 = hk_task h1 ->
  should_trace g h1 = true -> kind = EventKind.Execve \/ kind = EventKind.Execveat ->
  ScratchOk s1 ->
  exists s1' view status argv, enter_exec g h1 kind s1 = (Some tt, s1') /\
    EVENTS s1' = EVENTS s1 ++ [view] /\
    exec_argv h1 (sysarg h1 (exec_arg kind + 1)) status argv /\
    forall s2, ScratchOk s2 ->
      execve_map s2 !! hk_task h1 = execve_map s1' !! hk_task h1 ->
      exists s3 rec, exit_exec h2 kind s2 = (Some tt, s3) /\ EVENTS s3 = EVENTS s2 ++ [rec] /\
        deserialize rec =
          Ok (exec_event g h1 kind (user_path h1 (sysarg h1 (exec_arg kind))) status argv (sysret h2)) /\
        execve_map s3 = delete (hk_task h1) (execve_map s2) /\ failures s3 = failures s2.
Proof.
  intros Hok1 Hok2 He1 He2 Htask Ht Hk Hso.
  destruct (capture_exec_healthy g h1 Hok1 He1 kind (sysarg h1 (exec_arg kind))
    (sysarg h1 (exec_arg kind + 1)) s1 Hso)
    as (status & argv & fbuf & abuf & s1' & view & Hc & Ha & Hb & Hev & Hm & Hf & Hab & _).
  cbn zeta in *. exists s1', view, status, argv.
  split; [by apply enter_exec_captures|]. split; [done|]. split; [done|].
  intros s2 Hso2 Hs2. rewrite Hm, lookup_insert_eq in Hs2.
  set (o := user_path h1 (sysarg h1 (exec_arg kind))) in *.
  destruct (emit_exec_healthy h2 He2 (get_task_info g h1 (EventKind.to_u8 kind))
    (CaptureStatus.as_u8 status) (CaptureStatus.as_u8 (user_status o)) (path_bytes o) (argv_bytes argv)
    fbuf abuf (sysret h2) s2 Hso2 (user_path_len h1 Hok1 _) Hb Hf Hab) as (buf & Hx).
  assert (E : try_sys_exit_execve h2 s2 = (Some tt, set_execve_map
    (delete (hk_task h1) (execve_map s2)) (set_EVENTS (EVENTS s2 ++
       [as_bytes (hk_pad h2) (exec_header g h1 kind status (user_status o)) ++
        as_bytes (hk_pad h2) (ExecvePayload.mk (len (path_bytes o)) (len (argv_bytes argv))
          (swrap 32 (sysret h2))) ++ path_bytes o ++ argv_bytes argv]) (set_assembly buf s2).2))).
  { unfold try_sys_exit_execve. unfold mbind at 1, M_bind at 1, get_state. rewrite Htask, Hs2.
    unfold mbind at 1, M_bind at 1, on_err. rewrite (read_i64_healthy h2 He2). fold (sysret h2).
    rewrite (bind_some _ _ _ _ _ Hx). unfold remove_entry, mbind, M_bind, execve_remove, map_remove.
    cbn [set_EVENTS execve_map set_assembly modify snd set_scratch].
    rewrite Hs2, (he_remove h2 He2). reflexivity. }
  do 2 eexists. split; [destruct Hk as [-> | ->]; apply or_else_ok; exact E|].
  split; [reflexivity|]. split; [|done].
  by apply (exec_record_decodes g h1 h2 Hok1 kind (sysarg h1 (exec_arg kind + 1)));
    [..|apply sysret_range].
Qed.

(** ** The filesystem view of an exec *)

Section View.
Context `{Base64} (g : Globals) (h : Hook) (Hok : HookOk h).

Lemma xv_walk_range reads p : xv_walk g h = Some (reads, p) ->
  exists root_inode root_dev mount_namespace root_mount_id,
    p = ExecViewPayload.mk root_inode root_dev mount_namespace root_mount_id 1 1 (replicate 2 NUL) /\
    in_u 64 root_inode /\ in_u 32 root_dev /\ in_u 32 mount_namespace /\ in_u 32 root_mount_id.
Proof.
  unfold xv_walk. cbn zeta. intros Hw.
  repeat match type of Hw with
  | mbind _ ?o = Some _ => let E := fresh "E" in destruct o eqn:E; [|done]; cbn [mbind option_bind] in Hw
  end.
  injection Hw as _ <-. do 4 eexists. split; [reflexivity|].
  split_and!; first [by eapply kread_u64_range|by eapply kread_u32_range].
Qed.

(** The status name of the view that was taken. *)
Definition view_status : string :=
  if EXEC_VIEW_SUPPORTED g =? 0 then "unsupported"
  else match capture g h with
       | inr _ => "complete"
       | inl ReadFailed => "unavailable"
       | inl Changed => "changed"
       end.

(** The payload is one of the four well-formed views. *)
Lemma exec_view_payload_cases :
  exists ino dev ns id st,
    exec_view_payload g h = ExecViewPayload.mk ino dev ns id 1 st (replicate 2 NUL) /\
    in_u 64 ino /\ in_u 32 dev /\ in_u 32 ns /\ in_u 32 id /\
    (st = 1 /\ ns <> 0 /\ id <> 0 /\ view_status = "complete" \/
     ino = 0 /\ dev = 0 /\ ns = 0 /\ id = 0 /\
     (st = 0 /\ view_status = "unsupported" \/ st = 2 /\ view_status = "unavailable" \/
      st = 3 /\ view_status = "changed")).
Proof.
  unfold exec_view_payload, view_status.
  assert (Hz : in_u 64 0 /\ in_u 32 0) by (split; apply zero_range; lia). destruct Hz.
  destruct (EXEC_VIEW_SUPPORTED g =? 0); [do 5 eexists; split; [reflexivity|]; tauto|].
  unfold capture. destruct (xv_walk g h) as [[reads p]|] eqn:Ew.
  2:{ do 5 eexists; split; [reflexivity|]; tauto. }
  destruct (xv_walk_range _ _ Ew) as (ino & dev & ns & id & -> & ? & ? & ? & ?).
  cbn [ExecViewPayload.mount_namespace ExecViewPayload.root_mount_id].
  destruct (Z.eqb_spec ns 0); [do 5 eexists; split; [reflexivity|]; tauto|].
  destruct (Z.eqb_spec id 0); cbn [orb]; [do 5 eexists; split; [reflexivity|]; tauto|].
  destruct (xv_recheck g h reads) as [[]|]; do 5 eexists; (split; [reflexivity|]); tauto.
Qed.

Lemma exec_view_parse :
  exists args, parse_exec_view (as_bytes (hk_pad h) (exec_view_payload g h)) =
      Ok ("TRACEPOINT", "exec_view", "behavior", Some args, None) /\
    json_get "view_status" args = Some (JStr view_status) /\
    (view_status = "complete" ->
     json_get "mount_namespace" args =
       Some (JNum (ExecViewPayload.mount_namespace (exec_view_payload g h))) /\
     json_get "root_inode" args = Some (JNum (ExecViewPayload.root_inode (exec_view_payload g h)))).
Proof.
  destruct exec_view_payload_cases as (ino & dev & ns & id & st & E & ? & ? & ? & ? & Hc).
  assert (Hr : in_range (exec_view_payload g h)).
  { rewrite E. unfold in_range. cbn -[in_u]. split_and!; try done; try lia;
      destruct Hc as [(-> & _)|(_ & _ & _ & _ & [(-> & _)|[(-> & _)|(-> & _)]])]; unfold in_u; cbn; lia. }
  unfold parse_exec_view, wrong_size. rewrite length_as_bytes, Nat.eqb_refl. cbn [negb bail_if mbind result_bind].
  rewrite read_own by done. rewrite E. cbn zeta.
  cbn [ExecViewPayload.version ExecViewPayload.status ExecViewPayload.root_inode ExecViewPayload.root_dev
    ExecViewPayload.mount_namespace ExecViewPayload.root_mount_id]. cbn [Z.eqb Pos.eqb negb].
  destruct Hc as [(-> & Hns & Hid & Hv)|(-> & -> & -> & -> & Hc)].
  - rewrite Hv. rewrite (proj2 (Z.eqb_neq ns 0) Hns), (proj2 (Z.eqb_neq id 0) Hid).
    eexists. split; [reflexivity|]. by repeat split.
  - destruct Hc as [(-> & Hv)|[(-> & Hv)|(-> & Hv)]]; rewrite Hv;
      eexists; (split; [reflexivity|]); by repeat split.
Qed.
End View.

(** The two sides agree about filesystem views: whatever the kernel
    structures held, the record an exec entry emits is one the daemon accepts,
    and the status it reports says whether views are supported, the pointers
    could be followed and still held when rechecked. *)
Theorem exec_view_agrees `{Base64} g h kind s status fstatus :
  HookOk h -> Healthy h ->
  exists s' rec e, exec_view_emit g h (exec_header g h kind status fstatus) s = (Some tt, s') /\
    EVENTS s' = EVENTS s ++ [rec] /\ deserialize rec = Ok e /\
    arg "view_status" e = Some (JStr (view_status g h)) /\
    (view_status g h = "complete" -> arg "mount_namespace" e =
       Some (JNum (ExecViewPayload.mount_namespace (exec_view_payload g h)))).
Proof.
  intros Hok He. unfold exec_view_emit, emit_fixed_opt. cbn zeta.
  rewrite emit_healthy by (done || (rewrite length_as_bytes; vm_compute; lia)).
  destruct (exec_view_parse g h Hok) as (args & Hp & Hs & Hm).
  do 3 eexists. split; [reflexivity|]. split; [reflexivity|].
  rewrite (deserialize_record _ _ EventKind.ExecView); [|
    pose proof (get_task_info_range g h Hok _ (EventKind.to_u8_range EventKind.ExecView)) as Hr;
    unfold in_range in Hr |- *; cbn in Hr |- *; tauto|done|done].
  cbn [parse_kind]. rewrite Hp. split; [reflexivity|]. cbn. split; [done|].
  intros Hv. by apply Hm.
Qed.
