(* ===== verification/Tty.v ===== *)
(** * TTY capture (bloodhound-ebpf/src/layer1_tty.rs)

    What a traced task writes to and reads from a pseudo-terminal.  A write is
    captured at once; a read is stashed at entry and captured at return, when
    its buffer has been filled. *)

From S2P Require Import Prelude Layout Records Common Json Event Usdt Deserializer Wire.
From S2P Require Import Bpf Task HookFacts Rich RichFacts PathFacts Exec.

Local Open Scope string_scope.
Local Open Scope Z_scope.
Local Open Scope list_scope.

Definition TTY_DRIVER_TYPE_PTY : Z := 4.
Definition PTY_TYPE_SLAVE : Z := 2.

Section Tty.
Context (g : Globals) (h : Hook).

Definition tty_off (base : Z) (index : nat) : Z := wrapping_add base (nth index (OFF_TTY g) 0).

Definition is_pts_slave (tty : Z) : bool :=
  if (tty =? 0) || (TTY_SUPPORTED g =? 0) then false else
  match kread_u64 h (tty_off tty 0) with
  | Some driver =>
      if driver =? 0 then false else
      match kread_i16 h (tty_off driver 1) with
      | None => false
      | Some drv_type =>
          if negb (drv_type =? TTY_DRIVER_TYPE_PTY) then false else
          match kread_i16 h (tty_off driver 2) with
          | None => false
          | Some drv_subtype => drv_subtype =? PTY_TYPE_SLAVE
          end
      end
  | None => false
  end.

(** The record of a capture: the data is in the assembly buffer already. *)
Definition emit_tty_record (kind : Z) (status : CaptureStatus.t) (data_len : Z) : M unit :=
  s ← get_state;
  let header := with_capture (get_task_info g h kind)
                  (HeaderCapture.mk 1 (CaptureStatus.as_u8 status) 0) in
  let payload := TtyPayload.mk (wrap 16 data_len) (replicate 2 NUL) in
  let total := (size_of EventHeader.t + size_of TtyPayload.t + Z.to_nat data_len)%nat in
  let buf := overwrite 0 (as_bytes (hk_pad h) header) (assembly (scratch s)) in
  let buf := overwrite (size_of EventHeader.t) (as_bytes (hk_pad h) payload) buf in
  _ ← set_assembly buf;
  _ ← emit_event h (take total buf);
  mret tt.

Definition emit_tty_event (kind buf_ptr count : Z) : M unit :=
  if (count =? 0) && negb (buf_ptr =? 0) then mret tt else
  let data_len := Z.land (Z.min count (MAX_TTY_DATA - 1)) (MAX_TTY_DATA - 1) in
  let status :=
    if MAX_TTY_DATA - 1 <? count then CaptureStatus.Truncated else CaptureStatus.Complete in
  if negb (hk_scratch h (SCRATCH_BUF 2)) then fail else
  if negb (hk_scratch h ASSEMBLY_BUF) then fail else
  if buf_ptr =? 0 then emit_tty_record kind CaptureStatus.ReadError 0 else
  s ← get_state;
  match hk_kread h buf_ptr (Z.to_nat data_len) with
  | None =>
      _ ← set_slot 2 (overwrite 0 (replicate (Z.to_nat data_len) NUL) (slot 2 s));
      emit_tty_record kind CaptureStatus.ReadError 0
  | Some data =>
      let scratch2 := overwrite 0 data (slot 2 s) in
      _ ← set_slot 2 scratch2;
      asm ← lift (bpf_memcpy h 0 (size_of EventHeader.t + size_of TtyPayload.t)
                    (take (Z.to_nat data_len) scratch2) (assembly (scratch s)));
      _ ← set_assembly asm;
      emit_tty_record kind status data_len
  end.

Definition try_tty_write : M unit :=
  if negb (should_trace g h) then mret tt else
  tty ← lift (hk_arg h 0);
  if negb (is_pts_slave tty) then mret tt else
  buf_ptr ← lift (hk_arg h 1);
  count ← lift (hk_arg h 2);
  emit_tty_event (EventKind.to_u8 EventKind.TtyWrite) buf_ptr count.

Definition tty_write_probe : M unit :=
  or_else try_tty_write (tty_failure SYSCALL_ENTRY_CAPTURE_FAILED).

Definition try_tty_read_entry : M unit :=
  let pid_tgid := hk_pid_tgid h in
  _ ← tty_interrupt h pid_tgid;
  if negb (should_trace g h) then mret tt else
  tty ← lift (hk_arg h 0);
  if negb (is_pts_slave tty) then mret tt else
  buf_ptr ← lift (hk_arg h 2);
  count ← lift (hk_arg h 3);
  r ← tty_insert h pid_tgid (mkTtyReadEntry buf_ptr count);
  tty_save r.

Definition tty_read_probe : M unit :=
  or_else try_tty_read_entry (tty_failure SYSCALL_ENTRY_CAPTURE_FAILED).

Definition try_tty_read_ret : M unit :=
  let pid_tgid := hk_pid_tgid h in
  s ← get_state;
  match tty_map s !! pid_tgid with
  | None => mret tt
  | Some entry =>
      r ← tty_remove h pid_tgid;
      _ ← tty_cleanup r;
      ret ← lift (hk_ret h);
      if ret <=? 0 then mret tt else
      let bytes_read := Z.min (wrap 64 ret) (te_count entry) in
      emit_tty_event (EventKind.to_u8 EventKind.TtyRead) (te_buf_ptr entry) bytes_read
  end.

Definition tty_read_ret_probe : M unit :=
  or_else try_tty_read_ret (tty_failure SYSCALL_EXIT_CAPTURE_FAILED).
End Tty.

(** ** End to end *)

(** The bytes behind a capture, [None] when they could not be read, and the
    status the daemon must report for them. *)
Definition tty_data (h : Hook) (buf_ptr count : Z) : option (list byte) :=
  if buf_ptr =? 0 then None else hk_kread h buf_ptr (Z.to_nat (Z.min count (MAX_TTY_DATA - 1))).

Definition tty_reported_status (data : option (list byte)) (count : Z) : string :=
  match data with
  | None => "read_error"
  | Some _ => if MAX_TTY_DATA - 1 <? count then "truncated" else "complete"
  end.

Definition tty_name (kind : EventKind.t) : string :=
  match kind with EventKind.TtyWrite => "tty_write" | _ => "tty_read" end.

Definition tty_event `{Base64} (g : Globals) (h : Hook) (kind : EventKind.t) (buf_ptr count : Z)
    : BehaviorEvent :=
  let data := tty_data h buf_ptr count in
  mkEvent (header_json (get_task_info g h (EventKind.to_u8 kind)))
    (mkEventType "TTY" (tty_name kind) "intent") None
    (Some (obj [("data", JStr (b64_encode (default [] data))); ("tty_capture_version", JNum 1);
                ("data_status", JStr (tty_reported_status data count))])) None.

Section TtyFacts.
Context `{Base64} (g : Globals) (h : Hook) (Hok : HookOk h) (He : Healthy h).

Definition tty_header (kind : EventKind.t) (status : CaptureStatus.t) : EventHeader.t :=
  with_capture (get_task_info g h (EventKind.to_u8 kind)) (HeaderCapture.mk 1 (CaptureStatus.as_u8 status) 0).

(** The bytes of a capture's record. *)
Definition tty_record (kind : EventKind.t) (status : CaptureStatus.t) (data : list byte) : list byte :=
  as_bytes (hk_pad h) (tty_header kind status) ++
  as_bytes (hk_pad h) (TtyPayload.mk (len data) (replicate 2 NUL)) ++ data.

(** The daemon's reading of such a record. *)
Lemma tty_record_decodes kind status data :
  kind = EventKind.TtyRead \/ kind = EventKind.TtyWrite -> len data < MAX_TTY_DATA ->
  match status with
  | CaptureStatus.Complete => data <> []
  | CaptureStatus.Truncated => len data = MAX_TTY_DATA - 1
  | CaptureStatus.ReadError => data = []
  end ->
  deserialize (tty_record kind status data) =
  Ok (mkEvent (header_json (get_task_info g h (EventKind.to_u8 kind)))
    (mkEventType "TTY" (tty_name kind) "intent") None
    (Some (obj [("data", JStr (b64_encode data)); ("tty_capture_version", JNum 1);
                ("data_status", JStr (status_name status))])) None).
Proof.
  intros Hk Hl Hst. unfold tty_record. pose proof (len_nonneg data).
  rewrite (deserialize_record _ _ kind); [|apply with_capture_range; auto using as_u8_range,
    EventKind.to_u8_range; unfold in_u; cbn; lia|done|by destruct Hk as [-> | ->]].
  assert (Hp : parse_tty (as_bytes (hk_pad h) (TtyPayload.mk (len data) (replicate 2 NUL)) ++ data)
      (tty_name kind) (HeaderCapture.mk 1 (CaptureStatus.as_u8 status) 0) =
    Ok ("TTY", tty_name kind, "intent",
        Some (obj [("data", JStr (b64_encode data)); ("tty_capture_version", JNum 1);
                   ("data_status", JStr (status_name status))]), None)).
  2:{ destruct Hk as [-> | ->]; cbn [parse_kind tty_name] in *;
        cbn [EventHeader.capture tty_header with_capture]; rewrite Hp; reflexivity. }
  unfold parse_tty. rewrite too_short_own, read_as_bytes.
  2:{ unfold in_range. cbn -[in_u]. unfold MAX_TTY_DATA in Hl.
      split_and!; try done; unfold in_u; cbn; lia. }
  unfold after. rewrite drop_as_bytes. cbn [bail_if mbind result_bind TtyPayload.data_len].
  unfold tty_status. cbn [HeaderCapture.version HeaderCapture.primary HeaderCapture.secondary].
  cbn [Z.eqb negb bail_if mbind result_bind]. rewrite Z.eqb_refl. cbn [negb orb].
  rewrite (proj2 (Z.ltb_ge (MAX_TTY_DATA - 1) (len data))) by (unfold MAX_TTY_DATA in *; lia).
  cbn [bail_if mbind result_bind]. rewrite CaptureStatus.try_from_as_u8.
  cbn [with_context mbind result_bind]. rewrite Z.min_id.
  assert (Ed : prefix (len data) data = data)
    by (rewrite <- (app_nil_r data) at 2; apply prefix_app).
  rewrite Ed.
  destruct status; cbn [status_name].
  - rewrite (proj2 (Z.eqb_neq (len data) 0)); [reflexivity|]. by intros E%len_zero.
  - by rewrite Hst.
  - by subst data.
Qed.

Lemma emit_tty_record_healthy kind status data buf s :
  len data < MAX_TTY_DATA ->
  assembly (scratch s) =
    overwrite (size_of EventHeader.t + size_of TtyPayload.t) data buf ->
  length buf = Z.to_nat ASSEMBLY_BUF_SIZE ->
  exists s', emit_tty_record g h (EventKind.to_u8 kind) status (len data) s = (Some tt, s') /\
    EVENTS s' = EVENTS s ++ [tty_record kind status data] /\ tty_map s' = tty_map s /\
    failures s' = failures s.
Proof.
  intros Hl Ha Hb. unfold emit_tty_record. unfold mbind at 1, M_bind at 1, get_state.
  cbn zeta. rewrite Ha, wrap_id by (unfold in_u, MAX_TTY_DATA in *; pose proof (len_nonneg data); lia).
  fold (tty_header kind status).
  set (hd := as_bytes (hk_pad h) (tty_header kind status)).
  set (pl := as_bytes (hk_pad h) (TtyPayload.mk (len data) (replicate 2 NUL))).
  replace (Z.to_nat (len data)) with (length data) by (unfold len; lia).
  assert (Eh : size_of EventHeader.t = length hd) by (symmetry; apply length_as_bytes).
  assert (Ep : size_of TtyPayload.t = length pl) by (symmetry; apply length_as_bytes).
  rewrite Eh, Ep.
  assert (Hsz : (length hd + length pl = 100)%nat) by (rewrite <- Eh, <- Ep; reflexivity).
  pose proof (assembled hd pl data [] buf) as Hasm. cbn [length] in Hasm.
  rewrite Nat.add_0_r, overwrite_nil, app_nil_r in Hasm.
  rewrite Hasm by (rewrite Hb, Hsz; vm_compute; lia).
  unfold mbind, M_bind, set_assembly, modify.
  rewrite emit_event_spec by (unfold hd; apply as_bytes_not_nil).
  rewrite (he_room h He). eexists. split; [reflexivity|]. done.
Qed.

(** A capture that is not empty by request puts its event on the ring. *)
Lemma emit_tty_event_healthy kind buf_ptr count s :
  kind = EventKind.TtyRead \/ kind = EventKind.TtyWrite -> 0 <= count ->
  (count =? 0) && negb (buf_ptr =? 0) = false ->
  length (assembly (scratch s)) = Z.to_nat ASSEMBLY_BUF_SIZE ->
  exists s' rec, emit_tty_event g h (EventKind.to_u8 kind) buf_ptr count s = (Some tt, s') /\
    EVENTS s' = EVENTS s ++ [rec] /\ deserialize rec = Ok (tty_event g h kind buf_ptr count) /\
    tty_map s' = tty_map s /\ failures s' = failures s.
Proof.
  intros Hk Hc Hz Ha. unfold emit_tty_event, tty_event, tty_data. rewrite Hz, !(he_scratch h He).
  cbn [negb]. cbn zeta.
  assert (El : Z.land (Z.min count (MAX_TTY_DATA - 1)) (MAX_TTY_DATA - 1) =
               Z.min count (MAX_TTY_DATA - 1)) by (apply (land_mask (Z.min count 4095)); lia).
  rewrite El.
  assert (Hro : forall s0, assembly (scratch s0) = assembly (scratch s) ->
    exists s', emit_tty_record g h (EventKind.to_u8 kind) CaptureStatus.ReadError 0 s0 = (Some tt, s') /\
      EVENTS s' = EVENTS s0 ++ [tty_record kind CaptureStatus.ReadError []] /\ tty_map s' = tty_map s0 /\
      failures s' = failures s0).
  { intros s0 E0. apply (emit_tty_record_healthy kind CaptureStatus.ReadError [] (assembly (scratch s)));
      [done|by rewrite overwrite_nil|done]. }
  destruct (Z.eqb_spec buf_ptr 0) as [->|Hp].
  { destruct (Hro s eq_refl) as (s' & Es & Hev & Hm & Hf). exists s', (tty_record kind CaptureStatus.ReadError []).
    split_and!; try done. by apply tty_record_decodes. }
  rewrite andb_true_r in Hz. apply Z.eqb_neq in Hz.
  unfold mbind at 1, M_bind at 1, get_state.
  destruct (hk_kread h buf_ptr _) as [data|] eqn:Er.
  - pose proof (ok_kread h Hok _ _ _ Er) as Hlen.
    assert (Hld : len data = Z.min count (MAX_TTY_DATA - 1))
      by (unfold len; rewrite Hlen; unfold MAX_TTY_DATA; lia).
    rewrite <- Hld. replace (Z.to_nat (len data)) with (length data) by (unfold len; lia).
    rewrite drop_take_overwrite, memcpy_healthy by done.
    unfold mbind at 1, M_bind at 1, set_slot, modify. unfold mbind at 1, M_bind at 1, lift.
    unfold mbind at 1, M_bind at 1, set_assembly, modify.
    match goal with |- context [emit_tty_record g h _ ?st _ ?s0] =>
      destruct (emit_tty_record_healthy kind st data (assembly (scratch s)) s0)
        as (s' & Es & Hev & Hm & Hf); [unfold MAX_TTY_DATA in *; lia|reflexivity|done|] end.
    eexists s', _. split; [exact Es|]. split; [exact Hev|]. split; [|by rewrite Hm, Hf].
    rewrite tty_record_decodes; [|done|unfold MAX_TTY_DATA in *; lia|].
    + cbn [default from_option id tty_reported_status].
      by destruct (MAX_TTY_DATA - 1 <? count).
    + destruct (Z.ltb_spec (MAX_TTY_DATA - 1) count) as [Hlt|Hle]; [lia|].
      intros ->. change (len []) with 0 in Hld. unfold MAX_TTY_DATA in *. lia.
  - unfold mbind at 1, M_bind at 1, set_slot, modify.
    match goal with |- context [emit_tty_record g h _ _ 0 ?s0] =>
      destruct (Hro s0 eq_refl) as (s' & Es & Hev & Hm & Hf) end.
    eexists s', _. split; [exact Es|]. split; [exact Hev|]. split; [|by rewrite Hm, Hf].
    by apply tty_record_decodes.
Qed.
End TtyFacts.

(** What a traced task writes to a pseudo-terminal is reported at once:
    one record that decodes to the bytes the kernel buffer holds, up to 4095,
    with a status that is complete only if that is all of them; an unreadable
    buffer is reported as such, with no bytes. *)
Theorem tty_write_reported `{Base64} g h s tty buf_ptr count :
  HookOk h -> Healthy h -> ScratchOk s -> should_trace g h = true ->
  hk_arg h 0 = Some tty -> hk_arg h 1 = Some buf_ptr -> hk_arg h 2 = Some count ->
  is_pts_slave g h tty = true -> (count =? 0) && negb (buf_ptr =? 0) = false ->
  exists s' rec, tty_write_probe g h s = (Some tt, s') /\ EVENTS s' = EVENTS s ++ [rec] /\
    deserialize rec = Ok (tty_event g h EventKind.TtyWrite buf_ptr count) /\
    failures s' = failures s.
Proof.
  intros Hok He Hso Ht H0 H1 H2 Hs Hz.
  destruct (emit_tty_event_healthy g h Hok He EventKind.TtyWrite buf_ptr count s)
    as (s' & rec & Es & Hev & Hd & _ & Hf);
    [by right|apply (ok_arg h Hok _ _ H2)|done|apply (so_assembly s Hso)|].
  exists s', rec. split_and!; try done. apply or_else_ok.
  unfold try_tty_write. rewrite Ht. cbn [negb]. unfold mbind, M_bind, lift.
  rewrite H0, Hs. cbn [negb]. by rewrite H1, H2.
Qed.

(** C14: what a traced task reads from a pseudo-terminal is reported when
    the read returns, whatever other tasks do in between: one record with the
    bytes that were read, and none when nothing was read; the pending entry is
    gone either way. *)
Theorem tty_read_reported `{Base64} g h1 h2 s1 s2 tty buf_ptr count ret :
  HookOk h1 -> HookOk h2 -> Healthy h1 -> Healthy h2 -> ScratchOk s2 ->
  hk_pid_tgid h2 = hk_pid_tgid h1 -> should_trace g h1 = true ->
  hk_arg h1 0 = Some tty -> hk_arg h1 2 = Some buf_ptr -> hk_arg h1 3 = Some count ->
  is_pts_slave g h1 tty = true -> hk_ret h2 = Some ret -> count <> 0 ->
  tty_map s2 !! hk_pid_tgid h1 = tty_map (tty_read_probe g h1 s1).2 !! hk_pid_tgid h1 ->
  EVENTS (tty_read_probe g h1 s1).2 = EVENTS s1 /\
  exists s3, tty_read_ret_probe g h2 s2 = (Some tt, s3) /\
    tty_map s3 = delete (hk_pid_tgid h1) (tty_map s2) /\ failures s3 = failures s2 /\
    if ret <=? 0 then EVENTS s3 = EVENTS s2
    else exists rec, EVENTS s3 = EVENTS s2 ++ [rec] /\
      deserialize rec = Ok (tty_event g h2 EventKind.TtyRead buf_ptr (Z.min ret count)).
Proof.
  intros Hok1 Hok2 He1 He2 Hso Hkey Ht H0 H2 H3 Hs Hret Hc Hm.
  assert (Een : EVENTS (tty_read_probe g h1 s1).2 = EVENTS s1 /\
    tty_map (tty_read_probe g h1 s1).2 !! hk_pid_tgid h1 = Some (mkTtyReadEntry buf_ptr count)).
  { unfold tty_read_probe, or_else, try_tty_read_entry, tty_interrupt, tty_remove, map_remove.
    unfold mbind, M_bind, get_state.
    destruct (tty_map s1 !! hk_pid_tgid h1) eqn:Em; cbn; rewrite ?Em, ?(he_remove h1 He1); cbn;
      rewrite Ht; cbn; rewrite H0; cbn; rewrite Hs; cbn; rewrite H2, H3; unfold tty_insert, map_insert;
      rewrite (he_insert h1 He1); cbn; by rewrite lookup_insert_eq. }
  destruct Een as [Hev Hen]. split; [done|]. rewrite Hen in Hm.
  pose proof (ok_arg h1 Hok1 _ _ H3) as Hcr. pose proof (ok_ret h2 Hok2 _ Hret) as Hrr.
  set (s2' := set_tty_map (delete (hk_pid_tgid h1) (tty_map s2)) s2).
  assert (E : tty_read_ret_probe g h2 s2 =
    or_else (if ret <=? 0 then mret tt else emit_tty_event g h2 (EventKind.to_u8 EventKind.TtyRead)
               buf_ptr (Z.min (wrap 64 ret) count)) (tty_failure SYSCALL_EXIT_CAPTURE_FAILED) s2').
  { unfold tty_read_ret_probe, or_else, try_tty_read_ret, mbind, M_bind, get_state. rewrite Hkey, Hm.
    unfold tty_remove, map_remove. rewrite Hm, (he_remove h2 He2). cbn. rewrite Hret.
    by destruct (ret <=? 0). }
  rewrite E. clear E. destruct (Z.leb_spec ret 0) as [Hle|Hgt].
  { eexists. split; [reflexivity|]. done. }
  rewrite wrap_id by (unfold in_u, in_s in *; cbn in *; lia).
  destruct (emit_tty_event_healthy g h2 Hok2 He2 EventKind.TtyRead buf_ptr (Z.min ret count) s2')
    as (s3 & rec & Es & Hev3 & Hd & Hm3 & Hf3);
    [by left|unfold in_u in *; lia| |apply (so_assembly s2 Hso)|].
  { rewrite (proj2 (Z.eqb_neq (Z.min ret count) 0)); [done|]. unfold in_u in *. lia. }
  exists s3. split; [by apply or_else_ok|]. split; [done|]. split; [done|]. by exists rec.
Qed.
