(* ===== verification/UsdtProbes.v ===== *)
(** * USDT probes (bloodhound-ebpf/src/usdt.rs)

    The programs attached at the static notes of the training shell and of the
    training peer.  A probe reads its arguments from the registers of the
    note's ABI; a command name that cannot be read becomes a diagnostic, never
    a guessed value. *)

From S2P Require Import Prelude Layout Records Common Json Utf8 Event Usdt Deserializer Wire.
From S2P Require Import Bpf Task HookFacts Rich RichFacts PathFacts Exec.

Local Open Scope string_scope.
Local Open Scope Z_scope.
Local Open Scope list_scope.

Definition COMMAND_NAME_LIMIT : Z := 64.

Section Probes.
Context (g : Globals) (h : Hook).

Definition emit_shell_capture_error (attach_point_id field_id read_error_code : Z) : M unit :=
  let header := get_task_info g h (EventKind.to_u8 EventKind.UsdtTrainingShellV3CaptureError) in
  let payload := UsdtTrainingShellCaptureErrorPayload.mk attach_point_id field_id read_error_code
                   (replicate 2 NUL) in
  emit_stack h 128 header (as_bytes (hk_pad h) payload).

(** The copies of header, payload and name into the assembly buffer, and the
    emission of what was copied.  The copy of the name is the source's loop over
    [index < length]. *)
Definition emit_assembled (header : EventHeader.t) (payload name : list byte) : M unit :=
  s ← get_state;
  let buf := overwrite 0 (as_bytes (hk_pad h) header) (assembly (scratch s)) in
  let buf := overwrite (size_of EventHeader.t) payload buf in
  let buf := overwrite (size_of EventHeader.t + length payload) name buf in
  _ ← set_assembly buf;
  _ ← emit_event h (take (size_of EventHeader.t + length payload + length name) buf);
  mret tt.

Definition emit_shell (attach_point_id shell_pid command_id command_kind command_name
    semantic_flags exit_status : Z) : M unit :=
  if command_name =? 0 then emit_shell_capture_error attach_point_id 3 1 else
  match hk_ustr h command_name (Z.to_nat COMMAND_NAME_LIMIT) with
  | None => emit_shell_capture_error attach_point_id 3 1
  | Some name =>
      let header := get_task_info g h (EventKind.to_u8 EventKind.UsdtTrainingShellV3) in
      let payload := UsdtTrainingShellPayload.mk attach_point_id shell_pid command_id command_kind
        semantic_flags exit_status (wrap 16 (len name))
        (Z.b2z (len name =? COMMAND_NAME_LIMIT - 1)) 0 in
      let total := (size_of EventHeader.t + size_of UsdtTrainingShellPayload.t + length name)%nat in
      if negb (hk_scratch h ASSEMBLY_BUF) then mret tt else
      s ← get_state;
      if (length (assembly (scratch s)) <? total)%nat then mret tt else
      emit_assembled header (as_bytes (hk_pad h) payload) name
  end.

(** [ctx.arg::<u64>(i).unwrap_or(default)] *)
Definition arg_or (i : nat) (default_value : Z) : Z := default default_value (hk_arg h i).

(** One program per attach point; [attach_point_id] is the macro's literal. *)
Definition shell_attach_point (attach_point_id : Z) : M unit :=
  if negb (should_trace g h) then mret tt else
  emit_shell attach_point_id (wrap 32 (arg_or 0 0)) (arg_or 1 0) (wrap 32 (arg_or 2 U64_MAX))
    (arg_or 3 0) (wrap 32 (arg_or 4 0)) (swrap 32 (arg_or 5 0)).

Definition peer_attach_point (attach_point_id : Z) : M unit :=
  if negb (should_trace g h) then mret tt else
  let payload := UsdtTrainingPeerPayload.mk attach_point_id 0 (arg_or 0 0)
                   (wrap 32 (arg_or 1 U64_MAX)) 0 in
  if negb (hk_scratch h ASSEMBLY_BUF) then mret tt else
  emit_assembled (get_task_info g h (EventKind.to_u8 EventKind.UsdtTrainingPeerV1))
    (as_bytes (hk_pad h) payload) [].
End Probes.

(** ** What the collector must report *)

Section Spec.
Context `{Base64} (g : Globals) (h : Hook).

Definition usdt_event (kind : EventKind.t) (type name : string) (args : json) : BehaviorEvent :=
  mkEvent (header_json (get_task_info g h (EventKind.to_u8 kind))) (mkEventType type name "behavior")
    None (Some args) None.

(** The name behind the fourth argument, when the task's memory gives one. *)
Definition command_name_of : option (list byte) :=
  if arg_or h 3 0 =? 0 then None else hk_ustr h (arg_or h 3 0) 64.

Definition kind_name (kind : Z) : string :=
  if kind =? 0 then "builtin" else if kind =? 1 then "external" else
  if kind =? 2 then "function" else "other".

Definition shell_event (id : Z) (name : list byte) : BehaviorEvent :=
  let truncated := JBool (len name =? 63) in
  usdt_event EventKind.UsdtTrainingShellV3 "USDT" "abyss0_shell.simple_command_completed"
    (obj [("attach_point_id", JNum id);
          ("shell_pid", JNum (wrap 32 (arg_or h 0 0)));
          ("command_id", JNum (arg_or h 1 0));
          ("command_kind", JStr (kind_name (wrap 32 (arg_or h 2 U64_MAX))));
          ("command_name", obj [("value", JStr (bstr name)); ("capture_limit", JNum 64);
                                ("truncated", truncated)]);
          ("command_name_bytes",
            obj [("base64", JStr (b64_encode name)); ("capture_limit", JNum 64);
                 ("observed_length", JNum (len name)); ("truncated", truncated)]);
          ("semantic_flags",
            strs (if Z.testbit (arg_or h 4 0) 0 then ["SELF_PID_EXPANDED"] else []));
          ("exit_status", JNum (swrap 32 (arg_or h 5 0)))]).

Definition capture_error_event (id : Z) : BehaviorEvent :=
  usdt_event EventKind.UsdtTrainingShellV3CaptureError "DIAGNOSTIC" "usdt.collector"
    (obj [("collector_id", JStr "training-shell-v3"); ("reason_code", JStr "abi_incompatible");
          ("attach_point_id", JNum id); ("argument", JStr "command_name");
          ("read_error_code", JStr "unreadable_user_memory")]).

Definition shell_report (id : Z) : result BehaviorEvent :=
  match command_name_of with
  | None => Ok (capture_error_event id)
  | Some name =>
      if utf8_valid name then Ok (shell_event id name)
      else Err "USDT command-name is not UTF-8"
  end.

Definition peer_event (id : Z) : BehaviorEvent :=
  let code := wrap 32 (arg_or h 1 U64_MAX) in
  usdt_event EventKind.UsdtTrainingPeerV1 "USDT" "abyss0_peer.task_finished"
    (obj [("attach_point_id", JNum id); ("task_id", JNum (arg_or h 0 0));
          ("result", JStr (if code =? 0 then "ok" else if code =? 1 then "failed" else "other"))]).
End Spec.

(** ** End to end *)

Section Facts.
Context `{Base64} (g : Globals) (h : Hook) (Hok : HookOk h) (He : Healthy h).

Lemma arg_or_range i d : in_u 64 d -> in_u 64 (arg_or h i d).
Proof.
  intros Hd. unfold arg_or. destruct (hk_arg h i) as [v|] eqn:E; [|done]. apply (ok_arg h Hok _ _ E).
Qed.

(** The deserializer hands a USDT record's payload to its collector. *)
Lemma usdt_record_decodes kind payload :
  kind = EventKind.UsdtTrainingShellV3 \/ kind = EventKind.UsdtTrainingPeerV1 \/
  kind = EventKind.UsdtTrainingShellV3CaptureError ->
  deserialize (as_bytes (hk_pad h) (get_task_info g h (EventKind.to_u8 kind)) ++ payload) =
  event_of kind (get_task_info g h (EventKind.to_u8 kind)) <$> decode_payload kind payload.
Proof.
  intros Hk. rewrite (deserialize_record _ _ kind);
    [by destruct Hk as [->|[->| ->]]| |done|by destruct Hk as [->|[->| ->]]].
  apply get_task_info_range; [done|apply EventKind.to_u8_range].
Qed.

Lemma emit_assembled_healthy header payload name s :
  exists s', emit_assembled h header payload name s = (Some tt, s') /\
    EVENTS s' = EVENTS s ++ [as_bytes (hk_pad h) header ++ payload ++ name] /\
    failures s' = failures s.
Proof.
  unfold emit_assembled, mbind, M_bind, get_state, set_assembly, modify. cbn zeta.
  rewrite <- (length_as_bytes (hk_pad h) header), take_overwrite3.
  rewrite emit_event_spec by apply as_bytes_not_nil.
  rewrite (he_room h He). by eexists.
Qed.

Lemma capture_error_reported id s :
  in_u 32 id ->
  exists s' rec, emit_shell_capture_error g h id 3 1 s = (Some tt, s') /\
    EVENTS s' = EVENTS s ++ [rec] /\ deserialize rec = Ok (capture_error_event g h id) /\
    failures s' = failures s.
Proof.
  intros Hid. unfold emit_shell_capture_error. rewrite emit_stack_spec
    by (rewrite length_as_bytes; vm_compute; lia).
  rewrite emit_event_spec by apply as_bytes_not_nil. rewrite (he_room h He).
  do 2 eexists. split_and!; [reflexivity..| |done].
  rewrite usdt_record_decodes by auto. cbn [decode_payload].
  unfold decode_training_shell_capture_error, wrong_size. rewrite length_as_bytes, Nat.eqb_refl.
  rewrite <- (app_nil_r (as_bytes _ _)), read_as_bytes; [reflexivity|].
  unfold in_range. cbn -[in_u]. split_and!; try done; unfold in_u; cbn; lia.
Qed.
End Facts.

Section Shell.
Context `{Base64} (g : Globals) (h : Hook) (Hok : HookOk h) (He : Healthy h).

(** The payload a probe builds for a name, field by field. *)
Definition shell_payload (id : Z) (name : list byte) : UsdtTrainingShellPayload.t :=
  UsdtTrainingShellPayload.mk id (wrap 32 (arg_or h 0 0)) (arg_or h 1 0)
    (wrap 32 (arg_or h 2 U64_MAX)) (wrap 32 (arg_or h 4 0)) (swrap 32 (arg_or h 5 0))
    (wrap 16 (len name)) (Z.b2z (len name =? COMMAND_NAME_LIMIT - 1)) 0.

Lemma shell_payload_range id name : in_u 32 id -> in_range (shell_payload id name).
Proof.
  intros Hid. unfold in_range, shell_payload. cbn -[in_u in_s wrap swrap].
  split_and!; try done; try (apply wrap_bounds; lia); try (apply swrap_bounds; lia).
  - apply arg_or_range; [done|]. unfold in_u. cbn. lia.
  - lia.
  - destruct (len name =? _); unfold in_u; cbn; lia.
Qed.

Lemma has_bit0 z : has (wrap 32 z) 1 = Z.testbit z 0.
Proof.
  unfold has, wrap. rewrite <- Z.land_ones, <- Z.land_assoc by lia. change (Z.land (Z.ones 32) 1) with 1.
  rewrite Z.bit0_odd. change 1 with (Z.ones 1) at 1. rewrite Z.land_ones by lia.
  change (2 ^ 1) with 2. rewrite Zmod_odd. by destruct (Z.odd z).
Qed.

Lemma kind_name_eq {A} (k : Z) (f : string -> A) :
  f (match k with 0 => "builtin" | 1 => "external" | 2 => "function" | _ => "other" end) =
  f (kind_name k).
Proof.
  unfold kind_name. destruct k as [|[[]|[]|]|]; reflexivity.
Qed.

Lemma shell_payload_decodes id name :
  in_u 32 id -> len name < 64 ->
  decode_training_shell_payload (as_bytes (hk_pad h) (shell_payload id name) ++ name) =
  if utf8_valid name then Ok ("USDT", "abyss0_shell.simple_command_completed", "behavior",
    be_args (shell_event g h id name), None) else Err "USDT command-name is not UTF-8".
Proof.
  intros Hid Hl. pose proof (len_nonneg name). unfold decode_training_shell_payload.
  rewrite too_short_own, read_as_bytes by (by apply shell_payload_range).
  unfold after. rewrite drop_as_bytes.
  assert (Hn : wrap 16 (len name) = len name) by (apply wrap_id; unfold in_u; lia).
  unfold shell_payload.
  cbn [UsdtTrainingShellPayload.attach_point_id UsdtTrainingShellPayload.shell_pid
    UsdtTrainingShellPayload.command_id UsdtTrainingShellPayload.command_kind
    UsdtTrainingShellPayload.semantic_flags UsdtTrainingShellPayload.exit_status
    UsdtTrainingShellPayload.command_name_len UsdtTrainingShellPayload.command_name_truncated].
  rewrite Hn. unfold TRAINING_SHELL_COMMAND_NAME_LIMIT. rewrite (proj2 (Z.ltb_ge 64 (len name))) by lia.
  rewrite (len_app (as_bytes _ _)), (len_as_bytes (hk_pad h)), Z.eqb_refl.
  replace (1 <? Z.b2z (len name =? COMMAND_NAME_LIMIT - 1)) with false by (by destruct (len name =? _)).
  cbn [bail_if negb mbind result_bind]. destruct (utf8_valid name); [|done].
  cbn [bail_if negb mbind result_bind].
  rewrite has_bit0, (kind_name_eq _ JStr). unfold shell_event, usdt_event. cbn [be_args].
  change (COMMAND_NAME_LIMIT - 1) with 63.
  replace (negb (Z.b2z (len name =? 63) =? 0)) with (len name =? 63) by (by destruct (len name =? 63)).
  by destruct (Z.testbit (arg_or h 4 0) 0).
Qed.
End Shell.

(** C24: a completed simple command of a traced shell is reported exactly
    once, under its attach point: with the shell's pid, command number, kind,
    flags and exit status and with the name the shell's memory holds, marked
    truncated when it fills the 63 bytes; a name that cannot be read gives the
    collector's diagnostic and nothing else, and one that is not UTF-8 is
    refused by the daemon under its own error.  An untraced shell leaves no
    trace at all. *)
Theorem shell_probe_reported `{Base64} g h s id :
  HookOk h -> Healthy h -> ScratchOk s -> in_u 32 id ->
  if should_trace g h then
    exists s' rec, shell_attach_point g h id s = (Some tt, s') /\ EVENTS s' = EVENTS s ++ [rec] /\
      deserialize rec = shell_report g h id /\ failures s' = failures s
  else shell_attach_point g h id s = (Some tt, s).
Proof.
  intros Hok He Hso Hid. unfold shell_attach_point. destruct (should_trace g h); [|done]. cbn [negb].
  unfold emit_shell, shell_report, command_name_of.
  destruct (arg_or h 3 0 =? 0); [by apply capture_error_reported|].
  change (Z.to_nat COMMAND_NAME_LIMIT) with 64%nat.
  destruct (hk_ustr h _ _) as [name|] eqn:En; [|by apply capture_error_reported].
  pose proof (ok_ustr h Hok _ _ _ En) as [Hl _]. rewrite (he_scratch h He). cbn [negb]. cbn zeta.
  unfold mbind at 1, M_bind at 1, get_state. rewrite (so_assembly s Hso).
  rewrite (proj2 (Nat.ltb_ge _ _))
    by (change (size_of EventHeader.t + size_of UsdtTrainingShellPayload.t)%nat with 128%nat;
        unfold ASSEMBLY_BUF_SIZE, MAX_PATH_SIZE; lia).
  fold (shell_payload h id name).
  destruct (emit_assembled_healthy h He (get_task_info g h (EventKind.to_u8 EventKind.UsdtTrainingShellV3))
    (as_bytes (hk_pad h) (shell_payload h id name)) name s) as (s' & Es & Hev & Hf).
  eexists s', _. split_and!; [exact Es|exact Hev| |done].
  rewrite usdt_record_decodes by auto. cbn [decode_payload].
  rewrite (shell_payload_decodes g) by (try done; unfold len; lia). by destruct (utf8_valid name).
Qed.

(** A finished task of a traced peer is reported exactly once, with its task
    number and result; an untraced peer leaves no trace. *)
Theorem peer_probe_reported `{Base64} g h s id :
  HookOk h -> Healthy h -> in_u 32 id ->
  if should_trace g h then
    exists s' rec, peer_attach_point g h id s = (Some tt, s') /\ EVENTS s' = EVENTS s ++ [rec] /\
      deserialize rec = Ok (peer_event g h id) /\ failures s' = failures s
  else peer_attach_point g h id s = (Some tt, s).
Proof.
  intros Hok He Hid. unfold peer_attach_point. destruct (should_trace g h); [|done]. cbn [negb].
  rewrite (he_scratch h He). cbn [negb]. cbn zeta.
  set (payload := UsdtTrainingPeerPayload.mk _ _ _ _ _).
  destruct (emit_assembled_healthy h He (get_task_info g h (EventKind.to_u8 EventKind.UsdtTrainingPeerV1))
    (as_bytes (hk_pad h) payload) [] s) as (s' & Es & Hev & Hf).
  eexists s', _. split_and!; [exact Es|exact Hev| |done].
  rewrite usdt_record_decodes by auto. cbn [decode_payload].
  unfold decode_training_peer_payload, wrong_size.
  rewrite app_nil_r at 1. rewrite length_as_bytes, Nat.eqb_refl. rewrite read_as_bytes.
  2:{ unfold in_range, payload. cbn -[in_u wrap]. split_and!; try done;
        first [apply wrap_bounds; lia|apply (arg_or_range h Hok); done|unfold in_u; cbn; lia]. }
  unfold payload, peer_event. cbn -[wrap header_json get_task_info].
  by destruct (wrap 32 (arg_or h 1 U64_MAX)) as [|[]|].
Qed.
