(* ===== verification/Lsm.v ===== *)
(** * LSM hooks (bloodhound-ebpf/src/lsm_hooks.rs)

    The hooks report what the target login attempts and refuse it exactly two
    things: killing the daemon and tracing it.  The hook's argument words are
    the [hk_raw_arg]s; a handler returns the decision, [Err] meaning 0. *)

From S2P Require Import Prelude Layout Records Common Json Event Usdt Deserializer Wire.
From S2P Require Import Bpf Task HookFacts RichFacts ProcLifecycle.

Local Open Scope string_scope.
Local Open Scope Z_scope.
Local Open Scope list_scope.

Section Lsm.
Context (g : Globals) (h : Hook).

Definition is_daemon : bool :=
  negb (DAEMON_PID g =? 0) && (current_tgid h =? DAEMON_PID g).

(** [emit_lsm_event] builds its header itself, field by field. *)
Definition lsm_header (kind : Z) : EventHeader.t :=
  EventHeader.mk kind HeaderCapture.default (hk_now h) (get_current_auid g h)
    (get_current_sessionid g h) (current_tgid h) 0
    (default 0 (kr_start_boottime_ns <$> process_ref_from_task g h (hk_task h)))
    (default (replicate 16 NUL) (hk_comm h)) (current_tid h) (snapshot g h (hk_task h)).

Definition emit_lsm_event {T} `{ReprC T} (kind : EventKind.t) (payload : T) : M unit :=
  emit_stack h 256 (lsm_header (EventKind.to_u8 kind)) (as_bytes (hk_pad h) payload).

(** [match result { Ok(ret) => ret, Err(_) => 0 }] *)
Definition decision (m : M Z) : M Z := fun s =>
  match m s with
  | (Some ret, s1) => (Some ret, s1)
  | (None, s1) => (Some 0, s1)
  end.

Definition by_target : bool := get_current_auid g h =? TARGET_AUID g.

Definition try_task_kill : M Z :=
  if is_daemon then mret 0 else
  if negb by_target then mret 0 else
  let target_task := hk_raw_arg h 0 in
  let sig := swrap 32 (hk_raw_arg h 2) in
  let target_tgid := default 0 (kread_u32 h (wrapping_add target_task (OFF_TGID g))) in
  let target_start := default 0 (kr_start_boottime_ns <$> process_ref_from_task g h target_task) in
  if negb (DAEMON_PID g =? 0) && (target_tgid =? DAEMON_PID g) then
    _ ← emit_lsm_event EventKind.LsmTaskKill
          (LsmTaskKillPayload.mk target_tgid (wrap 32 sig) target_start (-1) 0);
    mret (-1)
  else
    _ ← emit_lsm_event EventKind.LsmTaskKill
          (LsmTaskKillPayload.mk target_tgid (wrap 32 sig) target_start 0 0);
    mret 0.

Definition task_kill : M Z := decision try_task_kill.

Definition try_bpf_hook : M Z :=
  if is_daemon then mret 0 else
  if negb by_target then mret 0 else
  _ ← emit_lsm_event EventKind.LsmBpf (LsmBpfPayload.mk 0 0);
  mret 0.

Definition bpf_hook : M Z := decision try_bpf_hook.

Definition try_ptrace : M Z :=
  let previous := swrap 32 (hk_raw_arg h 2) in
  if negb (previous =? 0) then mret previous else
  if is_daemon then mret 0 else
  if negb by_target then mret 0 else
  target_pid ← lift (kread_u32 h (wrapping_add (hk_raw_arg h 0) (OFF_TGID g)));
  if negb (target_pid =? DAEMON_PID g) then mret 0 else
  _ ← emit_lsm_event EventKind.LsmPtraceAccessCheck (LsmPtracePayload.mk (DAEMON_PID g) (-1));
  mret (-1).

Definition ptrace_access_check : M Z := decision try_ptrace.

Definition try_file_open : M Z :=
  if is_daemon then mret 0 else
  if negb by_target then mret 0 else
  _ ← emit_lsm_event EventKind.LsmFileOpen (LsmFileOpenPayload.mk 0 (replicate 2 NUL) 0);
  mret 0.

Definition file_open : M Z := decision try_file_open.

Definition try_inode_op (kind : EventKind.t) : M Z :=
  if is_daemon then mret 0 else
  if negb by_target then mret 0 else
  _ ← emit_lsm_event kind (LsmInodePayload.mk 0 (replicate 2 NUL) 0);
  mret 0.

Definition inode_unlink : M Z := decision (try_inode_op EventKind.LsmInodeUnlink).

Definition try_inode_rename : M Z :=
  if is_daemon then mret 0 else
  if negb by_target then mret 0 else
  _ ← emit_lsm_event EventKind.LsmInodeRename (LsmInodeRenamePayload.mk 0 0 0);
  mret 0.

Definition inode_rename : M Z := decision try_inode_rename.

Definition try_setuid : M Z :=
  if negb by_target then mret 0 else
  _ ← emit_lsm_event EventKind.LsmTaskFixSetuid (LsmSetuidPayload.mk 0 0 0 0 0);
  mret 0.

Definition task_fix_setuid : M Z := decision try_setuid.

(** The hooks by the kind of record they emit. *)
Definition lsm_hook (kind : EventKind.t) : option (M Z) :=
  match kind with
  | EventKind.LsmTaskKill => Some task_kill
  | EventKind.LsmBpf => Some bpf_hook
  | EventKind.LsmPtraceAccessCheck => Some ptrace_access_check
  | EventKind.LsmFileOpen => Some file_open
  | EventKind.LsmInodeUnlink => Some inode_unlink
  | EventKind.LsmInodeRename => Some inode_rename
  | EventKind.LsmTaskFixSetuid => Some task_fix_setuid
  | _ => None
  end.

(** ** The policy *)

(** The hook's target is the daemon. *)
Definition targets_daemon : bool :=
  bool_decide (kread_u32 h (wrapping_add (hk_raw_arg h 0) (OFF_TGID g)) = Some (DAEMON_PID g)).

(** What each hook decides. *)
Definition lsm_policy (kind : EventKind.t) : Z :=
  let refused := negb is_daemon && by_target && targets_daemon in
  match kind with
  | EventKind.LsmTaskKill => if refused then -1 else 0
  | EventKind.LsmPtraceAccessCheck =>
      let previous := swrap 32 (hk_raw_arg h 2) in
      if negb (previous =? 0) then previous else if refused then -1 else 0
  | _ => 0
  end.

Lemma lsm_header_eq kind : lsm_header kind = get_task_info g h kind.
Proof. reflexivity. Qed.

Lemma emit_lsm_some {T} `{ReprC T} kind (p : T) s :
  (size_of EventHeader.t + size_of T <= 256)%nat ->
  exists s', emit_lsm_event kind p s = (Some tt, s') /\
    s' = (emit_event h (as_bytes (hk_pad h) (get_task_info g h (EventKind.to_u8 kind)) ++
            as_bytes (hk_pad h) p) s).2.
Proof.
  intros Hs. unfold emit_lsm_event. rewrite emit_stack_spec by (by rewrite length_as_bytes).
  by eexists.
Qed.

(** A handler's tail: report, then decide. *)
Lemma report_decides {T} `{ReprC T} kind (p : T) v s :
  (size_of EventHeader.t + size_of T <= 256)%nat ->
  (_ ← emit_lsm_event kind p; mret v : M Z) s =
  (Some v, (emit_event h (as_bytes (hk_pad h) (get_task_info g h (EventKind.to_u8 kind)) ++
            as_bytes (hk_pad h) p) s).2).
Proof.
  intros Hs. destruct (emit_lsm_some kind p s Hs) as (s' & E & ->).
  exact (bind_some _ _ _ _ _ E).
Qed.

(** The record a hook emits with its decision. *)
Definition lsm_payload (kind : EventKind.t) : list byte :=
  let target := default 0 (kread_u32 h (wrapping_add (hk_raw_arg h 0) (OFF_TGID g))) in
  match kind with
  | EventKind.LsmTaskKill => as_bytes (hk_pad h) (LsmTaskKillPayload.mk target
      (wrap 32 (swrap 32 (hk_raw_arg h 2)))
      (default 0 (kr_start_boottime_ns <$> process_ref_from_task g h (hk_raw_arg h 0)))
      (lsm_policy kind) 0)
  | EventKind.LsmBpf => as_bytes (hk_pad h) (LsmBpfPayload.mk 0 0)
  | EventKind.LsmPtraceAccessCheck => as_bytes (hk_pad h) (LsmPtracePayload.mk (DAEMON_PID g) (-1))
  | EventKind.LsmInodeRename => as_bytes (hk_pad h) (LsmInodeRenamePayload.mk 0 0 0)
  | EventKind.LsmTaskFixSetuid => as_bytes (hk_pad h) (LsmSetuidPayload.mk 0 0 0 0 0)
  | EventKind.LsmInodeUnlink => as_bytes (hk_pad h) (LsmInodePayload.mk 0 (replicate 2 NUL) 0)
  | _ => as_bytes (hk_pad h) (LsmFileOpenPayload.mk 0 (replicate 2 NUL) 0)
  end.

(** Whether a hook reports: any call of the target login but the daemon's own;
    of traces, only the refused ones. *)
Definition lsm_reports (kind : EventKind.t) : bool :=
  match kind with
  | EventKind.LsmPtraceAccessCheck =>
      (swrap 32 (hk_raw_arg h 2) =? 0) && negb is_daemon && by_target && targets_daemon
  | EventKind.LsmTaskFixSetuid => by_target
  | _ => negb is_daemon && by_target
  end.

Lemma targets_daemon_spec :
  DAEMON_PID g <> 0 ->
  negb (DAEMON_PID g =? 0) &&
    (default 0 (kread_u32 h (wrapping_add (hk_raw_arg h 0) (OFF_TGID g))) =? DAEMON_PID g) =
  targets_daemon.
Proof.
  intros Hd. rewrite (proj2 (Z.eqb_neq (DAEMON_PID g) 0) Hd). cbn [negb andb]. unfold targets_daemon.
  destruct (kread_u32 h _) as [v|]; cbn [default from_option id].
  - destruct (Z.eqb_spec v (DAEMON_PID g)) as [->|Hn]; symmetry;
      [by apply bool_decide_eq_true|apply bool_decide_eq_false; congruence].
  - rewrite (proj2 (Z.eqb_neq 0 (DAEMON_PID g))) by congruence. by rewrite bool_decide_false.
Qed.

(** What a hook does, in one equation. *)
Lemma lsm_hook_spec kind hook s :
  DAEMON_PID g <> 0 -> lsm_hook kind = Some hook ->
  hook s = (Some (lsm_policy kind),
    if lsm_reports kind
    then (emit_event h (as_bytes (hk_pad h) (get_task_info g h (EventKind.to_u8 kind)) ++
            lsm_payload kind) s).2
    else s).
Proof.
  intros Hd Hh. pose proof (targets_daemon_spec Hd) as Htd.
  assert (Hlift : forall {A} (o : option A) (f : A -> M Z), (lift o ≫= f) s =
    match o with Some a => f a s | None => (None, s) end) by (intros A [a|] f; reflexivity).
  destruct kind; try discriminate Hh; injection Hh as <-; unfold lsm_payload, lsm_policy, lsm_reports.
  - unfold file_open, decision, try_file_open.
    destruct is_daemon, by_target; cbn [negb andb]; try done. by rewrite report_decides by (vm_compute; lia).
  - unfold task_kill, decision, try_task_kill. cbn zeta. rewrite Htd.
    destruct is_daemon, by_target; cbn [negb andb]; try done.
    destruct targets_daemon; by rewrite report_decides by (vm_compute; lia).
  - unfold bpf_hook, decision, try_bpf_hook.
    destruct is_daemon, by_target; cbn [negb andb]; try done. by rewrite report_decides by (vm_compute; lia).
  - unfold ptrace_access_check, decision, try_ptrace. cbn zeta.
    destruct (swrap 32 (hk_raw_arg h 2) =? 0); cbn [negb andb]; [|done].
    destruct is_daemon, by_target; cbn [negb andb]; try done. rewrite Hlift.
    unfold targets_daemon. destruct (kread_u32 h _) as [v|]; [|by rewrite bool_decide_false].
    destruct (Z.eqb_spec v (DAEMON_PID g)) as [->|Hn]; cbn [negb].
    + rewrite bool_decide_true by done. by rewrite report_decides by (vm_compute; lia).
    + by rewrite bool_decide_false by congruence.
  - unfold inode_unlink, decision, try_inode_op.
    destruct is_daemon, by_target; cbn [negb andb]; try done. by rewrite report_decides by (vm_compute; lia).
  - unfold inode_rename, decision, try_inode_rename.
    destruct is_daemon, by_target; cbn [negb andb]; try done. by rewrite report_decides by (vm_compute; lia).
  - unfold task_fix_setuid, decision, try_setuid.
    destruct by_target; cbn [negb andb]; try done. by rewrite report_decides by (vm_compute; lia).
Qed.
End Lsm.

(** C15: the hooks refuse exactly what they are meant to refuse: a signal
    to the daemon or a trace of it, by the target login and not by the daemon
    itself; an earlier refusal of a trace is kept, and everything else is
    allowed, whatever happens to the record. *)
Theorem lsm_refuses_only_attacks_on_daemon g h kind hook s :
  DAEMON_PID g <> 0 -> lsm_hook g h kind = Some hook ->
  exists s', hook s = (Some (lsm_policy g h kind), s') /\
    (EVENTS s' = EVENTS s \/ exists rec, EVENTS s' = EVENTS s ++ [rec]).
Proof.
  intros Hd Hh. rewrite (lsm_hook_spec g h kind hook s Hd Hh). eexists. split; [reflexivity|].
  destruct (lsm_reports g h kind); [|by left].
  rewrite emit_event_spec by apply as_bytes_not_nil.
  destruct (hk_room h _ _); [right; by eexists|by left].
Qed.

(** The return code of the record of a hook. *)
Lemma lsm_payload_parse `{Base64} g h kind :
  HookOk h -> in_u 32 (DAEMON_PID g) -> is_Some (lsm_hook g h kind) -> lsm_reports g h kind = true ->
  DAEMON_PID g <> 0 ->
  exists name args, parse_kind kind (lsm_payload g h kind) HeaderCapture.default =
    Ok ("LSM", name, "behavior", args, Some (lsm_policy g h kind)) /\
    (lsm_policy g h kind = -1 -> (args ≫= json_get "target_pid") = Some (JNum (DAEMON_PID g))).
Proof.
  intros Hok Hdr [hook Hh] Hr Hd.
  assert (Hz : in_u 32 0 /\ in_s 32 0 /\ in_s 32 (-1)) by (split_and!; unfold in_u, in_s; cbn; lia).
  destruct Hz as (Hz & Hs0 & Hs1).
  destruct kind; try discriminate Hh; clear Hh.
  - do 2 eexists. split; [reflexivity|done].
  - unfold lsm_payload. cbn [parse_kind]. unfold parse_lsm_task_kill. rewrite too_short_own', read_own.
    2:{ unfold in_range. cbn -[in_u in_s lsm_policy]. split_and!; try done; try (apply Nat.ltb_lt; reflexivity).
        - apply default_range; [done|]. intros v. by apply kread_u32_range.
        - apply wrap_bounds; lia.
        - destruct (process_ref_from_task g h _) as [r|] eqn:E; cbn;
            [by apply (process_ref_range g h Hok) in E as (_ & ? & _)|apply zero_range; lia].
        - unfold lsm_policy. by destruct (is_daemon g h), (by_target g h), (targets_daemon g h). }
    do 2 eexists. split; [reflexivity|]. intros Hp.
    assert (Ht : targets_daemon g h = true).
    { revert Hp. unfold lsm_policy. destruct (is_daemon g h), (by_target g h), (targets_daemon g h); done. }
    apply bool_decide_eq_true in Ht. rewrite Ht. cbn [default from_option id mbind option_bind].
    unfold insert_ref. cbn [LsmTaskKillPayload.target_pid]. by destruct (negb _ && negb _).
  - do 2 eexists. split; [reflexivity|done].
  - unfold lsm_payload. cbn [parse_kind]. unfold parse_lsm_ptrace. rewrite too_short_own', read_own
      by (unfold in_range; cbn -[in_u in_s]; split_and!; first [done | lia]).
    assert (Hpol : lsm_policy g h EventKind.LsmPtraceAccessCheck = -1).
    { revert Hr. unfold lsm_reports, lsm_policy. destruct (swrap 32 _ =? 0); [|done].
      by destruct (is_daemon g h), (by_target g h), (targets_daemon g h). }
    rewrite Hpol. do 2 eexists. split; [reflexivity|]. done.
  - do 2 eexists. split; [reflexivity|done].
  - do 2 eexists. split; [reflexivity|done].
  - do 2 eexists. split; [reflexivity|done].
Qed.

(** What a hook of the target login decides is on the record: the
    decision is the return code of the event the record decodes to, and a
    refusal names the daemon as the target. *)
Theorem lsm_decisions_reported `{Base64} g h kind hook s :
  HookOk h -> Healthy h -> in_u 32 (DAEMON_PID g) -> DAEMON_PID g <> 0 ->
  lsm_hook g h kind = Some hook -> lsm_reports g h kind = true ->
  exists s' rec e, hook s = (Some (lsm_policy g h kind), s') /\ EVENTS s' = EVENTS s ++ [rec] /\
    deserialize rec = Ok e /\ be_return_code e = Some (lsm_policy g h kind) /\
    (lsm_policy g h kind = -1 -> arg "target_pid" e = Some (JNum (DAEMON_PID g))).
Proof.
  intros Hok He Hdr Hd Hh Hr. rewrite (lsm_hook_spec g h kind hook s Hd Hh), Hr.
  rewrite emit_event_spec by apply as_bytes_not_nil. rewrite (he_room h He).
  destruct (lsm_payload_parse g h kind Hok Hdr (ex_intro _ hook Hh) Hr Hd) as (name & args & Hp & Ht).
  assert (Hpk : is_packet kind = false /\ kind <> EventKind.ProcessStart) by (by destruct kind).
  do 3 eexists. split; [reflexivity|]. split; [reflexivity|].
  rewrite (deserialize_record _ _ kind);
    [|apply get_task_info_range; auto using EventKind.to_u8_range|done|apply Hpk].
  cbn [EventHeader.capture get_task_info]. rewrite Hp. split; [reflexivity|]. split; [done|].
  intros Hm. unfold arg. cbn [be_args]. unfold final_args. rewrite <- (Ht Hm).
  destruct Hpk as [_ Hps]. by destruct kind.
Qed.
