(* ===== verification/Network.v ===== *)
(** * Peer addresses (bloodhound-ebpf/src/layer3_rich.rs, bloodhound/src/deserializer.rs)

    What [connect] and [bind] report of the socket address in user memory, end
    to end: the family, the port in host order, and the address as text.  The
    octets of an IPv6 address come out in network order; those of an IPv4
    address come out reversed, because the kernel side stores the four bytes as
    a little-endian word and the daemon prints the word's big-endian bytes. *)

From S2P Require Import Prelude Layout Records Common Json Event Usdt Deserializer Wire.
From S2P Require Import Bpf Task HookFacts Rich RichFacts.

Local Open Scope string_scope.
Local Open Scope Z_scope.
Local Open Scope list_scope.

(** A socket address: its port, most significant byte first, and its octets in
    network order. *)
Inductive peer :=
  | PeerV4 (port_hi port_lo : byte) (octets : list byte)
  | PeerV6 (port_hi port_lo : byte) (octets : list byte).

(** The reads of the entry handler see the address [p] at [addr]. *)
Definition peer_at (h : Hook) (addr : Z) (p : peer) : Prop :=
  let rd off n b := hk_uread h (wrapping_add addr off) n = Some b in
  match p with
  | PeerV4 hi lo octets =>
      hk_uread h addr 2 = Some (le_split 2 2) /\ rd 2 2%nat [hi; lo] /\ rd 4 4%nat octets
  | PeerV6 hi lo octets =>
      hk_uread h addr 2 = Some (le_split 2 10) /\ rd 2 2%nat [hi; lo] /\ length octets = 16%nat /\
      forall i b, octets !! i = Some b ->
        hk_uread h (wrapping_add (wrapping_add addr 8) (Z.of_nat i)) 1 = Some [b]
  end.

Definition peer_size (p : peer) : Z := match p with PeerV4 _ _ _ => 8 | PeerV6 _ _ _ => 28 end.
Definition peer_family (p : peer) : Z := match p with PeerV4 _ _ _ => 2 | PeerV6 _ _ _ => 10 end.
Definition peer_port (p : peer) : Z :=
  match p with PeerV4 hi lo _ | PeerV6 hi lo _ => byte.unsigned hi * 256 + byte.unsigned lo end.

(** The text of the address: the octets of an IPv4 address last to first. *)
Definition peer_text (p : peer) : string :=
  match p with
  | PeerV4 _ _ octets => join "." ((fun b => dec_string (byte.unsigned b)) <$> reverse octets)
  | PeerV6 _ _ octets => join ":" (hex_pairs octets)
  end.

(** A 16-bit word read from big-endian memory and swapped is the number the
    two bytes spell. *)
Lemma from_be_bytes hi lo :
  u16_from_be (le_combine [hi; lo]) = byte.unsigned hi * 256 + byte.unsigned lo.
Proof. destruct hi; destruct lo; vm_compute; reflexivity. Qed.

Lemma split_combine_id b : le_split (length b) (le_combine b) = b.
Proof. apply LittleEndianList.split_le_combine. Qed.

(** The address words the entry handler stashes. *)
Lemma read_sockaddr_peer h addr addrlen p :
  HookOk h -> addr <> 0 -> peer_size p <= addrlen -> peer_at h addr p ->
  exists v4 v6, read_sockaddr h addr addrlen = (peer_family p, peer_port p, v4, v6) /\
    format_addr (peer_family p) v4 v6 = peer_text p.
Proof.
  intros Hok Ha Hl Hp. unfold read_sockaddr. rewrite (proj2 (Z.eqb_neq addr 0)) by done.
  destruct p as [hi lo octets|hi lo octets]; cbn [peer_size] in Hl.
  - destruct Hp as (Hf & Hpt & Ho). rewrite (proj2 (Z.leb_le 2 addrlen)) by lia.
    unfold uread_u16, uread_u32. rewrite Hf, Hpt, Ho. cbn -[le_combine u16_from_be].
    change (le_combine [Byte.x02; Byte.x00]) with 2. rewrite (proj2 (Z.leb_le 8 addrlen)) by lia.
    cbn -[le_combine u16_from_be]. rewrite from_be_bytes. do 2 eexists. split; [reflexivity|].
    unfold format_addr, format_ipv4, u32_to_be_bytes. cbn [Z.eqb Pos.eqb peer_family peer_text].
    rewrite <- (ok_uread h Hok _ _ _ Ho), split_combine_id. reflexivity.
  - destruct Hp as (Hf & Hpt & Hlen & Ho). rewrite (proj2 (Z.leb_le 2 addrlen)) by lia.
    unfold uread_u16. rewrite Hf, Hpt. cbn -[le_combine u16_from_be seq].
    change (le_combine [Byte.x0a; Byte.x00]) with 10. rewrite (proj2 (Z.leb_le 28 addrlen)) by lia.
    cbn -[le_combine u16_from_be seq]. rewrite from_be_bytes. do 2 eexists. split; [reflexivity|].
    unfold format_addr, format_ipv6. cbn [Z.eqb Pos.eqb peer_family peer_text].
    do 2 f_equal. apply list_eq_same_length with 16%nat; [done|by rewrite length_fmap, length_seq|].
    intros i x y Hi Hx Hy. rewrite list_lookup_fmap, lookup_seq_lt in Hx by done.
    injection Hx as <-. unfold user_byte. by rewrite (Ho i y Hy).
Qed.

(** C34: a traced [connect] or [bind] reports the family and the port of
    the address it was given, and the address itself: an IPv6 address in order,
    an IPv4 address with its four octets reversed (127.0.0.1 is reported as
    1.0.0.127). *)
Theorem peer_addresses_reported `{Base64} g h1 h2 k name p :
  HookOk h1 -> HookOk h2 -> Healthy h1 -> Healthy h2 ->
  hk_pid_tgid h2 = hk_pid_tgid h1 -> should_trace g h1 = true ->
  (k, name) = (EventKind.Connect, "connect") \/ (k, name) = (EventKind.Bind, "bind") ->
  sysarg h1 1 <> 0 -> peer_size p <= sysarg h1 2 -> peer_at h1 (sysarg h1 1) p ->
  exists enter exit, sys_enter g h1 k = Some enter /\ sys_exit g h2 k = Some exit /\
    reports (hk_pid_tgid h1) enter exit
      (mkEvent (header_json (get_task_info g h1 (EventKind.to_u8 k)))
         (mkEventType "TRACEPOINT" name "behavior") None
         (Some (obj [("family", num (peer_family p)); ("port", num (peer_port p));
                     ("addr", JStr (peer_text p))])) (Some (swrap 32 (sysret h2)))).
Proof.
  intros Hok1 Hok2 He1 He2 Hkey Ht Hk Ha Hl Hp.
  destruct (read_sockaddr_peer h1 _ _ p Hok1 Ha Hl Hp) as (v4 & v6 & Er & <-).
  exists (entry_result (try_sys_enter_sockaddr g h1 (EventKind.to_u8 k))),
         (exit_result h2 (try_sys_exit_sockaddr h2)).
  split_and!; [by destruct Hk as [[= -> ->]|[= -> ->]]..|].
  by apply sockaddr_reports.
Qed.
