(* ===== verification/Interleave.v ===== *)
(** * Programs running together

    Every program of the kernel side as a step on the one shared state, and
    runs as sequences of steps, in any order, by any tasks.  Two facts about
    runs: a step leaves the pending entries of other tasks alone, so that what
    a syscall reports does not depend on what runs between its entry and its
    exit; and the exit of a process instance is on the ring at most once until
    its claim is released. *)

From S2P Require Import Prelude Layout Records Common Json Event Usdt Deserializer Wire.
From S2P Require Import Bpf Task HookFacts Entries Rich RichFacts Raw ProcLifecycle Exec Tty UsdtProbes Lsm.

Local Open Scope string_scope.
Local Open Scope Z_scope.
Local Open Scope list_scope.

(** ** Steps *)

(** The attached programs. *)
Inductive program :=
  | SysEnter (k : EventKind.t)
  | SysExit (k : EventKind.t)
  | RawSysEnter
  | RawSysExit
  | ExecveEnter
  | ExecveatEnter
  | ExecExit
  | TtyWriteProbe
  | TtyReadProbe
  | TtyReadRetProbe
  | LsmHook (k : EventKind.t)
  | UsdtShell (attach_point_id : Z)
  | UsdtPeer (attach_point_id : Z)
  | ProcessFork
  | ProcessExit
  | ProcessFree
  | SignalGenerate.

Definition run_program (g : Globals) (h : Hook) (p : program) : M unit :=
  match p with
  | SysEnter k => default (mret tt) (sys_enter g h k)
  | SysExit k => default (mret tt) (sys_exit g h k)
  | RawSysEnter => raw_sys_enter g h
  | RawSysExit => raw_sys_exit h
  | ExecveEnter => sys_enter_execve g h
  | ExecveatEnter => sys_enter_execveat g h
  | ExecExit => sys_exit_execve h
  | TtyWriteProbe => tty_write_probe g h
  | TtyReadProbe => tty_read_probe g h
  | TtyReadRetProbe => tty_read_ret_probe g h
  | LsmHook k => _ ← default (mret 0) (lsm_hook g h k); mret tt
  | UsdtShell id => shell_attach_point g h id
  | UsdtPeer id => peer_attach_point g h id
  | ProcessFork => sched_process_fork g h
  | ProcessExit => sched_process_exit g h
  | ProcessFree => sched_process_free g h
  | SignalGenerate => signal_generate g h
  end.

(** A run: the programs that fire, each with what the kernel answers it. *)
Definition trace : Type := list (Hook * program).

Fixpoint run_trace (g : Globals) (tr : trace) (s : Bpf) : Bpf :=
  match tr with
  | [] => s
  | (h, p) :: tr => run_trace g tr (run_program g h p s).2
  end.

(** ** What a step may do *)

(** A header of any kind but the exit of a process. *)
Definition header_fine (hd : EventHeader.t) : Prop :=
  exists k, k <> EventKind.ProcessExit /\ EventHeader.kind hd = EventKind.to_u8 k.

(** A record of any kind but the exit of a process. *)
Definition record_fine (rec : list byte) : Prop :=
  exists k rest, k <> EventKind.ProcessExit /\ rec = byte.of_Z (EventKind.to_u8 k) :: rest.

(** The headers of pending entries. *)
Record stashed_fine (s : Bpf) : Prop := mkStashedFine {
  sf_rich : map_Forall (fun _ e => header_fine (re_header e)) (rich_map s);
  sf_path : map_Forall (fun _ e => header_fine (pe_header e)) (path_map s);
  sf_openat : map_Forall (fun _ e => header_fine (oe_header e)) (openat_map s);
  sf_syscall : map_Forall (fun _ e => header_fine (se_header e)) (syscall_map s);
  sf_execve : map_Forall (fun _ e => header_fine (xe_header e)) (execve_map s) }.

(** The pending entries of tasks other than the current one stay. *)
Record frame (h : Hook) (s s' : Bpf) : Prop := mkFrame {
  fr_task : forall key, key <> hk_pid_tgid h ->
    rich_map s' !! key = rich_map s !! key /\ path_map s' !! key = path_map s !! key /\
    openat_map s' !! key = openat_map s !! key /\ syscall_map s' !! key = syscall_map s !! key /\
    tty_map s' !! key = tty_map s !! key;
  fr_exec : forall task, task <> hk_task h -> execve_map s' !! task = execve_map s !! task }.

(** No claim and no exit record. *)
Definition exitless (s s' : Bpf) : Prop :=
  exit_claims s' = exit_claims s /\
  exists recs, EVENTS s' = EVENTS s ++ recs /\ Forall record_fine recs.

(** The maps of the Tier 2 handlers stay. *)
Definition tier2_same (s s' : Bpf) : Prop :=
  rich_map s' = rich_map s /\ path_map s' = path_map s /\ openat_map s' = openat_map s.

(** What is claimed of a step beyond the frame: that it is not about process
    exits, that it is not one of a Tier 2 handler. *)
Record mode := mkMode { m_exitless : bool; m_tier2 : bool }.

(** A step of the current task. *)
Record step_fine (b : mode) (h : Hook) (s s' : Bpf) : Prop := mkStepFine {
  st_stashed : stashed_fine s';
  st_frame : frame h s s';
  st_exitless : m_exitless b = true -> exitless s s';
  st_tier2 : m_tier2 b = true -> tier2_same s s' }.

Definition fine {A} (b : mode) (h : Hook) (m : M A) : Prop :=
  forall s, stashed_fine s -> step_fine b h s (m s).2.

Lemma step_fine_refl b h s : stashed_fine s -> step_fine b h s s.
Proof.
  intros Hs. split; [done|by split| |done]. intros _. split; [done|]. exists [].
  split; [by rewrite app_nil_r|by apply Forall_nil].
Qed.

Lemma step_fine_trans b h s1 s2 s3 :
  step_fine b h s1 s2 -> step_fine b h s2 s3 -> step_fine b h s1 s3.
Proof.
  intros [S1 [F1 X1] E1 T1] [S2 [F2 X2] E2 T2]. split; [done| | |].
  - split; [|intros t Ht; by rewrite X2, X1].
    intros k Hk. destruct (F1 k Hk) as (? & ? & ? & ? & ?), (F2 k Hk) as (? & ? & ? & ? & ?).
    split_and!; congruence.
  - intros Hb. destruct (E1 Hb) as (C1 & r1 & V1 & R1), (E2 Hb) as (C2 & r2 & V2 & R2).
    split; [congruence|]. exists (r1 ++ r2). rewrite V2, V1, app_assoc.
    split; [done|]. by apply Forall_app.
  - intros Hb. destruct (T1 Hb) as (? & ? & ?), (T2 Hb) as (? & ? & ?). split_and!; congruence.
Qed.

(** ** Composition *)

Create HintDb fine discriminated.
#[export] Hint Constants Opaque : fine.

Section Fine.
Context (b : mode) (h : Hook).

Lemma fine_ret {A} (a : A) : fine b h (mret a).
Proof. intros s. apply step_fine_refl. Qed.
Lemma fine_fail {A} : fine b h (@fail A).
Proof. intros s. apply step_fine_refl. Qed.
Lemma fine_lift {A} (o : option A) : fine b h (lift o).
Proof. intros s. apply step_fine_refl. Qed.
Lemma fine_get : fine b h get_state.
Proof. intros s. apply step_fine_refl. Qed.

Lemma fine_bind {A B} (m : M A) (f : A -> M B) :
  fine b h m -> (forall a, fine b h (f a)) -> fine b h (m ≫= f).
Proof.
  intros Hm Hf s Hs. specialize (Hm s Hs). unfold mbind, M_bind.
  destruct (m s) as [[a|] s1]; [|done].
  eapply step_fine_trans; [done|]. apply Hf, (st_stashed _ _ _ _ Hm).
Qed.

(** A computation that reads the state knows its pending entries. *)
Lemma fine_bind_get {B} (f : Bpf -> M B) :
  (forall s, stashed_fine s -> fine b h (f s)) -> fine b h (get_state ≫= f).
Proof. intros Hf s Hs. by apply (Hf s). Qed.

(** So does one that reads outside the state. *)
Lemma fine_bind_lift {A B} (o : option A) (f : A -> M B) :
  (forall a, o = Some a -> fine b h (f a)) -> fine b h (lift o ≫= f).
Proof. intros Hf s Hs. destruct o as [a|]; [by apply (Hf a)|by apply step_fine_refl]. Qed.

Lemma fine_or_else m r : fine b h m -> fine b h r -> fine b h (or_else m r).
Proof.
  intros Hm Hr s Hs. specialize (Hm s Hs). unfold or_else. destruct (m s) as [[u|] s1]; [done|].
  eapply step_fine_trans; [done|]. apply Hr, (st_stashed _ _ _ _ Hm).
Qed.

Lemma fine_on_err {A} (m : M A) r : fine b h m -> fine b h r -> fine b h (on_err m r).
Proof.
  intros Hm Hr s Hs. specialize (Hm s Hs). unfold on_err. destruct (m s) as [[u|] s1]; [done|].
  eapply step_fine_trans; [done|]. apply Hr, (st_stashed _ _ _ _ Hm).
Qed.

(** Counters and scratch buffers. *)
Lemma fine_modify f :
  (forall s, rich_map (f s) = rich_map s /\ path_map (f s) = path_map s /\
     openat_map (f s) = openat_map s /\ syscall_map (f s) = syscall_map s /\
     tty_map (f s) = tty_map s /\ execve_map (f s) = execve_map s /\
     exit_claims (f s) = exit_claims s /\ EVENTS (f s) = EVENTS s) ->
  fine b h (modify f).
Proof.
  intros Hf s [S1 S2 S3 S4 S5]. cbn [modify snd].
  destruct (Hf s) as (E1 & E2 & E3 & E4 & E5 & E6 & E7 & E8). split.
  - split; [by rewrite E1|by rewrite E2|by rewrite E3|by rewrite E4|by rewrite E6].
  - split; intros; by rewrite ?E1, ?E2, ?E3, ?E4, ?E5, ?E6.
  - intros _. split; [done|]. exists []. rewrite app_nil_r. split; [done|by apply Forall_nil].
  - done.
Qed.

Lemma fine_report fl o : (forall r, fine b h (fl r)) -> fine b h (report fl o).
Proof. intros Hf. destruct o; [apply Hf|apply fine_ret]. Qed.

Lemma fine_failures r :
  fine b h (openat_failure r) /\ fine b h (exec_failure r) /\ fine b h (syscall_failure r) /\
  fine b h (raw_syscall_failure r) /\ fine b h (tty_failure r) /\ fine b h (exit_failure r).
Proof. split_and!; by apply fine_modify. Qed.

Lemma fine_outcomes r :
  fine b h (syscall_save r) /\ fine b h (syscall_cleanup r) /\ fine b h (raw_syscall_save r) /\
  fine b h (raw_syscall_cleanup r) /\ fine b h (tty_save r) /\ fine b h (tty_cleanup r).
Proof. split_and!; apply fine_report; intros; apply fine_failures. Qed.

Lemma fine_scratch :
  (forall buf, fine b h (set_assembly buf)) /\ (forall buf, fine b h (set_tmp_openat buf)) /\
  (forall p1 p2, fine b h (set_tmp_paths p1 p2)) /\ (forall f a, fine b h (set_tmp_exec f a)) /\
  (forall i buf, fine b h (set_slot i buf)).
Proof. split_and!; intros; by apply fine_modify. Qed.

(** *** Maps *)

Lemma remove_other {V} r (k key : Z) (m : gmap Z V) :
  k <> key -> (map_remove r key m).2 !! k = m !! k.
Proof.
  intros Hk. unfold map_remove. destruct (m !! key), r; try done. cbn. by rewrite lookup_delete_ne.
Qed.
Lemma insert_other {V} r (k key : Z) (v : V) (m : gmap Z V) :
  k <> key -> (map_insert r key v m).2 !! k = m !! k.
Proof. intros Hk. destruct r; [done|]. cbn. by rewrite lookup_insert_ne. Qed.
Lemma remove_all {V} (P : V -> Prop) r (key : Z) (m : gmap Z V) :
  map_Forall (fun _ => P) m -> map_Forall (fun _ => P) (map_remove r key m).2.
Proof.
  intros Hm. unfold map_remove. destruct (m !! key), r; try done. cbn. by apply map_Forall_delete.
Qed.
Lemma insert_all {V} (P : V -> Prop) r (key : Z) (v : V) (m : gmap Z V) :
  P v -> map_Forall (fun _ => P) m -> map_Forall (fun _ => P) (map_insert r key v m).2.
Proof. intros Hv Hm. destruct r; [done|]. cbn. by apply map_Forall_insert_2. Qed.

(** A step on one map at the current task's key. *)
Local Ltac map_step :=
  let Hs := fresh in
  intros s Hs; destruct Hs;
  repeat match goal with |- context [let '(_, _) := ?x in _] => rewrite (surjective_pairing x) end;
  split;
  [ split; cbn; auto using remove_all; apply insert_all; auto
  | split; intros k Hk; cbn; split_and?; auto using remove_other, insert_other
  | intros _; split; [done|]; exists []; rewrite app_nil_r; split; [done|by apply Forall_nil]
  | done || congruence ].

Lemma fine_removes :
  fine b h (syscall_remove h (hk_pid_tgid h)) /\
  fine b h (tty_remove h (hk_pid_tgid h)) /\ fine b h (execve_remove h (hk_task h)).
Proof. split_and!; unfold syscall_remove, tty_remove, execve_remove; map_step. Qed.

Lemma fine_tier2_removes :
  m_tier2 b = false ->
  fine b h (rich_remove h (hk_pid_tgid h)) /\ fine b h (path_remove h (hk_pid_tgid h)) /\
  fine b h (openat_remove h (hk_pid_tgid h)).
Proof. intros Hb. split_and!; unfold rich_remove, path_remove, openat_remove; map_step. Qed.

Lemma fine_rich_insert e :
  m_tier2 b = false -> header_fine (re_header e) -> fine b h (rich_insert h (hk_pid_tgid h) e).
Proof. intros Hb He. unfold rich_insert. map_step. Qed.
Lemma fine_path_insert e :
  m_tier2 b = false -> header_fine (pe_header e) -> fine b h (path_insert h (hk_pid_tgid h) e).
Proof. intros Hb He. unfold path_insert. map_step. Qed.
Lemma fine_openat_insert e :
  m_tier2 b = false -> header_fine (oe_header e) -> fine b h (openat_insert h (hk_pid_tgid h) e).
Proof. intros Hb He. unfold openat_insert. map_step. Qed.
Lemma fine_syscall_insert e :
  header_fine (se_header e) -> fine b h (syscall_insert h (hk_pid_tgid h) e).
Proof. intros He. unfold syscall_insert. map_step. Qed.
Lemma fine_execve_insert e : header_fine (xe_header e) -> fine b h (execve_insert h (hk_task h) e).
Proof. intros He. unfold execve_insert. map_step. Qed.
Lemma fine_tty_insert e : fine b h (tty_insert h (hk_pid_tgid h) e).
Proof. unfold tty_insert. map_step. Qed.
End Fine.

(** *** Records *)

(** Bytes that are empty or start like a record of another kind. *)
Definition starts_fine (data : list byte) : Prop := data = [] \/ record_fine data.

Lemma starts_take n data : record_fine data -> starts_fine (take n data).
Proof.
  intros (k & rest & Hk & ->). destruct n as [|n]; [by left|]. right. by exists k, (take n rest).
Qed.

Lemma fine_overwrite n bs data : (0 < n)%nat -> record_fine data -> record_fine (overwrite n bs data).
Proof.
  intros Hn (k & rest & Hk & ->). destruct n as [|n]; [lia|]. by eexists k, _.
Qed.

Lemma fine_header_bytes pad hd buf : header_fine hd -> record_fine (overwrite 0 (as_bytes pad hd) buf).
Proof.
  intros (k & Hk & Ek). unfold overwrite. rewrite take_0, app_nil_l.
  destruct (header_first_byte pad hd (drop (0 + length (as_bytes pad hd)) buf)) as (rest & ->).
  rewrite Ek. by exists k, rest.
Qed.

Lemma header_size_pos : (0 < size_of EventHeader.t)%nat.
Proof. vm_compute. lia. Qed.

Lemma fine_emit b h data : starts_fine data -> fine b h (emit_event h data).
Proof.
  intros [->|Hd]; [intros s; apply step_fine_refl|]. intros s Hs. pose proof Hs as [].
  unfold emit_event. destruct data as [|x data]; [by destruct Hd as (? & ? & ? & ?)|].
  destruct (hk_room h _ _).
  - split; [done|done| |done]. intros _. split; [done|]. exists [x :: data].
    split; [done|]. by apply Forall_singleton.
  - split; [done|done| |done]. intros _. split; [done|]. exists []. rewrite app_nil_r.
    split; [done|by apply Forall_nil].
Qed.

(** The buffer a program assembles a record in: the header first. *)
Lemma fine_assembled pad hd payload buf :
  header_fine hd ->
  record_fine (overwrite (size_of EventHeader.t) payload (overwrite 0 (as_bytes pad hd) buf)).
Proof. intros Hh. apply fine_overwrite; [apply header_size_pos|by apply fine_header_bytes]. Qed.

Lemma fine_emit_stack b h n hd payload : header_fine hd -> fine b h (emit_stack h n hd payload).
Proof.
  intros Hh. unfold emit_stack. apply fine_bind; [|intros; apply fine_ret].
  by apply fine_emit, starts_take, fine_assembled.
Qed.

Lemma fine_memcpy h call n src buf buf' :
  (0 < n)%nat -> record_fine buf -> bpf_memcpy h call n src buf = Some buf' -> record_fine buf'.
Proof.
  intros Hn Hb. unfold bpf_memcpy. destruct src as [|x src]; [by intros [= <-]|].
  destruct (hk_memcpy h call); [|done]. intros [= <-]. by apply fine_overwrite.
Qed.

Lemma task_info_fine g h k : k <> EventKind.ProcessExit -> header_fine (get_task_info g h (EventKind.to_u8 k)).
Proof. intros Hk. by exists k. Qed.
Lemma capture_fine hd c : header_fine hd -> header_fine (with_capture hd c).
Proof. intros (k & Hk & E). by exists k. Qed.

#[export] Hint Resolve fine_ret fine_fail fine_lift fine_get fine_emit_stack task_info_fine
  capture_fine : fine.
#[export] Hint Extern 1 (fine _ _ (rich_insert _ _ _)) => apply fine_rich_insert : fine.
#[export] Hint Extern 1 (fine _ _ (path_insert _ _ _)) => apply fine_path_insert : fine.
#[export] Hint Extern 1 (fine _ _ (openat_insert _ _ _)) => apply fine_openat_insert : fine.
#[export] Hint Extern 1 (fine _ _ (syscall_insert _ _ _)) => apply fine_syscall_insert : fine.
#[export] Hint Extern 1 (fine _ _ (execve_insert _ _ _)) => apply fine_execve_insert : fine.
#[export] Hint Extern 1 (fine _ _ (tty_insert _ _ _)) => apply fine_tty_insert : fine.
#[export] Hint Extern 1 (fine _ _ (openat_failure _)) => apply fine_failures : fine.
#[export] Hint Extern 1 (fine _ _ (exec_failure _)) => apply fine_failures : fine.
#[export] Hint Extern 1 (fine _ _ (syscall_failure _)) => apply fine_failures : fine.
#[export] Hint Extern 1 (fine _ _ (raw_syscall_failure _)) => apply fine_failures : fine.
#[export] Hint Extern 1 (fine _ _ (tty_failure _)) => apply fine_failures : fine.
#[export] Hint Extern 1 (fine _ _ (exit_failure _)) => apply fine_failures : fine.
#[export] Hint Extern 1 (fine _ _ (syscall_save _)) => apply fine_outcomes : fine.
#[export] Hint Extern 1 (fine _ _ (syscall_cleanup _)) => apply fine_outcomes : fine.
#[export] Hint Extern 1 (fine _ _ (raw_syscall_save _)) => apply fine_outcomes : fine.
#[export] Hint Extern 1 (fine _ _ (raw_syscall_cleanup _)) => apply fine_outcomes : fine.
#[export] Hint Extern 1 (fine _ _ (tty_save _)) => apply fine_outcomes : fine.
#[export] Hint Extern 1 (fine _ _ (tty_cleanup _)) => apply fine_outcomes : fine.
#[export] Hint Extern 1 (fine _ _ (set_assembly _)) => apply fine_scratch : fine.
#[export] Hint Extern 1 (fine _ _ (set_tmp_openat _)) => apply fine_scratch : fine.
#[export] Hint Extern 1 (fine _ _ (set_tmp_paths _ _)) => apply fine_scratch : fine.
#[export] Hint Extern 1 (fine _ _ (set_tmp_exec _ _)) => apply fine_scratch : fine.
#[export] Hint Extern 1 (fine _ _ (set_slot _ _)) => apply fine_scratch : fine.
#[export] Hint Extern 1 (fine _ _ (rich_remove _ _)) => apply fine_tier2_removes : fine.
#[export] Hint Extern 1 (fine _ _ (path_remove _ _)) => apply fine_tier2_removes : fine.
#[export] Hint Extern 1 (fine _ _ (openat_remove _ _)) => apply fine_tier2_removes : fine.
#[export] Hint Extern 1 (fine _ _ (syscall_remove _ _)) => apply fine_removes : fine.
#[export] Hint Extern 1 (fine _ _ (tty_remove _ _)) => apply fine_removes : fine.
#[export] Hint Extern 1 (fine _ _ (execve_remove _ _)) => apply fine_removes : fine.
#[export] Hint Extern 2 (fine _ _ (modify _)) => apply fine_modify; done : fine.
#[export] Hint Extern 2 (header_fine _) =>
  progress cbn [re_header pe_header oe_header se_header xe_header] : fine.
#[export] Hint Extern 1 (m_tier2 _ = false) => reflexivity : fine.
#[export] Hint Extern 2 (_ <> EventKind.ProcessExit) => discriminate : fine.

(** One constructor of a program at a time. *)
Ltac fine_step :=
  lazymatch goal with
  | |- fine _ _ (mbind _ get_state) => apply fine_bind_get; intros ? ?
  | |- fine _ _ (mbind _ (lift _)) => apply fine_bind_lift; intros ? ?
  | |- fine _ _ (mbind _ _) => apply fine_bind; [|intros ?]
  | |- fine _ _ (or_else _ _) => apply fine_or_else
  | |- fine _ _ (on_err _ _) => apply fine_on_err
  | |- fine _ _ (match ?x with _ => _ end) => destruct x eqn:?
  | |- fine _ _ (let _ := _ in _) => cbv zeta
  | |- _ => solve [auto with fine]
  end.
Ltac solve_fine := repeat fine_step.

Section Programs.
Context (b : mode) (g : Globals) (h : Hook).

Lemma fine_stash_rich {A} `{ReprC A} k (ed : A) :
  m_tier2 b = false -> k <> EventKind.ProcessExit -> fine b h (stash_rich g h (EventKind.to_u8 k) ed).
Proof.
  intros Hb Hk. unfold stash_rich. solve_fine.
Qed.

Lemma fine_emit_rich {P} `{ReprC P} entry (p : P) :
  m_tier2 b = false -> header_fine (re_header entry) -> fine b h (emit_rich h entry p).
Proof. intros Hb He. unfold emit_rich, emit_fixed. solve_fine. Qed.

Lemma fine_with_rich k :
  (forall entry ret, header_fine (re_header entry) -> fine b h (k entry ret)) ->
  fine b h (with_rich_entry h k).
Proof.
  intros Hk. unfold with_rich_entry. apply fine_bind_get. intros s Hs.
  destruct (rich_map s !! _) as [e|] eqn:E; [|apply fine_ret].
  unfold read_at_i64. solve_fine. apply Hk, (sf_rich s Hs _ _ E).
Qed.

Lemma fine_with_path k :
  (forall entry ret, header_fine (pe_header entry) -> fine b h (k entry ret)) ->
  fine b h (with_path_entry h k).
Proof.
  intros Hk. unfold with_path_entry. apply fine_bind_get. intros s Hs.
  destruct (path_map s !! _) as [e|] eqn:E; [|apply fine_ret].
  unfold read_at_i64. solve_fine. apply Hk, (sf_path s Hs _ _ E).
Qed.

Lemma fine_emit_varlen {T} `{ReprC T} hd (p : T) data :
  header_fine hd -> fine b h (emit_varlen h hd p data).
Proof.
  intros Hh. unfold emit_varlen. pose proof header_size_pos. solve_fine. apply fine_emit, starts_take.
  eapply fine_memcpy; [|by apply fine_assembled|eassumption]. lia.
Qed.

Lemma fine_reads off :
  fine b h (read_at_u64 h off) /\ fine b h (read_at_i64 h off) /\ fine b h (read_at_u32 h off) /\
  fine b h (read_at_i32 h off).
Proof. split_and!; apply fine_lift. Qed.
End Programs.

#[export] Hint Resolve fine_stash_rich fine_emit_rich fine_emit_varlen : fine.
#[export] Hint Extern 1 (fine _ _ (read_at_u64 _ _)) => apply fine_reads : fine.
#[export] Hint Extern 1 (fine _ _ (read_at_i64 _ _)) => apply fine_reads : fine.
#[export] Hint Extern 1 (fine _ _ (read_at_u32 _ _)) => apply fine_reads : fine.
#[export] Hint Extern 1 (fine _ _ (read_at_i32 _ _)) => apply fine_reads : fine.

(** *** Rich syscalls *)

Section Rich.
Context (b : mode) (g : Globals) (h : Hook) (Hb : m_tier2 b = false).

Lemma fine_entry_result m : fine b h m -> fine b h (entry_result m).
Proof. intros Hm. unfold entry_result. solve_fine. Qed.
Lemma fine_exit_result m : fine b h m -> fine b h (exit_result h m).
Proof. intros Hm. unfold exit_result. solve_fine. Qed.

Lemma fine_exit_two_path : fine b h (try_exit_two_path h).
Proof.
  apply fine_with_path. intros entry ret He. pose proof header_size_pos.
  set (size := size_of EventHeader.t) in *. solve_fine. apply fine_emit, starts_take.
  repeat (eapply fine_memcpy; [..|eassumption]; [lia|]). by apply fine_assembled.
Qed.

Lemma fine_enter_openat : fine b h (sys_enter_openat g h).
Proof. unfold sys_enter_openat, try_sys_enter_openat. solve_fine.  Qed.

Lemma fine_exit_openat : fine b h (sys_exit_openat g h).
Proof. unfold sys_exit_openat, try_sys_exit_openat. solve_fine.
  match goal with Hs : stashed_fine ?s, E : openat_map ?s !! _ = Some _ |- _ =>
    pose proof (sf_openat s Hs _ _ E) end. auto with fine.
Qed.

Lemma fine_sys_enter k m : sys_enter g h k = Some m -> fine b h m.
Proof.
  intros Hm. destruct k; try discriminate Hm; cbn [sys_enter] in Hm; apply (inj Some) in Hm as <-;
    try apply fine_enter_openat;
    apply fine_entry_result;
    unfold try_sys_enter_rw, try_sys_enter_sockaddr, try_enter_listen, try_enter_socket,
      try_enter_clone, try_enter_path, try_enter_at_path, enter_path_arg, try_enter_fd,
      try_enter_two_path, try_enter_sendto_recvfrom, try_enter_dup_family, try_enter_dup3,
      try_enter_fcntl, stash_dup_entry, try_enter_prw, try_enter_rwv, try_enter_mmap,
      try_enter_sendfile, try_enter_splice, stash_sendfile_splice_entry;
    solve_fine.
Qed.

Lemma fine_sys_exit k m : sys_exit g h k = Some m -> fine b h m.
Proof.
  intros Hm. destruct k; try discriminate Hm; cbn [sys_exit] in Hm; apply (inj Some) in Hm as <-;
    try apply fine_exit_openat; apply fine_exit_result; try apply fine_exit_two_path;
    first [apply fine_with_rich; intros ? ? ?|apply fine_with_path; intros ? ? ?]; solve_fine.
Qed.
End Rich.

(** *** The other programs *)

Lemma ids_fine hd pid ppid start : header_fine hd -> header_fine (set_header_ids hd pid ppid start).
Proof. intros (k & Hk & E). by exists k. Qed.
Lemma child_fine g h k child :
  k <> EventKind.ProcessExit -> header_fine (get_task_info_from_task g h (EventKind.to_u8 k) child).
Proof. intros Hk. by exists k. Qed.
#[export] Hint Resolve ids_fine child_fine : fine.

Section Others.
Context (b : mode) (g : Globals) (h : Hook).

Lemma fine_read_args i n : fine b h (read_args h i n).
Proof. revert i. induction n as [|n IH]; intros i; cbn [read_args]; solve_fine. Qed.

Lemma fine_raw_enter : fine b h (raw_sys_enter g h).
Proof.
  unfold raw_sys_enter, try_raw_sys_enter. pose proof fine_read_args. solve_fine.
Qed.

Lemma fine_raw_exit : fine b h (raw_sys_exit h).
Proof.
  unfold raw_sys_exit, try_raw_sys_exit. solve_fine.
  match goal with Hs : stashed_fine ?s, E : syscall_map ?s !! _ = Some _ |- _ =>
    pose proof (sf_syscall s Hs _ _ E) end. auto with fine.
Qed.

Lemma fine_view hd : fine b h (exec_view_emit g h hd).
Proof.
  unfold exec_view_emit, emit_fixed_opt. cbv zeta. apply fine_emit_stack. by exists EventKind.ExecView.
Qed.

Lemma fine_capture_exec k f a :
  k <> EventKind.ProcessExit -> fine b h (capture_exec g h k f a).
Proof.
  intros Hk. pose proof fine_view. unfold capture_exec, read_filename, read_argv. solve_fine.
Qed.

Lemma fine_emit_exec entry rc : header_fine (xe_header entry) -> fine b h (emit_exec h entry rc).
Proof.
  intros He. unfold emit_exec. solve_fine. apply fine_emit, starts_take, fine_assembled. auto with fine.
Qed.

Lemma fine_exec_exit : fine b h (sys_exit_execve h).
Proof.
  unfold sys_exit_execve, try_sys_exit_execve, remove_entry. solve_fine.
  match goal with Hs : stashed_fine ?s, E : execve_map ?s !! _ = Some _ |- _ =>
    apply fine_emit_exec, (sf_execve s Hs _ _ E) end.
Qed.

Lemma fine_exec_enter : fine b h (sys_enter_execve g h) /\ fine b h (sys_enter_execveat g h).
Proof.
  unfold sys_enter_execve, try_sys_enter_execve, sys_enter_execveat, try_sys_enter_execveat.
  split; solve_fine; by apply fine_capture_exec.
Qed.

Lemma fine_tty_record k st n :
  k <> EventKind.ProcessExit -> fine b h (emit_tty_record g h (EventKind.to_u8 k) st n).
Proof.
  intros Hk. unfold emit_tty_record. solve_fine. apply fine_emit, starts_take, fine_assembled. auto with fine.
Qed.

Lemma fine_tty_event k buf n :
  k <> EventKind.ProcessExit -> fine b h (emit_tty_event g h (EventKind.to_u8 k) buf n).
Proof. intros Hk. unfold emit_tty_event. pose proof fine_tty_record. solve_fine. Qed.

Lemma fine_tty_interrupt : fine b h (tty_interrupt h (hk_pid_tgid h)).
Proof. unfold tty_interrupt. solve_fine. Qed.

Lemma fine_tty :
  fine b h (tty_write_probe g h) /\ fine b h (tty_read_probe g h) /\ fine b h (tty_read_ret_probe g h).
Proof.
  pose proof fine_tty_event. pose proof fine_tty_interrupt.
  unfold tty_write_probe, try_tty_write, tty_read_probe, try_tty_read_entry, tty_read_ret_probe,
    try_tty_read_ret. split_and!; solve_fine.
Qed.

Lemma fine_decision m : fine b h m -> fine b h (decision m).
Proof.
  intros Hm s Hs. specialize (Hm s Hs). unfold decision. by destruct (m s) as [[v|] s1].
Qed.

Lemma fine_lsm_event {T} `{ReprC T} k (p : T) :
  k <> EventKind.ProcessExit -> fine b h (emit_lsm_event g h k p).
Proof. intros Hk. unfold emit_lsm_event. apply fine_emit_stack. rewrite lsm_header_eq. auto with fine. Qed.

Lemma fine_lsm k m : lsm_hook g h k = Some m -> fine b h m.
Proof.
  intros Hm. destruct k; try discriminate Hm; cbn [lsm_hook] in Hm; apply (inj Some) in Hm as <-;
    apply fine_decision;
    unfold try_file_open, try_task_kill, try_bpf_hook, try_ptrace, try_inode_op, try_inode_rename,
      try_setuid; solve_fine; by apply fine_lsm_event.
Qed.

Lemma fine_emit_assembled hd payload name : header_fine hd -> fine b h (emit_assembled h hd payload name).
Proof.
  intros Hh. unfold emit_assembled. solve_fine. apply fine_emit, starts_take, fine_overwrite;
    [pose proof header_size_pos; lia|by apply fine_assembled].
Qed.

Lemma fine_usdt id : fine b h (shell_attach_point g h id) /\ fine b h (peer_attach_point g h id).
Proof.
  pose proof fine_emit_assembled.
  unfold shell_attach_point, emit_shell, emit_shell_capture_error, peer_attach_point.
  split; solve_fine.
Qed.

Lemma fine_fork : fine b h (sched_process_fork g h).
Proof. unfold sched_process_fork, try_process_fork, emit_fixed_opt. solve_fine. Qed.

Lemma fine_signal : fine b h (signal_generate g h).
Proof. unfold signal_generate, try_signal_generate, emit_fixed_opt. solve_fine. Qed.

Lemma fine_reclaim : m_tier2 b = false -> fine b h (reclaim_pending h).
Proof. intros Hb. unfold reclaim_pending. pose proof fine_tty_interrupt. solve_fine. Qed.
End Others.

(** *** Process exits *)

(** The modes of the two programs that touch the claims. *)
Definition exit_mode : mode := mkMode false false.
Definition free_mode : mode := mkMode false true.

Lemma fine_emit_any h data : fine exit_mode h (emit_event h data).
Proof.
  intros s Hs. pose proof Hs as []. unfold emit_event. destruct data as [|x data]; [by apply step_fine_refl|].
  by destruct (hk_room h _ _).
Qed.

Lemma fine_claims b h f : m_exitless b = false -> fine b h (fun s => let '(r, m) := f (exit_claims s) in
  (Some (r : map_result), set_exit_claims m s)).
Proof. intros Hb s []. destruct (f (exit_claims s)). split; [done|done|congruence|done]. Qed.

Lemma fine_exit g h : fine exit_mode h (sched_process_exit g h).
Proof.
  unfold sched_process_exit, try_process_exit, claim_and_emit, emit_fixed_opt, emit_stack.
  pose proof (fine_reclaim exit_mode h eq_refl). pose proof (fine_emit_any h).
  assert (forall k, fine exit_mode h (claim_insert h k)) by (intros k; by apply (fine_claims exit_mode h)).
  solve_fine.
Qed.

Lemma fine_free g h : fine free_mode h (sched_process_free g h).
Proof.
  unfold sched_process_free, try_process_free.
  assert (forall k, fine free_mode h (claim_remove h k)) by (intros k; by apply (fine_claims free_mode h)).
  solve_fine.
Qed.

(** What is claimed of each program. *)
Definition mode_of (p : program) : mode :=
  match p with
  | SysEnter _ | SysExit _ => mkMode true false
  | ProcessExit => exit_mode
  | ProcessFree => free_mode
  | _ => mkMode true true
  end.

Lemma fine_program g h p : fine (mode_of p) h (run_program g h p).
Proof.
  destruct p as [k|k| | | | | | | | |k|id|id| | | | ]; cbn [mode_of run_program].
  - destruct (sys_enter g h k) as [m|] eqn:E; [by apply (fine_sys_enter (mkMode true false) g h eq_refl k)|apply fine_ret].
  - destruct (sys_exit g h k) as [m|] eqn:E; [by apply (fine_sys_exit (mkMode true false) g h eq_refl k)|apply fine_ret].
  - apply fine_raw_enter.
  - apply fine_raw_exit.
  - apply (proj1 (fine_exec_enter _ g h)).
  - apply (proj2 (fine_exec_enter _ g h)).
  - apply fine_exec_exit.
  - apply (fine_tty _ g h).
  - apply (proj1 (proj2 (fine_tty _ g h))).
  - apply (proj2 (proj2 (fine_tty _ g h))).
  - apply fine_bind; [|intros; apply fine_ret].
    destruct (lsm_hook g h k) as [m|] eqn:E; [by apply (fine_lsm _ g h k)|apply fine_ret].
  - apply (fine_usdt _ g h id).
  - apply (fine_usdt _ g h id).
  - apply fine_fork.
  - apply fine_exit.
  - apply fine_free.
  - apply fine_signal.
Qed.

(** The invariant holds along every run. *)
Lemma run_stashed g tr s : stashed_fine s -> stashed_fine (run_trace g tr s).
Proof.
  revert s. induction tr as [|[h p] tr IH]; intros s Hs; [done|]. cbn [run_trace].
  apply IH, (fine_program g h p s Hs).
Qed.

(** ** What is pending stays pending *)

(** The step is of another task, or of a program that keeps nothing in the maps
    of the Tier 2 handlers. *)
Definition bystander (key : Z) (st : Hook * program) : bool :=
  negb (hk_pid_tgid st.1 =? key) || m_tier2 (mode_of st.2).

Lemma bystanders_leave g key tr s :
  stashed_fine s -> forallb (bystander key) tr = true -> same_pending key s (run_trace g tr s).
Proof.
  revert s. induction tr as [|[h p] tr IH]; intros s Hs Hb; [done|]. cbn in Hb.
  apply andb_true_iff in Hb as [Hp Ht]. cbn [run_trace].
  destruct (fine_program g h p s Hs) as [Hs' [Hf _] _ Hm].
  destruct (IH _ Hs' Ht) as (E1 & E2 & E3). unfold same_pending. rewrite E1, E2, E3.
  apply orb_true_iff in Hp as [Hp|Hp]; cbn in Hp.
  - apply negb_true_iff, Z.eqb_neq in Hp. destruct (Hf key) as (? & ? & ? & _); [congruence|done].
  - by destruct (Hm Hp) as (-> & -> & ->).
Qed.

(** The state the programs start in, and the states they reach. *)
Definition fresh (s : Bpf) : Prop :=
  rich_map s = ∅ /\ path_map s = ∅ /\ openat_map s = ∅ /\ syscall_map s = ∅ /\
  execve_map s = ∅ /\ tty_map s = ∅ /\ exit_claims s = ∅.

Definition reachable (g : Globals) (s : Bpf) : Prop :=
  exists s0 tr, fresh s0 /\ s = run_trace g tr s0.

Lemma reachable_stashed g s : reachable g s -> stashed_fine s.
Proof.
  intros (s0 & tr & (E1 & E2 & E3 & E4 & E5 & _) & ->). apply run_stashed.
  split; rewrite ?E1, ?E2, ?E3, ?E4, ?E5; apply map_Forall_empty.
Qed.

(** Entry, anything by bystanders, exit. *)
Lemma reports_run `{Base64} g h1 h2 k enter exit e s tr :
  sys_enter g h1 k = Some enter -> sys_exit g h2 k = Some exit ->
  reports (hk_pid_tgid h1) enter exit e ->
  reachable g s -> none_pending (hk_pid_tgid h1) s -> forallb (bystander (hk_pid_tgid h1)) tr = true ->
  let s1 := (run_program g h1 (SysEnter k) s).2 in
  let s2 := run_trace g tr s1 in
  let s3 := (run_program g h2 (SysExit k) s2).2 in
  EVENTS s1 = EVENTS s /\
  (exists rec, EVENTS s3 = EVENTS s2 ++ [rec] /\ deserialize rec = Ok e) /\
  none_pending (hk_pid_tgid h1) s3 /\ failures s3 = failures s2 /\ DROP_COUNT s3 = DROP_COUNT s2.
Proof.
  intros He Hx Hr Hs Hn Hb. apply reachable_stashed in Hs. cbv zeta.
  pose proof (st_stashed _ _ _ _ (fine_program g h1 (SysEnter k) s Hs)) as Hs1.
  pose proof (bystanders_leave g _ tr _ Hs1 Hb) as Hsame.
  cbn [run_program] in *. rewrite He, Hx in *. cbn [default from_option id] in *.
  destruct (Hr s Hn) as (s1 & E1 & Hev & Hr'). rewrite E1 in *. cbn [snd] in *.
  destruct (Hr' _ Hsame) as (s3 & rec & E3 & Hev3 & Hd & Hn3 & Hf & Hdc).
  rewrite E3. cbn [snd]. split_and!; try done. by exists rec.
Qed.

(** C1: every rich syscall with a fixed-size record reports what its
    contract [rich_spec] says, end to end and whatever runs in between: after
    the entry program, any sequence of programs of other tasks and of programs
    of the same task that are not Tier 2 handlers, and the exit program, the
    exit program has added one record, which the daemon decodes to the event
    name, the arguments read at entry, the return code read at exit and the
    header of the entering task; nothing is left pending and no loss is
    counted. *)
Theorem rich_syscalls_refine_spec `{Base64} g h1 h2 k name args rc s tr :
  HookOk h1 -> HookOk h2 -> Healthy h1 -> Healthy h2 ->
  hk_pid_tgid h2 = hk_pid_tgid h1 -> should_trace g h1 = true ->
  rich_spec g h1 h2 k = Some (name, args, rc) ->
  reachable g s -> none_pending (hk_pid_tgid h1) s -> forallb (bystander (hk_pid_tgid h1)) tr = true ->
  let s1 := (run_program g h1 (SysEnter k) s).2 in
  let s2 := run_trace g tr s1 in
  let s3 := (run_program g h2 (SysExit k) s2).2 in
  EVENTS s1 = EVENTS s /\
  (exists rec, EVENTS s3 = EVENTS s2 ++ [rec] /\
     deserialize rec = Ok (mkEvent (header_json (get_task_info g h1 (EventKind.to_u8 k)))
       (mkEventType "TRACEPOINT" name "behavior") None (Some args) (Some rc))) /\
  none_pending (hk_pid_tgid h1) s3 /\ failures s3 = failures s2 /\ DROP_COUNT s3 = DROP_COUNT s2.
Proof.
  intros Hok1 Hok2 He1 He2 Hkey Ht Hspec Hs Hn Hb.
  destruct (rich_reports_spec g h1 h2 k name args rc) as (enter & exit & Hen & Hex & Hr); try done.
  by apply (reports_run g h1 h2 k enter exit).
Qed.

(** ** One exit record per life of a claim *)

(** The claim the free program releases. *)
Definition freed (g : Globals) (h : Hook) : option ExitClaimKey :=
  let task := hk_raw_arg h 0 in
  if task =? 0 then None else
  pid ← kread_u32 h (wrapping_add task (OFF_PID g));
  tgid ← kread_u32 h (wrapping_add task (OFF_TGID g));
  start ← kread_u64 h (wrapping_add task (OFF_START_BOOTTIME g));
  for_freed_task pid tgid start.

Definition is_free_of (g : Globals) (k : ExitClaimKey) (st : Hook * program) : bool :=
  match st.2 with ProcessFree => bool_decide (freed g st.1 = Some k) | _ => false end.

Definition frees (g : Globals) (k : ExitClaimKey) (tr : trace) : nat :=
  length (List.filter (is_free_of g k) tr).

(** The exits of a process instance on the ring, and whether it is claimed. *)
Definition exits (k : ExitClaimKey) (evs : list (list byte)) : nat :=
  length (List.filter (exit_record_of k) evs).
Definition claimed (k : ExitClaimKey) (s : Bpf) : nat :=
  match exit_claims s !! k with Some _ => 1 | None => 0 end.

Lemma exits_app k l l' : exits k (l ++ l') = (exits k l + exits k l')%nat.
Proof. unfold exits. by rewrite List.filter_app, length_app. Qed.

Lemma fine_not_exit k rec : record_fine rec -> exit_record_of k rec = false.
Proof.
  intros (j & rest & Hj & ->). unfold exit_record_of.
  assert (E : EventHeader.kind (read_unaligned (byte.of_Z (EventKind.to_u8 j) :: rest)) =
              byte.unsigned (byte.of_Z (EventKind.to_u8 j))).
  { generalize (byte.of_Z (EventKind.to_u8 j)). intros x. change (le_combine [x] = byte.unsigned x).
    unfold le_combine. apply Z.lor_0_r. }
  rewrite E, unsigned_of_Z by apply EventKind.to_u8_range.
  rewrite (proj2 (Z.eqb_neq _ _)); [done|]. intros H. apply Hj.
  apply (inj Some). by rewrite <- !EventKind.from_to_u8, H.
Qed.

Lemma exits_fine k recs : Forall record_fine recs -> exits k recs = 0%nat.
Proof.
  induction 1 as [|rec recs Hr _ IH]; [done|]. unfold exits in *. cbn. by rewrite fine_not_exit.
Qed.

(** What a step adds to the ring, against what it does to the claim. *)
Definition balanced (k : ExitClaimKey) (free : bool) (s s' : Bpf) : Prop :=
  (exits k (EVENTS s') + claimed k s <= exits k (EVENTS s) + Nat.b2n free + claimed k s')%nat.

Lemma balanced_exitless k s s' : exitless s s' -> balanced k false s s'.
Proof.
  intros (Hc & recs & He & Hr). unfold balanced, claimed. rewrite Hc, He, exits_app, (exits_fine k recs Hr). lia.
Qed.

Lemma balanced_exit k s s' : ec_padding k = 0 -> exit_effect s s' -> balanced k false s s'.
Proof.
  intros Hk [[He Hc]|(k' & _ & Hn & Hc & He)]; unfold balanced, claimed; [rewrite He, Hc; lia|].
  rewrite Hc. destruct (decide (k = k')) as [->|Hne].
  - rewrite Hn, lookup_insert_eq. destruct He as [->|(rec & -> & Hr)]; [lia|].
    rewrite exits_app. unfold exits. cbn.
    destruct (exit_record_of k' rec); cbn; lia.
  - rewrite lookup_insert_ne by done. destruct He as [->|(rec & -> & Hr)]; [lia|].
    rewrite exits_app. unfold exits at 2. cbn. rewrite (Hr k Hk), bool_decide_false by done. cbn. lia.
Qed.

(** The free program: the ring stays, and at most the freed claim goes. *)
Lemma free_effect g h s :
  EVENTS (sched_process_free g h s).2 = EVENTS s /\
  forall k, freed g h <> Some k ->
    exit_claims (sched_process_free g h s).2 !! k = exit_claims s !! k.
Proof.
  unfold sched_process_free, or_else, try_process_free, freed. destruct (_ =? 0); [done|].
  unfold mbind, M_bind, lift, option_bind.
  destruct (kread_u32 h _) as [pid|]; [|done]. destruct (kread_u32 h _) as [tgid|]; [|done].
  destruct (negb (pid =? tgid) || (tgid =? 0)) eqn:Ep; [done|].
  destruct (kread_u64 h _) as [start|]; [|done]. destruct (for_freed_task _ _ _) as [key|]; [|done].
  unfold claim_remove, map_remove. destruct (exit_claims s !! key) eqn:Ek.
  - destruct (hk_remove h EXIT_CLAIMS) as [e|]; cbn -[cleanup_failed].
    + by destruct (cleanup_failed (Some e)).
    + split; [done|]. intros k Hk. apply lookup_delete_ne. congruence.
  - cbn. done.
Qed.

Lemma balanced_free k g h s :
  balanced k (bool_decide (freed g h = Some k)) s (sched_process_free g h s).2.
Proof.
  destruct (free_effect g h s) as [He Hc]. unfold balanced, claimed. rewrite He.
  destruct (decide (freed g h = Some k)) as [E|E].
  - rewrite bool_decide_true by done. cbn. destruct (exit_claims s !! k), (exit_claims _ !! k); lia.
  - rewrite bool_decide_false, Hc by done. cbn. lia.
Qed.

Lemma balanced_program k g h p s :
  ec_padding k = 0 -> HookOk h -> stashed_fine s ->
  balanced k (is_free_of g k (h, p)) s (run_program g h p s).2.
Proof.
  intros Hk Hok Hs. pose proof (st_exitless _ _ _ _ (fine_program g h p s Hs)) as Hx.
  destruct p; try (by apply balanced_exitless, Hx).
  - apply balanced_exit; [done|]. by apply sched_process_exit_effect.
  - apply balanced_free.
Qed.

Lemma balanced_run k g tr s :
  ec_padding k = 0 -> Forall (fun st => HookOk st.1) tr -> stashed_fine s ->
  (exits k (EVENTS (run_trace g tr s)) + claimed k s <=
   exits k (EVENTS s) + frees g k tr + claimed k (run_trace g tr s))%nat.
Proof.
  intros Hk Htr. revert s. induction Htr as [|[h p] tr Hok _ IH]; intros s Hs; [cbn; lia|].
  cbn [run_trace]. pose proof (balanced_program k g h p s Hk Hok Hs) as Hb.
  specialize (IH _ (st_stashed _ _ _ _ (fine_program g h p s Hs))).
  unfold balanced, frees in *. cbn [List.filter]. destruct (is_free_of g k (h, p)); cbn in *; lia.
Qed.

(** C16: in any run of the programs from their initial state, in any order
    and by any tasks, with any failures of maps and ring, the exit of a process
    instance is on the ring at most once, plus once for every time a free of
    that very instance released its claim: a process whose exit is seen by
    several threads is reported by one of them only. *)
Theorem exit_reported_once g s0 tr k :
  fresh s0 -> EVENTS s0 = [] -> ec_padding k = 0 -> Forall (fun st => HookOk st.1) tr ->
  (exits k (EVENTS (run_trace g tr s0)) <= 1 + frees g k tr)%nat.
Proof.
  intros Hf He Hk Htr.
  assert (Hs : stashed_fine s0) by (apply (reachable_stashed g); by exists s0, []).
  pose proof (balanced_run k g tr s0 Hk Htr Hs) as Hb. rewrite He in Hb.
  change (exits k []) with 0%nat in Hb.
  assert (claimed k (run_trace g tr s0) <= 1)%nat by (unfold claimed; destruct (_ !! k); lia). lia.
Qed.
