(* ===== verification/Btf.v ===== *)
(** * Kernel type information (bloodhound/src/btf_offsets.rs)

    The reader of the running kernel's BTF blob: a bounds-checked walk over the
    type section that picks out the byte offsets of the members the programs
    read.  Positions are unbounded integers: they are sums of 32-bit words and
    of lengths of the blob, far below the width of [usize]. *)

From S2P Require Import Prelude Bytes Layout Records Common Utf8.

Local Open Scope string_scope.
Local Open Scope Z_scope.
Local Open Scope list_scope.

(** ** Tables (bloodhound-common/src/lib.rs) *)

Definition EXEC_VIEW_FIELDS : list (string * string) :=
  [("task_struct", "fs"); ("task_struct", "nsproxy"); ("fs_struct", "root"); ("path", "mnt");
   ("path", "dentry"); ("dentry", "d_inode"); ("inode", "i_ino"); ("inode", "i_sb");
   ("super_block", "s_dev"); ("nsproxy", "mnt_ns"); ("mnt_namespace", "ns"); ("ns_common", "inum");
   ("mount", "mnt"); ("mount", "mnt_id")].

Definition FD_CHAIN_FIELDS : list (string * string) :=
  [("task_struct", "files"); ("files_struct", "fdt"); ("fdtable", "max_fds"); ("fdtable", "fd");
   ("file", "f_inode")].

Definition TTY_FIELDS : list (string * string) :=
  [("tty_struct", "driver"); ("tty_driver", "type"); ("tty_driver", "subtype")].

Definition NS_FIELDS : list (string * string) :=
  [("task_struct", "nsproxy"); ("nsproxy", "mnt_ns"); ("nsproxy", "net_ns"); ("nsproxy", "uts_ns");
   ("nsproxy", "ipc_ns"); ("nsproxy", "cgroup_ns"); ("task_struct", "real_cred"); ("cred", "user_ns");
   ("task_struct", "thread_pid"); ("pid", "level"); ("pid", "numbers"); ("upid", "ns");
   ("nsproxy", "pid_ns_for_children"); ("ns_common", "inum"); ("mnt_namespace", "ns"); ("net", "ns");
   ("uts_namespace", "ns"); ("ipc_namespace", "ns"); ("cgroup_namespace", "ns");
   ("user_namespace", "ns"); ("pid_namespace", "ns")].

Definition NS_SLOT_FIELDS : list (list nat) :=
  [[0; 1; 14; 13]; [0; 2; 15; 13]; [0; 3; 16; 13]; [0; 4; 17; 13]; [0; 5; 18; 13]; [6; 7; 19; 13];
   [8; 9; 10; 11; 20; 13]; [0; 12; 20; 13]]%nat.

(** ** Offsets *)

Record NamespaceOffsets : Type := mkNsOffsets { ns_offsets : list Z; ns_supported : Z }.

(** The support bits, from bit [bit] on. *)
Fixpoint support_bits (fields : list (option Z)) (upid_size : option Z) (bit : Z)
    (slots : list (list nat)) : Z :=
  match slots with
  | [] => 0
  | needed :: slots =>
      let pid_slot := existsb (Nat.eqb 9) needed in
      let resolved := forallb (fun i => match fields !! i with Some (Some _) => true | _ => false end) needed in
      let sized := match upid_size with Some size => 0 <? size | None => false end in
      Z.lor (if resolved && (negb pid_slot || sized) then Z.shiftl 1 bit else 0)
        (support_bits fields upid_size (bit + 1) slots)
  end.

Definition from_resolved (fields : list (option Z)) (upid_size : option Z) : NamespaceOffsets :=
  mkNsOffsets ((default 0 <$> fields) ++ [default 0 upid_size])
    (support_bits fields upid_size 0 NS_SLOT_FIELDS).

Record TaskStructOffsets : Type := mkOffsets {
  exec_view : option (list Z); fd_ident : option (list Z); tty : option (list Z);
  namespaces : NamespaceOffsets;
  loginuid : Z; sessionid : Z; tgid : Z; pid : Z; group_leader : Z; start_boottime : Z;
  signal : Z; exit_code : Z; comm : Z; signal_live : Z; signal_group_exit_code : Z }.

(** ** The reader *)

Definition BTF_MAGIC : Z := 0xeb9f.
Definition BTF_HEADER_LEN : Z := 24.
Definition BTF_KIND_INT : Z := 1.
Definition BTF_KIND_ARRAY : Z := 3.
Definition BTF_KIND_STRUCT : Z := 4.
Definition BTF_KIND_UNION : Z := 5.
Definition BTF_KIND_ENUM : Z := 6.
Definition BTF_KIND_FUNC_PROTO : Z := 13.
Definition BTF_KIND_VAR : Z := 14.
Definition BTF_KIND_DATASEC : Z := 15.
Definition BTF_KIND_DECL_TAG : Z := 17.
Definition BTF_KIND_ENUM64 : Z := 19.

Record Reader : Type := mkReader { r_buf : list byte; little_endian : bool }.

Definition r_u32 (r : Reader) (off : Z) : result Z :=
  b ← with_context (slice (r_buf r) off 4) "u32 read out of bounds";
  Ok (word_of (little_endian r) b).

Definition str_at (r : Reader) (str_base name_off : Z) : result string :=
  let start := str_base + name_off in
  _ ← bail_if (len (r_buf r) <? start) "string offset out of bounds";
  let name := until_nul (drop (Z.to_nat start) (r_buf r)) in
  if utf8_valid name then Ok (bstr name) else Err "BTF string is not UTF-8".

Section Members.
Context (r : Reader) (str_base : Z).

(** [(raw & 0x00ff_ffff) / 8] *)
Definition byte_offset (raw : Z) : Z := Z.land raw 0x00ffffff / 8.

(** The loops over the members: [n] of them are left, the next is at [m]. *)
Fixpoint member_offset (n : nat) (m : Z) (wanted : string) : result (option Z) :=
  match n with
  | O => Ok None
  | S n =>
      name_off ← r_u32 r m;
      name ← str_at r str_base name_off;
      if String.eqb name wanted then
        raw ← r_u32 r (m + 8);
        Ok (Some (byte_offset raw))
      else member_offset n (m + 12) wanted
  end.

Fixpoint read_named_member (n : nat) (m : Z) (struct_size : Z) (wanted : string) : result Z :=
  match n with
  | O => Err "member not found"
  | S n =>
      name_off ← r_u32 r m;
      name ← str_at r str_base name_off;
      if String.eqb name wanted then
        raw ← r_u32 r (m + 8);
        _ ← bail_if (struct_size <=? byte_offset raw) "resolved member offset exceeds struct size";
        Ok (byte_offset raw)
      else read_named_member n (m + 12) struct_size wanted
  end.

(** The members of [task_struct] seen so far. *)
Definition TASK_FIELDS : list string :=
  ["loginuid"; "sessionid"; "tgid"; "pid"; "group_leader"; "start_boottime"; "signal"; "exit_code";
   "comm"].

Fixpoint task_members (n : nat) (m : Z) (found : list (option Z)) : result (list (option Z)) :=
  match n with
  | O => Ok found
  | S n =>
      name_off ← r_u32 r m;
      name ← str_at r str_base name_off;
      raw ← r_u32 r (m + 8);
      task_members n (m + 12)
        (zip_with (fun field cur => if String.eqb name field then Some (byte_offset raw) else cur)
           TASK_FIELDS found)
  end.

(** Every required member, in order, or the first that is missing. *)
Fixpoint required_fields (names : list string) (found : list (option Z)) : result (list Z) :=
  match names, found with
  | name :: names, o :: found =>
      v ← with_context o ("task_struct::" +:+ name +:+ " not found in BTF");
      vs ← required_fields names found;
      Ok (v :: vs)
  | _, _ => Ok []
  end.

Definition read_task_members (vlen : nat) (members_pos struct_size : Z) : result TaskStructOffsets :=
  found ← task_members vlen members_pos (replicate 9 None);
  vs ← required_fields TASK_FIELDS found;
  _ ← bail_if (existsb (fun v => struct_size <=? v) vs) "BTF type walk desynced";
  let at_ i := nth i vs 0 in
  Ok (mkOffsets None None None (from_resolved (replicate (length NS_FIELDS) None) None)
        (at_ 0) (at_ 1) (at_ 2) (at_ 3) (at_ 4) (at_ 5) (at_ 6) (at_ 7) (at_ 8) 0 0)%nat.
End Members.

Definition trailing_len (kind : Z) (vlen : Z) : Z :=
  if (kind =? BTF_KIND_INT) || (kind =? BTF_KIND_VAR) || (kind =? BTF_KIND_DECL_TAG) then 4
  else if kind =? BTF_KIND_ARRAY then 12
  else if (kind =? BTF_KIND_STRUCT) || (kind =? BTF_KIND_UNION) || (kind =? BTF_KIND_DATASEC) then vlen * 12
  else if (kind =? BTF_KIND_ENUM) || (kind =? BTF_KIND_FUNC_PROTO) then vlen * 8
  else if kind =? BTF_KIND_ENUM64 then vlen * 12
  else 0.

(** ** The walk *)

Record Walk : Type := mkWalk {
  w_task : option TaskStructOffsets; w_view : list (option Z); w_fd : list (option Z);
  w_tty : list (option Z); w_ns : list (option Z); w_upid : option Z; w_signal : option (Z * Z) }.

Definition walk_start : Walk :=
  mkWalk None (replicate 14 None) (replicate 5 None) (replicate 3 None)
    (replicate (length NS_FIELDS) None) None None.

Definition ok {A} (x : result A) : option A := match x with Ok a => Some a | Err _ => None end.

Section Struct.
(** The member readers of the structure at hand. *)
Context (name : string) (size : Z).
Context (named : string -> result Z) (offset : string -> result (option Z))
        (task : result TaskStructOffsets).

(** The optional tables: a failure leaves the entry unresolved. *)
Definition resolve_table (fields : list (string * string)) (cur : list (option Z)) : list (option Z) :=
  zip_with (fun '(owner, field) c => if String.eqb name owner then ok (named field) else c) fields cur.

(** The namespace table: a failing read aborts. *)
Fixpoint resolve_ns (fields : list (string * string)) (cur : list (option Z))
    : result (list (option Z)) :=
  match fields, cur with
  | (owner, field) :: fields, c :: cur =>
      v ← (if String.eqb name owner
           then o ← offset field;
                Ok (match o with Some v => if v <=? size then Some v else None | None => None end)
           else Ok c);
      vs ← resolve_ns fields cur;
      Ok (v :: vs)
  | _, _ => Ok cur
  end.

Definition walk_struct (w : Walk) : result Walk :=
  let view := resolve_table EXEC_VIEW_FIELDS (w_view w) in
  let fd := resolve_table FD_CHAIN_FIELDS (w_fd w) in
  let tty := resolve_table TTY_FIELDS (w_tty w) in
  ns ← resolve_ns NS_FIELDS (w_ns w);
  let upid := if String.eqb name "upid" then Some size else w_upid w in
  if String.eqb name "task_struct" then
    t ← task;
    Ok (mkWalk (Some t) view fd tty ns upid (w_signal w))
  else if String.eqb name "signal_struct" then
    live ← named "live";
    code ← named "group_exit_code";
    Ok (mkWalk (w_task w) view fd tty ns upid (Some (live, code)))
  else Ok (mkWalk (w_task w) view fd tty ns upid (w_signal w)).
End Struct.

(** The loop; [None] when the fuel runs out. *)
Fixpoint walk_types (r : Reader) (str_base type_end : Z) (fuel : nat) (pos : Z) (w : Walk)
    : option (result Walk) :=
  if type_end <? pos + 12 then Some (Ok w) else
  match fuel with
  | O => None
  | S fuel =>
      match (name_off ← r_u32 r pos; info ← r_u32 r (pos + 4); Ok (name_off, info)) with
      | Err e => Some (Err e)
      | Ok (name_off, info) =>
          let vlen := Z.land info 0xffff in
          let kind := Z.land (Z.shiftr info 24) 0x1f in
          let members_pos := pos + 12 in
          let step :=
            if (kind =? BTF_KIND_STRUCT) && (0 <? vlen) then
              name ← str_at r str_base name_off;
              size ← r_u32 r (pos + 8);
              let n := Z.to_nat vlen in
              walk_struct name size (read_named_member r str_base n members_pos size)
                (member_offset r str_base n members_pos)
                (read_task_members r str_base n members_pos size) w
            else Ok w in
          match step with
          | Err e => Some (Err e)
          | Ok w => walk_types r str_base type_end fuel (members_pos + trailing_len kind vlen) w
          end
      end
  end.

(** [iter.copied().collect::<Option<Vec<_>>>()] *)
Definition collect (l : list (option Z)) : option (list Z) := mapM id l.

Definition finish_walk (w : Walk) : result TaskStructOffsets :=
  o ← with_context (w_task w) "struct task_struct not found in BTF";
  s ← with_context (w_signal w) "required signal_struct members not found in BTF";
  Ok (mkOffsets (collect (w_view w)) (collect (w_fd w ++ take 3 (drop 6 (w_view w))))
        (collect (w_tty w)) (from_resolved (w_ns w) (w_upid w))
        (loginuid o) (sessionid o) (tgid o) (pid o) (group_leader o) (start_boottime o)
        (signal o) (exit_code o) (comm o) s.1 s.2).

(** The type section is walked with as much fuel as it has bytes. *)
Definition parse_task_offsets (buf : list byte) : option (result TaskStructOffsets) :=
  if len buf <? BTF_HEADER_LEN then Some (Err "BTF blob shorter than header") else
  let magic := take 2 buf in
  let endian :=
    if le_combine magic =? BTF_MAGIC then Some true
    else if le_combine (reverse magic) =? BTF_MAGIC then Some false else None in
  match endian with
  | None => Some (Err "bad BTF magic")
  | Some little_endian =>
      let r := mkReader buf little_endian in
      match (hdr_len ← r_u32 r 4; type_off ← r_u32 r 8; type_len ← r_u32 r 12; str_off ← r_u32 r 16;
             Ok (hdr_len, type_off, type_len, str_off)) with
      | Err e => Some (Err e)
      | Ok (hdr_len, type_off, type_len, str_off) =>
          let type_base := hdr_len + type_off in
          let type_end := type_base + type_len in
          let str_base := hdr_len + str_off in
          if len buf <? type_end then Some (Err "type section extends past end of BTF blob") else
          match walk_types r str_base type_end (Z.to_nat type_len) type_base walk_start with
          | None => None
          | Some (Err e) => Some (Err e)
          | Some (Ok w) => Some (finish_walk w)
          end
      end
  end.

(** ** Reading the running kernel *)

Definition SYS_BTF : string := "/sys/kernel/btf/vmlinux".

(** [read_and_parse(SYS_BTF)]; [file]: its bytes, if it can be read. *)
Definition read_and_parse (file : option (list byte)) : option (result TaskStructOffsets) :=
  match file with
  | None => Some (Err ("read " +:+ SYS_BTF))
  | Some bytes =>
      match parse_task_offsets bytes with
      | Some (Err _) => Some (Err ("parse BTF from " +:+ SYS_BTF))
      | r => r
      end
  end.

(** [resolve]: the offsets, with the warnings it logs about the optional ones. *)
Definition resolve (file : option (list byte)) : option (result (TaskStructOffsets * list string)) :=
  r ← read_and_parse file;
  Some (offsets ← r;
        let fd := match fd_ident offsets with
                  | None => ["BTF fd identity fields unavailable"] | Some _ => [] end in
        let tty := match tty offsets with
                   | None => ["BTF TTY classification fields unavailable"] | Some _ => [] end in
        Ok (offsets, fd ++ tty)).
