(* ===== verification/BtfFacts.v ===== *)
(** * The BTF reader on encoded records

    The reader ends on every blob.  On the encoding of a list of records it
    computes what a recursion over the records computes: the layer between the
    bytes and the format, which [BtfFormat] builds on.  What a support bit of the
    namespaces means. *)

From S2P Require Import Prelude Bytes Layout Records Common Utf8 Btf.

#[local] Set Warnings "-clear-no-such-hyp".
Local Open Scope string_scope.
Local Open Scope Z_scope.
Local Open Scope list_scope.

(** ** Termination *)

Lemma land_mask_bounds z n : 0 <= n -> 0 <= Z.land z (Z.ones n) < 2 ^ n.
Proof. intros Hn. rewrite Z.land_ones by done. apply Z.mod_pos_bound. lia. Qed.

Lemma trailing_nonneg kind vlen : 0 <= vlen -> 0 <= trailing_len kind vlen.
Proof. intros Hv. unfold trailing_len. repeat case_match; lia. Qed.

Lemma walk_terminates r str_base type_end fuel pos w :
  type_end - pos <= Z.of_nat fuel -> is_Some (walk_types r str_base type_end fuel pos w).
Proof.
  revert pos w. induction fuel as [|fuel IH]; intros pos w Hf; cbn [walk_types].
  - rewrite (proj2 (Z.ltb_lt _ _)) by lia. done.
  - destruct (Z.ltb_spec type_end (pos + 12)); [done|].
    destruct (_ : result (Z * Z)) as [[name_off info]|e]; [|done].
    destruct (_ : result Walk) as [w'|e]; [|done]. apply IH.
    pose proof (trailing_nonneg (Z.land (Z.shiftr info 24) 0x1f) (Z.land info 0xffff)
      (proj1 (land_mask_bounds info 16 ltac:(lia)))). lia.
Qed.

(** The reader returns offsets or an error on every byte string,
    whatever it holds: every iteration of the walk moves forward by at least a
    type record, so that the loop is over within the type section. *)
Theorem btf_reader_total buf : is_Some (parse_task_offsets buf).
Proof.
  unfold parse_task_offsets. destruct (len buf <? BTF_HEADER_LEN); [done|].
  destruct (_ : option bool) as [le|]; [|done].
  destruct (_ : result (Z * Z * Z * Z)) as [[[[h t] n] s]|e] eqn:E; [|done].
  destruct (len buf <? h + t + n); [done|].
  destruct (walk_terminates (mkReader buf le) (h + s) (h + t + n) (Z.to_nat n) (h + t) walk_start)
    as [[w|e] ->]; [lia|done|done].
Qed.

(** Resolving the offsets ends, succeeds only on a file that parses, and warns
    exactly when an optional group is missing: startup fails closed. *)
Theorem resolve_fails_closed file :
  exists r, resolve file = Some r /\
    (forall o warnings, r = Ok (o, warnings) ->
       (exists bytes, file = Some bytes /\ parse_task_offsets bytes = Some (Ok o)) /\
       (warnings = [] <-> fd_ident o <> None /\ tty o <> None)).
Proof.
  unfold resolve, read_and_parse. destruct file as [bytes|]; [|by eexists].
  destruct (btf_reader_total bytes) as [[o|m] E]; rewrite E; cbn; [|by eexists].
  eexists. split; [done|]. intros o' ws [= <- <-]. split; [by exists bytes|].
  destruct (fd_ident o), (tty o); cbn; naive_solver.
Qed.

(** ** Blobs as records

    A record with the bytes that follow its header, as many as the reader skips. *)

Record btf_member : Type := mkMember { bm_name : Z; bm_type : Z; bm_offset : Z }.

Inductive btf_type : Type :=
  | BStruct (name size : Z) (flag : bool) (members : list btf_member)
  | BOther (name : Z) (flag : bool) (kind vlen size : Z) (trailing : list byte).

Definition member_wf (m : btf_member) : Prop :=
  in_u 32 (bm_name m) /\ in_u 32 (bm_type m) /\ in_u 32 (bm_offset m).

Definition type_wf (t : btf_type) : Prop :=
  match t with
  | BStruct name size _ members =>
      in_u 32 name /\ in_u 32 size /\ len members < 2 ^ 16 /\ Forall member_wf members
  | BOther name _ kind vlen size trailing =>
      in_u 32 name /\ in_u 32 size /\ in_u 5 kind /\ kind <> BTF_KIND_STRUCT /\ in_u 16 vlen /\
      len trailing = trailing_len kind vlen
  end.

#[export] Instance member_wf_dec m : Decision (member_wf m).
Proof. unfold member_wf. apply _. Defined.
#[export] Instance type_wf_dec t : Decision (type_wf t).
Proof. destruct t; cbn; apply _. Defined.

Section Encoding.
Context (le : bool).

Definition enc32 (z : Z) : list byte := enc_word le 4 z.

Definition info_word (flag : bool) (kind vlen : Z) : Z := Z.b2z flag * 2 ^ 31 + kind * 2 ^ 24 + vlen.

Definition enc_member (m : btf_member) : list byte :=
  enc32 (bm_name m) ++ enc32 (bm_type m) ++ enc32 (bm_offset m).

Definition enc_type (t : btf_type) : list byte :=
  match t with
  | BStruct name size flag members =>
      enc32 name ++ enc32 (info_word flag BTF_KIND_STRUCT (len members)) ++ enc32 size ++
      concat (enc_member <$> members)
  | BOther name flag kind vlen size trailing =>
      enc32 name ++ enc32 (info_word flag kind vlen) ++ enc32 size ++ trailing
  end.

Definition enc_types (types : list btf_type) : list byte := concat (enc_type <$> types).

Definition btf_header (types : list btf_type) (strs : list byte) : list byte :=
  (if le then le_split 2 BTF_MAGIC else reverse (le_split 2 BTF_MAGIC)) ++ le_split 2 1 ++
  enc32 24 ++ enc32 0 ++ enc32 (len (enc_types types)) ++ enc32 (len (enc_types types)) ++ enc32 (len strs).

Definition enc_btf (types : list btf_type) (strs : list byte) : list byte :=
  btf_header types strs ++ enc_types types ++ strs.

(** ** Reading encoded words *)

Lemma length_enc32 z : length (enc32 z) = 4%nat.
Proof. apply length_enc_word. Qed.

Lemma length_enc_member m : length (enc_member m) = 12%nat.
Proof. unfold enc_member. by rewrite !length_app, !length_enc32. Qed.

Lemma length_enc_members ms : length (concat (enc_member <$> ms)) = (12 * length ms)%nat.
Proof.
  induction ms as [|m ms IH]; [done|]. cbn [fmap list_fmap concat]. rewrite length_app, length_enc_member.
  fold (fmap (M:=list) enc_member ms). rewrite IH. cbn [length]. lia.
Qed.

Lemma r_u32_at buf pos z : has_at buf pos (enc32 z) -> in_u 32 z -> r_u32 (mkReader buf le) pos = Ok z.
Proof.
  intros Ha Hz. unfold r_u32. cbn [r_buf little_endian]. change 4 with (Z.of_nat 4).
  rewrite (slice_word le buf pos 4 z Ha) by lia. cbn. f_equal. by apply word_enc.
Qed.
End Encoding.

(** ** The interpretation of the types *)

Section Spec.
Context (strs : list byte).

(** The name at an offset of the string section. *)
Definition name_at (off : Z) : result string :=
  _ ← bail_if (len strs <? off) "string offset out of bounds";
  let name := until_nul (drop (Z.to_nat off) strs) in
  if utf8_valid name then Ok (bstr name) else Err "BTF string is not UTF-8".

(** The first member of that name. *)
Fixpoint spec_offset (ms : list btf_member) (wanted : string) : result (option Z) :=
  match ms with
  | [] => Ok None
  | m :: ms =>
      name ← name_at (bm_name m);
      if String.eqb name wanted then Ok (Some (byte_offset (bm_offset m))) else spec_offset ms wanted
  end.

Definition spec_named (ms : list btf_member) (size : Z) (wanted : string) : result Z :=
  o ← spec_offset ms wanted;
  match o with
  | None => Err "member not found"
  | Some v => if size <=? v then Err "resolved member offset exceeds struct size" else Ok v
  end.

(** The last member of each required name. *)
Fixpoint spec_found (ms : list btf_member) (found : list (option Z)) : result (list (option Z)) :=
  match ms with
  | [] => Ok found
  | m :: ms =>
      name ← name_at (bm_name m);
      spec_found ms (zip_with (fun field cur =>
        if String.eqb name field then Some (byte_offset (bm_offset m)) else cur) TASK_FIELDS found)
  end.

Definition spec_task (ms : list btf_member) (size : Z) : result TaskStructOffsets :=
  found ← spec_found ms (replicate 9 None);
  vs ← required_fields TASK_FIELDS found;
  _ ← bail_if (existsb (fun v => size <=? v) vs) "BTF type walk desynced";
  let at_ i := nth i vs 0 in
  Ok (mkOffsets None None None (from_resolved (replicate (length NS_FIELDS) None) None)
        (at_ 0) (at_ 1) (at_ 2) (at_ 3) (at_ 4) (at_ 5) (at_ 6) (at_ 7) (at_ 8) 0 0)%nat.

Definition spec_type (t : btf_type) (w : Walk) : result Walk :=
  match t with
  | BStruct name size _ (m :: ms) =>
      n ← name_at name;
      walk_struct n size (spec_named (m :: ms) size) (spec_offset (m :: ms)) (spec_task (m :: ms) size) w
  | _ => Ok w
  end.

Fixpoint spec_walk (types : list btf_type) (w : Walk) : result Walk :=
  match types with
  | [] => Ok w
  | t :: types => w ← spec_type t w; spec_walk types w
  end.

(** ** The reader computes it *)

Context (le : bool) (pre : list byte).
Let buf : list byte := pre ++ strs.
Let r : Reader := mkReader buf le.

Lemma str_at_spec off : 0 <= off -> str_at r (len pre) off = name_at off.
Proof.
  intros Ho. unfold str_at, name_at, r, buf. cbn [r_buf]. unfold len. rewrite length_app.
  replace (Z.of_nat (length pre + length strs) <? Z.of_nat (length pre) + off)
    with (Z.of_nat (length strs) <? off)
    by (destruct (Z.ltb_spec (Z.of_nat (length strs)) off), (Z.ltb_spec (Z.of_nat (length pre + length strs))
          (Z.of_nat (length pre) + off)); lia).
  rewrite Z2Nat.inj_add, Nat2Z.id, <- drop_drop, drop_app_length by lia. done.
Qed.

Lemma member_at m ms pos :
  has_at buf pos (concat (enc_member le <$> (m :: ms))) -> member_wf m ->
  r_u32 r pos = Ok (bm_name m) /\ r_u32 r (pos + 8) = Ok (bm_offset m) /\
  has_at buf (pos + 12) (concat (enc_member le <$> ms)).
Proof.
  intros Ha (H1 & H2 & H3). cbn [fmap list_fmap concat] in Ha.
  fold (fmap (M:=list) (enc_member le) ms) in Ha.
  apply has_at_app in Ha as [Hm Hr]. unfold len in Hr. rewrite length_enc_member in Hr.
  unfold enc_member in Hm. apply has_at_app in Hm as [Hn Hm]. apply has_at_app in Hm as [_ Ho].
  unfold len in Ho. rewrite !length_enc32 in Ho. split; [by apply r_u32_at|]. split; [|done].
  apply r_u32_at; [|done]. by replace (pos + 8) with (pos + Z.of_nat 4 + Z.of_nat 4) by lia.
Qed.

Lemma member_offset_spec ms pos wanted :
  Forall member_wf ms -> has_at buf pos (concat (enc_member le <$> ms)) ->
  member_offset r (len pre) (length ms) pos wanted = spec_offset ms wanted.
Proof.
  intros Hw. revert pos. induction Hw as [|m ms Hm _ IH]; intros pos Ha; [done|].
  destruct (member_at m ms pos Ha Hm) as (E1 & E2 & Ha'). cbn [length member_offset spec_offset].
  rewrite E1. cbn [mbind result_bind]. rewrite str_at_spec by apply Hm.
  destruct (name_at (bm_name m)) as [n|e]; cbn; [|done]. destruct (String.eqb n wanted); [by rewrite E2|].
  by apply IH.
Qed.

Lemma named_member_spec ms pos size wanted :
  Forall member_wf ms -> has_at buf pos (concat (enc_member le <$> ms)) ->
  read_named_member r (len pre) (length ms) pos size wanted = spec_named ms size wanted.
Proof.
  intros Hw. revert pos. induction Hw as [|m ms Hm _ IH]; intros pos Ha; [done|].
  destruct (member_at m ms pos Ha Hm) as (E1 & E2 & Ha'). unfold spec_named.
  cbn [length read_named_member spec_offset]. rewrite E1. cbn [mbind result_bind].
  rewrite str_at_spec by apply Hm. destruct (name_at (bm_name m)) as [n|e]; cbn; [|done].
  destruct (String.eqb n wanted); [rewrite E2; cbn; by destruct (size <=? _)|]. by apply IH.
Qed.

Lemma task_members_spec ms pos found :
  Forall member_wf ms -> has_at buf pos (concat (enc_member le <$> ms)) ->
  task_members r (len pre) (length ms) pos found = spec_found ms found.
Proof.
  intros Hw. revert pos found. induction Hw as [|m ms Hm _ IH]; intros pos found Ha; [done|].
  destruct (member_at m ms pos Ha Hm) as (E1 & E2 & Ha'). cbn [length task_members spec_found].
  rewrite E1. cbn [mbind result_bind]. rewrite str_at_spec by apply Hm.
  destruct (name_at (bm_name m)) as [n|e]; cbn [mbind result_bind]; [|done]. rewrite E2.
  cbn [mbind result_bind]. by apply IH.
Qed.

Lemma walk_struct_ext name size named named' offset offset' task task' w :
  (forall f, named f = named' f) -> (forall f, offset f = offset' f) -> task = task' ->
  walk_struct name size named offset task w = walk_struct name size named' offset' task' w.
Proof.
  intros Hn Ho ->. unfold walk_struct.
  assert (Ht : forall fields cur, resolve_table name named fields cur = resolve_table name named' fields cur).
  { intros fields cur. unfold resolve_table. revert cur.
    induction fields as [|[o f] fields IH]; intros [|c cur]; try done. cbn. by rewrite Hn, IH. }
  assert (Hr : forall fields cur, resolve_ns name size offset fields cur = resolve_ns name size offset' fields cur).
  { induction fields as [|[o f] fields IH]; intros [|c cur]; try done. cbn. by rewrite Ho, IH. }
  by rewrite !Ht, Hr, !Hn.
Qed.

Lemma info_vlen flag kind vlen : in_u 16 vlen -> Z.land (info_word flag kind vlen) 0xffff = vlen.
Proof.
  intros Hv. change 0xffff with (Z.ones 16). rewrite Z.land_ones by lia. unfold info_word.
  replace (Z.b2z flag * 2 ^ 31 + kind * 2 ^ 24 + vlen)
    with (vlen + (Z.b2z flag * 2 ^ 15 + kind * 2 ^ 8) * 2 ^ 16) by lia.
  rewrite Z.mod_add by lia. by apply Z.mod_small.
Qed.

Lemma info_kind flag kind vlen :
  in_u 5 kind -> in_u 16 vlen -> Z.land (Z.shiftr (info_word flag kind vlen) 24) 0x1f = kind.
Proof.
  intros Hk Hv. change 0x1f with (Z.ones 5). rewrite Z.land_ones, Z.shiftr_div_pow2 by lia.
  unfold info_word, in_u in *.
  replace (Z.b2z flag * 2 ^ 31 + kind * 2 ^ 24 + vlen)
    with (vlen + (Z.b2z flag * 4 * 2 ^ 5 + kind) * 2 ^ 24) by lia.
  rewrite Z.div_add, Z.div_small by lia. rewrite Z.add_0_l, Z.add_comm, Z.mod_add by lia.
  by apply Z.mod_small.
Qed.

Lemma info_range flag kind vlen : in_u 5 kind -> in_u 16 vlen -> in_u 32 (info_word flag kind vlen).
Proof. unfold in_u, info_word. destruct flag; cbn; lia. Qed.

(** The record header of a type. *)
Lemma record_at pos name info size rest :
  has_at buf pos (enc32 le name ++ enc32 le info ++ enc32 le size ++ rest) ->
  in_u 32 name -> in_u 32 info -> in_u 32 size ->
  r_u32 r pos = Ok name /\ r_u32 r (pos + 4) = Ok info /\ r_u32 r (pos + 8) = Ok size /\
  has_at buf (pos + 12) rest.
Proof.
  intros Ha Hn Hi Hs. apply has_at_app in Ha as [A1 Ha]. apply has_at_app in Ha as [A2 Ha].
  apply has_at_app in Ha as [A3 Ha]. unfold len in *. rewrite !length_enc32 in *.
  split_and!; [by apply r_u32_at..| |].
  - replace (pos + 8) with (pos + Z.of_nat 4 + Z.of_nat 4) by lia. by apply r_u32_at.
  - by replace (pos + 12) with (pos + Z.of_nat 4 + Z.of_nat 4 + Z.of_nat 4) by lia.
Qed.

(** The record header of a type and what follows it. *)
Definition type_head (t : btf_type) : Z * Z * Z :=
  match t with
  | BStruct n size f ms => (n, info_word f BTF_KIND_STRUCT (len ms), size)
  | BOther n f kind vlen size _ => (n, info_word f kind vlen, size)
  end.

Definition type_kind (t : btf_type) : Z * Z :=
  match t with BStruct _ _ _ ms => (BTF_KIND_STRUCT, len ms) | BOther _ _ kind vlen _ _ => (kind, vlen) end.

Definition type_rest (t : btf_type) : list byte :=
  match t with BStruct _ _ _ ms => concat (enc_member le <$> ms) | BOther _ _ _ _ _ trailing => trailing end.

Lemma type_rest_len t : type_wf t -> len (type_rest t) = trailing_len (type_kind t).1 (type_kind t).2.
Proof.
  destruct t as [n sz f ms|n f k v sz tl]; cbn; [intros _|by intros (_ & _ & _ & _ & _ & ->)].
  unfold len. rewrite length_enc_members. cbn. lia.
Qed.

Lemma type_head_read t pos :
  type_wf t -> has_at buf pos (enc_type le t) ->
  let '(name, info, size) := type_head t in
  0 <= name /\ r_u32 r pos = Ok name /\ r_u32 r (pos + 4) = Ok info /\ r_u32 r (pos + 8) = Ok size /\
  Z.land info 0xffff = (type_kind t).2 /\ Z.land (Z.shiftr info 24) 0x1f = (type_kind t).1 /\
  has_at buf (pos + 12) (type_rest t) /\ 0 <= (type_kind t).2 /\
  len (enc_type le t) = 12 + len (type_rest t).
Proof.
  intros Ht Ha. assert (Hk : in_u 5 (type_kind t).1 /\ in_u 16 (type_kind t).2).
  { destruct t; cbn in *; [|naive_solver]. destruct Ht as (_ & _ & Hl & _).
    split; [done|]. unfold in_u, len in *. lia. }
  destruct Hk as [Hk Hv]. destruct (type_head t) as [[name info] size] eqn:Eh.
  assert (Et : enc_type le t = enc32 le name ++ enc32 le info ++ enc32 le size ++ type_rest t)
    by (destruct t; cbn in *; by simplify_eq).
  assert (Hu : in_u 32 name /\ in_u 32 info /\ in_u 32 size /\
    Z.land info 0xffff = (type_kind t).2 /\ Z.land (Z.shiftr info 24) 0x1f = (type_kind t).1).
  { destruct t; cbn in *; simplify_eq; destruct Ht as (? & ? & _);
      split_and!; by first [done|apply info_range|apply info_vlen|apply info_kind]. }
  destruct Hu as (Hn & Hi & Hs & Ev & Ek). rewrite Et in Ha.
  destruct (record_at pos name info size (type_rest t) Ha Hn Hi Hs) as (R1 & R2 & R3 & Hrest).
  split_and!; try done; [apply Hn|apply Hv|]. rewrite Et. unfold len. rewrite !length_app, !length_enc32. lia.
Qed.

(** One iteration of the walk is the interpretation of the type. *)
Lemma type_step t pos w :
  type_wf t -> has_at buf (pos + 12) (type_rest t) -> 0 <= (type_head t).1.1 ->
  (if ((type_kind t).1 =? BTF_KIND_STRUCT) && (0 <? (type_kind t).2) then
     name ← str_at r (len pre) (type_head t).1.1;
     let n := Z.to_nat (type_kind t).2 in
     walk_struct name (type_head t).2 (read_named_member r (len pre) n (pos + 12) (type_head t).2)
       (member_offset r (len pre) n (pos + 12))
       (read_task_members r (len pre) n (pos + 12) (type_head t).2) w
   else Ok w) = spec_type t w.
Proof.
  intros Ht Hrest Hn. destruct t as [n sz f ms|n f k v sz tl]; cbn [type_kind type_head type_rest fst snd] in *.
  2:{ destruct Ht as (_ & _ & _ & Hne & _). by rewrite (proj2 (Z.eqb_neq _ _) Hne). }
  destruct ms as [|m ms]; [done|]. cbn [spec_type]. rewrite Z.eqb_refl.
  assert (0 < len (m :: ms)) by (unfold len; cbn; lia). rewrite (proj2 (Z.ltb_lt _ _)) by done. cbn [andb].
  rewrite str_at_spec by done. destruct (name_at n) as [nm|e]; cbn [mbind result_bind]; [|done].
  replace (Z.to_nat (len (m :: ms))) with (length (m :: ms)) by (unfold len; lia).
  destruct Ht as (_ & _ & _ & Hms). apply walk_struct_ext.
  - intros fld. by apply named_member_spec.
  - intros fld. by apply member_offset_spec.
  - unfold read_task_members, spec_task. by rewrite task_members_spec.
Qed.

Lemma walk_types_spec types fuel pos w :
  Forall type_wf types -> has_at buf pos (enc_types le types) ->
  len (enc_types le types) <= Z.of_nat fuel ->
  walk_types r (len pre) (pos + len (enc_types le types)) fuel pos w = Some (spec_walk types w).
Proof.
  intros Hw. revert fuel pos w. induction Hw as [|t types Ht _ IH]; intros fuel pos w Ha Hf.
  { change (len (enc_types le [])) with 0. destruct fuel; cbn [walk_types];
      by rewrite (proj2 (Z.ltb_lt _ _)) by lia. }
  change (enc_types le (t :: types)) with (enc_type le t ++ enc_types le types) in *.
  apply has_at_app in Ha as [Ha Har]. rewrite len_app in *.
  pose proof (type_head_read t pos Ht Ha) as Hh. pose proof (type_step t pos w Ht) as Hstep.
  destruct (type_head t) as [[name info] size] eqn:Eh.
  destruct Hh as (Hn & R1 & R2 & R3 & Ev & Ek & Hrest & Hv & Elen). specialize (Hstep Hrest Hn).
  cbn [fst snd] in Hstep. pose proof (trailing_nonneg (type_kind t).1 _ Hv) as Htn.
  pose proof (type_rest_len t Ht) as Hl. destruct fuel as [|fuel]; [unfold len in *; lia|].
  cbn [walk_types]. rewrite (proj2 (Z.ltb_ge _ _)) by (unfold len in *; lia).
  rewrite R1, R2. cbn [mbind result_bind]. rewrite Ev, Ek, R3. cbn [mbind result_bind] in Hstep |- *.
  rewrite Hstep. cbn [spec_walk]. destruct (spec_type t w) as [w'|e]; cbn; [|done].
  replace (pos + (len (enc_type le t) + len (enc_types le types)))
    with (pos + 12 + trailing_len (type_kind t).1 (type_kind t).2 + len (enc_types le types)) by lia.
  apply IH; [|unfold len in *; lia]. rewrite <- Hl. by replace (pos + 12 + len (type_rest t)) with (pos + len (enc_type le t)) by lia.
Qed.
End Spec.

(** ** Whole blobs *)

Section Blob.
Context (le : bool) (types : list btf_type) (strs : list byte).
Context (Hw : Forall type_wf types) (Ht : in_u 32 (len (enc_types le types))) (Hs : in_u 32 (len strs)).

Let pre : list byte := btf_header le types strs ++ enc_types le types.

Lemma length_header : length (btf_header le types strs) = 24%nat.
Proof.
  clear Ht. unfold btf_header. rewrite !length_app, !length_enc32.
  by destruct le; rewrite ?length_reverse, !length_le_split.
Qed.

Lemma enc_btf_pre : enc_btf le types strs = pre ++ strs.
Proof. unfold enc_btf, pre. by rewrite app_assoc. Qed.

(** The four words of the header. *)
Lemma header_words :
  let r := mkReader (enc_btf le types strs) le in
  r_u32 r 4 = Ok 24 /\ r_u32 r 8 = Ok 0 /\ r_u32 r 12 = Ok (len (enc_types le types)) /\
  r_u32 r 16 = Ok (len (enc_types le types)) /\
  has_at (enc_btf le types strs) 24 (enc_types le types).
Proof.
  intros r. pose proof (has_at_refl (enc_btf le types strs)) as Ha. unfold enc_btf at 2 in Ha.
  apply has_at_app in Ha as [Hh Hb]. unfold len in Hb. rewrite length_header in Hb.
  unfold btf_header in Hh. set (magic := if le then _ else _) in Hh.
  assert (Hm : length magic = 2%nat) by (unfold magic; by destruct le; rewrite ?length_reverse, length_le_split).
  apply has_at_app in Hh as [_ Hh]. unfold len in Hh. rewrite Hm in Hh.
  apply has_at_app in Hh as [_ Hh]. unfold len in Hh at 1. rewrite length_le_split in Hh.
  do 3 (apply has_at_app in Hh as [? Hh]; unfold len in Hh at 1; rewrite length_enc32 in Hh).
  apply has_at_app in Hh as [? Hh].
  split_and!; try (apply (r_u32_at le); [assumption|first [assumption|done]]).
  by apply has_at_app in Hb as [Hb _].
Qed.

Lemma blob_magic :
  (if le_combine (take 2 (enc_btf le types strs)) =? BTF_MAGIC then Some true
   else if le_combine (reverse (take 2 (enc_btf le types strs))) =? BTF_MAGIC then Some false else None) =
  Some le.
Proof. clear Ht. unfold enc_btf, btf_header. by destruct le. Qed.
End Blob.

Lemma parse_encoded le types strs :
  Forall type_wf types -> in_u 32 (len (enc_types le types)) -> in_u 32 (len strs) ->
  parse_task_offsets (enc_btf le types strs) =
  Some (w ← spec_walk strs types walk_start; finish_walk w).
Proof.
  intros Hw Ht Hs. unfold parse_task_offsets. rewrite blob_magic.
  destruct (header_words le types strs Ht) as (E1 & E2 & E3 & E4 & Hb).
  assert (Hl : len (enc_btf le types strs) = 24 + len (enc_types le types) + len strs).
  { unfold enc_btf, len. rewrite !length_app, length_header. lia. }
  unfold BTF_HEADER_LEN. rewrite Hl, (proj2 (Z.ltb_ge _ _)) by (unfold len; lia).
  rewrite E1, E2, E3, E4. cbn [mbind result_bind].
  rewrite (proj2 (Z.ltb_ge _ _)) by (unfold len; lia). rewrite enc_btf_pre in *.
  set (pre := btf_header le types strs ++ enc_types le types) in *.
  assert (Ep : 24 + len (enc_types le types) = len pre).
  { unfold pre, len. rewrite length_app, length_header. lia. }
  rewrite Z.add_0_r. replace (24 + len (enc_types le types)) with (len pre) at 1.
  rewrite walk_types_spec; [|done|done|lia].
  by destruct (spec_walk strs types walk_start).
Qed.

(** ** Namespaces *)

(** What the members a slot needs are resolved means. *)
Definition slot_resolved (fields : list (option Z)) (upid_size : option Z) (needed : list nat) : Prop :=
  (forall i, i ∈ needed -> exists v, fields !! i = Some (Some v)) /\
  (9%nat ∈ needed -> exists size, upid_size = Some size /\ 0 < size).

Lemma support_bits_range fields upid bit slots : 0 <= bit ->
  forall i, i < bit -> Z.testbit (support_bits fields upid bit slots) i = false.
Proof.
  revert bit. induction slots as [|needed slots IH]; intros bit Hb i Hi; cbn [support_bits]; [apply Z.bits_0|].
  rewrite Z.lor_spec, IH, orb_false_r by lia. case_match; [|apply Z.bits_0].
  rewrite Z.shiftl_1_l. apply Z.pow2_bits_false. lia.
Qed.

Lemma support_bits_spec fields upid bit slots : 0 <= bit ->
  forall i needed, slots !! i = Some needed ->
  Z.testbit (support_bits fields upid bit slots) (bit + Z.of_nat i) = true <-> slot_resolved fields upid needed.
Proof.
  revert bit. induction slots as [|n slots IH]; intros bit Hb i needed Hi; [done|]. cbn [support_bits].
  rewrite Z.lor_spec, orb_true_iff. destruct i as [|i].
  - injection Hi as ->. rewrite Z.add_0_r, (support_bits_range _ _ (bit + 1)) by lia.
    set (b := forallb _ needed && _).
    assert (Hb' : b = true <-> slot_resolved fields upid needed).
    { unfold b, slot_resolved. rewrite andb_true_iff, orb_true_iff, negb_true_iff, forallb_forall.
      setoid_rewrite list_elem_of_In.
      assert (H9 : existsb (Nat.eqb 9) needed = true <-> List.In 9%nat needed).
      { rewrite existsb_exists. split; [by intros (x & Hx & <-%Nat.eqb_eq)|]. intros. by exists 9%nat. }
      assert (Hu : (match upid with Some size => 0 <? size | None => false end) = true <->
                   exists size, upid = Some size /\ 0 < size).
      { destruct upid as [sz|]; [|naive_solver]. rewrite Z.ltb_lt. naive_solver. }
      assert (Hf : forall i, (match fields !! i with Some (Some _) => true | _ => false end) = true <->
                   exists v, fields !! i = Some (Some v)) by (intros i; destruct (fields !! i) as [[?|]|]; naive_solver).
      rewrite Hu. setoid_rewrite Hf. destruct (existsb (Nat.eqb 9) needed); naive_solver. }
    rewrite <- Hb'. destruct b; rewrite ?Z.shiftl_1_l, ?Z.pow2_bits_true, ?Z.bits_0 by lia; naive_solver.
  - specialize (IH (bit + 1) ltac:(lia) i needed Hi).
    replace (bit + Z.of_nat (S i)) with (bit + 1 + Z.of_nat i) by lia. rewrite IH.
    split; [|by right]. intros [H|]; [|done]. exfalso. revert H. case_match; [|by rewrite Z.bits_0].
    rewrite Z.shiftl_1_l, Z.pow2_bits_false by lia. done.
Qed.

(** A namespace slot is declared supported exactly when every member
    its reads go through was resolved, and for the slots that index into the
    array of process numbers also when the size of its elements is known and
    not zero. *)
Theorem namespace_support_exact fields upid_size i needed :
  NS_SLOT_FIELDS !! i = Some needed ->
  Z.testbit (ns_supported (from_resolved fields upid_size)) (Z.of_nat i) = true <->
  slot_resolved fields upid_size needed.
Proof. intros Hi. by apply (support_bits_spec fields upid_size 0 NS_SLOT_FIELDS ltac:(lia) i). Qed.
