(* ===== verification/BtfFormat.v ===== *)
(** * The BTF reader against the format

    The format as the kernel documents it: the nineteen kinds of types with
    what follows each record, the string section, and members whose offsets
    are counted in bits.  On the encoding of any list of such types the reader
    returns the offsets that the structures themselves determine. *)

From S2P Require Import Prelude Bytes Layout Records Common Utf8 Btf BtfFacts.

Local Open Scope string_scope.
Local Open Scope Z_scope.
Local Open Scope list_scope.

(** ** Types *)

(** A member: its type, the width of its bit field or zero, its offset in bits. *)
Record member : Type := mkField { km_name : string; km_type : Z; km_bitfield : Z; km_bits : Z }.

Inductive ktype : Type :=
| KInt (name : string) (size encoding : Z)
| KPtr (type : Z)
| KArray (elem index nelems : Z)
| KStruct (name : string) (size : Z) (flag : bool) (members : list member)
| KUnion (name : string) (size : Z) (flag : bool) (members : list member)
| KEnum (name : string) (size : Z) (signed : bool) (values : list (string * Z))
| KFwd (name : string) (union : bool)
| KTypedef (name : string) (type : Z)
| KVolatile (type : Z)
| KConst (type : Z)
| KRestrict (type : Z)
| KFunc (name : string) (linkage type : Z)
| KFuncProto (return_type : Z) (params : list (string * Z))
| KVar (name : string) (type linkage : Z)
| KDatasec (name : string) (size : Z) (vars : list (Z * Z * Z))
| KFloat (name : string) (size : Z)
| KDeclTag (name : string) (type component : Z)
| KTypeTag (name : string) (type : Z)
| KEnum64 (name : string) (size : Z) (signed : bool) (values : list (string * Z * Z)).

Section Format.
(** Where the string section has a name. *)
Context (off : string -> Z).

Definition member_words (m : member) : list Z :=
  [off (km_name m); km_type m; km_bitfield m * 2 ^ 24 + km_bits m].

(** The record header: name, flag, kind, count, and size or type. *)
Definition head_of (t : ktype) : string * bool * Z * Z * Z :=
  match t with
  | KInt name size _ => (name, false, 1, 0, size)
  | KPtr type => ("", false, 2, 0, type)
  | KArray _ _ _ => ("", false, 3, 0, 0)
  | KStruct name size flag members => (name, flag, 4, len members, size)
  | KUnion name size flag members => (name, flag, 5, len members, size)
  | KEnum name size signed values => (name, signed, 6, len values, size)
  | KFwd name union => (name, union, 7, 0, 0)
  | KTypedef name type => (name, false, 8, 0, type)
  | KVolatile type => ("", false, 9, 0, type)
  | KConst type => ("", false, 10, 0, type)
  | KRestrict type => ("", false, 11, 0, type)
  | KFunc name linkage type => (name, false, 12, linkage, type)
  | KFuncProto ret params => ("", false, 13, len params, ret)
  | KVar name type _ => (name, false, 14, 0, type)
  | KDatasec name size vars => (name, false, 15, len vars, size)
  | KFloat name size => (name, false, 16, 0, size)
  | KDeclTag name type _ => (name, false, 17, 0, type)
  | KTypeTag name type => (name, false, 18, 0, type)
  | KEnum64 name size signed values => (name, signed, 19, len values, size)
  end.

(** The words that follow the header. *)
Definition body_of (t : ktype) : list Z :=
  match t with
  | KInt _ _ encoding => [encoding]
  | KArray elem index nelems => [elem; index; nelems]
  | KStruct _ _ _ members | KUnion _ _ _ members => concat (member_words <$> members)
  | KEnum _ _ _ values => concat ((fun v => [off v.1; v.2]) <$> values)
  | KFuncProto _ params => concat ((fun p => [off p.1; p.2]) <$> params)
  | KVar _ _ linkage => [linkage]
  | KDatasec _ _ vars => concat ((fun v : Z * Z * Z => [v.1.1; v.1.2; v.2]) <$> vars)
  | KDeclTag _ _ component => [component]
  | KEnum64 _ _ _ values => concat ((fun v : string * Z * Z => [off v.1.1; v.1.2; v.2]) <$> values)
  | _ => []
  end.

(** Words are of 32 bits and counts of 16.  A structure that has bit fields
    keeps their widths in the upper byte of the offset, so offsets are of 24
    bits, and without them the upper byte is zero. *)
Definition member_fits (flag : bool) (m : member) : Prop :=
  in_u 24 (km_bits m) /\ in_u 8 (km_bitfield m) /\ (flag = false -> km_bitfield m = 0).

Definition ktype_wf (t : ktype) : Prop :=
  let '(name, flag, kind, vlen, size) := head_of t in
  in_u 32 (off name) /\ in_u 32 size /\ in_u 16 vlen /\ Forall (in_u 32) (body_of t) /\
  match t with KStruct _ _ _ members => Forall (member_fits flag) members | _ => True end.

(** The bytes of a record, of the type section and of a blob. *)
Definition type_bytes (le : bool) (t : ktype) : list byte :=
  let '(name, flag, kind, vlen, size) := head_of t in
  concat (enc32 le <$> [off name; info_word flag kind vlen; size] ++ body_of t).

Definition section_bytes (le : bool) (types : list ktype) : list byte := concat (type_bytes le <$> types).

Definition encode (le : bool) (types : list ktype) (strs : list byte) : list byte :=
  (if le then [Byte.x9f; Byte.xeb] else [Byte.xeb; Byte.x9f]) ++ [Byte.x01; Byte.x00] ++
  concat (enc32 le <$> [24; 0; len (section_bytes le types); len (section_bytes le types); len strs]) ++
  section_bytes le types ++ strs.

(** The same as records of the reader. *)
Definition raw_member (m : member) : btf_member :=
  mkMember (off (km_name m)) (km_type m) (km_bitfield m * 2 ^ 24 + km_bits m).

Definition raw_type (le : bool) (t : ktype) : btf_type :=
  let '(name, flag, kind, vlen, size) := head_of t in
  match t with
  | KStruct _ _ _ members => BStruct (off name) size flag (raw_member <$> members)
  | _ => BOther (off name) flag kind vlen size (concat (enc32 le <$> body_of t))
  end.

Definition raw_types (le : bool) (types : list ktype) : list btf_type := raw_type le <$> types.

Lemma members_bytes le ms :
  concat (enc_member le <$> (raw_member <$> ms)) = concat (enc32 le <$> concat (member_words <$> ms)).
Proof.
  induction ms as [|m ms IH]; [done|]. rewrite !fmap_cons. cbn [concat]. rewrite fmap_app, concat_app, <- IH.
  f_equal. unfold enc_member, member_words. cbn. by rewrite app_nil_r.
Qed.

Lemma enc_raw le t :
  enc_type le (raw_type le t) = type_bytes le t.
Proof.
  destruct t; try reflexivity. unfold type_bytes. cbn [raw_type head_of enc_type body_of].
  rewrite fmap_app, concat_app, members_bytes. unfold len. rewrite length_fmap. cbn [fmap list_fmap concat].
  by rewrite <- !app_assoc.
Qed.

Lemma section_raw le types : section_bytes le types = enc_types le (raw_types le types).
Proof.
  unfold section_bytes, enc_types, raw_types. rewrite <- list_fmap_compose. f_equal.
  apply list_fmap_ext. intros _ t _. symmetry. apply enc_raw.
Qed.

Lemma encode_raw le types strs : encode le types strs = enc_btf le (raw_types le types) strs.
Proof.
  unfold encode, enc_btf, btf_header. rewrite section_raw, <- !app_assoc. cbn [fmap list_fmap concat].
  rewrite <- !app_assoc. by destruct le.
Qed.

(** What the reader skips after a record is what the format puts there. *)
Lemma concat_words {A} (f : A -> list Z) n l :
  (forall x, length (f x) = n) -> length (concat (f <$> l)) = (n * length l)%nat.
Proof.
  intros Hf. induction l as [|x l IH]; cbn; [lia|]. fold (fmap (M:=list) f l). rewrite length_app, Hf, IH. lia.
Qed.

Lemma enc_words_len le ws : len (concat (enc32 le <$> ws)) = 4 * len ws.
Proof.
  induction ws as [|w ws IH]; [done|]. cbn [fmap list_fmap concat]. fold (fmap (M:=list) (enc32 le) ws).
  rewrite len_app, IH. unfold len. rewrite length_enc32. cbn [length]. lia.
Qed.

Lemma body_skipped t :
  let '(_, _, kind, vlen, _) := head_of t in 4 * len (body_of t) = trailing_len kind vlen.
Proof.
  destruct t; cbn [head_of body_of]; unfold len;
    rewrite ?(concat_words _ 3) by done; rewrite ?(concat_words _ 2) by done; cbn; lia.
Qed.

Lemma raw_type_wf le t : ktype_wf t -> type_wf (raw_type le t).
Proof.
  intros Ht. pose proof (body_skipped t) as Hb. unfold ktype_wf, raw_type in *.
  destruct (head_of t) as [[[[name flag] kind] vlen] size] eqn:Eh. destruct Ht as (Hn & Hs & Hv & Hw & Hm).
  destruct t; cbn in Eh; simplify_eq; cbn [type_wf].
  4:{ unfold in_u, len in *. rewrite length_fmap. split_and!; try lia. apply Forall_fmap.
      cbn [body_of] in Hw. clear - Hw. induction members as [|m ms IH]; [done|].
      cbn [fmap list_fmap concat] in Hw. apply Forall_app in Hw as [H1 H2].
      apply Forall_cons. split; [|by apply IH].
      apply Forall_cons in H1 as [H1 H3]. apply Forall_cons in H3 as [H3 H4]. apply Forall_cons in H4 as [H4 _].
      done. }
  all: split_and!; try done; rewrite enc_words_len; exact Hb.
Qed.
End Format.

(** ** What the structures say *)

(** The text at a position of the string section. *)
Definition text_at (strs : list byte) (pos : Z) (name : string) : Prop :=
  0 <= pos /\ (NUL ∉ str_bytes name) /\ utf8_valid (str_bytes name) = true /\
  exists rest, drop (Z.to_nat pos) strs = str_bytes name ++ NUL :: rest.

(** The structures with members, in their order. *)
Record kstruct : Type := mkStruct { ks_name : string; ks_size : Z; ks_members : list member }.

Definition struct_of (t : ktype) : option kstruct :=
  match t with
  | KStruct name size _ (m :: ms) => Some (mkStruct name size (m :: ms))
  | _ => None
  end.
Definition structs (types : list ktype) : list kstruct := omap struct_of types.

Definition find_last {A} (p : A -> bool) (l : list A) : option A := List.find p (reverse l).

(** The byte in which the first, or the last, member of that name begins. *)
Definition first_offset (s : kstruct) (field : string) : option Z :=
  (fun m => km_bits m / 8) <$> List.find (fun m => String.eqb (km_name m) field) (ks_members s).
Definition last_offset (s : kstruct) (field : string) : option Z :=
  (fun m => km_bits m / 8) <$> find_last (fun m => String.eqb (km_name m) field) (ks_members s).

Definition last_named (ss : list kstruct) (name : string) : option kstruct :=
  find_last (fun s => String.eqb (ks_name s) name) ss.

(** The member of a structure when it begins inside it; the namespace table
    takes one that begins at its end, too. *)
Definition inside_offset (s : kstruct) (field : string) : option Z :=
  v ← first_offset s field; if v <? ks_size s then Some v else None.
Definition field_in (ss : list kstruct) (e : string * string) : option Z :=
  s ← last_named ss e.1; inside_offset s e.2.
Definition ns_field_in (ss : list kstruct) (e : string * string) : option Z :=
  s ← last_named ss e.1; v ← first_offset s e.2; if v <=? ks_size s then Some v else None.

(** The members of [task_struct] the programs need. *)
Definition TASK_MEMBERS : list string :=
  ["loginuid"; "sessionid"; "tgid"; "pid"; "group_leader"; "start_boottime"; "signal"; "exit_code"; "comm"].

Definition has_members (s : kstruct) : Prop :=
  (ks_name s = "task_struct" -> forall f, f ∈ TASK_MEMBERS -> exists v, last_offset s f = Some v /\ v < ks_size s) /\
  (ks_name s = "signal_struct" ->
     is_Some (inside_offset s "live") /\ is_Some (inside_offset s "group_exit_code")).

(** Every required member is there. *)
Definition complete (ss : list kstruct) : Prop :=
  Forall has_members ss /\ is_Some (last_named ss "task_struct") /\ is_Some (last_named ss "signal_struct").

Definition task_offsets (o : TaskStructOffsets) : list Z :=
  [loginuid o; sessionid o; tgid o; pid o; group_leader o; start_boottime o; signal o; exit_code o; comm o].

(** The offsets of these structures. *)
Definition offsets_of (ss : list kstruct) (o : TaskStructOffsets) : Prop :=
  (exists task, last_named ss "task_struct" = Some task /\
     Forall2 (fun f v => last_offset task f = Some v /\ v < ks_size task) TASK_MEMBERS (task_offsets o)) /\
  (exists sig, last_named ss "signal_struct" = Some sig /\ inside_offset sig "live" = Some (signal_live o) /\
     inside_offset sig "group_exit_code" = Some (signal_group_exit_code o)) /\
  exec_view o = mapM (field_in ss) EXEC_VIEW_FIELDS /\
  fd_ident o = mapM (field_in ss) (FD_CHAIN_FIELDS ++ [("inode", "i_ino"); ("inode", "i_sb"); ("super_block", "s_dev")]) /\
  tty o = mapM (field_in ss) TTY_FIELDS /\
  ns_offsets (namespaces o) =
    ((fun e => default 0 (ns_field_in ss e)) <$> NS_FIELDS) ++ [default 0 (ks_size <$> last_named ss "upid")] /\
  forall i needed, NS_SLOT_FIELDS !! i = Some needed ->
    (Z.testbit (ns_supported (namespaces o)) (Z.of_nat i) = true <->
     slot_resolved (ns_field_in ss <$> NS_FIELDS) (ks_size <$> last_named ss "upid") needed).

Lemma find_last_snoc {A} p (l : list A) x : find_last p (l ++ [x]) = if p x then Some x else find_last p l.
Proof. unfold find_last. by rewrite reverse_snoc. Qed.

Lemma find_last_cons {A} p (l : list A) x :
  find_last p (x :: l) =
  match find_last p l with Some y => Some y | None => if p x then Some x else None end.
Proof.
  unfold find_last. rewrite reverse_cons. induction (reverse l) as [|y k IH]; [done|]. cbn. by destruct (p y).
Qed.

(** ** The records of a structure *)

Section Named.
Context (strs : list byte) (off : string -> Z).

Lemma text_name pos name : text_at strs pos name -> name_at strs pos = Ok name.
Proof.
  intros (Hp & Hn & Hu & rest & E). unfold name_at.
  assert (Hl : (Z.to_nat pos < length strs)%nat).
  { apply (f_equal length) in E. rewrite length_drop, length_app in E. cbn in E. lia. }
  rewrite (proj2 (Z.ltb_ge _ _)) by (unfold len; lia). cbn [bail_if mbind result_bind].
  rewrite E, until_nul_app_nul, Hu by done. f_equal. apply String.string_of_list_byte_of_string.
Qed.

(** Every name of a structure is in the table. *)
Definition named_in (t : ktype) : Prop :=
  match t with
  | KStruct name _ _ members => Forall (fun n => text_at strs (off n) n) (name :: (km_name <$> members))
  | _ => True
  end.

Lemma raw_byte flag m : member_fits flag m -> byte_offset (bm_offset (raw_member off m)) = km_bits m / 8.
Proof.
  intros ([? ?] & _). unfold byte_offset. cbn [bm_offset raw_member]. change 0x00ffffff with (Z.ones 24).
  rewrite Z.land_ones, Z.add_comm, Z.mod_add, Z.mod_small by lia. done.
Qed.

Section Members.
Context (flag : bool) (s : kstruct).
Context (Hfit : Forall (member_fits flag) (ks_members s)).
Context (Hnames : Forall (fun n => text_at strs (off n) n) (km_name <$> ks_members s)).

Lemma spec_offset_first f : spec_offset strs (raw_member off <$> ks_members s) f = Ok (first_offset s f).
Proof.
  unfold first_offset. revert Hfit Hnames. induction (ks_members s) as [|m ms IH]; intros Hf Hn; [done|].
  apply Forall_cons in Hf as [Hm Hf]. apply Forall_cons in Hn as [Hnm Hn].
  rewrite fmap_cons. cbn [spec_offset List.find]. rewrite (raw_byte flag) by done.
  cbn [bm_name raw_member]. rewrite (text_name _ _ Hnm). cbn [mbind result_bind].
  destruct (String.eqb (km_name m) f); [done|]. by apply IH.
Qed.

Lemma spec_named_inside f :
  match spec_named strs (raw_member off <$> ks_members s) (ks_size s) f with
  | Ok v => inside_offset s f = Some v
  | Err _ => inside_offset s f = None
  end.
Proof.
  unfold spec_named, inside_offset. rewrite spec_offset_first. cbn [mbind result_bind].
  destruct (first_offset s f) as [v|]; cbn [mbind option_bind]; [|done].
  destruct (Z.leb_spec (ks_size s) v), (Z.ltb_spec v (ks_size s)); try done; lia.
Qed.

Lemma zip_with_twice {A B} (f g : A -> B -> B) l (k : list B) :
  zip_with f l (zip_with g l k) = zip_with (fun x y => f x (g x y)) l k.
Proof. revert k. induction l as [|x l IH]; intros [|y k]; [done..|]. cbn. by rewrite IH. Qed.

Lemma zip_with_same {A B} (f g : A -> B -> B) l (k : list B) :
  (forall x y, f x y = g x y) -> zip_with f l k = zip_with g l k.
Proof. intros Hf. revert k. induction l as [|x l IH]; intros [|y k]; [done..|]. cbn. by rewrite Hf, IH. Qed.

Lemma zip_with_skip {A B} (l : list A) (k : list B) :
  length k = length l -> zip_with (fun _ y => y) l k = k.
Proof. revert k. induction l as [|x l IH]; intros [|y k] Hl; try done. cbn. by rewrite IH by (injection Hl; done). Qed.

Lemma spec_found_last found :
  length found = length TASK_FIELDS ->
  spec_found strs (raw_member off <$> ks_members s) found =
  Ok (zip_with (fun f cur => match last_offset s f with Some v => Some v | None => cur end) TASK_FIELDS found).
Proof.
  unfold last_offset. revert found Hfit Hnames. induction (ks_members s) as [|m ms IH]; intros found Hf Hn Hl.
  { cbn [fmap list_fmap spec_found]. f_equal. symmetry. by apply zip_with_skip. }
  apply Forall_cons in Hf as [Hm Hf]. apply Forall_cons in Hn as [Hnm Hn].
  rewrite fmap_cons. cbn [spec_found]. rewrite (raw_byte flag) by done. cbn [bm_name raw_member].
  rewrite (text_name _ _ Hnm). cbn [mbind result_bind].
  rewrite IH; [|done|done|rewrite length_zip_with; lia]. f_equal. rewrite zip_with_twice.
  apply zip_with_same. intros f cur. rewrite find_last_cons.
  destruct (find_last _ ms) as [x|]; cbn; [done|]. by destruct (String.eqb (km_name m) f).
Qed.

Lemma required_mapM (g : string -> option Z) names :
  match required_fields names (g <$> names) with
  | Ok vs => Forall2 (fun f v => g f = Some v) names vs
  | Err _ => exists f, f ∈ names /\ g f = None
  end.
Proof.
  induction names as [|n names IH]; cbn; [constructor|]. destruct (g n) as [v|] eqn:E; cbn [with_context mbind result_bind].
  - destruct (required_fields names (g <$> names)) as [vs|e]; cbn; [by constructor|].
    destruct IH as (f & Hf & E'). exists f. split; [by right|done].
  - exists n. split; [by left|done].
Qed.

Lemma spec_task_members :
  match spec_task strs (raw_member off <$> ks_members s) (ks_size s) with
  | Ok t => Forall2 (fun f v => last_offset s f = Some v /\ v < ks_size s) TASK_MEMBERS (task_offsets t)
  | Err _ => exists f, f ∈ TASK_MEMBERS /\ forall v, last_offset s f = Some v -> ks_size s <= v
  end.
Proof.
  unfold spec_task. rewrite spec_found_last by done. cbn [mbind result_bind].
  assert (Ez : zip_with (fun f cur => match last_offset s f with Some v => Some v | None => cur end) TASK_FIELDS
    (replicate 9 None) = last_offset s <$> TASK_FIELDS).
  { change (replicate 9 None) with ((fun _ => None) <$> TASK_FIELDS : list (option Z)).
    induction TASK_FIELDS as [|f fs IH]; [done|]. cbn. rewrite IH. by destruct (last_offset s f). }
  rewrite Ez. pose proof (required_mapM (last_offset s) TASK_FIELDS) as Hr. change TASK_FIELDS with TASK_MEMBERS in *.
  destruct (required_fields _ _) as [vs|e]; cbn [mbind result_bind].
  2:{ destruct Hr as (f & Hf & E). exists f. split; [done|]. intros v Hv. congruence. }
  destruct (existsb _ vs) eqn:Ex; cbn [bail_if mbind result_bind].
  - apply existsb_exists in Ex as (v & Hv%list_elem_of_In & Hs%Z.leb_le).
    apply list_elem_of_lookup_1 in Hv as (i & Hi).
    destruct (Forall2_lookup_r _ _ _ _ _ Hr Hi) as (f & Hf & E). exists f.
    split; [by eapply list_elem_of_lookup_2|]. intros v' Hv'. congruence.
  - assert (Evs : vs = (fun k => nth k vs 0) <$> seq 0 9).
    { apply Forall2_length in Hr. do 9 (destruct vs as [|? vs]; [done|]). by destruct vs. }
    unfold task_offsets. cbn [loginuid sessionid tgid pid group_leader start_boottime signal exit_code comm].
    change (Forall2 (fun f v => last_offset s f = Some v /\ v < ks_size s) TASK_MEMBERS
      ((fun k => nth k vs 0) <$> seq 0 9)). rewrite <- Evs.
    apply Forall2_same_length_lookup. split; [by eapply Forall2_length|]. intros i f v Hf Hv.
    split; [exact (Forall2_lookup_lr _ _ _ _ _ _ Hr Hf Hv)|]. apply Z.lt_nge. intros Hle.
    apply not_true_iff_false in Ex. apply Ex. apply existsb_exists. exists v.
    split; [by eapply list_elem_of_In, list_elem_of_lookup_2|by apply Z.leb_le].
Qed.
End Members.
End Named.

(** ** The walk over the structures *)

Section Walk.
Context (strs : list byte) (off : string -> Z) (le : bool).

Definition spec_task_of (s : kstruct) : result TaskStructOffsets :=
  spec_task strs (raw_member off <$> ks_members s) (ks_size s).

Definition signal_of (s : kstruct) : option (Z * Z) :=
  live ← inside_offset s "live"; code ← inside_offset s "group_exit_code"; Some (live, code).

(** The state after the structures [ss]. *)
Definition walked (ss : list kstruct) : Walk :=
  mkWalk (last_named ss "task_struct" ≫= fun s => ok (spec_task_of s)) (field_in ss <$> EXEC_VIEW_FIELDS)
    (field_in ss <$> FD_CHAIN_FIELDS) (field_in ss <$> TTY_FIELDS) (ns_field_in ss <$> NS_FIELDS)
    (ks_size <$> last_named ss "upid") (last_named ss "signal_struct" ≫= signal_of).

Lemma last_named_snoc ss s n :
  last_named (ss ++ [s]) n = if String.eqb (ks_name s) n then Some s else last_named ss n.
Proof. exact (find_last_snoc _ ss s). Qed.

Section Step.
Context (flag : bool) (s : kstruct) (ss : list kstruct).
Context (Hfit : Forall (member_fits flag) (ks_members s)).
Context (Hnames : Forall (fun n => text_at strs (off n) n) (km_name <$> ks_members s)).

Let named := spec_named strs (raw_member off <$> ks_members s) (ks_size s).
Let offset := spec_offset strs (raw_member off <$> ks_members s).

Lemma ok_named f : ok (named f) = inside_offset s f.
Proof. unfold named. pose proof (spec_named_inside strs off flag s Hfit Hnames f). by destruct (spec_named _ _ _ f). Qed.

Lemma resolve_table_step fields :
  resolve_table (ks_name s) named fields (field_in ss <$> fields) = field_in (ss ++ [s]) <$> fields.
Proof.
  unfold resolve_table. induction fields as [|[owner field] fields IH]; [done|]. rewrite !fmap_cons.
  cbn [zip_with]. rewrite IH. f_equal. unfold field_in. cbn [fst snd]. rewrite last_named_snoc, ok_named.
  by destruct (String.eqb (ks_name s) owner).
Qed.

Lemma resolve_ns_step fields :
  resolve_ns (ks_name s) (ks_size s) offset fields (ns_field_in ss <$> fields) =
  Ok (ns_field_in (ss ++ [s]) <$> fields).
Proof.
  induction fields as [|[owner field] fields IH]; [done|]. rewrite !fmap_cons.
  assert (E : ns_field_in (ss ++ [s]) (owner, field) =
    if String.eqb (ks_name s) owner
    then (v ← first_offset s field; if v <=? ks_size s then Some v else None) else ns_field_in ss (owner, field)).
  { unfold ns_field_in. cbn [fst snd]. rewrite last_named_snoc. by destruct (String.eqb (ks_name s) owner). }
  rewrite E. cbn [resolve_ns]. rewrite IH.
  assert (Eo : offset field = Ok (first_offset s field)) by (by apply (spec_offset_first strs off flag)).
  rewrite Eo. destruct (String.eqb (ks_name s) owner); cbn [mbind result_bind]; [|done].
  by destruct (first_offset s field).
Qed.

Lemma walk_struct_step :
  let r := walk_struct (ks_name s) (ks_size s) named offset (spec_task_of s) (walked ss) in
  has_members s /\ r = Ok (walked (ss ++ [s])) \/ ~ has_members s /\ exists e, r = Err e.
Proof.
  cbn zeta. unfold walk_struct, walked. cbn [w_view w_fd w_tty w_ns w_upid w_task w_signal].
  rewrite !resolve_table_step, resolve_ns_step. cbn [mbind result_bind]. rewrite !last_named_snoc.
  assert (Eu : (if String.eqb (ks_name s) "upid" then Some (ks_size s) else ks_size <$> last_named ss "upid") =
    ks_size <$> (if String.eqb (ks_name s) "upid" then Some s else last_named ss "upid"))
    by (by destruct (String.eqb (ks_name s) "upid")). rewrite Eu. unfold has_members, signal_of.
  destruct (String.eqb_spec (ks_name s) "task_struct") as [Et|Et].
  - rewrite Et. cbn [String.eqb Ascii.eqb Bool.eqb]. pose proof (spec_task_members strs off flag s Hfit Hnames) as Ht.
    cbn [mbind option_bind]. unfold spec_task_of. destruct (spec_task _ _ _) as [t|e]; cbn [mbind result_bind ok].
    + left. split; [|done]. split; [|done]. intros _ f Hf. apply list_elem_of_lookup_1 in Hf as [i Hi].
      destruct (Forall2_lookup_l _ _ _ _ _ Ht Hi) as (v & _ & Hv). by exists v.
    + right. split; [|by eexists]. intros [H _]. destruct Ht as (f & Hf & Hno).
      destruct (H eq_refl f Hf) as (v & Hv & Hlt). specialize (Hno v Hv). lia.
  - destruct (String.eqb_spec (ks_name s) "signal_struct") as [Es|Es].
    + cbn [mbind option_bind]. rewrite <- !ok_named. destruct (named "live") as [l|e]; cbn [ok mbind result_bind option_bind].
      2:{ right. split; [|by eexists]. intros [_ H]. by destruct (H Es) as [[? ?] _]. }
      destruct (named "group_exit_code") as [c|e]; cbn [ok mbind result_bind option_bind].
      2:{ right. split; [|by eexists]. intros [_ H]. by destruct (H Es) as [_ [? ?]]. }
      left. split; [|done]. split; [done|]. intros _. split; by eexists.
    + left. by split.
Qed.
End Step.

Lemma spec_walk_structs types ss :
  Forall (ktype_wf off) types -> Forall (named_in strs off) types ->
  let r := spec_walk strs (raw_types off le types) (walked ss) in
  Forall has_members (structs types) /\ r = Ok (walked (ss ++ structs types)) \/
  ~ Forall has_members (structs types) /\ exists e, r = Err e.
Proof.
  cbn zeta. intros Hw. revert ss. induction Hw as [|t types Ht _ IH]; intros ss Hn.
  { left. split; [constructor|]. by rewrite app_nil_r. }
  apply Forall_cons in Hn as [Hnt Hn]. unfold raw_types. rewrite fmap_cons. cbn [spec_walk].
  fold (raw_types off le types). unfold structs. cbn [omap list_omap]. fold (structs types).
  destruct (struct_of t) as [s|] eqn:Es.
  - destruct t as [| | |name size flag [|m ms]| | | | | | | | | | | | | | |]; try discriminate Es.
    injection Es as <-. unfold ktype_wf in Ht. cbn [head_of] in Ht. destruct Ht as (_ & _ & _ & _ & Hf).
    cbn [named_in] in Hnt. apply Forall_cons in Hnt as [Hname Hms].
    set (s := mkStruct name size (m :: ms)). unfold raw_type. cbn [head_of]. rewrite fmap_cons.
    cbn [spec_type]. rewrite (text_name strs _ _ Hname). cbn [mbind result_bind].
    destruct (walk_struct_step flag s ss Hf Hms) as [[Hok E]|[Hno [e E]]];
      cbn [s ks_name ks_size ks_members] in E; unfold spec_task_of in E;
      cbn [s ks_size ks_members] in E; rewrite fmap_cons in E; rewrite E; cbn [mbind result_bind].
    + destruct (IH (ss ++ [s]) Hn) as [[Hall Er]|[Hnot [e Er]]].
      * left. split; [by constructor|]. by rewrite Er, <- app_assoc.
      * right. split; [|by exists e]. intros H. apply Hnot. by inversion H.
    + right. split; [|by exists e]. intros H. apply Hno. by inversion H.
  - assert (Eo : spec_type strs (raw_type off le t) (walked ss) = Ok (walked ss)).
    { destruct t as [| | |name size flag [|m ms]| | | | | | | | | | | | | | |]; done. }
    rewrite Eo. cbn [mbind result_bind]. by apply IH.
Qed.

(** What is known of a structure of the blob. *)
Definition readable (s : kstruct) : Prop :=
  (exists flag, Forall (member_fits flag) (ks_members s)) /\
  Forall (fun n => text_at strs (off n) n) (km_name <$> ks_members s).

Lemma structs_readable types :
  Forall (ktype_wf off) types -> Forall (named_in strs off) types -> Forall readable (structs types).
Proof.
  intros Hw Hn. apply Forall_forall. intros s (t & Ht & Es)%list_elem_of_omap.
  rewrite Forall_forall in Hw, Hn. specialize (Hw t Ht). specialize (Hn t Ht).
  destruct t as [| | |name size flag [|m ms]| | | | | | | | | | | | | | |]; try discriminate Es. injection Es as <-.
  unfold ktype_wf in Hw. cbn [head_of] in Hw. destruct Hw as (_ & _ & _ & _ & Hf).
  split; [by exists flag|]. by apply Forall_cons in Hn as [_ Hn].
Qed.

Lemma last_named_in ss n s : last_named ss n = Some s -> s ∈ ss /\ ks_name s = n.
Proof.
  intros [Hin He%String.eqb_eq]%List.find_some. split; [|done].
  rewrite <- list_elem_of_In in Hin. by rewrite elem_of_reverse in Hin.
Qed.

Lemma collect_mapM {A} (f : A -> option Z) l : collect (f <$> l) = mapM f l.
Proof. unfold collect. induction l as [|x l IH]; [done|]. rewrite fmap_cons. cbn. by rewrite IH. Qed.

Lemma task_read s : readable s -> has_members s -> ks_name s = "task_struct" ->
  exists t, spec_task_of s = Ok t /\
    Forall2 (fun f v => last_offset s f = Some v /\ v < ks_size s) TASK_MEMBERS (task_offsets t).
Proof.
  intros [[flag Hf] Hn] [Hm _] En. pose proof (spec_task_members strs off flag s Hf Hn) as Ht.
  unfold spec_task_of. destruct (spec_task _ _ _) as [t|e]; [by exists t|].
  destruct Ht as (f & Hin & Hno). destruct (Hm En f Hin) as (v & Hv & Hlt). specialize (Hno v Hv). lia.
Qed.

Lemma finish_walked ss :
  Forall readable ss -> Forall has_members ss ->
  (complete ss <-> exists o, finish_walk (walked ss) = Ok o) /\
  forall o, finish_walk (walked ss) = Ok o -> offsets_of ss o.
Proof.
  intros Hr Hm. rewrite Forall_forall in Hr. pose proof Hm as Hm'. rewrite Forall_forall in Hm'.
  unfold finish_walk, walked, complete, offsets_of. rewrite <- !collect_mapM, fmap_app. cbn [w_task w_signal w_view w_fd w_tty w_ns w_upid].
  destruct (last_named ss "task_struct") as [T|] eqn:ET; cbn [mbind option_bind with_context result_bind].
  2:{ split; [|done]. split; [by intros (_ & [? ?] & _)|by intros [? ?]]. }
  destruct (last_named_in _ _ _ ET) as [HT EnT].
  destruct (task_read T (Hr T HT) (Hm' T HT) EnT) as (t & Et & Hoff). rewrite Et.
  cbn [ok with_context mbind result_bind].
  destruct (last_named ss "signal_struct") as [S|] eqn:ES; cbn [mbind option_bind with_context result_bind].
  2:{ split; [|done]. split; [by intros (_ & _ & [? ?])|by intros [? ?]]. }
  destruct (last_named_in _ _ _ ES) as [HS EnS]. destruct (Hm' S HS) as [_ Hsig].
  destruct (Hsig EnS) as [[l El] [c Ec]]. unfold signal_of. rewrite El, Ec.
  cbn [mbind option_bind with_context result_bind fst snd]. split; [by split; eauto|].
  intros o [= <-]. cbn [exec_view fd_ident tty namespaces signal_live signal_group_exit_code].
  split_and!; [by exists T|by exists S|reflexivity|reflexivity|reflexivity| |].
  - reflexivity.
  - intros i needed Hi. by apply namespace_support_exact.
Qed.
End Walk.

(** C20: on the encoding of any list of types of the format, of every kind
    and in any order, with the names of the structures in the string section
    and offsets of less than two mebibytes, in either byte order, the reader
    answers with offsets exactly when a [task_struct] and a [signal_struct] are
    there and each has the members required of it.  The offsets are then those
    of the structures: each required member in bytes, each optional table when
    all of it is there, and the namespace tables with a support bit exactly
    where everything a slot needs was found. *)
Theorem btf_reader_correct off le types strs :
  Forall (ktype_wf off) types -> Forall (named_in strs off) types ->
  in_u 32 (len (section_bytes off le types)) -> in_u 32 (len strs) ->
  exists r, parse_task_offsets (encode off le types strs) = Some r /\
    (complete (structs types) <-> exists o, r = Ok o) /\
    forall o, r = Ok o -> offsets_of (structs types) o.
Proof.
  intros Hw Hn Ht Hs. rewrite section_raw in Ht. rewrite encode_raw.
  rewrite parse_encoded; [|apply Forall_fmap; eapply Forall_impl; [exact Hw|apply raw_type_wf]|done|done].
  change walk_start with (walked strs off []).
  destruct (spec_walk_structs strs off le types [] Hw Hn) as [[Hall E]|[Hno [e E]]]; rewrite E;
    cbn [mbind result_bind]; eexists; (split; [done|]).
  2:{ split; [|done]. split; [by intros [? _]|by intros [? ?]]. }
  apply finish_walked; [by apply structs_readable|done].
Qed.
