(* ===== verification/BtfSound.v ===== *)
(** * The BTF reader on any bytes

    What an answer of the reader says about the bytes it was read from: stated
    with the words, strings and records of the bytes alone. *)

From S2P Require Import Prelude Bytes Layout Records Common Utf8 Btf BtfFacts BtfFormat.

Local Open Scope string_scope.
Local Open Scope Z_scope.
Local Open Scope list_scope.

(** ** The bytes *)

(** The four bytes at a position, as a number. *)
Definition word_at (le : bool) (buf : list byte) (pos v : Z) : Prop :=
  0 <= pos /\ exists b0 b1 b2 b3 rest, drop (Z.to_nat pos) buf = b0 :: b1 :: b2 :: b3 :: rest /\
    let u := byte.unsigned in
    v = if le then u b0 + 2 ^ 8 * u b1 + 2 ^ 16 * u b2 + 2 ^ 24 * u b3
        else u b3 + 2 ^ 8 * u b2 + 2 ^ 16 * u b1 + 2 ^ 24 * u b0.

(** The text from a position to the next zero byte or the end. *)
Definition string_at (buf : list byte) (pos : Z) (name : string) : Prop :=
  0 <= pos /\ (NUL ∉ str_bytes name) /\
  exists rest, drop (Z.to_nat pos) buf = str_bytes name ++ rest /\ (rest = [] \/ head rest = Some NUL).

(** How many bytes the format has after the record of a kind. *)
Definition format_skip (kind count : Z) : Z :=
  4 * (match kind with
       | 1 | 14 | 17 => 1
       | 3 => 3
       | 4 | 5 | 15 | 19 => 3 * count
       | 6 | 13 => 2 * count
       | _ => 0
       end).

(** The records from a position on. *)
Inductive record_from (le : bool) (buf : list byte) (base : Z) : Z -> Prop :=
| record_first : record_from le buf base base
| record_next pos info :
    record_from le buf base pos -> word_at le buf (pos + 4) info ->
    record_from le buf base (pos + 12 + format_skip (info / 2 ^ 24 mod 2 ^ 5) (info mod 2 ^ 16)).

(** A record of a structure with its name, size and number of members. *)
Definition struct_at (le : bool) (buf : list byte) (str_base pos : Z) (name : string) (size count : Z) : Prop :=
  exists name_off info, word_at le buf pos name_off /\ string_at buf (str_base + name_off) name /\
    word_at le buf (pos + 4) info /\ info / 2 ^ 24 mod 2 ^ 5 = 4 /\ info mod 2 ^ 16 = count /\
    word_at le buf (pos + 8) size.

(** A member of that name among the [count] at a position, which begins in
    byte [v] of the structure. *)
Definition member_at (le : bool) (buf : list byte) (str_base first count : Z) (field : string) (v : Z) : Prop :=
  exists j name_off raw, 0 <= j < count /\ word_at le buf (first + 12 * j) name_off /\
    string_at buf (str_base + name_off) field /\ word_at le buf (first + 12 * j + 8) raw /\
    v = raw mod 2 ^ 24 / 8.

(** A record of the type section from [base] to [stop] that is a structure of
    that name, in which each of the fields begins where the offsets say, and
    inside the structure. *)
Definition struct_with (le : bool) (buf : list byte) (str_base base stop : Z)
    (name : string) (fields : list string) (offsets : list Z) : Prop :=
  exists pos size count, record_from le buf base pos /\ pos + 12 <= stop /\
    struct_at le buf str_base pos name size count /\
    Forall2 (fun f v => member_at le buf str_base (pos + 12) count f v /\ v < size) fields offsets.

(** ** What the reader reads *)

Lemma combine_cons b l : le_combine (b :: l) = byte.unsigned b + 2 ^ 8 * le_combine l.
Proof.
  change (le_combine (b :: l)) with (Z.lor (byte.unsigned b) (Z.shiftl (le_combine l) 8)).
  pose proof (byte.unsigned_range b) as Hb.
  assert (Hl : Z.land (byte.unsigned b) (Z.shiftl (le_combine l) 8) = 0).
  { apply Z.bits_inj'. intros n Hn. rewrite Z.land_spec, Z.shiftl_spec, Z.bits_0 by lia.
    destruct (Z.lt_ge_cases n 8); [by rewrite (Z.testbit_neg_r _ (n - 8)), andb_false_r by lia|].
    rewrite <- (Z.mod_small (byte.unsigned b) (2 ^ 8)), Z.mod_pow2_bits_high by lia. done. }
  rewrite <- (Z.lxor_lor _ _ Hl), <- (Z.add_nocarry_lxor _ _ Hl), Z.shiftl_mul_pow2 by done. lia.
Qed.

Lemma r_u32_word le buf pos v : r_u32 (mkReader buf le) pos = Ok v -> word_at le buf pos v.
Proof.
  unfold r_u32. cbn [r_buf little_endian]. destruct (slice buf pos 4) as [b|] eqn:E; cbn; [|done]. intros [= <-].
  destruct (slice_inv _ _ _ _ E) as (Hp & Hl & Hb). unfold slice in E.
  rewrite (proj2 (Z.leb_le _ _) Hp), (proj2 (Z.leb_le _ _) Hl) in E. injection E as <-.
  change (Z.to_nat 4) with 4%nat in *. split; [done|]. specialize (Hb ltac:(lia)). unfold len in Hb.
  destruct (drop (Z.to_nat pos) buf) as [|b0 [|b1 [|b2 [|b3 rest]]]]; try discriminate Hb.
  exists b0, b1, b2, b3, rest. split; [done|]. unfold word_of. cbn [take].
  rewrite take_0. change (reverse [b0; b1; b2; b3]) with [b3; b2; b1; b0].
  destruct le; rewrite !combine_cons; change (le_combine []) with 0; lia.
Qed.

Lemma until_nul_end bs : exists rest, bs = until_nul bs ++ rest /\ (rest = [] \/ head rest = Some NUL).
Proof.
  induction bs as [|b bs (rest & E & Hr)]; [by exists []; auto|]. cbn [until_nul]. unfold byte_eqb.
  case_bool_decide as Eb; [subst b; exists (NUL :: bs); auto|]. exists rest. cbn. by rewrite <- E.
Qed.

Lemma until_nul_free bs : NUL ∉ until_nul bs.
Proof.
  induction bs as [|b bs IH]; cbn [until_nul]; [by apply not_elem_of_nil|]. unfold byte_eqb.
  case_bool_decide as Eb; [by apply not_elem_of_nil|]. by apply not_elem_of_cons.
Qed.

Lemma str_at_string le buf str_base off name :
  0 <= str_base + off -> str_at (mkReader buf le) str_base off = Ok name -> string_at buf (str_base + off) name.
Proof.
  intros Hp. unfold str_at. cbn [r_buf]. destruct (len buf <? str_base + off); cbn [bail_if mbind result_bind]; [done|].
  set (t := until_nul _). destruct (utf8_valid t); [|done]. intros [= <-]. unfold string_at.
  rewrite str_bytes_bstr. split_and!; [done|apply until_nul_free|]. apply until_nul_end.
Qed.

Lemma byte_offset_format raw : byte_offset raw = raw mod 2 ^ 24 / 8.
Proof. unfold byte_offset. change 0x00ffffff with (Z.ones 24). by rewrite Z.land_ones by lia. Qed.

Lemma word_nonneg le buf pos v : word_at le buf pos v -> 0 <= v.
Proof.
  intros (_ & b0 & b1 & b2 & b3 & rest & _ & ->). pose proof (byte.unsigned_range b0).
  pose proof (byte.unsigned_range b1). pose proof (byte.unsigned_range b2). pose proof (byte.unsigned_range b3).
  destruct le; lia.
Qed.

Lemma trailing_format kind vlen : 0 <= kind -> trailing_len kind vlen = format_skip kind vlen.
Proof.
  intros Hk. unfold trailing_len, format_skip, BTF_KIND_INT, BTF_KIND_VAR, BTF_KIND_DECL_TAG, BTF_KIND_ARRAY,
    BTF_KIND_STRUCT, BTF_KIND_UNION, BTF_KIND_DATASEC, BTF_KIND_ENUM, BTF_KIND_FUNC_PROTO, BTF_KIND_ENUM64.
  destruct kind as [|p|p]; [reflexivity| |lia].
  do 5 (destruct p as [p|p|]; try (cbn; lia)).
Qed.

(** ** Members *)

Section Read.
Context (le : bool) (buf : list byte) (str_base : Z) (Hbase : 0 <= str_base).
Local Abbreviation r := (mkReader buf le).
Local Abbreviation member_at := (member_at le buf str_base).

Lemma read_string name_off name m :
  r_u32 r m = Ok name_off -> str_at r str_base name_off = Ok name -> string_at buf (str_base + name_off) name.
Proof. intros Hw%r_u32_word%word_nonneg. apply str_at_string. lia. Qed.

Lemma member_first m n name_off raw f :
  r_u32 r m = Ok name_off -> str_at r str_base name_off = Ok f -> r_u32 r (m + 8) = Ok raw ->
  member_at m (Z.of_nat (S n)) f (byte_offset raw).
Proof.
  intros Hn Hs Hr. exists 0, name_off, raw. rewrite !Z.mul_0_r, !Z.add_0_r, byte_offset_format.
  split_and!; [lia|lia|by apply r_u32_word|by eapply read_string|by apply r_u32_word|done].
Qed.

Lemma member_later m n f v : member_at (m + 12) (Z.of_nat n) f v -> member_at m (Z.of_nat (S n)) f v.
Proof.
  intros (j & name_off & raw & Hj & Hn & Hs & Hr & ->). exists (j + 1), name_off, raw.
  replace (m + 12 * (j + 1)) with (m + 12 + 12 * j) by lia. split_and!; try done; lia.
Qed.

Lemma named_sound n m size f v :
  read_named_member r str_base n m size f = Ok v -> member_at m (Z.of_nat n) f v /\ v < size.
Proof.
  revert m. induction n as [|n IH]; intros m; [done|]. cbn [read_named_member].
  destruct (r_u32 r m) as [name_off|] eqn:En; cbn [mbind result_bind]; [|done].
  destruct (str_at r str_base name_off) as [name|] eqn:Es; cbn [mbind result_bind]; [|done].
  destruct (String.eqb_spec name f) as [->|_].
  - destruct (r_u32 r (m + 8)) as [raw|] eqn:Er; cbn [mbind result_bind]; [|done].
    destruct (Z.leb_spec size (byte_offset raw)); cbn [bail_if mbind result_bind]; [done|].
    intros [= <-]. split; [by eapply member_first|done].
  - intros [H Hlt]%IH. split; [by apply member_later|done].
Qed.

Lemma task_members_sound (P : string -> Z -> Prop) n m found found' :
  (forall f v, member_at m (Z.of_nat n) f v -> P f v) ->
  Forall2 (fun f o => forall v, o = Some v -> P f v) TASK_FIELDS found ->
  task_members r str_base n m found = Ok found' ->
  Forall2 (fun f o => forall v, o = Some v -> P f v) TASK_FIELDS found'.
Proof.
  revert m found. induction n as [|n IH]; intros m found HP Hf; cbn [task_members]; [by intros [= <-]|].
  destruct (r_u32 r m) as [name_off|] eqn:En; cbn [mbind result_bind]; [|done].
  destruct (str_at r str_base name_off) as [name|] eqn:Es; cbn [mbind result_bind]; [|done].
  destruct (r_u32 r (m + 8)) as [raw|] eqn:Er; cbn [mbind result_bind]; [|done].
  apply IH; [by intros f v Hv%member_later; apply HP|].
  clear - HP Hf En Es Er Hbase. induction Hf as [|f o fs os Ho _ IHf]; cbn [zip_with]; constructor; [|done].
  destruct (String.eqb_spec name f) as [->|_]; [|done]. intros v [= <-]. apply HP. by eapply member_first.
Qed.

Lemma required_sound (P : string -> Z -> Prop) names found vs :
  Forall2 (fun f o => forall v, o = Some v -> P f v) names found ->
  required_fields names found = Ok vs -> Forall2 P names vs.
Proof.
  intros Hf. revert vs. induction Hf as [|f o fs os Ho _ IH]; intros vs; cbn [required_fields]; [by intros [= <-]|].
  destruct o as [v|]; cbn [with_context mbind result_bind]; [|done].
  destruct (required_fields fs os) as [vs'|]; cbn [mbind result_bind]; [|done]. intros [= <-].
  constructor; [by apply Ho|by apply IH].
Qed.

Lemma task_sound n m size t :
  read_task_members r str_base n m size = Ok t ->
  Forall2 (fun f v => member_at m (Z.of_nat n) f v /\ v < size) TASK_MEMBERS (task_offsets t).
Proof.
  unfold read_task_members. destruct (task_members _ _ _ _ _) as [found|] eqn:Ef; cbn [mbind result_bind]; [|done].
  assert (Hf : Forall2 (fun f o => forall v, o = Some v -> member_at m (Z.of_nat n) f v) TASK_FIELDS found).
  { eapply task_members_sound; [by intros f v ? | |exact Ef]. by repeat constructor. }
  destruct (required_fields TASK_FIELDS found) as [vs|] eqn:Ev; cbn [mbind result_bind]; [|done].
  apply (required_sound _ _ _ _ Hf) in Ev. destruct (existsb _ vs) eqn:Ex; cbn [bail_if mbind result_bind]; [done|].
  assert (Hlt : Forall (fun v => v < size) vs).
  { apply Forall_forall. intros v Hv%list_elem_of_In. rewrite <- not_true_iff_false, existsb_exists in Ex.
    destruct (Z.lt_ge_cases v size); [done|]. destruct Ex. exists v. split; [done|by apply Z.leb_le]. }
  intros [= <-]. pose proof (Forall2_length _ _ _ Ev) as El.
  do 9 (destruct vs as [|? vs]; [discriminate El|]). destruct vs; [|discriminate El].
  unfold TASK_FIELDS in Ev. clear El Ex Hf Ef.
  repeat match goal with
  | H : Forall2 _ (_ :: _) (_ :: _) |- _ => apply Forall2_cons in H as [? ?]
  | H : Forall _ (_ :: _) |- _ => apply Forall_cons in H as [? ?]
  end. unfold TASK_MEMBERS, task_offsets. cbn. repeat (apply Forall2_cons; split; [by split|]). by constructor.
Qed.

(** ** The walk *)

Context (base stop : Z).
Local Abbreviation struct_with := (struct_with le buf str_base base stop).

Definition walk_sound (w : Walk) : Prop :=
  (forall t, w_task w = Some t -> struct_with "task_struct" TASK_MEMBERS (task_offsets t)) /\
  (forall s, w_signal w = Some s -> struct_with "signal_struct" ["live"; "group_exit_code"] [s.1; s.2]).

Lemma step_sound pos size name n w w' :
  record_from le buf base pos -> pos + 12 <= stop -> struct_at le buf str_base pos name size (Z.of_nat n) ->
  walk_sound w ->
  walk_struct name size (read_named_member r str_base n (pos + 12) size) (member_offset r str_base n (pos + 12))
    (read_task_members r str_base n (pos + 12) size) w = Ok w' ->
  walk_sound w'.
Proof.
  intros Hrec Hstop Hat [Ht Hs]. unfold walk_struct.
  destruct (resolve_ns _ _ _ _ _) as [ns|]; cbn [mbind result_bind]; [|done].
  destruct (String.eqb_spec name "task_struct") as [->|_].
  - destruct (read_task_members _ _ _ _ _) as [t|] eqn:Et; cbn [mbind result_bind]; [|done]. intros [= <-].
    split; cbn [w_task w_signal]; [|done]. intros ? [= <-]. exists pos, size, (Z.of_nat n).
    split_and!; [done|done|done|by apply task_sound].
  - destruct (String.eqb_spec name "signal_struct") as [->|_]; [|by intros [= <-]].
    destruct (read_named_member _ _ _ _ _ "live") as [l|] eqn:El; cbn [mbind result_bind]; [|done].
    destruct (read_named_member _ _ _ _ _ "group_exit_code") as [c|] eqn:Ec; cbn [mbind result_bind]; [|done].
    intros [= <-]. split; cbn [w_task w_signal]; [done|]. intros ? [= <-]. exists pos, size, (Z.of_nat n).
    split_and!; [done|done|done|]. apply named_sound in El, Ec.
    by apply Forall2_cons; split; [|apply Forall2_cons; split; [|apply Forall2_nil]].
Qed.

Lemma walk_types_sound fuel pos w w' :
  record_from le buf base pos -> walk_sound w ->
  walk_types r str_base stop fuel pos w = Some (Ok w') -> walk_sound w'.
Proof.
  revert pos w. induction fuel as [|fuel IH]; intros pos w Hrec Hw; cbn [walk_types];
    destruct (Z.ltb_spec stop (pos + 12)) as [|Hstop]; [by intros [= <-]|done|by intros [= <-]|].
  destruct (r_u32 r pos) as [name_off|] eqn:En; cbn [mbind result_bind]; [|done].
  destruct (r_u32 r (pos + 4)) as [info|] eqn:Ei; cbn [mbind result_bind]; [|done].
  pose proof (r_u32_word _ _ _ _ Ei) as Hi. pose proof (word_nonneg _ _ _ _ Hi) as H0.
  change 0xffff with (Z.ones 16). change 0x1f with (Z.ones 5).
  rewrite !Z.land_ones, Z.shiftr_div_pow2, trailing_format by (try apply Z.mod_pos_bound; lia).
  pose proof (Z.mod_pos_bound info (2 ^ 16) eq_refl) as Hv.
  match goal with |- match ?step with _ => _ end = _ -> _ => destruct step as [w1|] eqn:Es end; [|done].
  apply IH; [by apply record_next|]. destruct (Z.eqb_spec (info / 2 ^ 24 mod 2 ^ 5) BTF_KIND_STRUCT) as [Ek|_];
    cbn [andb] in Es; [|by injection Es as <-].
  destruct (0 <? info mod 2 ^ 16); [|by injection Es as <-].
  destruct (str_at r str_base name_off) as [name|] eqn:Esn; cbn [mbind result_bind] in Es; [|done].
  destruct (r_u32 r (pos + 8)) as [size|] eqn:Ez; cbn [mbind result_bind] in Es; [|done].
  eapply step_sound; [exact Hrec|exact Hstop| |exact Hw|exact Es].
  exists name_off, info. rewrite Z2Nat.id by lia.
  split_and!; [by apply r_u32_word|by eapply read_string|done|done|done|by apply r_u32_word].
Qed.
End Read.

Lemma two_bytes a b v w :
  le_combine [a; b] = byte.unsigned v + 2 ^ 8 * byte.unsigned w -> a = v /\ b = w.
Proof.
  rewrite !combine_cons. change (le_combine []) with 0. pose proof (byte.unsigned_range a).
  pose proof (byte.unsigned_range b). pose proof (byte.unsigned_range v). pose proof (byte.unsigned_range w).
  intros E. rewrite <- (byte.of_Z_unsigned a), <- (byte.of_Z_unsigned b), <- (byte.of_Z_unsigned v),
    <- (byte.of_Z_unsigned w). split; f_equal; lia.
Qed.

Lemma magic_sound buf :
  24 <= len buf ->
  match (if le_combine (take 2 buf) =? BTF_MAGIC then Some true
         else if le_combine (reverse (take 2 buf)) =? BTF_MAGIC then Some false else None) with
  | Some le => take 2 buf = if le then [Byte.x9f; Byte.xeb] else [Byte.xeb; Byte.x9f]
  | None => True
  end.
Proof.
  intros Hl. destruct buf as [|a [|b buf]]; [by unfold len in Hl..|]. cbn [take]. rewrite take_0.
  change (reverse [a; b]) with [b; a].
  destruct (Z.eqb_spec (le_combine [a; b]) BTF_MAGIC) as [E|_].
  - by destruct (two_bytes a b Byte.x9f Byte.xeb E) as [-> ->].
  - destruct (Z.eqb_spec (le_combine [b; a]) BTF_MAGIC) as [E|_]; [|done].
    by destruct (two_bytes b a Byte.x9f Byte.xeb E) as [-> ->].
Qed.

