(* ===== verification/Loader.v ===== *)
(** * Loader (bloodhound/src/loader.rs, cli.rs, ready.rs)

    Attaching the programs, the report of what was attached, and the two
    suppression bitmaps.  The kernel and the aya library are parameters: for
    every program and target, the error an attempt to load and attach it ends
    with, and for every program whether it detaches. *)

From S2P Require Import Prelude Layout Records Common Json Event Bpf Raw Btf.

Local Open Scope string_scope.
Local Open Scope Z_scope.
Local Open Scope list_scope.

(** ** Options (cli.rs) *)

Record Cli : Type := mkCli {
  uid : Z; enable_lsm : bool; ring_buffer_size : Z; enable_rich_sendfile : bool }.

(** [u32::is_power_of_two]: exactly one bit is set. *)
Definition is_power_of_two (n : Z) : bool :=
  (List.length (List.filter (Z.testbit n) (Z.of_nat <$> seq 0 32)) =? 1)%nat.

Definition validate_ring_buffer_size (size page_size : Z) : result unit :=
  if is_power_of_two size && (page_size <=? size) then Ok tt
  else Err "invalid --ring-buffer-size".

(** ** Globals *)

(** The globals set before the programs are loaded: a table that was not
    resolved is zero and marked unsupported. *)
Definition loader_globals (args : Cli) (daemon_pid : Z) (offsets : TaskStructOffsets) : Globals :=
  let table n (o : option (list Z)) := default (replicate n 0) o in
  let supported (o : option (list Z)) := match o with Some _ => 1 | None => 0 end in
  mkGlobals (uid args) daemon_pid (loginuid offsets) (sessionid offsets) (tgid offsets) (pid offsets)
    (group_leader offsets) (start_boottime offsets) (signal offsets) (exit_code offsets) (comm offsets)
    (signal_live offsets) (signal_group_exit_code offsets)
    (table 14%nat (exec_view offsets)) (supported (exec_view offsets))
    (table 8%nat (fd_ident offsets)) (supported (fd_ident offsets))
    (table 3%nat (tty offsets)) (supported (tty offsets))
    (ns_offsets (namespaces offsets)) (ns_supported (namespaces offsets)).

(** ** The report *)

Record AttachReport : Type := mkReport { probes : Z; keys : gmap string bool }.
Definition report_default : AttachReport := mkReport 0 ∅.

Definition insert_key (key : string) (v : bool) (r : AttachReport) : AttachReport :=
  mkReport (probes r) (<[key := v]> (keys r)).

Definition record_tty_attach (key : string) (attached : bool) (tty_offsets : option (list Z))
    (r : AttachReport) : AttachReport :=
  insert_key key (attached && bool_decide (is_Some tty_offsets)) r.

(** ** The backend *)

(** What is attached, in the order of attachment, and the report so far. *)
Record Loader : Type := mkLoader { attached : list string; report : AttachReport }.

(** Loading and attaching, [anyhow::Result] over the loader state. *)
Definition LM (A : Type) : Type := Loader -> result A * Loader.

#[export] Instance LM_ret : MRet LM := fun A a s => (Ok a, s).
#[export] Instance LM_bind : MBind LM := fun A B f m s =>
  match m s with
  | (Ok a, s1) => f a s1
  | (Err e, s1) => (Err e, s1)
  end.

(** [.with_context(|| msg)] and [.context(msg)] *)
Definition contextual {A} (msg : string) (m : LM A) : LM A := fun s =>
  match m s with
  | (Err _, s1) => (Err msg, s1)
  | r => r
  end.

Definition update_report (f : AttachReport -> AttachReport) : LM unit := fun s =>
  (Ok tt, mkLoader (attached s) (f (report s))).

Definition get_report : LM AttachReport := fun s => (Ok (report s), s).

(** The result of a computation as a value. *)
Definition result_of {A} (m : LM A) : LM (result A) := fun s => let '(r, s1) := m s in (Ok r, s1).

Definition throw {A} (r : result A) : LM A := fun s => (r, s).

(** [attach_pair], with the backend inside the state. *)
Definition attach_pair {L} (attach_exit : LM L) (attach_enter : LM unit) (detach_exit : L -> LM unit)
    : LM unit :=
  exit_link ← attach_exit;
  r ← result_of attach_enter;
  match r with
  | Ok _ => mret tt
  | Err error =>
      _ ← contextual "rolling back exit hook after enter attachment failed" (detach_exit exit_link);
      _ ← update_report (fun r => mkReport (probes r - 1) (keys r));
      throw (Err error)
  end.

Definition required (key : string) (attach : LM unit) : LM unit :=
  _ ← contextual ("required collector " +:+ key) attach;
  update_report (insert_key key true).

Section Kernel.
(** The error of loading and attaching a program to a target, and whether a
    program detaches. *)
Context (attach_error : string -> string -> option string) (detaches : string -> bool).

(** [load], [attach] and [report.probes += 1], the body of [attach_tracepoint],
    [attach_raw_tracepoint], [attach_kprobe] and [attach_lsm]; the link names
    its program. *)
Definition attach_program (prog_name target : string) : LM string := fun s =>
  match attach_error prog_name target with
  | Some e => (Err e, s)
  | None => (Ok prog_name, mkLoader (attached s ++ [prog_name])
               (mkReport (probes (report s) + 1) (keys (report s))))
  end.

Definition attach_tracepoint (prog_name category name : string) : LM string :=
  attach_program prog_name (category +:+ "/" +:+ name).
Definition attach_raw_tracepoint (prog_name name : string) : LM unit :=
  _ ← attach_program prog_name name; mret tt.
Definition attach_kprobe (prog_name fn_name : string) : LM string := attach_program prog_name fn_name.
Definition attach_lsm (prog_name hook_name : string) : LM unit :=
  _ ← attach_program prog_name hook_name; mret tt.

(** [program.detach(link)?] *)
Definition detach (link : string) : LM unit := fun s =>
  if detaches link then
    (Ok tt, mkLoader (List.filter (fun p => negb (String.eqb p link)) (attached s)) (report s))
  else (Err "detach", s).

Definition attach_tracepoint_pair (category : string) (enter exit : string * string) : LM unit :=
  attach_pair (attach_tracepoint exit.1 category exit.2)
    (_ ← attach_tracepoint enter.1 category enter.2; mret tt) detach.

Definition attach_syscall_pair (name tracepoint_name : string) : LM unit :=
  attach_tracepoint_pair "syscalls"
    ("sys_enter_" +:+ name, "sys_enter_" +:+ tracepoint_name)
    ("sys_exit_" +:+ name, "sys_exit_" +:+ tracepoint_name).

Definition try_attach_syscall_pair (name tracepoint_name key : string) : LM bool :=
  r ← result_of (attach_syscall_pair name tracepoint_name);
  let complete := match r with Ok _ => true | Err _ => false end in
  _ ← update_report (insert_key key complete);
  mret complete.

Definition attach_tty_read_pair (tty_offsets : option (list Z)) : LM unit :=
  r ← result_of (attach_pair (attach_kprobe "tty_read_ret_probe" "n_tty_read")
    (_ ← attach_kprobe "tty_read_probe" "n_tty_read"; mret tt) detach);
  let ok := match r with Ok _ => true | Err _ => false end in
  _ ← update_report (record_tty_attach "tty.read_ret" ok tty_offsets);
  _ ← update_report (record_tty_attach "tty.read" ok tty_offsets);
  throw r.

Definition try_attach_kprobe (prog_name fn_name : string) : LM bool :=
  r ← result_of (attach_kprobe prog_name fn_name);
  mret (match r with Ok _ => true | Err _ => false end).

(** ** The bitmaps *)

(** [Array::set(nr, 1, 0)]: out of range is an error of the map. *)
Definition bitmap_insert (nr : Z) (bitmap : list Z) : result (list Z) :=
  if (0 <=? nr) && (nr <? len bitmap) then Ok (<[Z.to_nat nr := 1]> bitmap) else Err "out of bounds".

Fixpoint bitmap_insert_all (nrs : list Z) (bitmap : list Z) : result (list Z) :=
  match nrs with
  | [] => Ok bitmap
  | nr :: nrs => bitmap ← bitmap_insert nr bitmap; bitmap_insert_all nrs bitmap
  end.

Definition populate_exclusion_bitmap (bitmap : list Z) : result (list Z) :=
  bitmap_insert_all (List.filter (fun nr => wrap 32 nr <? BITMAP_SIZE) EXCLUDED_SYSCALLS) bitmap.

Definition dedup_syscalls (r : AttachReport) : list Z :=
  (t2_nr <$> List.filter (fun t => bool_decide (keys r !! ("tier2." +:+ t2_name t) = Some true))
     (List.filter (fun t => negb (bool_decide (t2_dedup t = Dedup_NoDedup))) TIER2)) ++
  (List.filter (fun p => bool_decide (keys r !! p.2 = Some true)) EXEC_DEDUP).*1.

(** ** Startup *)

Definition selected_tier2 (args : Cli) : list Tier2 :=
  List.filter (fun t => negb (bool_decide (t2_dedup t = Dedup_OptIn)) || enable_rich_sendfile args) TIER2.

Fixpoint attach_tier2 (syscalls : list Tier2) : LM unit :=
  match syscalls with
  | [] => mret tt
  | t :: syscalls =>
      _ ← try_attach_syscall_pair (t2_name t) (t2_tracepoint t) ("tier2." +:+ t2_name t);
      attach_tier2 syscalls
  end.

Definition lsm_hooks : list (string * string) :=
  [("task_kill", "task_kill"); ("bpf_hook", "bpf"); ("ptrace_access_check", "ptrace_access_check");
   ("file_open", "file_open"); ("inode_unlink", "inode_unlink"); ("inode_rename", "inode_rename");
   ("task_fix_setuid", "task_fix_setuid")].

(** [btf]: whether the kernel's type information could be read. *)
Fixpoint attach_lsm_hooks (btf : bool) (hooks : list (string * string)) : LM unit :=
  match hooks with
  | [] => mret tt
  | (prog_name, hook_name) :: hooks =>
      r ← result_of (if btf then attach_lsm prog_name hook_name else throw (Err "LSM BTF unavailable"));
      _ ← update_report (insert_key ("lsm." +:+ hook_name) (match r with Ok _ => true | Err _ => false end));
      attach_lsm_hooks btf hooks
  end.

(** The collectors that come before the Tier 2 bitmap, in order. *)
Definition attach_layers (args : Cli) : LM unit :=
  _ ← required "lifecycle"
        (_ ← attach_raw_tracepoint "sched_process_free" "sched_process_free";
         _ ← attach_raw_tracepoint "sched_process_fork" "sched_process_fork";
         attach_raw_tracepoint "sched_process_exit" "sched_process_exit");
  _ ← required "signal" (attach_raw_tracepoint "signal_generate" "signal_generate");
  _ ← required "exec.execve" (attach_syscall_pair "execve" "execve");
  _ ← try_attach_syscall_pair "execveat" "execveat" "exec.execveat";
  _ ← required "raw_syscalls"
        (attach_tracepoint_pair "raw_syscalls" ("raw_sys_enter", "sys_enter") ("raw_sys_exit", "sys_exit"));
  attach_tier2 (selected_tier2 args).

(** [load_and_attach] from the created maps on, up to the USDT selections:
    the exclusion bitmap, the collectors in order, the Tier 2 bitmap. *)
Definition load_and_attach (args : Cli) (actual_size : Z) (tty_offsets : option (list Z)) (btf : bool)
    : LM (list Z * list Z) :=
  if negb (actual_size =? ring_buffer_size args)
  then throw (Err "EVENTS ring buffer size mismatch") else
  exclusion ← throw (populate_exclusion_bitmap (replicate (Z.to_nat BITMAP_SIZE) 0));
  _ ← attach_layers args;
  r ← get_report;
  tier2 ← throw (bitmap_insert_all (dedup_syscalls r) (replicate (Z.to_nat BITMAP_SIZE) 0));
  ok ← try_attach_kprobe "tty_write_probe" "pty_write";
  _ ← update_report (record_tty_attach "tty.write" ok tty_offsets);
  _ ← result_of (attach_tty_read_pair tty_offsets);
  _ ← (if enable_lsm args then attach_lsm_hooks btf lsm_hooks else mret tt);
  mret (exclusion, tier2).
End Kernel.

(** ** Readiness (ready.rs) *)

Record StartupFacts : Type := mkFacts {
  boot_id : string; f_auid : Z; f_daemon_pid : Z; f_heartbeat_interval_ms : Z }.

Definition ready_event (now : Z) (r : AttachReport) (ring_size : Z) (nsfs_dev : option Z)
    (facts : StartupFacts) : BehaviorEvent :=
  mkEvent (mkHeader now 0 0 0 None "" None None None)
    (mkEventType "META" "bloodhound_ready" "behavior") None
    (Some (obj [("probes_attached", JNum (probes r));
                ("attached", obj ((fun '(k, v) => (k, JBool v)) <$> map_to_list (keys r)));
                ("boot_id", JStr (boot_id facts)); ("auid", JNum (f_auid facts));
                ("excluded", JArr [JNum (f_daemon_pid facts)]);
                ("heartbeat_interval_ms", JNum (f_heartbeat_interval_ms facts));
                ("ring_buffer_size", JNum ring_size);
                ("nsfs_dev", match nsfs_dev with Some d => JNum d | None => JNull end)])) None.
