(* ===== verification/LoaderFacts.v ===== *)
(** * What the loader guarantees

    The programs a startup attaches, the keys it reports and the syscalls it
    suppresses from raw capture, as functions of what the kernel accepts. *)

From S2P Require Import Prelude Layout Records Common Json Event Bpf Raw Loader.

Local Open Scope string_scope.
Local Open Scope Z_scope.
Local Open Scope list_scope.

(** ** Sizes *)

Lemma filter_single {A} (f : A -> bool) (l : list A) :
  length (List.filter f l) = 1%nat -> NoDup l ->
  exists x, x ∈ l /\ forall y, y ∈ l -> f y = true <-> y = x.
Proof.
  induction l as [|a l IH]; [done|]. cbn. intros Hl [Ha Hn]%NoDup_cons.
  destruct (f a) eqn:Ea.
  - exists a. split; [by left|]. cbn in Hl. injection Hl as Hl. apply nil_length_inv in Hl.
    intros y Hy. apply elem_of_cons in Hy as [->|Hy]; [by split|]. split; [|by intros ->].
    intros Hf. assert (Hin : List.In y (List.filter f l)) by (apply filter_In; split; [by apply list_elem_of_In|done]).
    by rewrite Hl in Hin.
  - destruct (IH Hl Hn) as (x & Hx & Hf). exists x. split; [by right|]. intros y Hy.
    apply elem_of_cons in Hy as [->|Hy]; [|by apply Hf].
    rewrite Ea. split; [done|]. by intros ->.
Qed.

Lemma power_of_two_spec n : 0 <= n < 2 ^ 32 ->
  is_power_of_two n = true <-> exists k, 0 <= k < 32 /\ n = 2 ^ k.
Proof.
  intros Hn. unfold is_power_of_two. rewrite Nat.eqb_eq. split.
  - intros Hl. apply filter_single in Hl as (k & Hk & Hf);
      [|apply (NoDup_fmap_2 _), NoDup_seq].
    apply list_elem_of_fmap in Hk as (i & -> & Hi%elem_of_seq). exists (Z.of_nat i). split; [lia|].
    apply Z.bits_inj'. intros j Hj. rewrite Z.pow2_bits_eqb by lia.
    destruct (decide (j < 32)) as [Hlt|Hge].
    + assert (Hin : j ∈ Z.of_nat <$> seq 0 32).
      { apply list_elem_of_fmap. exists (Z.to_nat j). split; [lia|]. apply elem_of_seq. lia. }
      specialize (Hf j Hin). rewrite Z.eqb_sym. destruct (Z.testbit n j) eqn:E;
        destruct (Z.eqb_spec j (Z.of_nat i)); intuition congruence.
    + destruct (Z.eqb_spec (Z.of_nat i) j); [lia|]. apply (Z.bits_above_log2 n); [lia|].
      destruct (decide (n = 0)) as [->|]; [cbn; lia|]. apply Z.log2_lt_pow2; [lia|].
      assert (2 ^ 32 <= 2 ^ j) by (apply Z.pow_le_mono_r; lia). lia.
  - intros (k & Hk & ->).
    assert (E : forall m, (m <= 32)%nat ->
      length (List.filter (Z.testbit (2 ^ k)) (Z.of_nat <$> seq 0 m)) = if decide (k < Z.of_nat m) then 1%nat else 0%nat).
    { induction m as [|m IH]; intros Hm; [cbn; destruct (decide _); lia|].
      rewrite seq_S, fmap_app, List.filter_app, length_app, IH by lia. cbn.
      rewrite Z.pow2_bits_eqb by lia.
      destruct (Z.eqb_spec k (Z.of_nat m)); repeat destruct (decide _); cbn; lia. }
    rewrite E by lia. rewrite decide_True by lia. done.
Qed.

(** A ring buffer size passes validation exactly when it is a power
    of two that is at least the page size; zero, odd and fractional sizes do
    not. *)
Theorem ring_size_valid_iff size page_size : 0 <= size < 2 ^ 32 ->
  validate_ring_buffer_size size page_size = Ok tt <->
  page_size <= size /\ exists k, 0 <= k < 32 /\ size = 2 ^ k.
Proof.
  intros Hs. unfold validate_ring_buffer_size. pose proof (power_of_two_spec size Hs) as Hp.
  destruct (is_power_of_two size), (Z.leb_spec page_size size); cbn; intuition (discriminate || lia).
Qed.

(** ** Pairs *)

Section Kernel.
Context (attach_error : string -> string -> option string) (detaches : string -> bool).

(** A program and its target. *)
Abbreviation target := (string * string)%type.

Definition attachable (p : target) : bool := negb (bool_decide (is_Some (attach_error p.1 p.2))).

(** Both programs of a pair attach. *)
Definition complete (enter exit : target) : bool := attachable exit && attachable enter.

(** What a pair leaves attached: the exit program first. *)
Definition contribution (enter exit : target) : list string :=
  if attachable exit then
    if attachable enter then [exit.1; enter.1] else if detaches exit.1 then [] else [exit.1]
  else [].

Definition add (progs : list string) (s : Loader) : Loader :=
  mkLoader (attached s ++ progs) (mkReport (probes (report s) + len progs) (keys (report s))).

Lemma add_nil s : add [] s = s.
Proof. destruct s as [a [n k]]. unfold add. cbn. rewrite app_nil_r. by rewrite Z.add_0_r. Qed.

Lemma add_add l l' s : add l' (add l s) = add (l ++ l') s.
Proof. unfold add, len. cbn. rewrite <- app_assoc, length_app. do 2 f_equal. lia. Qed.

Lemma attach_program_spec p s :
  attach_program attach_error p.1 p.2 s =
  match attach_error p.1 p.2 with
  | Some e => (Err e, s)
  | None => (Ok p.1, add [p.1] s)
  end.
Proof. done. Qed.

Lemma filter_added x l : x ∉ l -> List.filter (fun p => negb (String.eqb p x)) (l ++ [x]) = l.
Proof.
  intros Hx. rewrite List.filter_app. cbn. rewrite String.eqb_refl. cbn. rewrite app_nil_r.
  induction l as [|y l IH]; [done|]. apply not_elem_of_cons in Hx as [Hy Hl]. cbn.
  rewrite (proj2 (String.eqb_neq y x)) by done. cbn. by rewrite IH.
Qed.

(** The pair is all or nothing: on failure the exit program is detached again,
    unless the kernel refuses that too. *)
Lemma pair_spec enter exit s :
  exit.1 ∉ attached s ->
  exists r, attach_pair (attach_program attach_error exit.1 exit.2)
      (_ ← attach_program attach_error enter.1 enter.2; mret tt) (detach detaches) s =
    (r, add (contribution enter exit) s) /\ is_ok r = complete enter exit.
Proof.
  intros Hx. unfold attach_pair, contribution, complete, attachable. unfold mbind, LM_bind at 1.
  rewrite attach_program_spec. destruct (attach_error exit.1 exit.2) as [e|] eqn:E1.
  { rewrite bool_decide_true by done. exists (Err e). by rewrite add_nil. }
  rewrite bool_decide_false by (by intros [? ?]). unfold LM_bind, result_of. cbn [negb andb].
  rewrite attach_program_spec. destruct (attach_error enter.1 enter.2) as [e|] eqn:E2.
  - rewrite bool_decide_true by done. cbn -[add]. unfold contextual, detach.
    destruct (detaches exit.1); [|by eexists (Err _)].
    exists (Err e). split; [|done]. unfold update_report, throw, add. cbn.
    rewrite filter_added by done. rewrite app_nil_r. do 3 f_equal. unfold len. cbn. lia.
  - rewrite bool_decide_false by (by intros [? ?]). eexists. cbn -[add]. rewrite add_add. done.
Qed.

(** *** Keys *)

Definition set_key (key : string) (v : bool) (s : Loader) : Loader :=
  mkLoader (attached s) (insert_key key v (report s)).

(** The programs and targets of a syscall's pair. *)
Definition enter_of (name tracepoint : string) : target :=
  ("sys_enter_" +:+ name, "syscalls" +:+ "/" +:+ "sys_enter_" +:+ tracepoint).
Definition exit_of (name tracepoint : string) : target :=
  ("sys_exit_" +:+ name, "syscalls" +:+ "/" +:+ "sys_exit_" +:+ tracepoint).

Definition syscall_complete (name tracepoint : string) : bool :=
  complete (enter_of name tracepoint) (exit_of name tracepoint).
Definition syscall_contribution (name tracepoint : string) : list string :=
  contribution (enter_of name tracepoint) (exit_of name tracepoint).

Lemma try_pair_spec name tp key s :
  "sys_exit_" +:+ name ∉ attached s ->
  try_attach_syscall_pair attach_error detaches name tp key s =
  (Ok (syscall_complete name tp),
   set_key key (syscall_complete name tp) (add (syscall_contribution name tp) s)).
Proof.
  intros Hx. unfold try_attach_syscall_pair, attach_syscall_pair, attach_tracepoint_pair,
    attach_tracepoint. unfold mbind at 1, LM_bind at 1, result_of.
  destruct (pair_spec (enter_of name tp) (exit_of name tp) s Hx) as (r & E & Hr).
  cbn [fst snd enter_of exit_of] in E |- *. rewrite E.
  unfold syscall_complete. rewrite <- Hr. by destruct r.
Qed.

(** *** All Tier 2 pairs *)

Definition t2_complete (t : Tier2) : bool := syscall_complete (t2_name t) (t2_tracepoint t).
Definition t2_contribution (t : Tier2) : list string :=
  syscall_contribution (t2_name t) (t2_tracepoint t).
Definition t2_key (t : Tier2) : string := "tier2." +:+ t2_name t.

Definition t2_keys (l : list Tier2) (k : gmap string bool) : gmap string bool :=
  foldl (fun k t => <[t2_key t := t2_complete t]> k) k l.

Lemma contribution_subset enter exit x : x ∈ contribution enter exit -> x = exit.1 \/ x = enter.1.
Proof.
  unfold contribution. destruct (attachable exit), (attachable enter); try destruct (detaches exit.1);
    rewrite ?elem_of_cons, ?elem_of_nil; tauto.
Qed.

Lemma exit_not_contributed name t :
  name <> t2_name t -> "sys_exit_" +:+ name ∉ t2_contribution t.
Proof.
  intros Hn Hin. apply contribution_subset in Hin as [E|E]; cbn in E; [|done].
  apply Hn. by repeat injection E as E.
Qed.

Lemma attach_tier2_spec l s :
  NoDup (t2_name <$> l) -> (forall t, t ∈ l -> "sys_exit_" +:+ t2_name t ∉ attached s) ->
  attach_tier2 attach_error detaches l s =
  (Ok tt, mkLoader (attached s ++ concat (t2_contribution <$> l))
     (mkReport (probes (report s) + len (concat (t2_contribution <$> l))) (t2_keys l (keys (report s))))).
Proof.
  revert s. induction l as [|t l IH]; intros s Hn Hx.
  { cbn. destruct s as [a [p k]]. cbn. rewrite app_nil_r. by rewrite Z.add_0_r. }
  cbn [fmap list_fmap] in Hn. apply NoDup_cons in Hn as [Ht Hn].
  cbn [attach_tier2]. unfold mbind, LM_bind.
  rewrite try_pair_spec by (apply Hx; by left). rewrite IH; [|done|].
  - cbn. unfold len. rewrite <- app_assoc, length_app. do 3 f_equal. unfold t2_contribution. lia.
  - intros t' Ht'. cbn. rewrite not_elem_of_app. split; [apply Hx; by right|].
    apply exit_not_contributed. intros E. apply Ht. rewrite <- E. by apply list_elem_of_fmap_2.
Qed.

(** *** Reading a successful startup backwards *)

Lemma lbind_inv {A B} (m : LM A) (f : A -> LM B) s b s' :
  (m ≫= f) s = (Ok b, s') -> exists a s1, m s = (Ok a, s1) /\ f a s1 = (Ok b, s').
Proof. unfold mbind, LM_bind. destruct (m s) as [[a|e] s1]; [by eexists _, _|done]. Qed.

Lemma throw_inv {A} (r : result A) s a s' : throw r s = (Ok a, s') -> r = Ok a /\ s' = s.
Proof. unfold throw. by intros [= -> ->]. Qed.

Lemma required_inv key m s u s' :
  required key m s = (Ok u, s') -> exists u' s1, m s = (Ok u', s1) /\ s' = set_key key true s1.
Proof.
  unfold required. intros H. apply lbind_inv in H as (a & s1 & Hm & H). unfold contextual in Hm.
  destruct (m s) as [[u'|e] s2]; [|done]. injection Hm as <- <-. exists u', s2. split; [done|].
  by injection H as <- <-.
Qed.

Lemma raw_inv prog tgt s u s' :
  attach_raw_tracepoint attach_error prog tgt s = (Ok u, s') ->
  attachable (prog, tgt) = true /\ s' = add [prog] s.
Proof.
  unfold attach_raw_tracepoint. intros H. apply lbind_inv in H as (a & s1 & Hm & H).
  rewrite (attach_program_spec (prog, tgt)) in Hm. cbn in Hm. unfold attachable. cbn.
  destruct (attach_error prog tgt); [done|]. injection Hm as <- <-. injection H as <- <-.
  rewrite bool_decide_false; [done|by intros [? ?]].
Qed.

Lemma pair_inv enter exit s u s' :
  exit.1 ∉ attached s ->
  attach_pair (attach_program attach_error exit.1 exit.2)
    (_ ← attach_program attach_error enter.1 enter.2; mret tt) (detach detaches) s = (Ok u, s') ->
  complete enter exit = true /\ s' = add [exit.1; enter.1] s.
Proof.
  intros Hx H. destruct (pair_spec enter exit s Hx) as (r & E & Hr). rewrite E in H.
  injection H as -> <-. cbn in Hr. symmetry in Hr. split; [done|].
  unfold complete in Hr. apply andb_true_iff in Hr as [H1 H2]. unfold contribution. by rewrite H1, H2.
Qed.
End Kernel.

(** The programs that a successful startup has always attached, by collector. *)
Definition base_programs : list string :=
  ["sched_process_free"; "sched_process_fork"; "sched_process_exit"; "signal_generate";
   "sys_exit_execve"; "sys_enter_execve"].

Section Startup.
Context (attach_error : string -> string -> option string) (detaches : string -> bool).

Definition tier2_programs (args : Cli) : list string :=
  concat (t2_contribution attach_error detaches <$> selected_tier2 args).

Definition execveat_programs : list string :=
  syscall_contribution attach_error detaches "execveat" "execveat".

(** The state when the Tier 2 bitmap is computed. *)
Definition rich_attached (args : Cli) (s : Loader) : Prop :=
  attached s = base_programs ++ execveat_programs ++ ["raw_sys_exit"; "raw_sys_enter"] ++
               tier2_programs args /\
  probes (report s) = len (attached s) /\
  keys (report s) = t2_keys attach_error (selected_tier2 args)
    (<["raw_syscalls" := true]> (<["exec.execveat" := syscall_complete attach_error "execveat" "execveat"]>
      (<["exec.execve" := true]> (<["signal" := true]> (<["lifecycle" := true]> ∅))))).

Lemma selected_nodup args : NoDup (t2_name <$> selected_tier2 args).
Proof.
  unfold selected_tier2. apply (bool_decide_unpack _). destruct (enable_rich_sendfile args); vm_compute; exact I.
Qed.

(** A concrete name that is not among concrete names. *)
Local Ltac absent := apply (bool_decide_unpack _); vm_compute; exact I.

Lemma not_contributed name tp x :
  x <> "sys_exit_" +:+ name -> x <> "sys_enter_" +:+ name ->
  x ∉ syscall_contribution attach_error detaches name tp.
Proof. intros H1 H2 H. by apply contribution_subset in H as [->| ->]. Qed.

Lemma selected_in args t : t ∈ selected_tier2 args -> t ∈ TIER2.
Proof. unfold selected_tier2. rewrite !list_elem_of_In, filter_In. tauto. Qed.

Definition early_programs : list string :=
  base_programs ++ ["sys_exit_execveat"; "sys_enter_execveat"; "raw_sys_exit"; "raw_sys_enter"].

Lemma tier2_names_apart t : t ∈ TIER2 ->
  (("sys_exit_" +:+ t2_name t) ∉ early_programs) /\ (("sys_enter_" +:+ t2_name t) ∉ early_programs).
Proof.
  revert t. apply Forall_forall. apply (bool_decide_unpack _). vm_compute. exact I.
Qed.

Lemma rich_phase args s :
  attach_layers attach_error detaches args (mkLoader [] report_default) =
  (Ok tt, s) -> rich_attached args s.
Proof.
  intros H. unfold attach_layers in H.
  apply lbind_inv in H as (? & s1 & H1 & H). apply required_inv in H1 as (? & s1' & H1 & ->).
  apply lbind_inv in H1 as (? & sa & Ha & H1). apply raw_inv in Ha as [_ ->].
  apply lbind_inv in H1 as (? & sb & Hb & H1). apply raw_inv in Hb as [_ ->].
  apply raw_inv in H1 as [_ ->]. rewrite !add_add in H. cbn [app] in H.
  apply lbind_inv in H as (? & s2 & H2 & H). apply required_inv in H2 as (? & s2' & H2 & ->).
  apply raw_inv in H2 as [_ ->].
  apply lbind_inv in H as (? & s3 & H3 & H). apply required_inv in H3 as (? & s3' & H3 & ->).
  apply (pair_inv attach_error detaches (enter_of "execve" "execve") (exit_of "execve" "execve"))
    in H3 as [_ ->]; [|absent].
  apply lbind_inv in H as (? & s4 & H4 & H).
  rewrite try_pair_spec in H4 by absent.
  injection H4 as <- <-.
  apply lbind_inv in H as (? & s5 & H5 & H). apply required_inv in H5 as (? & s5' & H5 & ->).
  apply (pair_inv attach_error detaches ("raw_sys_enter", "raw_syscalls" +:+ "/" +:+ "sys_enter")
    ("raw_sys_exit", "raw_syscalls" +:+ "/" +:+ "sys_exit")) in H5 as [_ ->].
  2:{ cbn [attached set_key add]. rewrite not_elem_of_app. split; [absent|by apply not_contributed]. }
  rewrite attach_tier2_spec in H; [|apply selected_nodup|].
  2:{ intros t Ht. apply selected_in, tier2_names_apart in Ht as [Ht _].
      cbn [attached set_key add app fst]. unfold early_programs, base_programs in Ht.
      rewrite !not_elem_of_app in *. destruct Ht as [Hb Hr]. cbn in Hb.
      rewrite ?not_elem_of_cons, ?not_elem_of_app, ?not_elem_of_cons in *.
      split_and!; try tauto. apply not_contributed; tauto. }
  apply (f_equal snd) in H. cbn [snd] in H. subst s. unfold rich_attached, tier2_programs, execveat_programs.
  cbn [attached report probes keys set_key add insert_key app fst]. split_and!.
  - unfold base_programs. cbn [app]. rewrite <- !app_assoc. reflexivity.
  - unfold len. cbn [length report_default probes]. rewrite !length_app. cbn [length]. lia.
  - reflexivity.
Qed.

(** *** Keys and programs *)

Lemma t2_key_inj t t' : t2_key t = t2_key t' -> t2_name t = t2_name t'.
Proof. unfold t2_key. cbn. intros H. by repeat injection H as H. Qed.

Lemma t2_keys_other l k key :
  (forall t, t ∈ l -> t2_key t <> key) -> t2_keys attach_error l k !! key = k !! key.
Proof.
  unfold t2_keys. revert k. induction l as [|t l IH]; intros k Hk; [done|]. cbn [foldl].
  rewrite IH by (intros t' Ht'; apply Hk; by right).
  apply lookup_insert_ne, Hk. by left.
Qed.

Lemma t2_keys_lookup l k t :
  NoDup (t2_name <$> l) -> t ∈ l -> t2_keys attach_error l k !! t2_key t = Some (t2_complete attach_error t).
Proof.
  revert k. induction l as [|t' l IH]; intros k Hn Ht; [by apply elem_of_nil in Ht|].
  cbn [fmap list_fmap] in Hn. apply NoDup_cons in Hn as [Hn' Hn].
  apply elem_of_cons in Ht as [<-|Ht]; [|by apply IH].
  unfold t2_keys. cbn [foldl]. fold (t2_keys attach_error l (<[t2_key t := t2_complete attach_error t]> k)).
  rewrite t2_keys_other; [apply lookup_insert_eq|].
  intros t' Ht' E. apply Hn'. apply t2_key_inj in E. rewrite <- E. by apply list_elem_of_fmap_2.
Qed.

(** Tier 2 entries are determined by their names. *)
Lemma tier2_by_name t t' : t ∈ TIER2 -> t' ∈ TIER2 -> t2_name t = t2_name t' -> t = t'.
Proof.
  intros [i Hi]%list_elem_of_lookup [j Hj]%list_elem_of_lookup Hn.
  assert (Hd : NoDup (t2_name <$> TIER2)) by (apply (bool_decide_unpack _); vm_compute; exact I).
  assert (i = j) as <- by (eapply NoDup_lookup; [done|rewrite list_lookup_fmap, Hi; done|];
    rewrite list_lookup_fmap, Hj; cbn; by rewrite Hn).
  congruence.
Qed.

Lemma contributed_complete t :
  t2_complete attach_error t = true ->
  "sys_enter_" +:+ t2_name t ∈ t2_contribution attach_error detaches t /\
  "sys_exit_" +:+ t2_name t ∈ t2_contribution attach_error detaches t.
Proof.
  unfold t2_complete, syscall_complete, complete, t2_contribution, syscall_contribution, contribution.
  intros [-> ->]%andb_true_iff. cbn [fst enter_of exit_of]. split; [right; left|left].
Qed.

Lemma enter_contributed t t' : t ∈ TIER2 -> t' ∈ TIER2 ->
  "sys_enter_" +:+ t2_name t ∈ t2_contribution attach_error detaches t' ->
  t = t' /\ t2_complete attach_error t = true.
Proof.
  intros Ht Ht' Hin. assert (E : t = t').
  { apply tier2_by_name; try done. pose proof Hin as Hin'.
    apply contribution_subset in Hin' as [E|E]; cbn in E; [done|]. by repeat injection E as E. }
  subst t'. split; [done|]. revert Hin.
  unfold t2_complete, syscall_complete, complete, t2_contribution, syscall_contribution, contribution.
  destruct (attachable attach_error (exit_of _ _)); cbn [andb]; [|by intros ?%elem_of_nil].
  destruct (attachable attach_error (enter_of _ _)); [done|].
  destruct (detaches _); [by intros ?%elem_of_nil|]. by intros ?%list_elem_of_singleton.
Qed.

Lemma enter_attached args t : t ∈ TIER2 ->
  "sys_enter_" +:+ t2_name t ∈ tier2_programs args <->
  t ∈ selected_tier2 args /\ t2_complete attach_error t = true.
Proof.
  intros Ht. unfold tier2_programs. rewrite elem_of_concat. split.
  - intros (l & Hin & Hl). apply list_elem_of_fmap in Hl as (t' & -> & Ht').
    destruct (enter_contributed t t') as [-> Hc]; [done|by eapply selected_in|done|]. done.
  - intros [Hs Hc]. exists (t2_contribution attach_error detaches t).
    split; [by apply contributed_complete|by apply list_elem_of_fmap_2].
Qed.

Lemma exit_attached args t : t ∈ TIER2 -> t ∈ selected_tier2 args -> t2_complete attach_error t = true ->
  "sys_exit_" +:+ t2_name t ∈ tier2_programs args.
Proof.
  intros Ht Hs Hc. unfold tier2_programs. rewrite elem_of_concat.
  exists (t2_contribution attach_error detaches t).
  split; [by apply contributed_complete|by apply list_elem_of_fmap_2].
Qed.
End Startup.

(** ** Bitmaps *)

Lemma bitmap_insert_all_spec nrs bm bm' nr :
  bitmap_insert_all nrs bm = Ok bm' -> 0 <= nr ->
  bitmap_set bm' nr = true <-> bitmap_set bm nr = true \/ nr ∈ nrs.
Proof.
  revert bm. induction nrs as [|n nrs IH]; intros bm; cbn.
  { intros [= ->] _. split; [by left|]. by intros [?|?%elem_of_nil]. }
  unfold bitmap_insert. destruct ((0 <=? n) && (n <? len bm)) eqn:Er; [|done]. cbn.
  apply andb_true_iff in Er as [E1%Z.leb_le E2%Z.ltb_lt]. intros H Hnr.
  rewrite (IH _ H Hnr), elem_of_cons. unfold bitmap_set.
  destruct (decide (nr = n)) as [->|Hne].
  - rewrite list_lookup_insert_eq by (unfold len in E2; lia). cbn. tauto.
  - rewrite list_lookup_insert_ne by lia. tauto.
Qed.

Lemma bitmap_zero nr : bitmap_set (replicate (Z.to_nat BITMAP_SIZE) 0) nr = false.
Proof.
  unfold bitmap_set. destruct (replicate _ 0 !! _) as [v|] eqn:E; [|done].
  apply lookup_replicate in E as [-> _]. done.
Qed.

Lemma dedup_spec r nr :
  nr ∈ dedup_syscalls r <->
  (exists t, t ∈ TIER2 /\ t2_nr t = nr /\ t2_dedup t <> Dedup_NoDedup /\ keys r !! t2_key t = Some true) \/
  (nr = NR_EXECVE /\ keys r !! "exec.execve" = Some true).
Proof.
  unfold dedup_syscalls. rewrite elem_of_app, list_elem_of_fmap.
  setoid_rewrite list_elem_of_In. setoid_rewrite filter_In. setoid_rewrite filter_In.
  setoid_rewrite bool_decide_eq_true. setoid_rewrite negb_true_iff. setoid_rewrite bool_decide_eq_false.
  apply Morphisms_Prop.or_iff_morphism; [unfold t2_key; firstorder|].
  cbn. destruct (decide (keys r !! "exec.execve" = Some true)) as [E|E].
  - rewrite bool_decide_true by done. cbn. intuition.
  - rewrite bool_decide_false by done. cbn. intuition.
Qed.

(** ** The rest of a startup *)

Section Tail.
Context (attach_error : string -> string -> option string) (detaches : string -> bool).

Definition tail_programs : list string :=
  ["tty_write_probe"; "tty_read_ret_probe"; "tty_read_probe"] ++ lsm_hooks.*1.

(** More programs of the tail, counted, and no Tier 2 key touched. *)
Record extends (s s' : Loader) : Prop := mkExtends {
  ex_attached : exists more, attached s' = attached s ++ more /\ more ⊆ tail_programs /\
    probes (report s') = probes (report s) + len more;
  ex_keys : forall t, keys (report s') !! t2_key t = keys (report s) !! t2_key t }.

Lemma extends_refl s : extends s s.
Proof.
  split; [|done]. exists []. rewrite app_nil_r. split; [done|]. split; [apply list_subseteq_nil|].
  by rewrite Z.add_0_r.
Qed.

Lemma extends_trans s1 s2 s3 : extends s1 s2 -> extends s2 s3 -> extends s1 s3.
Proof.
  intros [(m1 & A1 & S1 & P1) K1] [(m2 & A2 & S2 & P2) K2]. split; [|congruence].
  exists (m1 ++ m2). rewrite A2, A1, <- app_assoc. split; [done|]. split.
  - intros x [?|?]%elem_of_app; auto.
  - unfold len in *. rewrite length_app, P2, P1. lia.
Qed.

Lemma extends_add l s : l ⊆ tail_programs -> extends s (add l s).
Proof. intros Hl. split; [|done]. by exists l. Qed.

Lemma extends_key key v s : (forall t, t2_key t <> key) -> extends s (set_key key v s).
Proof.
  intros Hk. split; [exists []; rewrite app_nil_r, Z.add_0_r; split_and!; try done; apply list_subseteq_nil|].
  intros t. cbn. apply lookup_insert_ne. intros E. by apply (Hk t).
Qed.

Lemma extends_tty_key key ok off s :
  (forall t, t2_key t <> key) ->
  extends s (mkLoader (attached s) (record_tty_attach key ok off (report s))).
Proof. intros Hk. by apply extends_key. Qed.

Lemma attached_extends s s' x : extends s s' -> x ∉ tail_programs -> x ∈ attached s' <-> x ∈ attached s.
Proof.
  intros [(m & -> & Hm & _) _] Hx. rewrite elem_of_app. split; [|by left].
  intros [?|H]; [done|]. by apply Hm in H.
Qed.

Lemma tail_kprobe s r s' :
  try_attach_kprobe attach_error "tty_write_probe" "pty_write" s = (r, s') ->
  extends s s' /\ (attached s' = attached s \/ attached s' = attached s ++ ["tty_write_probe"]).
Proof.
  unfold try_attach_kprobe, attach_kprobe, mbind, LM_bind, result_of.
  rewrite (attach_program_spec attach_error ("tty_write_probe", "pty_write")). cbn [fst snd].
  destruct (attach_error _ _); intros [= <- <-]; [split; [apply extends_refl|by left]|].
  split; [|by right]. apply extends_add. apply (bool_decide_unpack _). vm_compute. exact I.
Qed.

Lemma contribution_tail enter exit :
  enter.1 ∈ tail_programs -> exit.1 ∈ tail_programs ->
  contribution attach_error detaches enter exit ⊆ tail_programs.
Proof. intros H1 H2 x Hx. by apply contribution_subset in Hx as [->| ->]. Qed.

Lemma tail_tty_read off s :
  "tty_read_ret_probe" ∉ attached s ->
  exists r s', attach_tty_read_pair attach_error detaches off s = (r, s') /\ extends s s'.
Proof.
  intros Hx. unfold attach_tty_read_pair, attach_kprobe. unfold mbind at 1, LM_bind at 1, result_of.
  destruct (pair_spec attach_error detaches ("tty_read_probe", "n_tty_read")
    ("tty_read_ret_probe", "n_tty_read") s Hx) as (r & E & _).
  cbn [fst snd] in E. rewrite E. unfold mbind, LM_bind, update_report, throw.
  do 2 eexists. split; [reflexivity|].
  eapply extends_trans; [apply (extends_add (contribution attach_error detaches
    ("tty_read_probe", "n_tty_read") ("tty_read_ret_probe", "n_tty_read")))|].
  - apply contribution_tail; apply (bool_decide_unpack _); vm_compute; exact I.
  - eapply extends_trans; [by apply (extends_tty_key "tty.read_ret")|by apply (extends_tty_key "tty.read")].
Qed.

Lemma tail_lsm btf hooks s u s' :
  hooks.*1 ⊆ tail_programs -> attach_lsm_hooks attach_error btf hooks s = (u, s') -> extends s s'.
Proof.
  revert s. induction hooks as [|[prog hook] hooks IH]; intros s Hh H.
  { injection H as <- <-. apply extends_refl. }
  cbn [attach_lsm_hooks] in H. unfold mbind, LM_bind, result_of, update_report in H.
  assert (Hrest : hooks.*1 ⊆ tail_programs) by (intros x Hx; apply Hh; by right).
  assert (E : exists r s1, (if btf then attach_lsm attach_error prog hook else throw (Err "LSM BTF unavailable")) s
      = (r, s1) /\ extends s s1).
  { destruct btf; [|by do 2 eexists; split; [reflexivity|apply extends_refl]].
    unfold attach_lsm, mbind, LM_bind. rewrite (attach_program_spec attach_error (prog, hook)). cbn [fst snd].
    destruct (attach_error prog hook); do 2 eexists; (split; [reflexivity|]); [apply extends_refl|].
    apply extends_add. intros x ->%list_elem_of_singleton. apply Hh. by left. }
  destruct E as (r & s1 & E & He). rewrite E in H.
  eapply extends_trans; [exact He|]. eapply extends_trans; [|by eapply IH].
  by apply extends_key.
Qed.
End Tail.

(** ** Startups *)

Section Theorems.
Context (attach_error : string -> string -> option string) (detaches : string -> bool).
Context (args : Cli) (actual_size : Z) (tty_offsets : option (list Z)) (btf : bool).

Abbreviation startup := (load_and_attach attach_error detaches args actual_size tty_offsets btf
                           (mkLoader [] report_default)).

(** Tail programs are not syscall programs. *)
Lemma tail_apart p : p ∈ tail_programs -> String.prefix "sys_e" p = false.
Proof. revert p. apply Forall_forall. apply (bool_decide_unpack _). vm_compute. exact I. Qed.

Lemma tty_apart s : rich_attached attach_error detaches args s -> "tty_read_ret_probe" ∉ attached s.
Proof.
  intros (-> & _). unfold tier2_programs, execveat_programs. rewrite !not_elem_of_app.
  split_and!; [apply (bool_decide_unpack _); vm_compute; exact I|by apply not_contributed|
    apply (bool_decide_unpack _); vm_compute; exact I|].
  intros (l & Hx & (t & -> & _)%list_elem_of_fmap)%elem_of_concat.
  by apply contribution_subset in Hx as [?|?].
Qed.

(** A startup that succeeds passed through a state in which the bitmap of rich
    syscalls was computed, and only added the tail to it. *)
Lemma startup_inv exclusion tier2 s :
  startup = (Ok (exclusion, tier2), s) ->
  actual_size = ring_buffer_size args /\
  populate_exclusion_bitmap (replicate (Z.to_nat BITMAP_SIZE) 0) = Ok exclusion /\
  exists s1, rich_attached attach_error detaches args s1 /\ extends s1 s /\
    bitmap_insert_all (dedup_syscalls (report s1)) (replicate (Z.to_nat BITMAP_SIZE) 0) = Ok tier2.
Proof.
  unfold load_and_attach. destruct (Z.eqb_spec actual_size (ring_buffer_size args)) as [Es|]; [|done].
  cbn [negb]. intros H. split; [done|].
  apply lbind_inv in H as (ex & s0 & H0 & H). apply throw_inv in H0 as [H0 ->].
  apply lbind_inv in H as ([] & s1 & H1 & H). apply rich_phase in H1.
  apply lbind_inv in H as (r & s2 & H2 & H). injection H2 as <- <-.
  apply lbind_inv in H as (bm & s3 & H3 & H). apply throw_inv in H3 as [H3 ->].
  apply lbind_inv in H as (ok & s4 & H4 & H). apply tail_kprobe in H4 as [Hx4 Ha4].
  apply lbind_inv in H as (? & s5 & H5 & H). injection H5 as _ <-.
  apply lbind_inv in H as (? & s6 & H6 & H). set (s5 := mkLoader _ _) in H6.
  assert (Hx5 : extends s4 s5) by (by apply (extends_tty_key "tty.write")).
  destruct (tail_tty_read attach_error detaches tty_offsets s5) as (rr & s6' & E6 & Hx6).
  { cbn [attached s5]. pose proof (tty_apart s1 H1) as Ht.
    destruct Ha4 as [-> | ->]; [done|]. rewrite not_elem_of_app. split; [done|].
    by rewrite list_elem_of_singleton. }
  unfold result_of in H6. rewrite E6 in H6. injection H6 as _ <-.
  apply lbind_inv in H as (? & s7 & H7 & H). injection H as -> -> ->.
  split; [done|]. exists s1. split; [done|]. split; [|done].
  do 3 (eapply extends_trans; [eassumption|]).
  destruct (enable_lsm args); [|injection H7 as _ <-; apply extends_refl].
  eapply tail_lsm; [|exact H7]. intros p Hp. unfold tail_programs. apply elem_of_app. by right.
Qed.

Lemma prefix_apart name : (("sys_enter_" +:+ name) ∉ tail_programs) /\ (("sys_exit_" +:+ name) ∉ tail_programs).
Proof. split; intros H; apply tail_apart in H; cbn in H; by rewrite ?prefix_empty in H. Qed.

Definition pair_attached (t : Tier2) (s : Loader) : Prop :=
  ("sys_enter_" +:+ t2_name t) ∈ attached s /\ ("sys_exit_" +:+ t2_name t) ∈ attached s.

Lemma rich_keys s t : rich_attached attach_error detaches args s -> t ∈ TIER2 ->
  keys (report s) !! t2_key t =
  if bool_decide (t2_name t ∈ t2_name <$> selected_tier2 args)
  then Some (t2_complete attach_error t) else None.
Proof.
  intros (_ & _ & ->) Ht. case_bool_decide as Hs.
  - apply list_elem_of_fmap in Hs as (t' & E & Hs).
    assert (t' = t) as -> by (apply tier2_by_name; [by eapply selected_in|done|done]).
    apply t2_keys_lookup; [apply selected_nodup|done].
  - rewrite t2_keys_other.
    + by rewrite !lookup_insert_ne, lookup_empty.
    + intros t' Ht' E. apply t2_key_inj in E. apply Hs. rewrite <- E. by apply list_elem_of_fmap_2.
Qed.

Lemma rich_pairs s t : rich_attached attach_error detaches args s -> t ∈ TIER2 ->
  pair_attached t s <->
  t2_name t ∈ t2_name <$> selected_tier2 args /\ t2_complete attach_error t = true.
Proof.
  intros (Ha & _ & _) Ht. unfold pair_attached. rewrite Ha.
  rewrite !app_assoc, <- (app_assoc base_programs). rewrite !(elem_of_app (_ ++ _)).
  assert (Hb : "sys_enter_" +:+ t2_name t ∉ base_programs ++ execveat_programs attach_error detaches ++
                 ["raw_sys_exit"; "raw_sys_enter"]).
  { destruct (tier2_names_apart t Ht) as [_ Hb]. unfold early_programs in Hb.
    rewrite !not_elem_of_app, !not_elem_of_cons in *. split_and!; try tauto.
    apply not_contributed; tauto. }
  pose proof (enter_attached attach_error detaches args t Ht) as He.
  pose proof (exit_attached attach_error detaches args t Ht) as Hx.
  assert (Hs : t2_name t ∈ t2_name <$> selected_tier2 args <-> t ∈ selected_tier2 args).
  { split; [|by apply list_elem_of_fmap_2]. intros (t' & E & Hs)%list_elem_of_fmap.
    by rewrite (tier2_by_name t t') by (done || by eapply selected_in). }
  tauto.
Qed.

Local Ltac by_extension Hx :=
  unfold pair_attached; rewrite !(attached_extends _ _ _ Hx) by apply prefix_apart.

(** C18: the report of a startup that succeeds is true: it counts the
    programs that are attached, it has a key for every Tier 2 syscall that was
    selected and for no other, and the key says true exactly when both programs
    of the pair are attached. *)
Theorem readiness_truthful exclusion tier2 s :
  startup = (Ok (exclusion, tier2), s) ->
  probes (report s) = len (attached s) /\
  forall t, t ∈ TIER2 ->
    if bool_decide (t2_name t ∈ t2_name <$> selected_tier2 args)
    then exists b, keys (report s) !! t2_key t = Some b /\ (b = true <-> pair_attached t s)
    else keys (report s) !! t2_key t = None /\ ~ pair_attached t s.
Proof.
  intros H. destruct (startup_inv _ _ _ H) as (_ & _ & s1 & Hr & Hx & _). split.
  - destruct Hx as [(m & -> & _ & ->) _]. destruct Hr as (_ & -> & _). unfold len. rewrite length_app. lia.
  - intros t Ht. rewrite (ex_keys s1 s Hx), (rich_keys s1 t Hr Ht).
    pose proof (rich_pairs s1 t Hr Ht) as Hp.
    assert (Ep : pair_attached t s <-> pair_attached t s1) by (by_extension Hx; done).
    case_bool_decide as Hs; [|tauto]. eexists. split; [done|]. tauto.
Qed.

(** C17: a startup that succeeds suppresses from raw capture exactly the
    excluded syscalls, [execve], and the syscalls of which both rich programs
    are attached and the rich collector replaces raw capture; no other syscall
    number is suppressed, so that a collector that failed to attach leaves its
    syscall to Tier 1. *)
Theorem suppression_exact exclusion tier2 s nr :
  startup = (Ok (exclusion, tier2), s) -> 0 <= nr ->
  (bitmap_set exclusion nr = true <-> nr ∈ EXCLUDED_SYSCALLS) /\
  (bitmap_set tier2 nr = true <->
   nr = NR_EXECVE \/
   exists t, t ∈ TIER2 /\ t2_nr t = nr /\ t2_dedup t <> Dedup_NoDedup /\ pair_attached t s).
Proof.
  intros H Hnr. destruct (startup_inv _ _ _ H) as (_ & He & s1 & Hr & Hx & Hb).
  pose proof (bitmap_zero nr) as Hz. split.
  - unfold populate_exclusion_bitmap in He. rewrite (bitmap_insert_all_spec _ _ _ nr He Hnr), Hz.
    replace (List.filter _ EXCLUDED_SYSCALLS) with EXCLUDED_SYSCALLS by reflexivity.
    split; [by intros [?|?]|by right].
  - rewrite (bitmap_insert_all_spec _ _ _ nr Hb Hnr), Hz, dedup_spec.
    assert (Hk : keys (report s1) !! "exec.execve" = Some true).
    { destruct Hr as (_ & _ & ->). rewrite t2_keys_other by done.
      do 2 (rewrite lookup_insert_ne by done). by rewrite lookup_insert_eq. }
    assert (Hp : forall t, t ∈ TIER2 -> keys (report s1) !! t2_key t = Some true <-> pair_attached t s).
    { intros t Ht. rewrite (rich_keys s1 t Hr Ht).
      assert (Ep : pair_attached t s <-> pair_attached t s1) by (by_extension Hx; done).
      rewrite Ep, (rich_pairs s1 t Hr Ht). case_bool_decide; intuition congruence. }
    split.
    + intros [?|[(t & Ht & E & Hd & Ht')|[-> _]]]; [done| |by left]. right. exists t. by rewrite <- Hp.
    + intros [->|(t & Ht & E & Hd & Ht')]; right; [by right|]. left. exists t. by rewrite Hp.
Qed.

Lemma concat_split {A} (l : list A) (ls : list (list A)) :
  l ∈ ls -> exists l1 l2, concat ls = l1 ++ l ++ l2.
Proof.
  intros (ls1 & ls2 & ->)%list_elem_of_split. rewrite concat_app. cbn. by eexists _, _.
Qed.

(** A startup succeeds only with every required program attached, and
    what consumes is attached before what produces: the release of exit claims
    before the exits, and of every pair the exit program right before the entry
    program. *)
Theorem consumers_attached_first exclusion tier2 s :
  startup = (Ok (exclusion, tier2), s) ->
  (exists rest, attached s = base_programs ++ rest) /\
  (exists l1 l2, attached s = l1 ++ ["raw_sys_exit"; "raw_sys_enter"] ++ l2) /\
  forall t, t ∈ TIER2 -> pair_attached t s ->
    exists l1 l2, attached s = l1 ++ ["sys_exit_" +:+ t2_name t; "sys_enter_" +:+ t2_name t] ++ l2.
Proof.
  intros H. destruct (startup_inv _ _ _ H) as (_ & _ & s1 & Hr & Hx & _).
  pose proof Hr as (Ha & _). pose proof Hx as [(m & Em & _) _]. rewrite Em, Ha. split_and!.
  - rewrite <- app_assoc. by eexists.
  - exists (base_programs ++ execveat_programs attach_error detaches), (tier2_programs attach_error detaches args ++ m).
    by rewrite <- !app_assoc.
  - intros t Ht Hp. assert (Hp1 : pair_attached t s1) by (revert Hp; by_extension Hx; done).
    apply (rich_pairs s1 t Hr Ht) in Hp1 as [Hs Hc]. apply list_elem_of_fmap in Hs as (t' & E & Hs).
    rewrite (tier2_by_name t t' Ht (selected_in _ _ Hs) E) in Hc |- *.
    destruct (concat_split (t2_contribution attach_error detaches t') (t2_contribution attach_error detaches <$> selected_tier2 args))
      as (l1 & l2 & El); [by apply list_elem_of_fmap_2|].
    unfold tier2_programs. rewrite El. revert Hc.
    unfold t2_complete, syscall_complete, complete, t2_contribution at 1, syscall_contribution, contribution.
    intros [-> ->]%andb_true_iff. cbn [fst enter_of exit_of].
    exists (base_programs ++ execveat_programs attach_error detaches ++ ["raw_sys_exit"; "raw_sys_enter"] ++ l1), (l2 ++ m).
    by rewrite <- !app_assoc.
Qed.
End Theorems.
