(* ===== verification/Elf.v ===== *)
(** * The reader of probe targets (bloodhound/src/usdt.rs, ElfView)

    The small ELF reader that decides whether and where a static probe may be
    attached: sections, notes, the build id, the static probe notes and the
    translation of addresses to file offsets.  Indexing a slice out of range is
    a panic, which is an outcome of its own. *)

From S2P Require Import Prelude Bytes Utf8.

Local Open Scope string_scope.
Local Open Scope Z_scope.
Local Open Scope list_scope.

(** ** Outcomes *)

Inductive outcome (A : Type) : Type :=
| Done (a : A)
| Fail (msg : string)
| Panic.
Arguments Done {A} _.
Arguments Fail {A} _.
Arguments Panic {A}.

#[export] Instance outcome_ret : MRet outcome := @Done.
#[export] Instance outcome_bind : MBind outcome := fun A B f o =>
  match o with Done a => f a | Fail e => Fail e | Panic => Panic end.

(** [option.ok_or_else(|| anyhow!(msg))] *)
Definition ok_or {A} (o : option A) (msg : string) : outcome A :=
  match o with Some a => Done a | None => Fail msg end.

Definition fail_if (cond : bool) (msg : string) : outcome unit := if cond then Fail msg else Done tt.

(** [slice[off..off + n]] *)
Definition index {A} (o : option A) : outcome A := match o with Some a => Done a | None => Panic end.

Definition checked_add (a b : Z) : option Z := if a + b <=? U64_MAX then Some (a + b) else None.

(** [data.get(off..off.checked_add(n)?)] *)
Definition checked_slice (data : list byte) (off n : Z) (msg : string) : outcome (list byte) :=
  _ ← ok_or (checked_add off n) "range overflow";
  ok_or (slice data off n) msg.

(** ** Strings *)

Definition c_string (bytes : list byte) : option string :=
  let s := until_nul bytes in if utf8_valid s then Some (bstr s) else None.

Definition take_c_string (bytes : list byte) : outcome (string * list byte) :=
  let s := until_nul bytes in
  if (length s =? length bytes)%nat then Fail "unterminated USDT string"
  else if utf8_valid s then Done (bstr s, drop (S (length s)) bytes)
  else Fail "USDT string is not UTF-8".

Definition hex (bytes : list byte) : string := String.concat "" (hex02 <$> bytes).

(** ** Notes *)

Record Note : Type := mkNote { n_name : string; n_kind : Z; n_desc : list byte }.

Definition align4 (value : Z) : option Z :=
  if value + 3 <=? U64_MAX then Some (Z.land (value + 3) (Z.lnot 3)) else None.

(** The note at an offset, and where the next one begins. *)
Definition read_note (data : list byte) (little : bool) (offset : Z) : outcome (Note * Z) :=
  _ ← fail_if (len data - offset <? 12) "truncated note header";
  namesz ← index (word_of little <$> slice data offset 4);
  descsz ← index (word_of little <$> slice data (offset + 4) 4);
  kind ← index (word_of little <$> slice data (offset + 8) 4);
  raw ← checked_slice data (offset + 12) namesz "truncated note name";
  name ← ok_or (c_string raw) "note name is not UTF-8";
  desc_start ← ok_or (align4 (offset + 12 + namesz)) "ELF note alignment overflow";
  desc ← checked_slice data desc_start descsz "truncated note descriptor";
  next ← ok_or (align4 (desc_start + descsz)) "ELF note alignment overflow";
  Done (mkNote name kind desc, next).

(** The loop; [None] when the fuel runs out. *)
Fixpoint notes_from (data : list byte) (little : bool) (fuel : nat) (offset : Z)
    : option (outcome (list Note)) :=
  if len data <=? offset then Some (Done []) else
  match fuel with
  | O => None
  | S fuel =>
      match read_note data little offset with
      | Fail e => Some (Fail e)
      | Panic => Some Panic
      | Done (note, next) =>
          rest ← notes_from data little fuel next;
          Some (notes ← rest; Done (note :: notes))
      end
  end.

(** A note takes at least twelve bytes: the length of the section is enough. *)
Definition parse_notes (data : list byte) (little : bool) : outcome (list Note) :=
  default (Fail "") (notes_from data little (length data) 0).

(** ** The file *)

Record ElfView : Type := mkElf {
  e_data : list byte; e_class : Z; e_little : bool; machine : Z;
  section_offset : Z; section_size : Z; section_count : Z; section_strings : Z;
  program_offset : Z; program_size : Z; program_count : Z }.

Definition ELF_MAGIC : list byte := [Byte.x7f; Byte.x45; Byte.x4c; Byte.x46].

Definition elf_parse (data : list byte) : outcome ElfView :=
  _ ← fail_if ((len data <? 64) || negb (bool_decide (take 4 data = ELF_MAGIC))) "not an ELF file";
  let class := byte.unsigned (nth 4 data NUL) in
  little ← (if byte.unsigned (nth 5 data NUL) =? 1 then Done true
            else if byte.unsigned (nth 5 data NUL) =? 2 then Done false
            else Fail "unknown ELF endian");
  _ ← fail_if (negb ((class =? 1) || (class =? 2))) "unknown ELF class";
  let at_ off n := raw ← checked_slice data off n "truncated ELF header"; Done (word_of little raw) in
  if class =? 2 then
    po ← at_ 32 8; so ← at_ 40 8; ps ← at_ 54 2; pc ← at_ 56 2; ss ← at_ 58 2; sc ← at_ 60 2; st ← at_ 62 2;
    m ← at_ 18 2;
    Done (mkElf data class little m so ss sc st po ps pc)
  else
    po ← at_ 28 4; so ← at_ 32 4; ps ← at_ 42 2; pc ← at_ 44 2; ss ← at_ 46 2; sc ← at_ 48 2; st ← at_ 50 2;
    m ← at_ 18 2;
    Done (mkElf data class little m so ss sc st po ps pc).

Record Section_ : Type := mkSection { sh_name : Z; sh_offset : Z; sh_size : Z }.

Definition slice_of (data : list byte) (offset n : Z) : outcome (list byte) :=
  checked_slice data offset n "truncated ELF data".

Section View.
Context (elf : ElfView).

(** The entry of a table, in bounds. *)
Definition table_entry (offset size i : Z) : outcome (list byte) :=
  off ← ok_or (checked_add offset (i * size)) "table overflow";
  checked_slice (e_data elf) off size "truncated table".

Definition section (i : Z) : outcome Section_ :=
  _ ← fail_if ((section_count elf <=? i) || (section_size elf =? 0)) "section index out of range";
  bytes ← table_entry (section_offset elf) (section_size elf) i;
  let at_ off n := raw ← checked_slice bytes off n "truncated section"; Done (word_of (e_little elf) raw) in
  if e_class elf =? 2 then
    name ← at_ 0 4; offset ← at_ 24 8; size ← at_ 32 8; Done (mkSection name offset size)
  else
    name ← at_ 0 4; offset ← at_ 16 4; size ← at_ 20 4; Done (mkSection name offset size).

Fixpoint find_section (names : list byte) (wanted : string) (n : nat) (i : Z) : outcome (option (list byte)) :=
  match n with
  | O => Done None
  | S n =>
      s ← section i;
      let tail := if len names <? sh_name s then [] else drop (Z.to_nat (sh_name s)) names in
      if bool_decide (c_string tail = Some wanted)
      then bytes ← slice_of (e_data elf) (sh_offset s) (sh_size s); Done (Some bytes)
      else find_section names wanted n (i + 1)
  end.

Definition section_named (wanted : string) : outcome (option (list byte)) :=
  strings ← section (section_strings elf);
  names ← slice_of (e_data elf) (sh_offset strings) (sh_size strings);
  find_section names wanted (Z.to_nat (section_count elf)) 0.

(** A failure is no build id; a panic stays one. *)
Definition build_id : outcome (option string) :=
  match section_named ".note.gnu.build-id" with
  | Panic => Panic
  | Fail _ | Done None => Done None
  | Done (Some notes) =>
      match parse_notes notes (e_little elf) with
      | Panic => Panic
      | Fail _ => Done None
      | Done ns =>
          Done ((fun n => hex (n_desc n)) <$>
                List.find (fun n => String.eqb (n_name n) "GNU" && (n_kind n =? 3)) ns)
      end
  end.

(** ** Addresses *)

Fixpoint segment_offset (address : Z) (n : nat) (i : Z) : outcome Z :=
  match n with
  | O => Fail "USDT location is outside a loadable ELF segment"
  | S n =>
      entry ← table_entry (program_offset elf) (program_size elf) i;
      typ ← ok_or (word_of (e_little elf) <$> slice entry 0 4) "program header is too short";
      if negb (typ =? 1) then segment_offset address n (i + 1) else
      let at_ off w := raw ← index (slice entry off w); Done (word_of (e_little elf) raw) in
      '(file_offset, virtual_address, file_size) ←
        (if e_class elf =? 2 then fo ← at_ 8 8; va ← at_ 16 8; fs ← at_ 32 8; Done (fo, va, fs)
         else fo ← at_ 4 4; va ← at_ 8 4; fs ← at_ 16 4; Done (fo, va, fs));
      if (virtual_address <=? address) && (address <? saturating_add virtual_address file_size)
      then ok_or (checked_add file_offset (address - virtual_address)) "USDT file offset overflow"
      else segment_offset address n (i + 1)
  end.

Definition virtual_to_file_offset (address : Z) : outcome Z :=
  segment_offset address (Z.to_nat (program_count elf)) 0.

(** ** Probes *)

Record StapsdtProbe : Type := mkProbe {
  provider : string; probe_name : string; operands : string; file_offset : Z;
  semaphore_address : Z; semaphore_file_offset : option Z }.

Definition parse_stapsdt (desc : list byte) : outcome StapsdtProbe :=
  let width := if e_class elf =? 2 then 8 else 4 in
  _ ← fail_if (len desc <? width * 3) "short stapsdt descriptor";
  let number off := raw ← index (slice desc off width); Done (word_of (e_little elf) raw) in
  location ← number 0;
  _ ← number width;
  semaphore ← number (width * 2);
  '(provider, rest) ← take_c_string (drop (Z.to_nat (width * 3)) desc);
  '(name, rest) ← take_c_string rest;
  '(operands, _) ← take_c_string rest;
  offset ← virtual_to_file_offset location;
  semaphore_offset ←
    (if semaphore =? 0 then Done None else
     off ← virtual_to_file_offset semaphore;
     if off <=? U32_MAX then Done (Some off) else Fail "USDT semaphore offset exceeds kernel uprobe ABI");
  Done (mkProbe provider name operands offset semaphore semaphore_offset).

Fixpoint parse_probes (notes : list Note) : outcome (list StapsdtProbe) :=
  match notes with
  | [] => Done []
  | n :: notes =>
      if String.eqb (n_name n) "stapsdt" then
        p ← parse_stapsdt (n_desc n);
        ps ← parse_probes notes;
        Done (p :: ps)
      else parse_probes notes
  end.

Definition stapsdt_probes : outcome (list StapsdtProbe) :=
  o ← section_named ".note.stapsdt";
  notes ← ok_or o "no .note.stapsdt";
  ns ← parse_notes notes (e_little elf);
  parse_probes ns.
End View.
