(* ===== verification/ElfFacts.v ===== *)
(** * What the ELF reader reads

    Notes are read back as they were written, on every input the reader stops,
    it can only panic on program headers that are too short, and an offset it
    returns is that of the address in a loadable segment. *)

From S2P Require Import Prelude Bytes Utf8 Elf.

#[local] Set Warnings "-clear-no-such-hyp".
Local Open Scope string_scope.
Local Open Scope Z_scope.
Local Open Scope list_scope.

(** ** Alignment *)

Definition padding (v : Z) : Z := (- v) mod 4.

Lemma padding_bounds v : 0 <= padding v < 4.
Proof. unfold padding. apply Z.mod_pos_bound. lia. Qed.

Lemma align4_spec v : v + 3 <= U64_MAX -> align4 v = Some (v + padding v).
Proof.
  intros Hv. unfold align4. rewrite (proj2 (Z.leb_le _ _) Hv). f_equal.
  rewrite <- Z.ldiff_land. change 3 with (Z.ones 2) at 2.
  rewrite Z.ldiff_ones_r, Z.shiftl_mul_pow2, Z.shiftr_div_pow2 by lia. change (2 ^ 2) with 4.
  pose proof (Z.div_mod (v + 3) 4 ltac:(lia)) as E. pose proof (Z.mod_pos_bound (v + 3) 4 ltac:(lia)).
  unfold padding. assert ((- v) mod 4 = 3 - (v + 3) mod 4); [|lia].
  symmetry. apply (Z.mod_unique _ _ (- ((v + 3) / 4))); lia.
Qed.

Lemma align4_some v w : align4 v = Some w -> v <= w.
Proof.
  intros E. unfold align4 in E. destruct (Z.leb_spec (v + 3) U64_MAX) as [Hv|]; [|done].
  pose proof (align4_spec v Hv) as E'. unfold align4 in E'. rewrite (proj2 (Z.leb_le _ _) Hv) in E'.
  pose proof (padding_bounds v). rewrite E' in E. injection E as <-. lia.
Qed.

(** ** Inversion of outcomes *)

Lemma bind_done {A B} (m : outcome A) (f : A -> outcome B) b :
  (x ← m; f x) = Done b <-> exists a, m = Done a /\ f a = Done b.
Proof. destruct m; cbn; naive_solver. Qed.

Lemma ok_or_done {A} (o : option A) msg a : ok_or o msg = Done a <-> o = Some a.
Proof. destruct o; cbn; naive_solver. Qed.

Lemma fail_if_done c msg u : fail_if c msg = Done u <-> c = false.
Proof. destruct c, u; cbn; naive_solver. Qed.

Lemma Done_inj {A} (a b : A) : Done a = Done b -> a = b.
Proof. congruence. Qed.

(** Take a successful computation apart. *)
Ltac done_inv :=
  repeat match goal with
  | H : mbind _ _ = Done _ |- _ =>
      let a := fresh "a" in let H1 := fresh "Hd" in let H2 := fresh "Hd" in
      apply bind_done in H as (a & H1 & H2)
  | H : ok_or _ _ = Done _ |- _ => apply ok_or_done in H
  | H : fail_if _ _ = Done _ |- _ => apply fail_if_done in H
  | H : Done _ = Done _ |- _ => apply Done_inj in H
  | H : Fail _ = Done _ |- _ => discriminate H
  | H : Panic = Done _ |- _ => discriminate H
  end.

(** Whether a computation can panic. *)
Definition no_panic {A} (m : outcome A) : Prop := m <> Panic.

Lemma no_panic_bind {A B} (m : outcome A) (f : A -> outcome B) :
  no_panic m -> (forall a, m = Done a -> no_panic (f a)) -> no_panic (x ← m; f x).
Proof. unfold no_panic. destruct m; cbn; naive_solver. Qed.

Lemma no_panic_ok_or {A} (o : option A) msg : no_panic (ok_or o msg).
Proof. by destruct o. Qed.

Lemma no_panic_fail_if c msg : no_panic (fail_if c msg).
Proof. by destruct c. Qed.

Lemma no_panic_done {A} (a : A) : no_panic (Done a).
Proof. done. Qed.

Lemma no_panic_slice data off n msg : no_panic (checked_slice data off n msg).
Proof. unfold checked_slice. apply no_panic_bind; [apply no_panic_ok_or|]. intros. apply no_panic_ok_or. Qed.

Lemma no_panic_index {A} (o : option A) : is_Some o -> no_panic (index o).
Proof. by intros [a ->]. Qed.

Lemma slice_some data off n : 0 <= off -> off + n <= len data -> is_Some (slice data off n).
Proof.
  intros Ho Hn. unfold slice. rewrite (proj2 (Z.leb_le _ _) Ho), (proj2 (Z.leb_le _ _) Hn). by eexists.
Qed.

Create HintDb elf discriminated.
#[export] Hint Resolve no_panic_ok_or no_panic_fail_if no_panic_done no_panic_slice : elf.

(** Step through the binds of a computation that does not panic. *)
Ltac np := repeat (apply no_panic_bind; [solve [auto with elf]|intros ? ?]); auto with elf.

(** ** Notes *)

Lemma index_word data little off w :
  index (word_of little <$> slice data off 4) = Done w -> 0 <= w < 2 ^ 32.
Proof.
  destruct (slice data off 4) as [b|] eqn:E; [|done]. intros [= <-]. apply slice_inv in E as (_ & _ & Hb).
  pose proof (word_bounds little b) as Hw. rewrite Hb in Hw by lia. exact Hw.
Qed.

Lemma read_note_advances data little offset note next :
  read_note data little offset = Done (note, next) -> offset + 12 <= next.
Proof.
  unfold read_note. intros H. done_inv.
  repeat match goal with H : index _ = Done _ |- _ => apply index_word in H
         | H : align4 _ = Some _ |- _ => apply align4_some in H end.
  simplify_eq. lia.
Qed.

Lemma read_note_no_panic data little offset : 0 <= offset -> no_panic (read_note data little offset).
Proof.
  intros Ho. unfold read_note.
  apply no_panic_bind; [auto with elf|]. intros u Hu. apply fail_if_done, Z.ltb_ge in Hu.
  assert (Hi : forall k, 0 <= k -> k + 4 <= 12 -> no_panic (index (word_of little <$> slice data (offset + k) 4))).
  { intros k Hk Hk'. apply no_panic_index, fmap_is_Some, slice_some; lia. }
  apply no_panic_bind; [by rewrite <- (Z.add_0_r offset); apply Hi; lia|]. intros ? _.
  apply no_panic_bind; [apply Hi; lia|]. intros ? _. apply no_panic_bind; [apply Hi; lia|]. intros ? _. np.
Qed.

Lemma notes_from_total data little fuel offset :
  0 <= offset -> len data - offset <= Z.of_nat fuel ->
  exists r, notes_from data little fuel offset = Some r /\ no_panic r.
Proof.
  revert offset. induction fuel as [|fuel IH]; intros offset Ho Hf; cbn [notes_from].
  - rewrite (proj2 (Z.leb_le _ _)) by lia. by eexists.
  - destruct (Z.leb_spec (len data) offset) as [|Hlt]; [by eexists|].
    pose proof (read_note_no_panic data little offset Ho) as Hp.
    destruct (read_note data little offset) as [[note next]|e|] eqn:E; [|by eexists|done].
    apply read_note_advances in E. destruct (IH next) as (r & -> & Hr); [lia|lia|]. cbn.
    eexists. split; [done|]. by apply no_panic_bind.
Qed.

Lemma parse_notes_no_panic data little : no_panic (parse_notes data little).
Proof.
  unfold parse_notes. destruct (notes_from_total data little (length data) 0) as (r & -> & Hr); [done|unfold len; lia|].
  exact Hr.
Qed.

(** ** Writing notes *)

Definition zeros (n : Z) : list byte := replicate (Z.to_nat n) NUL.

Section Encoding.
Context (little : bool).

Definition enc_note (n : Note) : list byte :=
  let name := str_bytes (n_name n) ++ [NUL] in
  enc_word little 4 (len name) ++ enc_word little 4 (len (n_desc n)) ++ enc_word little 4 (n_kind n) ++
  (name ++ zeros (padding (len name))) ++ n_desc n ++ zeros (padding (len (n_desc n))).

Definition enc_notes (ns : list Note) : list byte := concat (enc_note <$> ns).

Definition note_wf (n : Note) : Prop :=
  (NUL ∉ str_bytes (n_name n)) /\ utf8_valid (str_bytes (n_name n)) = true /\
  in_u 32 (n_kind n) /\ in_u 32 (len (str_bytes (n_name n)) + 1) /\ in_u 32 (len (n_desc n)).

#[export] Instance note_wf_dec n : Decision (note_wf n).
Proof. unfold note_wf. apply _. Defined.

Lemma len_zeros n : 0 <= n -> len (zeros n) = n.
Proof. intros. unfold zeros, len. rewrite length_replicate. lia. Qed.

Lemma padding_shift k v : k mod 4 = 0 -> padding (k + v) = padding v.
Proof.
  intros Hk. unfold padding. rewrite Z.opp_add_distr, Z.add_mod, Z.mod_opp_l_z, Z.add_0_l, Z.mod_mod by lia. done.
Qed.

Lemma padded_mod v : (v + padding v) mod 4 = 0.
Proof.
  unfold padding. rewrite Zplus_mod_idemp_r, Z.add_opp_diag_r. done.
Qed.

Lemma len_enc_note n :
  let name := len (str_bytes (n_name n)) + 1 in
  len (enc_note n) = 12 + (name + padding name) + (len (n_desc n) + padding (len (n_desc n))).
Proof.
  unfold enc_note. rewrite !len_app, !len_enc_word, !len_zeros by apply padding_bounds.
  change (len [NUL]) with 1. lia.
Qed.

Lemma slice_at' buf pos bs : has_at buf pos bs -> pos <= len buf -> slice buf pos (len bs) = Some bs.
Proof.
  intros Ha Hp. destruct bs as [|b bs]; [|by apply slice_at].
  destruct Ha as [Ho _]. unfold slice. change (len []) with 0.
  rewrite (proj2 (Z.leb_le _ _) Ho), (proj2 (Z.leb_le _ _)) by lia. done.
Qed.

Lemma until_nul_bstr s r : NUL ∉ str_bytes s -> utf8_valid (str_bytes s) = true ->
  c_string (str_bytes s ++ NUL :: r) = Some s.
Proof.
  intros Hn Hu. unfold c_string. rewrite until_nul_app_nul, Hu by done. f_equal.
  apply String.string_of_list_byte_of_string.
Qed.

(** Where the parts of a note are. *)
Lemma enc_note_parts data offset n (name := str_bytes (n_name n)) :
  has_at data offset (enc_note n) ->
  has_at data offset (enc_word little 4 (len name + 1)) /\
  has_at data (offset + 4) (enc_word little 4 (len (n_desc n))) /\
  has_at data (offset + 8) (enc_word little 4 (n_kind n)) /\
  has_at data (offset + 12) (name ++ [NUL]) /\
  has_at data (offset + 12 + (len name + 1 + padding (len name + 1))) (n_desc n).
Proof.
  intros Ha. unfold enc_note in Ha. fold name in Ha. rewrite len_app in Ha. change (len [NUL]) with 1 in Ha.
  apply has_at_app in Ha as [A1 Ha]. rewrite len_enc_word in Ha. apply has_at_app in Ha as [A2 Ha].
  rewrite len_enc_word in Ha. apply has_at_app in Ha as [A3 Ha]. rewrite len_enc_word in Ha.
  apply has_at_app in Ha as [A4 A5]. apply has_at_app in A4 as [A4 _]. apply has_at_app in A5 as [A5 _].
  rewrite !len_app, len_zeros in A5 by apply padding_bounds. change (len [NUL]) with 1 in A5.
  change (Z.of_nat 4) with 4 in *. replace (offset + 4 + 4) with (offset + 8) in * by lia.
  replace (offset + 8 + 4) with (offset + 12) in * by lia. done.
Qed.

Lemma index_enc data k z : in_u 32 z -> has_at data k (enc_word little 4 z) ->
  index (word_of little <$> slice data k 4) = Done z.
Proof.
  intros Hz Hat. change 4 with (Z.of_nat 4). rewrite (slice_word little data k 4 z Hat) by lia. cbn.
  by rewrite word_enc.
Qed.

Lemma checked_slice_at data pos bs msg :
  has_at data pos bs -> pos + len bs <= len data -> len data <= U64_MAX ->
  checked_slice data pos (len bs) msg = Done bs.
Proof.
  intros Ha Hp Hl. unfold checked_slice, checked_add. rewrite (proj2 (Z.leb_le _ _)) by lia.
  cbn [ok_or mbind outcome_bind]. pose proof (len_nonneg bs). rewrite (slice_at' _ _ _ Ha) by lia. done.
Qed.

Lemma read_note_enc data offset n :
  note_wf n -> has_at data offset (enc_note n) -> offset mod 4 = 0 -> len data <= U64_MAX - 8 ->
  read_note data little offset = Done (n, offset + len (enc_note n)).
Proof.
  intros (Hn & Hu & Hk & Hnl & Hdl) Ha Hm Hlen. pose proof Ha as [Ho _].
  assert (Hin : offset + len (enc_note n) <= len data).
  { apply has_at_in; [done|]. unfold enc_note. intros E. apply app_nil in E as [E _].
    pose proof (length_enc_word little 4 (len (str_bytes (n_name n) ++ [NUL]))) as Hl. by rewrite E in Hl. }
  rewrite len_enc_note in *. apply enc_note_parts in Ha as (A1 & A2 & A3 & A4 & A5).
  set (name := str_bytes (n_name n)) in *.
  pose proof (padding_bounds (len name + 1)). pose proof (padding_bounds (len (n_desc n))).
  pose proof (len_nonneg name). pose proof (len_nonneg (n_desc n)).
  unfold read_note. rewrite (proj2 (Z.ltb_ge _ _)) by lia. cbn [fail_if mbind outcome_bind].
  rewrite (index_enc _ _ _ Hnl A1). cbn [mbind outcome_bind]. rewrite (index_enc _ _ _ Hdl A2).
  cbn [mbind outcome_bind]. rewrite (index_enc _ _ _ Hk A3). cbn [mbind outcome_bind].
  replace (len name + 1) with (len (name ++ [NUL])) at 1 by (by rewrite len_app).
  rewrite (checked_slice_at data (offset + 12) (name ++ [NUL]) _ A4)
    by (rewrite ?len_app; change (len [NUL]) with 1; lia). cbn [mbind outcome_bind].
  unfold name. rewrite until_nul_bstr by done. cbn [ok_or mbind outcome_bind]. fold name.
  rewrite align4_spec by lia. cbn [ok_or mbind outcome_bind].
  rewrite (padding_shift (offset + 12)) by (rewrite Z.add_mod, Hm by lia; done).
  rewrite <- (Z.add_assoc (offset + 12)). rewrite (checked_slice_at _ _ _ _ A5) by lia.
  cbn [mbind outcome_bind].   rewrite align4_spec by lia. cbn [ok_or mbind outcome_bind].
  rewrite (padding_shift (offset + 12 + (len name + 1 + padding (len name + 1)))).
  2:{ rewrite Z.add_mod, padded_mod by lia. rewrite (Z.add_mod offset), Hm by lia. done. }
  f_equal. f_equal; [by destruct n|lia].
Qed.

Lemma len_enc_note_mod n : len (enc_note n) mod 4 = 0.
Proof.
  rewrite len_enc_note. rewrite (Z.add_mod (12 + _)), padded_mod, Z.add_0_r, Z.mod_mod by lia.
  rewrite (Z.add_mod 12), padded_mod by lia. done.
Qed.

Lemma len_enc_note_min n : 12 <= len (enc_note n).
Proof.
  rewrite len_enc_note. pose proof (padding_bounds (len (str_bytes (n_name n)) + 1)).
  pose proof (padding_bounds (len (n_desc n))). pose proof (len_nonneg (str_bytes (n_name n))).
  pose proof (len_nonneg (n_desc n)). lia.
Qed.

Lemma notes_from_enc data ns fuel offset :
  Forall note_wf ns -> has_at data offset (enc_notes ns) -> offset + len (enc_notes ns) = len data ->
  offset mod 4 = 0 -> len data <= U64_MAX - 8 -> (length ns <= fuel)%nat ->
  notes_from data little fuel offset = Some (Done ns).
Proof.
  intros Hw. revert fuel offset. induction Hw as [|n ns Hn _ IH]; intros fuel offset Ha He Hm Hl Hf.
  { change (len (enc_notes [])) with 0 in He. destruct fuel; cbn [notes_from];
      by rewrite (proj2 (Z.leb_le _ _)) by lia. }
  change (enc_notes (n :: ns)) with (enc_note n ++ enc_notes ns) in *. apply has_at_app in Ha as [Ha Har].
  rewrite len_app in He. pose proof (len_nonneg (enc_notes ns)).
  pose proof (len_enc_note_min n).
  destruct fuel as [|fuel]; [cbn in Hf; lia|]. cbn [notes_from]. rewrite (proj2 (Z.leb_gt _ _)) by lia.
  rewrite (read_note_enc data offset n Hn Ha Hm Hl). rewrite IH; [done|done|lia| |done|cbn in Hf; lia].
  rewrite Z.add_mod, Hm, len_enc_note_mod by lia. done.
Qed.

(** C31: what the note reader reads from a section of notes, in either byte
    order, are the notes: every one, in order, with its name, type and
    descriptor, whatever the lengths that have to be padded. *)
Theorem notes_roundtrip ns :
  Forall note_wf ns -> len (enc_notes ns) <= U64_MAX - 8 -> parse_notes (enc_notes ns) little = Done ns.
Proof.
  intros Hw Hl. unfold parse_notes. rewrite (notes_from_enc (enc_notes ns) ns); [done|done|apply has_at_refl|done|done|done|].
  clear Hl. induction Hw as [|n ns _ _ IH]; [done|].
  change (enc_notes (n :: ns)) with (enc_note n ++ enc_notes ns). rewrite length_app.
  pose proof (len_enc_note_min n) as Hmin. unfold len in Hmin. cbn [length]. lia.
Qed.
End Encoding.

(** ** Addresses *)

Section Segments.
Context (elf : ElfView).

(** The program header [i] is of a loadable segment with these bounds. *)
Definition load_segment (i file_offset virtual_address file_size : Z) : Prop :=
  exists entry, table_entry elf (program_offset elf) (program_size elf) i = Done entry /\
    let word off n := word_of (e_little elf) <$> slice entry off n in
    word 0 4 = Some 1 /\
    if e_class elf =? 2
    then word 8 8 = Some file_offset /\ word 16 8 = Some virtual_address /\ word 32 8 = Some file_size
    else word 4 4 = Some file_offset /\ word 8 4 = Some virtual_address /\ word 16 4 = Some file_size.

(** [off] is where the byte of [address] is in the file. *)
Definition maps_to (address off : Z) : Prop :=
  exists i fo va fs, 0 <= i < program_count elf /\ load_segment i fo va fs /\
    va <= address < va + fs /\ off = fo + (address - va).

Lemma index_done {A} (o : option A) a : index o = Done a <-> o = Some a.
Proof. destruct o; cbn; naive_solver. Qed.

Lemma segment_offset_sound address n i off :
  0 <= i -> i + Z.of_nat n <= program_count elf ->
  segment_offset elf address n i = Done off -> maps_to address off.
Proof.
  revert i. induction n as [|n IH]; intros i Hi Hn; cbn [segment_offset]; [done|]. intros H.
  apply bind_done in H as (entry & He & H). apply bind_done in H as (typ & Ht & H). apply ok_or_done in Ht.
  destruct (Z.eqb_spec typ 1) as [->|_]; cbn [negb] in H; [|apply (IH (i + 1)); [lia|lia|done]].
  apply bind_done in H as ([[fo va] fs] & Hs & H).
  destruct ((va <=? address) && (address <? saturating_add va fs)) eqn:Hin; [|apply (IH (i + 1)); [lia|lia|done]].
  apply ok_or_done in H. unfold checked_add in H. destruct (fo + (address - va) <=? U64_MAX); [|done].
  injection H as <-. apply andb_true_iff in Hin as [H1 H2]. apply Z.leb_le in H1. apply Z.ltb_lt in H2.
  unfold saturating_add in H2. exists i, fo, va, fs. split; [lia|]. split; [|split; [lia|done]].
  exists entry. split; [done|]. split; [done|].
  destruct (e_class elf =? 2); done_inv; simplify_eq;
    repeat match goal with H : index _ = Done _ |- _ => apply index_done in H; rewrite H end; done.
Qed.

Lemma virtual_to_file_offset_sound address off :
  0 <= program_count elf -> virtual_to_file_offset elf address = Done off -> maps_to address off.
Proof. intros Hc. apply segment_offset_sound; lia. Qed.

(** ** Panics *)

(** Program headers are as long as the reader assumes. *)
Definition headers_long : Prop := (if e_class elf =? 2 then 40 else 20) <= program_size elf.

Lemma table_entry_len offset size i entry :
  table_entry elf offset size i = Done entry -> 0 <= size -> len entry = size.
Proof.
  unfold table_entry, checked_slice. intros H Hs. done_inv.
  match goal with H : slice _ _ _ = Some _ |- _ => apply slice_inv in H as (_ & _ & ?) end. auto.
Qed.

Lemma segment_offset_no_panic address n i : headers_long -> no_panic (segment_offset elf address n i).
Proof.
  intros Hl. unfold headers_long in Hl. revert i. induction n as [|n IH]; intros i; cbn [segment_offset]; [done|].
  apply no_panic_bind; [unfold table_entry; np|]. intros entry He.
  apply table_entry_len in He; [|destruct (e_class elf =? 2); lia].
  apply no_panic_bind; [auto with elf|]. intros typ _. destruct (negb (typ =? 1)); [apply IH|].
  assert (Hi : forall off w, 0 <= off -> off + w <= program_size elf ->
    no_panic (raw ← index (slice entry off w); Done (word_of (e_little elf) raw))).
  { intros off w Ho Hw. apply no_panic_bind; [|done]. apply no_panic_index, slice_some; lia. }
  apply no_panic_bind.
  - destruct (e_class elf =? 2); (apply no_panic_bind; [apply Hi; lia|]; intros ? _;
      apply no_panic_bind; [apply Hi; lia|]; intros ? _; apply no_panic_bind; [apply Hi; lia|]; done).
  - intros [[fo va] fs] _. destruct (_ && _); [auto with elf|apply IH].
Qed.

Lemma section_no_panic i : no_panic (section elf i).
Proof.
  unfold section. apply no_panic_bind; [auto with elf|]. intros _ _.
  apply no_panic_bind; [unfold table_entry; np|]. intros bytes _.
  destruct (e_class elf =? 2); repeat (apply no_panic_bind; [np|intros ? ?]); done.
Qed.

Lemma section_named_no_panic wanted : no_panic (section_named elf wanted).
Proof.
  unfold section_named. apply no_panic_bind; [apply section_no_panic|]. intros strings _.
  apply no_panic_bind; [unfold slice_of; np|]. intros names _. generalize 0.
  induction (Z.to_nat (section_count elf)) as [|n IH]; intros i; cbn [find_section]; [done|].
  apply no_panic_bind; [apply section_no_panic|]. intros s _.
  destruct (bool_decide _); [unfold slice_of; np|apply IH].
Qed.

Lemma build_id_no_panic : no_panic (build_id elf).
Proof.
  unfold build_id. pose proof (section_named_no_panic ".note.gnu.build-id") as Hs.
  destruct (section_named elf ".note.gnu.build-id") as [[notes|]|e|]; try done.
  pose proof (parse_notes_no_panic notes (e_little elf)) as Hn. by destruct (parse_notes notes (e_little elf)).
Qed.

Lemma take_c_string_no_panic bs : no_panic (take_c_string bs).
Proof. unfold take_c_string. by repeat case_match. Qed.

Lemma parse_stapsdt_no_panic desc : headers_long -> no_panic (parse_stapsdt elf desc).
Proof.
  intros Hl. unfold parse_stapsdt. set (width := if e_class elf =? 2 then 8 else 4).
  assert (Hw : 0 < width) by (unfold width; case_match; lia).
  apply no_panic_bind; [auto with elf|]. intros u Hu. apply fail_if_done, Z.ltb_ge in Hu.
  assert (Hi : forall k, 0 <= k -> k + width <= len desc ->
    no_panic (raw ← index (slice desc k width); Done (word_of (e_little elf) raw))).
  { intros k Hk Hd. apply no_panic_bind; [|done]. by apply no_panic_index, slice_some. }
  do 3 (apply no_panic_bind; [apply Hi; lia|intros ? _]).
  do 3 (apply no_panic_bind; [apply take_c_string_no_panic|intros [? ?] _]).
  apply no_panic_bind; [by apply segment_offset_no_panic|]. intros off _.
  apply no_panic_bind; [|done]. case_match; [done|].
  apply no_panic_bind; [by apply segment_offset_no_panic|]. intros ? _. by case_match.
Qed.

Lemma stapsdt_probes_no_panic : headers_long -> no_panic (stapsdt_probes elf).
Proof.
  intros Hl. unfold stapsdt_probes. apply no_panic_bind; [apply section_named_no_panic|]. intros o _.
  apply no_panic_bind; [auto with elf|]. intros notes _. apply no_panic_bind; [apply parse_notes_no_panic|].
  intros ns _. induction ns as [|n ns IH]; cbn [parse_probes]; [done|]. case_match; [|done].
  apply no_panic_bind; [by apply parse_stapsdt_no_panic|]. intros p _. by apply no_panic_bind.
Qed.

(** ** Probes *)

(** A probe of the file: its offset is that of an address of a loadable
    segment, and so is its semaphore's if it has one. *)
Definition probe_sound (p : StapsdtProbe) : Prop :=
  (exists location, maps_to location (file_offset p)) /\
  match semaphore_file_offset p with
  | Some off => maps_to (semaphore_address p) off /\ off <= U32_MAX
  | None => semaphore_address p = 0
  end.

Lemma parse_stapsdt_sound desc p :
  0 <= program_count elf -> parse_stapsdt elf desc = Done p -> probe_sound p.
Proof.
  intros Hc. unfold parse_stapsdt. intros H. apply bind_done in H as (_ & _ & H).
  apply bind_done in H as (location & _ & H). apply bind_done in H as (_ & _ & H).
  apply bind_done in H as (sem & _ & H). apply bind_done in H as ([prov r1] & _ & H).
  apply bind_done in H as ([nm r2] & _ & H). apply bind_done in H as ([ops r3] & _ & H).
  apply bind_done in H as (off & Ho & H). apply bind_done in H as (soff & Hs & H). injection H as <-.
  split; [exists location; by apply virtual_to_file_offset_sound|]. cbn.
  destruct (Z.eqb_spec sem 0) as [->|Hne]; [injection Hs as <-; done|].
  apply bind_done in Hs as (o & Ho' & Hs). destruct (Z.leb_spec o U32_MAX); [|done]. injection Hs as <-.
  split; [by apply virtual_to_file_offset_sound|done].
Qed.

Lemma stapsdt_probes_sound ps :
  0 <= program_count elf -> stapsdt_probes elf = Done ps -> Forall probe_sound ps.
Proof.
  intros Hc. unfold stapsdt_probes. intros H. apply bind_done in H as (o & _ & H).
  apply bind_done in H as (notes & _ & H). apply bind_done in H as (ns & _ & H). revert ps H.
  induction ns as [|n ns IH]; intros ps; cbn [parse_probes]; [by intros [= <-]|].
  case_match; [|apply IH]. intros H'. apply bind_done in H' as (p & Hp & H').
  apply bind_done in H' as (qs & Hq & H'). injection H' as <-.
  constructor; [by eapply parse_stapsdt_sound|by apply IH].
Qed.
End Segments.

Lemma elf_parse_no_panic data : no_panic (elf_parse data).
Proof.
  unfold elf_parse. apply no_panic_bind; [auto with elf|]. intros _ _. apply no_panic_bind; [by repeat case_match|].
  intros little _. apply no_panic_bind; [auto with elf|]. intros _ _.
  case_match; repeat (apply no_panic_bind; [np|intros ? ?]); done.
Qed.

Lemma elf_parse_count data elf : elf_parse data = Done elf -> 0 <= program_count elf.
Proof.
  unfold elf_parse. intros H. apply bind_done in H as (_ & _ & H). apply bind_done in H as (little & _ & H).
  apply bind_done in H as (_ & _ & H). destruct (_ =? 2); done_inv; simplify_eq; cbn; apply word_bounds.
Qed.
