(* ===== verification/UsdtRegistry.v ===== *)
(** * Static probe collectors (bloodhound/src/usdt.rs)

    The registry compiled into the daemon, the configuration that selects from
    it, the verification of a target and the attachment of its probes.  What
    the kernel accepts and the bytes of the target file are parameters. *)

From S2P Require Import Prelude Bytes Utf8 Json Event Usdt Elf Layout Records Common Btf Bpf Loader.

Local Open Scope string_scope.
Local Open Scope Z_scope.
Local Open Scope list_scope.

(** ** The registry *)

Definition TRAINING_PEER_V1_ID : string := "training-peer-v1".

Inductive Architecture : Type := X86_64.
Definition elf_machine (a : Architecture) : Z := match a with X86_64 => 62 end.

Record FieldMetadata : Type := mkField {
  fld_name : string; source_type : string; operand_form : string; output_type : string;
  maximum_size : option Z; fld_required : bool }.

Record CollectorMetadata : Type := mkCollector {
  col_id : string; architecture : Architecture; target_path : string; build_ids : list string;
  col_provider : string; col_probe : string; schema_version : Z; maximum_attach_points : Z;
  col_operands : string; fields : list FieldMetadata }.

Definition TRAINING_SHELL_V3_BUILD_IDS : list string := ["11223344556677889900aabbccddeeff00112233"].
Definition TRAINING_PEER_V1_BUILD_IDS : list string := ["44556677889900aabbccddeeff00112233445566"].

Definition TRAINING_SHELL_FIELDS : list FieldMetadata :=
  [mkField "shell_pid" "u32" "8@%rdi" "u32" None true;
   mkField "command_id" "u64" "8@%rsi" "u64" None true;
   mkField "command_kind" "enum" "8@%rdx" "enum" None true;
   mkField "command_name" "utf8_pointer" "8@%rcx" "utf8" (Some 64) true;
   mkField "semantic_flags" "u32" "8@%r8" "enum" None true;
   mkField "exit_status" "i32" "8@%r9" "i32" None true].

Definition TRAINING_PEER_FIELDS : list FieldMetadata :=
  [mkField "task_id" "u64" "8@%rdi" "u64" None true; mkField "result" "enum" "8@%rsi" "enum" None true].

Definition REGISTRY : list CollectorMetadata :=
  [mkCollector TRAINING_SHELL_V3_ID X86_64 "/opt/bloodhound/usdt-fixtures/training-shell-v3"
     TRAINING_SHELL_V3_BUILD_IDS "abyss0_shell" "simple_command_completed" 3 8
     "8@%rdi 8@%rsi 8@%rdx 8@%rcx 8@%r8 8@%r9" TRAINING_SHELL_FIELDS;
   mkCollector TRAINING_PEER_V1_ID X86_64 "/opt/bloodhound/usdt-fixtures/training-peer-v1"
     TRAINING_PEER_V1_BUILD_IDS "abyss0_peer" "task_finished" 1 8 "8@%rdi 8@%rsi" TRAINING_PEER_FIELDS].

Definition collector (id : string) : option CollectorMetadata :=
  List.find (fun c => String.eqb (col_id c) id) REGISTRY.

(** ** Selections *)

Record Selection : Type := mkSelection { collector_id : string; enabled : bool }.

Fixpoint validate_from (seen : list string) (selections : list Selection) : result unit :=
  match selections with
  | [] => Ok tt
  | s :: selections =>
      _ ← bail_if (bool_decide (collector_id s ∈ seen)) "duplicate USDT collector selection";
      validate_from (collector_id s :: seen) selections
  end.
Definition validate_selections (selections : list Selection) : result unit := validate_from [] selections.

(** [str::lines]: the parts that a line feed ends, without a carriage return
    before it, and the last part unless it is empty. *)
Definition strip_cr (l : list byte) : list byte :=
  match last l with Some b => if byte.unsigned b =? 13 then take (length l - 1) l else l | None => l end.

Fixpoint split_lf (cur : list byte) (bs : list byte) : list (list byte) :=
  match bs with
  | [] => match cur with [] => [] | _ => [cur] end
  | b :: bs => if byte.unsigned b =? 10 then strip_cr cur :: split_lf [] bs else split_lf (cur ++ [b]) bs
  end.

(** [s.split_once(c)] *)
Fixpoint split_once (c : Z) (bs : list byte) : option (list byte * list byte) :=
  match bs with
  | [] => None
  | b :: bs =>
      if byte.unsigned b =? c then Some ([], bs)
      else '(l, r) ← split_once c bs; Some (b :: l, r)
  end.

(** The encodings of the characters that are white space. *)
Definition WHITESPACE : list (list byte) :=
  [[Byte.x09]; [Byte.x0a]; [Byte.x0b]; [Byte.x0c]; [Byte.x0d]; [Byte.x20]; [Byte.xc2; Byte.x85];
   [Byte.xc2; Byte.xa0]; [Byte.xe1; Byte.x9a; Byte.x80]; [Byte.xe2; Byte.x80; Byte.x80];
   [Byte.xe2; Byte.x80; Byte.x81]; [Byte.xe2; Byte.x80; Byte.x82]; [Byte.xe2; Byte.x80; Byte.x83];
   [Byte.xe2; Byte.x80; Byte.x84]; [Byte.xe2; Byte.x80; Byte.x85]; [Byte.xe2; Byte.x80; Byte.x86];
   [Byte.xe2; Byte.x80; Byte.x87]; [Byte.xe2; Byte.x80; Byte.x88]; [Byte.xe2; Byte.x80; Byte.x89];
   [Byte.xe2; Byte.x80; Byte.x8a]; [Byte.xe2; Byte.x80; Byte.xa8]; [Byte.xe2; Byte.x80; Byte.xa9];
   [Byte.xe2; Byte.x80; Byte.xaf]; [Byte.xe2; Byte.x81; Byte.x9f]; [Byte.xe3; Byte.x80; Byte.x80]].

(** Drop the given sequences from the front, as many as there are. *)
Fixpoint drop_seqs (seqs : list (list byte)) (fuel : nat) (bs : list byte) : list byte :=
  match fuel with
  | O => bs
  | S fuel =>
      match List.find (fun w => bool_decide (take (length w) bs = w)) seqs with
      | Some w => drop_seqs seqs fuel (drop (length w) bs)
      | None => bs
      end
  end.

(** [str::trim] *)
Definition trim (bs : list byte) : list byte :=
  let front := drop_seqs WHITESPACE (length bs) bs in
  reverse (drop_seqs (reverse <$> WHITESPACE) (length front) (reverse front)).

(** A line without its comment and the space around it. *)
Definition clean_line (raw : list byte) : list byte :=
  trim (match split_once 35 raw with Some (before, _) => before | None => raw end).

(** [value.strip_prefix('"').and_then(|v| v.strip_suffix('"'))] *)
Definition unquote (value : list byte) : option (list byte) :=
  match value with
  | b :: rest =>
      if byte.unsigned b =? 34 then
        match last rest with
        | Some e => if byte.unsigned e =? 34 then Some (take (length rest - 1) rest) else None
        | None => None
        end
      else None
  | [] => None
  end.

(** The values declared so far. *)
Record Declared : Type := mkDeclared { d_collector : option string; d_enabled : option bool }.

(** [{key:?}].  A character that Rust escapes starts with a backslash and never
    continues with what a message is searched for, so it is left as it is. *)
Definition quoted (s : string) : string :=
  let q := String.String (Ascii.ascii_of_nat 34) String.EmptyString in q +:+ s +:+ q.

Definition forbidden (b : byte) : bool :=
  let v := byte.unsigned b in (v =? 47) || (v =? 92) || (v =? 0).

Definition parse_line (d : Declared) (raw : list byte) : result Declared :=
  let line := clean_line raw in
  match line with
  | [] => Ok d
  | _ =>
      kv ← with_context (split_once 61 line) "line is not key = value";
      let key := bstr (trim kv.1) in
      let value := trim kv.2 in
      if String.eqb key "collector" then
        _ ← bail_if (bool_decide (is_Some (d_collector d))) "collector is declared more than once";
        id ← with_context (unquote value) "collector must be a quoted registered ID";
        _ ← bail_if ((length id =? 0)%nat || existsb forbidden id) "collector must be a registered ID";
        Ok (mkDeclared (Some (bstr id)) (d_enabled d))
      else if String.eqb key "enabled" then
        _ ← bail_if (bool_decide (is_Some (d_enabled d))) "enabled is declared more than once";
        b ← (if String.eqb (bstr value) "true" then Ok true
             else if String.eqb (bstr value) "false" then Ok false
             else Err "enabled must be true or false");
        Ok (mkDeclared (d_collector d) (Some b))
      else Err ("configuration key " +:+ quoted key +:+ " is not permitted")
  end.

Fixpoint parse_lines (d : Declared) (lines : list (list byte)) : result Declared :=
  match lines with
  | [] => Ok d
  | l :: lines => d ← parse_line d l; parse_lines d lines
  end.

Definition text_of_lines (text : list byte) : list (list byte) := split_lf [] text.

Definition parse_selection (text : list byte) : result Selection :=
  d ← parse_lines (mkDeclared None None) (text_of_lines text);
  id ← with_context (d_collector d) "missing collector";
  b ← with_context (d_enabled d) "missing enabled";
  _ ← bail_if (negb (bool_decide (is_Some (collector id)))) ("unknown registered collector " +:+ quoted id);
  Ok (mkSelection id b).

Definition configured_collector_id (text : list byte) : option string :=
  let candidate raw :=
    kv ← split_once 61 (clean_line raw);
    if String.eqb (bstr (trim kv.1)) "collector" then bstr <$> unquote (trim kv.2) else None in
  head (omap candidate (text_of_lines text)).

(** ** Diagnostics *)

Definition usdt_diagnostic (now : Z) (collector_id : string) (reason : ReasonCode)
    (context : list (string * json)) : BehaviorEvent :=
  mkEvent (mkHeader now 0 0 0 None "" None None None)
    (mkEventType "DIAGNOSTIC" "usdt.collector" "behavior") None
    (Some (foldl (fun o kv => json_insert kv.1 kv.2 o)
       (obj [("collector_id", JStr collector_id); ("reason_code", JStr (reason_as_str reason))]) context))
    None.

(** [text]: the file read once more, if it can be; [unknown]: whether the error
    is that of an unknown collector. *)
Definition selection_failure_diagnostic (now : Z) (text : option (list byte)) (unknown : bool) : BehaviorEvent :=
  usdt_diagnostic now (default "configuration" (text ≫= configured_collector_id))
    (if unknown then UnknownCollector else AbiIncompatible) [].

(** ** Targets *)

(** [Ok], a reason, or a panic of the reader. *)
Inductive verified : Type :=
| Verified (ps : list StapsdtProbe)
| Rejected (reason : ReasonCode)
| Panicked.

(** [data]: the bytes of the file, if it could be opened and read. *)
Definition verify_target (metadata : CollectorMetadata) (data : option (list byte)) : verified :=
  match data with
  | None => Rejected TargetBuildIdMismatch
  | Some data =>
  match elf_parse data with
  | Panic => Panicked
  | Fail _ => Rejected AbiIncompatible
  | Done elf =>
      if negb (machine elf =? elf_machine (architecture metadata)) then Rejected UnsupportedArchitecture else
      match build_id elf with
      | Panic => Panicked
      | Fail _ | Done None => Rejected TargetBuildIdMismatch
      | Done (Some id) =>
          if negb (existsb (fun expected => String.eqb expected id) (build_ids metadata))
          then Rejected TargetBuildIdMismatch else
          match stapsdt_probes elf with
          | Panic => Panicked
          | Fail _ => Rejected AbiIncompatible
          | Done ps =>
              let matching := List.filter (fun p => String.eqb (provider p) (col_provider metadata) &&
                                String.eqb (probe_name p) (col_probe metadata)) ps in
              match matching with
              | [] => Rejected ProbeNotFound
              | _ =>
                  if existsb (fun p => negb (String.eqb (operands p) (col_operands metadata))) matching
                  then Rejected AbiIncompatible
                  else if existsb (fun p => negb (semaphore_address p =? 0) &&
                                            bool_decide (semaphore_file_offset p = None)) matching
                  then Rejected SemaphoreUnavailable
                  else Verified matching
              end
          end
      end
  end
  end.

(** ** Attachment *)

(** The loader, the file descriptors of probes with a semaphore, and the links
    of the others that the programs keep: each by program and offset. *)
Record UsdtState : Type := mkUsdt {
  u_loader : Loader; semaphore_links : list (string * Z); uprobe_links : list (string * Z) }.

Definition set_loader (l : Loader) (s : UsdtState) : UsdtState :=
  mkUsdt l (semaphore_links s) (uprobe_links s).

Definition checkpoint (s : UsdtState) : nat := length (semaphore_links s).
Definition rollback (n : nat) (s : UsdtState) : UsdtState := 
  mkUsdt (u_loader s) (take n (semaphore_links s)) (uprobe_links s).

Definition update_usdt_report (f : AttachReport -> AttachReport) (s : UsdtState) : UsdtState :=
  set_loader (mkLoader (attached (u_loader s)) (f (report (u_loader s)))) s.

Definition program_name (metadata : CollectorMetadata) (i : nat) : option string :=
  if String.eqb (col_id metadata) TRAINING_SHELL_V3_ID
  then Some ("usdt_training_shell_v3_" +:+ dec_string (Z.of_nat i))
  else if String.eqb (col_id metadata) TRAINING_PEER_V1_ID
  then Some ("usdt_training_peer_v1_" +:+ dec_string (Z.of_nat i))
  else None.

Section Kernel.
(** Whether a program is in the object and loads; whether it attaches at an
    offset of the target, and with a semaphore; whether it detaches. *)
Context (loads : string -> bool) (attaches : string -> Z -> bool) (attaches_with : string -> Z -> Z -> bool)
        (detaches : string -> bool).
(** The bytes of the file at a path. *)
Context (read_target : string -> option (list byte)).

(** [program.attach(None, offset, path, None)], when the kernel accepts it.  The
    identity of a link is its position among the links. *)
Definition attach_uprobe (name : string) (offset : Z) (s : UsdtState) : nat * UsdtState :=
  (length (uprobe_links s),
   mkUsdt (mkLoader (attached (u_loader s) ++ [name]) (report (u_loader s))) (semaphore_links s)
     (uprobe_links s ++ [(name, offset)])).

(** [program.detach(link)], its error dropped.  The links are detached from the
    last to the first, so those before keep their positions. *)
Definition detach_quietly (s : UsdtState) (link : string * nat) : UsdtState :=
  let '(r, l) := detach detaches link.1 (u_loader s) in
  mkUsdt l (semaphore_links s)
    (match r with Ok _ => delete link.2 (uprobe_links s) | Err _ => uprobe_links s end).

(** The loop over the probes: [aya_links] are attached so far, [mark] is the
    checkpoint.  A program that does not load returns without the rollback. *)
Fixpoint attach_probes (metadata : CollectorMetadata) (mark : nat) (i : nat) (ps : list StapsdtProbe)
    (aya_links : list (string * nat)) (s : UsdtState) : bool * UsdtState :=
  match ps with
  | [] => (true, s)
  | p :: ps =>
      match program_name metadata i with
      | None => (false, s)
      | Some name =>
          if negb (loads name) then (false, s) else
          let undo := rollback mark (foldl detach_quietly s (reverse aya_links)) in
          match semaphore_file_offset p with
          | Some so =>
              if attaches_with name (file_offset p) so
              then attach_probes metadata mark (S i) ps aya_links
                     (mkUsdt (u_loader s) (semaphore_links s ++ [(name, file_offset p)]) (uprobe_links s))
              else (false, undo)
          | None =>
              if attaches name (file_offset p)
              then let '(link, s) := attach_uprobe name (file_offset p) s in
                   attach_probes metadata mark (S i) ps (aya_links ++ [(name, link)]) s
              else (false, undo)
          end
      end
  end.

(** The diagnostics; [None] is a panic. *)
Definition attach_selected (now : Z) (selection : Selection) (s : UsdtState)
    : option (list BehaviorEvent * UsdtState) :=
  let key := "usdt." +:+ collector_id selection in
  if negb (enabled selection) then Some ([usdt_diagnostic now (collector_id selection) Disabled []], s) else
  let s := update_usdt_report (insert_key key false) s in
  match collector (collector_id selection) with
  | None => Some ([usdt_diagnostic now (collector_id selection) UnknownCollector []], s)
  | Some metadata =>
      let at_path := [("target_path", JStr (target_path metadata))] in
      match verify_target metadata (read_target (target_path metadata)) with
      | Panicked => None
      | Rejected reason => Some ([usdt_diagnostic now (col_id metadata) reason at_path], s)
      | Verified ps =>
          let '(ok, s) :=
            if maximum_attach_points metadata <? len ps then (false, s)
            else attach_probes metadata (checkpoint s) 0 ps [] s in
          if ok then
            Some ([], update_usdt_report (fun r =>
                        insert_key key true (mkReport (probes r + wrap 32 (len ps)) (keys r))) s)
          else Some ([usdt_diagnostic now (col_id metadata) AttachFailed at_path], s)
      end
  end.

(** The end of [load_and_attach]: every selection in turn. *)
Fixpoint attach_selections (now : Z) (selections : list Selection) (s : UsdtState)
    : option (list BehaviorEvent * UsdtState) :=
  match selections with
  | [] => Some ([], s)
  | sel :: selections =>
      '(d, s) ← attach_selected now sel s;
      '(ds, s) ← attach_selections now selections s;
      Some (d ++ ds, s)
  end.
End Kernel.
