(* ===== verification/PerfAttach.v ===== *)
(** * Probes with a semaphore (bloodhound/src/usdt.rs)

    aya does not expose the reference counter of a uprobe, so the daemon opens
    such a probe itself: it fills in a [perf_event_attr], calls
    [perf_event_open], sets the BPF program and enables the event.  The open
    events of the kernel are a table from descriptors; what the kernel answers
    to each call is a parameter.  An owned descriptor is closed when it is
    dropped. *)

From S2P Require Import Prelude Layout Records Common Json Utf8 Event Usdt Bpf Loader Elf UsdtRegistry.

Local Open Scope string_scope.
Local Open Scope Z_scope.
Local Open Scope list_scope.
#[local] Obligation Tactic := idtac.

Module PerfEventAttr.
Record PerfEventAttr : Type := mk {
  type_ : Z; size : Z; config : Z; sample_period : Z; sample_type : Z; read_format : Z; flags : Z;
  wakeup_events : Z; bp_type : Z; config1 : Z; config2 : Z; _reserved : list Z }.

#[global] Program Instance repr : ReprC PerfEventAttr := {|
  layout := [FU 4; FU 4; FU 8; FU 8; FU 8; FU 8; FU 8; FU 4; FU 4; FU 8; FU 8; FUs 7 8]%nat;
  of_vals := fun v =>
    let '(type_, (size, (config, (sample_period, (sample_type, (read_format, (flags, (wakeup_events,
         (bp_type, (config1, (config2, (_reserved, tt)))))))))))) := v in
    mk type_ size config sample_period sample_type read_format flags wakeup_events bp_type config1 config2
      _reserved;
  to_vals := fun a =>
    (type_ a, (size a, (config a, (sample_period a, (sample_type a, (read_format a, (flags a,
    (wakeup_events a, (bp_type a, (config1 a, (config2 a, (_reserved a, tt)))))))))))) |}.
Next Obligation. by intros []. Qed.
Next Obligation. by intros; destruct_prod. Qed.
Next Obligation. solve_pos. Qed.
Abbreviation t := PerfEventAttr (only parsing).

(** The attribute of a uprobe, the other fields [Default::default()]. *)
Definition uprobe (pmu_type path_ptr probe_offset semaphore_offset : Z) : PerfEventAttr :=
  mk pmu_type (Z.of_nat (size_of PerfEventAttr)) (Z.shiftl semaphore_offset 32) 0 0 0 0 0 0
    path_ptr probe_offset (replicate 7 0).
End PerfEventAttr.

(** ** What the kernel makes of it *)

(** An open event: the attribute it was opened with, the BPF program, whether
    it is enabled. *)
Record PerfEvent : Type := mkPerf { pe_attr : list byte; pe_program : option Z; pe_enabled : bool }.

Abbreviation PerfTable := (gmap Z PerfEvent).

(** The answers: the file with the PMU type; the descriptor a call of
    [perf_event_open] returns, which the process does not use yet; the program's
    descriptor; the two requests. *)
Record PerfKernel : Type := mkPerfKernel {
  pmu_file : option (list byte);
  perf_open : list byte -> PerfTable -> option Z;
  program_fd : option Z;
  set_bpf : Z -> bool;
  enable : Z -> bool;
  open_fresh : forall attr t fd, perf_open attr t = Some fd -> t !! fd = None }.

(** The uprobe an attribute describes: the counter's offset is in the upper
    half of [config], the path is the string at [config1] in the memory of the
    caller. *)
Record Uprobe : Type := mkUprobe { up_pmu : Z; up_path : list byte; up_offset : Z; up_ref_ctr : Z }.

Definition uprobe_of (memory : Z -> list byte) (attr : list byte) : option Uprobe :=
  let a : PerfEventAttr.t := read_unaligned attr in
  if negb (PerfEventAttr.size a =? len attr) then None else
  Some (mkUprobe (PerfEventAttr.type_ a) (until_nul (memory (PerfEventAttr.config1 a)))
          (PerfEventAttr.config2 a) (Z.shiftr (PerfEventAttr.config a) 32)).

(** ** Attaching *)

(** [str::parse::<u32>] *)
Fixpoint decimal (acc : Z) (bs : list byte) : option Z :=
  match bs with
  | [] => Some acc
  | b :: bs =>
      let v := byte.unsigned b - 48 in
      if (0 <=? v) && (v <=? 9) then decimal (acc * 10 + v) bs else None
  end.
Definition parse_u32 (bs : list byte) : option Z :=
  let ds := match bs with b :: r => if byte.unsigned b =? 43 then r else bs | [] => [] end in
  match ds with
  | [] => None
  | _ => n ← decimal 0 ds; if n <=? U32_MAX then Some n else None
  end.

(** [CString::new]: the bytes with their terminator, if there is none inside. *)
Definition c_string (bs : list byte) : option (list byte) :=
  if existsb (byte_eqb NUL) bs then None else Some (bs ++ [NUL]).

Section Attach.
Context (k : PerfKernel).

Definition set_event (fd : Z) (e : PerfEvent) (t : PerfTable) : PerfTable := <[fd := e]> t.

(** Dropping the descriptor closes the event. *)
Definition drop_fd (fd : Z) (t : PerfTable) : PerfTable := delete fd t.

(** [path_ptr] is where the terminated path is in memory. *)
Definition attach_uprobe_with_semaphore (target : list byte) (path_ptr probe_offset semaphore_offset : Z)
    (pad : nat -> byte) (t : PerfTable) : result Z * PerfTable :=
  match pmu_file k with
  | None => (Err "reading uprobe PMU type", t)
  | Some text =>
      match parse_u32 (trim text) with
      | None => (Err "parsing uprobe PMU type", t)
      | Some pmu_type =>
          match c_string target with
          | None => (Err "encoding verified USDT target path", t)
          | Some _ =>
              let attr := as_bytes pad (PerfEventAttr.uprobe pmu_type path_ptr probe_offset semaphore_offset) in
              match perf_open k attr t with
              | None => (Err "opening semaphore-backed uprobe", t)
              | Some fd =>
                  let t := set_event fd (mkPerf attr None false) t in
                  match program_fd k with
                  | None => (Err "program is not loaded", drop_fd fd t)
                  | Some program_fd =>
                      if negb (set_bpf k fd) then
                        (Err "attaching BPF program to semaphore-backed uprobe", drop_fd fd t) else
                      let t := set_event fd (mkPerf attr (Some program_fd) false) t in
                      if negb (enable k fd) then (Err "enabling semaphore-backed uprobe", drop_fd fd t) else
                      (Ok fd, set_event fd (mkPerf attr (Some program_fd) true) t)
                  end
              end
          end
      end
  end.
End Attach.

(** [AttachmentLinks::rollback]: the descriptors after the checkpoint are
    dropped, from the front. *)
Definition rollback_links (checkpoint : nat) (links : list Z) (t : PerfTable) : list Z * PerfTable :=
  (take checkpoint links, foldl (fun t fd => drop_fd fd t) t (drop checkpoint links)).

(** ** Bounded values *)

Section Bounded.
Context `{Base64}.

Definition bounded_bytes (bytes : list byte) (capture_limit : Z) (observed_length : option Z) (truncated : bool) : json :=
  obj [("base64", JStr (b64_encode bytes)); ("capture_limit", JNum capture_limit);
       ("observed_length", match observed_length with Some n => JNum n | None => JNull end);
       ("truncated", JBool truncated)].

Definition bounded_utf8 (bytes : list byte) (capture_limit : Z) (truncated : bool) : json + ReasonCode :=
  if utf8_valid bytes then
    inl (obj [("value", JStr (bstr bytes)); ("capture_limit", JNum capture_limit); ("truncated", JBool truncated)])
  else inr AbiIncompatible.
End Bounded.

(** ** Facts *)

Lemma perf_attr_size : size_of PerfEventAttr.t = 128%nat.
Proof. reflexivity. Qed.

Lemma decimal_nonneg bs : forall acc n, 0 <= acc -> decimal acc bs = Some n -> 0 <= n.
Proof.
  induction bs as [|b bs IH]; intros acc n Ha; cbn; [by intros [= <-]|].
  destruct (((0 <=? byte.unsigned b - 48) && (byte.unsigned b - 48 <=? 9))%bool) eqn:E; [|done].
  apply andb_prop in E as [E _]. apply Z.leb_le in E. apply IH. lia.
Qed.

Lemma parse_u32_range bs n : parse_u32 bs = Some n -> in_u 32 n.
Proof.
  unfold parse_u32. destruct (match bs with [] => _ | b :: r => _ end) as [|d ds]; [done|].
  destruct (decimal 0 (d :: ds)) as [m|] eqn:E; [|done]. cbn.
  destruct (m <=? U32_MAX) eqn:El; [|done]. intros [= <-]. apply Z.leb_le in El.
  apply decimal_nonneg in E; [|lia]. unfold in_u, U32_MAX in *. lia.
Qed.

Lemma c_string_no_nul bs cs : c_string bs = Some cs -> (NUL ∉ bs) /\ cs = (bs ++ [NUL]).
Proof.
  unfold c_string. destruct (existsb (byte_eqb NUL) bs) eqn:E; [done|]. intros [= <-]. split; [|done].
  intros Hin. apply not_true_iff_false in E. apply E, List.existsb_exists. exists NUL.
  split; [by apply list_elem_of_In|done].
Qed.

Lemma uprobe_in_range pmu ptr off sem :
  in_u 32 pmu -> in_u 64 ptr -> in_u 64 off -> in_u 32 sem ->
  in_range (PerfEventAttr.uprobe pmu ptr off sem).
Proof.
  unfold in_u. intros H1 H2 H3 H4. unfold in_range, PerfEventAttr.uprobe. rewrite perf_attr_size.
  cbn [to_vals PerfEventAttr.repr layout vals_wf fst snd fwf PerfEventAttr.type_ PerfEventAttr.size
    PerfEventAttr.config PerfEventAttr.sample_period PerfEventAttr.sample_type PerfEventAttr.read_format
    PerfEventAttr.flags PerfEventAttr.wakeup_events PerfEventAttr.bp_type PerfEventAttr.config1
    PerfEventAttr.config2 PerfEventAttr._reserved]. unfold in_u.
  rewrite Z.shiftl_mul_pow2 by lia. cbn in *. repeat split; try lia. repeat constructor; lia.
Qed.

(** The kernel reads back what the daemon encoded. *)
Lemma uprobe_encoded pad memory pmu ptr off sem target rest :
  in_u 32 pmu -> in_u 64 ptr -> in_u 64 off -> in_u 32 sem ->
  NUL ∉ target -> memory ptr = target ++ [NUL] ++ rest ->
  uprobe_of memory (as_bytes pad (PerfEventAttr.uprobe pmu ptr off sem)) = Some (mkUprobe pmu target off sem).
Proof.
  intros H1 H2 H3 H4 Hn Hm. unfold uprobe_of.
  pose proof (read_as_bytes pad (PerfEventAttr.uprobe pmu ptr off sem) []) as E. rewrite app_nil_r in E.
  rewrite E by (by apply uprobe_in_range). rewrite len_as_bytes. unfold PerfEventAttr.uprobe. cbn [
    PerfEventAttr.type_ PerfEventAttr.size PerfEventAttr.config PerfEventAttr.config1 PerfEventAttr.config2].
  rewrite Z.eqb_refl. cbn [negb]. rewrite Hm. cbn [app]. rewrite until_nul_app_nul by done.
  unfold in_u in H4. by rewrite Z.shiftr_shiftl_l, Z.shiftl_0_r by lia.
Qed.

(** Attaching a probe with a semaphore.  On success the returned
    descriptor is new, its event runs the program and is enabled, and what the
    kernel reads from its 128-byte attribute is the uprobe at that offset of
    the target with that reference counter; no other event changes.  On every
    error, the ones after the event was opened included, the open events are
    exactly those from before. *)
Theorem semaphore_probe_attached k memory target ptr off sem pad rest t r t' :
  in_u 64 ptr -> in_u 64 off -> in_u 32 sem -> memory ptr = target ++ [NUL] ++ rest ->
  attach_uprobe_with_semaphore k target ptr off sem pad t = (r, t') ->
  (exists fd program pmu attr, r = Ok fd /\ t !! fd = None /\ program_fd k = Some program /\
     t' = <[fd := mkPerf attr (Some program) true]> t /\
     length attr = 128%nat /\ uprobe_of memory attr = Some (mkUprobe pmu target off sem)) \/
  (exists m, r = Err m /\ t' = t).
Proof.
  intros Hp Ho Hs Hm. unfold attach_uprobe_with_semaphore.
  destruct (pmu_file k) as [text|]; [|intros [= <- <-]; right; by eexists].
  destruct (parse_u32 (trim text)) as [pmu|] eqn:Eu; [|intros [= <- <-]; right; by eexists].
  destruct (c_string target) as [cs|] eqn:Ec; [|intros [= <- <-]; right; by eexists].
  apply c_string_no_nul in Ec as [Hn _]. apply parse_u32_range in Eu.
  destruct (perf_open k _ t) as [fd|] eqn:Ef; [|intros [= <- <-]; right; by eexists].
  apply open_fresh in Ef as Hfresh. unfold set_event, drop_fd.
  destruct (program_fd k) as [program|]; [|intros [= <- <-]; right; eexists; by rewrite delete_insert_id].
  destruct (set_bpf k fd); cbn [negb]; [|intros [= <- <-]; right; eexists; by rewrite delete_insert_id].
  rewrite insert_insert_eq. destruct (enable k fd); cbn [negb].
  2:{ intros [= <- <-]; right; eexists; by rewrite delete_insert_id. }
  rewrite insert_insert_eq. intros [= <- <-]. left. exists fd, program, pmu. eexists. do 3 (split; [done|]). split; [reflexivity|]. split.
  - by rewrite length_as_bytes, perf_attr_size.
  - by eapply uprobe_encoded.
Qed.

(** The events opened on some descriptors, in order. *)
Definition open_all (t : PerfTable) (l : list (Z * PerfEvent)) : PerfTable :=
  foldl (fun t p => set_event p.1 p.2 t) t l.

Lemma delete_open_all fd l : forall t, fd ∉ l.*1 -> delete fd (open_all t l) = open_all (delete fd t) l.
Proof.
  induction l as [|[f e] l IH]; intros t Hl; [done|]. cbn in *. apply not_elem_of_cons in Hl as [Hne Hl].
  rewrite IH by done. unfold set_event. by rewrite delete_insert_ne.
Qed.

(** Rolling back to a checkpoint closes exactly the events attached since. *)
Theorem rollback_closes old new t (opened : list PerfEvent) :
  NoDup new -> length opened = length new -> Forall (fun fd => t !! fd = None) new ->
  rollback_links (length old) (old ++ new) (open_all t (zip new opened)) = (old, t).
Proof.
  intros Hnd Hl Hf. unfold rollback_links. rewrite take_app_length, drop_app_length. f_equal.
  revert opened t Hl Hf. induction Hnd as [|fd new Hfd _ IH]; intros opened t Hl Hf; [by destruct opened|].
  destruct opened as [|e opened]; [done|]. apply Forall_cons in Hf as [Hft Hf]. cbn.
  unfold drop_fd at 2. rewrite delete_open_all by (rewrite fst_zip by (cbn in Hl; lia); done).
  unfold set_event. rewrite delete_insert_id by done. apply IH; [by injection Hl|done].
Qed.

(** A kernel that accepts everything, and one whose enable request fails. *)
Definition demo_open (_ : list byte) (t : PerfTable) : option Z :=
  match t !! 5 with None => Some 5 | Some _ => None end.

Lemma demo_open_fresh attr t fd : demo_open attr t = Some fd -> t !! fd = None.
Proof. unfold demo_open. destruct (t !! 5) eqn:E; [done|]. by intros [= <-]. Qed.

Definition demo_kernel (enables : bool) : PerfKernel :=
  mkPerfKernel (Some (str_bytes "8" ++ [Byte.x0a])) demo_open (Some 3) (fun _ => true) (fun _ => enables)
    demo_open_fresh.

Lemma semaphore_probe_attached_witness :
  (exists fd program pmu attr t', attach_uprobe_with_semaphore (demo_kernel true) [Byte.x61] 4096 64 16 (fun _ => NUL) ∅ = (Ok fd, t') /\
     program_fd (demo_kernel true) = Some program /\ t' = <[fd := mkPerf attr (Some program) true]> (∅ : PerfTable) /\
     uprobe_of (fun _ => [Byte.x61; NUL]) attr = Some (mkUprobe pmu [Byte.x61] 64 16)) /\
  (attach_uprobe_with_semaphore (demo_kernel false) [Byte.x61] 4096 64 16 (fun _ => NUL) ∅).2 = ∅.
Proof.
  split.
  - destruct (attach_uprobe_with_semaphore (demo_kernel true) [Byte.x61] 4096 64 16 (fun _ => NUL) ∅)
      as [r t'] eqn:E.
    assert (H := semaphore_probe_attached (demo_kernel true) (fun _ => [Byte.x61; NUL]) [Byte.x61] 4096 64 16
      (fun _ => NUL) [] ∅ r t' ltac:(unfold in_u; lia) ltac:(unfold in_u; lia) ltac:(unfold in_u; lia) eq_refl E).
    destruct H as [(fd & program & pmu & attr & -> & _ & Hp & Ht & _ & Hu)|(m & -> & _)].
    + exists fd, program, pmu, attr, t'. split; [reflexivity|]. split; [exact Hp|]. split; [exact Ht|exact Hu].
    + exfalso. vm_compute in E. discriminate E.
  - destruct (attach_uprobe_with_semaphore (demo_kernel false) [Byte.x61] 4096 64 16 (fun _ => NUL) ∅)
      as [r t'] eqn:E.
    assert (H := semaphore_probe_attached (demo_kernel false) (fun _ => [Byte.x61; NUL]) [Byte.x61] 4096 64 16
      (fun _ => NUL) [] ∅ r t' ltac:(unfold in_u; lia) ltac:(unfold in_u; lia) ltac:(unfold in_u; lia) eq_refl E).
    destruct H as [(fd & program & pmu & attr & -> & _)|(m & -> & ->)].
    + exfalso. vm_compute in E. discriminate E.
    + reflexivity.
Defined.

Lemma rollback_closes_witness :
  rollback_links 1 [9; 5; 6] (open_all ∅ [(5, mkPerf [] None true); (6, mkPerf [] None false)]) = ([9], ∅).
Proof.
  apply (rollback_closes [9] [5; 6] ∅ [mkPerf [] None true; mkPerf [] None false]).
  - apply (bool_decide_unpack _). vm_compute. exact I.
  - reflexivity.
  - repeat constructor.
Defined.
