(* ===== verification/Programs.v ===== *)
(** * The programs of the object, by name (bloodhound-ebpf/src, attached by loader.rs and usdt.rs)

    The loader asks the compiled object for programs by name; the object has a
    program per annotated function.  This file lists the functions with the
    handlers they run and shows that the two sides fit: every name the loader
    or a collector ever asks for is a program, and the pair it attaches for a
    syscall is the pair of handlers of that syscall. *)

From S2P Require Import Prelude Layout Records Common Json Event Usdt Deserializer Bpf Task Rich Interleave.
From S2P Require Import Loader Elf UsdtRegistry.

Local Open Scope string_scope.
Local Open Scope Z_scope.
Local Open Scope list_scope.

(** ** The functions *)

(** The two functions of a syscall. *)
Definition pair_of (name : string) (k : EventKind.t) : list (string * program) :=
  [("sys_enter_" +:+ name, SysEnter k); ("sys_exit_" +:+ name, SysExit k)].

Definition openat_programs : list (string * program) := pair_of "openat" EventKind.Openat.
Definition rw_programs : list (string * program) :=
  pair_of "read" EventKind.Read ++ pair_of "write" EventKind.Write.
Definition sockaddr_programs : list (string * program) :=
  pair_of "connect" EventKind.Connect ++ pair_of "bind" EventKind.Bind.
Definition listen_programs : list (string * program) := pair_of "listen" EventKind.Listen.
Definition socket_programs : list (string * program) := pair_of "socket" EventKind.Socket.
Definition clone_programs : list (string * program) :=
  pair_of "clone" EventKind.Clone ++ pair_of "clone3" EventKind.Clone3.
Definition path_programs : list (string * program) :=
  pair_of "chdir" EventKind.Chdir ++ pair_of "fchdir" EventKind.Fchdir ++
  pair_of "unlink" EventKind.Unlink ++ pair_of "unlinkat" EventKind.Unlinkat ++
  pair_of "rmdir" EventKind.Rmdir ++ pair_of "mkdir" EventKind.Mkdir ++ pair_of "mkdirat" EventKind.Mkdirat ++
  pair_of "symlink" EventKind.Symlink ++ pair_of "symlinkat" EventKind.Symlinkat ++
  pair_of "link" EventKind.Link ++ pair_of "linkat" EventKind.Linkat ++
  pair_of "rename" EventKind.Rename ++ pair_of "renameat2" EventKind.Renameat2 ++
  pair_of "chmod" EventKind.Chmod ++ pair_of "fchmod" EventKind.Fchmod ++ pair_of "fchmodat" EventKind.Fchmodat ++
  pair_of "chown" EventKind.Chown ++ pair_of "fchown" EventKind.Fchown ++ pair_of "fchownat" EventKind.Fchownat ++
  pair_of "truncate" EventKind.Truncate ++ pair_of "ftruncate" EventKind.Ftruncate ++
  pair_of "mount" EventKind.Mount ++ pair_of "umount2" EventKind.Umount2 ++
  pair_of "sendto" EventKind.Sendto ++ pair_of "recvfrom" EventKind.Recvfrom.
Definition dup_programs : list (string * program) :=
  pair_of "dup" EventKind.Dup ++ pair_of "dup2" EventKind.Dup2 ++ pair_of "dup3" EventKind.Dup3 ++
  pair_of "fcntl" EventKind.Fcntl.
Definition prw_programs : list (string * program) :=
  pair_of "pread64" EventKind.Pread64 ++ pair_of "pwrite64" EventKind.Pwrite64.
Definition rwv_programs : list (string * program) :=
  pair_of "readv" EventKind.Readv ++ pair_of "writev" EventKind.Writev.
Definition mmap_programs : list (string * program) := pair_of "mmap" EventKind.Mmap.
Definition sendfile_programs : list (string * program) :=
  pair_of "sendfile" EventKind.Sendfile ++ pair_of "splice" EventKind.Splice.

Definition tier2_programs : list (string * program) :=
  openat_programs ++ rw_programs ++ sockaddr_programs ++ listen_programs ++ socket_programs ++
  clone_programs ++ path_programs ++ dup_programs ++ prw_programs ++ rwv_programs ++ mmap_programs ++
  sendfile_programs.

(** The other layers. *)
Definition layer_programs : list (string * program) :=
  [("sys_enter_execve", ExecveEnter); ("sys_exit_execve", ExecExit);
   ("sys_enter_execveat", ExecveatEnter); ("sys_exit_execveat", ExecExit);
   ("raw_sys_enter", RawSysEnter); ("raw_sys_exit", RawSysExit);
   ("tty_write_probe", TtyWriteProbe); ("tty_read_probe", TtyReadProbe); ("tty_read_ret_probe", TtyReadRetProbe);
   ("sched_process_fork", ProcessFork); ("sched_process_exit", ProcessExit);
   ("sched_process_free", ProcessFree); ("signal_generate", SignalGenerate)].

Definition lsm_programs : list (string * program) :=
  [("task_kill", LsmHook EventKind.LsmTaskKill); ("bpf_hook", LsmHook EventKind.LsmBpf);
   ("ptrace_access_check", LsmHook EventKind.LsmPtraceAccessCheck);
   ("file_open", LsmHook EventKind.LsmFileOpen); ("inode_unlink", LsmHook EventKind.LsmInodeUnlink);
   ("inode_rename", LsmHook EventKind.LsmInodeRename); ("task_fix_setuid", LsmHook EventKind.LsmTaskFixSetuid)].

(** [shell_attach_point!] and [peer_attach_point!], eight of each *)
Definition shell_programs : list (string * program) :=
  (fun i : nat => ("usdt_training_shell_v3_" +:+ dec_string (Z.of_nat i), UsdtShell (Z.of_nat i))) <$> seq 0 8.
Definition peer_programs : list (string * program) :=
  (fun i : nat => ("usdt_training_peer_v1_" +:+ dec_string (Z.of_nat i), UsdtPeer (Z.of_nat i))) <$> seq 0 8.

Definition object_programs : list (string * program) :=
  tier2_programs ++ layer_programs ++ lsm_programs ++ shell_programs ++ peer_programs.

(** [bpf.program_mut(name)] *)
Definition object_program (name : string) : option program :=
  snd <$> List.find (fun p : string * program => String.eqb p.1 name) object_programs.
Definition in_object (name : string) : Prop := is_Some (object_program name).

(** ** Everything the loader attaches *)

(** A computation that only attaches programs of the object. *)
Definition attaches_known {A} (m : LM A) : Prop :=
  forall s, Forall in_object (attached s) -> Forall in_object (attached (m s).2).

Create HintDb known discriminated.

Lemma known_bind {A B} (m : LM A) (f : A -> LM B) :
  attaches_known m -> (forall a, attaches_known (f a)) -> attaches_known (m ≫= f).
Proof.
  intros Hm Hf s Hs. specialize (Hm s Hs). unfold mbind, LM_bind.
  destruct (m s) as [[a|e] s1]; [|done]. by apply Hf.
Qed.
Lemma known_ret {A} (a : A) : attaches_known (mret a).
Proof. by intros s Hs. Qed.
Lemma known_throw {A} (r : result A) : attaches_known (throw r).
Proof. by intros s Hs. Qed.
Lemma known_report f : attaches_known (update_report f).
Proof. by intros s Hs. Qed.
Lemma known_get_report : attaches_known get_report.
Proof. by intros s Hs. Qed.
Lemma known_contextual {A} msg (m : LM A) : attaches_known m -> attaches_known (contextual msg m).
Proof. intros Hm s Hs. specialize (Hm s Hs). unfold contextual. by destruct (m s) as [[] ?]. Qed.
Lemma known_result_of {A} (m : LM A) : attaches_known m -> attaches_known (result_of m).
Proof. intros Hm s Hs. specialize (Hm s Hs). unfold result_of. by destruct (m s). Qed.
Lemma known_attach error name target : in_object name -> attaches_known (attach_program error name target).
Proof.
  intros Hn s Hs. unfold attach_program. destruct (error name target); [done|]. cbn.
  apply Forall_app. by split; [|apply Forall_cons].
Qed.
Lemma known_detach detaches link : attaches_known (detach detaches link).
Proof.
  intros s Hs. unfold detach. destruct (detaches link); [|done]. cbn. apply Forall_forall.
  intros n [Hn _]%list_elem_of_In%List.filter_In. rewrite Forall_forall in Hs. by apply Hs, list_elem_of_In.
Qed.
#[local] Hint Resolve known_bind known_ret known_throw known_report known_get_report known_contextual
  known_result_of known_attach known_detach : known.

#[local] Opaque object_program.

Section Attached.
Context (error : string -> string -> option string) (detaches : string -> bool).

Lemma known_pair {L} (attach_exit : LM L) attach_enter detach_exit :
  attaches_known attach_exit -> attaches_known attach_enter -> (forall l, attaches_known (detach_exit l)) ->
  attaches_known (attach_pair attach_exit attach_enter detach_exit).
Proof.
  intros H1 H2 H3. unfold attach_pair. apply known_bind; [done|]. intros l.
  apply known_bind; [auto with known|]. intros [x|m]; [auto with known|].
  apply known_bind; [auto with known|]. intros _. apply known_bind; auto with known.
Qed.

Lemma known_syscall_pair name tracepoint_name :
  in_object ("sys_enter_" +:+ name) -> in_object ("sys_exit_" +:+ name) ->
  attaches_known (attach_syscall_pair error detaches name tracepoint_name).
Proof.
  intros H1 H2. apply known_pair; unfold attach_tracepoint; cbn [fst]; auto with known.
Qed.

Lemma known_required key m : attaches_known m -> attaches_known (required key m).
Proof. intros Hm. unfold required. auto with known. Qed.

Lemma known_try_pair name tracepoint_name key :
  in_object ("sys_enter_" +:+ name) -> in_object ("sys_exit_" +:+ name) ->
  attaches_known (try_attach_syscall_pair error detaches name tracepoint_name key).
Proof.
  intros H1 H2. unfold try_attach_syscall_pair.
  apply known_bind; [apply known_result_of, known_syscall_pair; assumption|]. auto with known.
Qed.

Lemma known_kprobe name fn : in_object name -> attaches_known (try_attach_kprobe error name fn).
Proof. intros Hn. unfold try_attach_kprobe, attach_kprobe. auto with known. Qed.

Lemma known_raw name target : in_object name -> attaches_known (attach_raw_tracepoint error name target).
Proof. intros Hn. unfold attach_raw_tracepoint. auto with known. Qed.

Lemma known_tier2 syscalls :
  Forall (fun t => in_object ("sys_enter_" +:+ t2_name t) /\ in_object ("sys_exit_" +:+ t2_name t)) syscalls ->
  attaches_known (attach_tier2 error detaches syscalls).
Proof.
  induction 1 as [|t ts [H1 H2] _ IH]; cbn [attach_tier2]; [auto with known|].
  apply known_bind; [apply known_try_pair; assumption|intros _; exact IH].
Qed.

Lemma known_lsm btf hooks :
  Forall (fun p : string * string => in_object p.1) hooks -> attaches_known (attach_lsm_hooks error btf hooks).
Proof.
  induction 1 as [|[n hk] ps Hn _ IH]; cbn [attach_lsm_hooks]; [auto with known|].
  apply known_bind; [|intros r; apply known_bind; auto with known].
  apply known_result_of. destruct btf; [|auto with known]. unfold attach_lsm. auto with known.
Qed.
End Attached.

#[local] Transparent object_program.

Lemma listed name : existsb (String.eqb name) (object_programs.*1) = true -> in_object name.
Proof.
  intros (n & Hn & E%String.eqb_eq)%List.existsb_exists. subst n. unfold in_object, object_program.
  destruct (List.find _ object_programs) as [p|] eqn:Ef; [by eexists|].
  apply list_elem_of_In, list_elem_of_fmap in Hn as ([n q] & -> & Hn%list_elem_of_In).
  apply (List.find_none _ _ Ef) in Hn. cbn in Hn. by rewrite String.eqb_refl in Hn.
Qed.

(** A literal name of the object. *)
Ltac named := apply listed; vm_compute; reflexivity.

Lemma tier2_named :
  Forall (fun t => in_object ("sys_enter_" +:+ t2_name t) /\ in_object ("sys_exit_" +:+ t2_name t)) TIER2.
Proof.
  apply Forall_forall. intros t Ht.
  assert (H : forallb (fun t => existsb (String.eqb ("sys_enter_" +:+ t2_name t)) (object_programs.*1) &&
                                existsb (String.eqb ("sys_exit_" +:+ t2_name t)) (object_programs.*1)) TIER2 = true)
    by (vm_compute; reflexivity).
  rewrite List.forallb_forall in H. apply list_elem_of_In, H, andb_prop in Ht as [H1 H2].
  by split; apply listed.
Qed.

Lemma selected_named args :
  Forall (fun t => in_object ("sys_enter_" +:+ t2_name t) /\ in_object ("sys_exit_" +:+ t2_name t))
    (selected_tier2 args).
Proof.
  unfold selected_tier2. apply Forall_forall. intros t Ht.
  apply list_elem_of_In, List.filter_In in Ht as [Ht _].
  apply (proj1 (Forall_forall _ _) tier2_named). by apply list_elem_of_In.
Qed.

Lemma known_layers error detaches args : attaches_known (attach_layers error detaches args).
Proof.
  unfold attach_layers. apply known_bind.
  { apply known_required. apply known_bind; [apply known_raw; named|intros _].
    apply known_bind; [apply known_raw; named|intros _]. apply known_raw; named. }
  intros _. apply known_bind; [apply known_required, known_raw; named|intros _].
  apply known_bind; [apply known_required, known_syscall_pair; named|intros _].
  apply known_bind; [apply known_try_pair; named|intros _]. apply known_bind.
  { apply known_required, known_pair; unfold attach_tracepoint; cbn [fst]; [apply known_attach; named| |auto with known].
    apply known_bind; [apply known_attach; named|auto with known]. }
  intros _. apply known_tier2, selected_named.
Qed.

Lemma known_tty error detaches offsets : attaches_known (attach_tty_read_pair error detaches offsets).
Proof.
  unfold attach_tty_read_pair. apply known_bind.
  - apply known_result_of, known_pair; unfold attach_kprobe; [apply known_attach; named| |auto with known].
    apply known_bind; [apply known_attach; named|auto with known].
  - intros x. apply known_bind; [auto with known|intros _]. apply known_bind; auto with known.
Qed.

Lemma known_load error detaches args size tty btf :
  attaches_known (load_and_attach error detaches args size tty btf).
Proof.
  unfold load_and_attach. destruct (negb _); [auto with known|].
  apply known_bind; [auto with known|]. intros exclusion. apply known_bind; [apply known_layers|]. intros _.
  apply known_bind; [auto with known|]. intros r. apply known_bind; [auto with known|]. intros tier2.
  apply known_bind; [apply known_kprobe; named|]. intros ok. apply known_bind; [auto with known|]. intros _.
  apply known_bind; [apply known_result_of, known_tty|]. intros _. apply known_bind; [|auto with known].
  destruct (enable_lsm args); [|auto with known]. apply known_lsm.
  repeat (apply Forall_cons; split; [named|]). by apply Forall_nil.
Qed.

(** The daemon decodes records of kind [k], and decodes them as events of the
    syscall [name]. *)
Definition decoded_as `{Base64} (k : EventKind.t) (name : string) : Prop :=
  (exists payload capture, is_ok (parse_kind k payload capture) = true) /\
  forall payload capture ty nm layer args rc,
    parse_kind k payload capture = Ok (ty, nm, layer, args, rc) -> ty = "TRACEPOINT" /\ nm = name.

(** The program of a collector's attach point. *)
Definition attach_point_program (id : string) (i : nat) : option program :=
  if String.eqb id "training-shell-v3" then Some (UsdtShell (Z.of_nat i))
  else if String.eqb id "training-peer-v1" then Some (UsdtPeer (Z.of_nat i)) else None.

Ltac decodes :=
  intros payload capture ty nm layer args rc;
  cbv delta [parse_kind parse_openat parse_read_write parse_connect_bind parse_listen parse_socket parse_clone
    parse_path_event parse_two_path_event parse_fd_event parse_sendto_recvfrom parse_dup parse_pread_pwrite
    parse_readv_writev parse_mmap parse_sendfile_splice];
  cbv beta iota; unfold mbind, result_bind, bail_if;
  repeat case_match; intros; simplify_eq; done.

Lemma tier2_decoded `{Base64} t k :
  t ∈ TIER2 -> object_program ("sys_enter_" +:+ t2_name t) = Some (SysEnter k) -> decoded_as k (t2_name t).
Proof.
  intros Ht. revert k.
  assert (H0 : Forall (fun t => forall k, object_program ("sys_enter_" +:+ t2_name t) = Some (SysEnter k) ->
    decoded_as k (t2_name t)) TIER2); [|by apply (proj1 (Forall_forall _ _) H0)].
  repeat (apply Forall_cons; split; [intros k E; vm_compute in E; injection E as <-; cbn [t2_name]; split|]);
    [..|by apply Forall_nil].
  all: try decodes.
  all: eexists (replicate 200 NUL), (HeaderCapture.mk 0 0 0); vm_compute; reflexivity.
Qed.

(** C19: the names on the two sides of the object.  Whatever the kernel accepts,
    every program the loader has attached is one of the object, none is asked
    for under a wrong name.  For every Tier 2 syscall the two names the loader
    builds denote the entry and the exit program of one kind of event, both
    implemented, and the daemon decodes that kind as the syscall of that name.
    Every attach point of a collector is that collector's program of that
    number. *)
Theorem attached_programs_exist `{Base64} error detaches args size tty btf :
  (forall l, Forall in_object (attached l) ->
     Forall in_object (attached (load_and_attach error detaches args size tty btf l).2)) /\
  Forall (fun t => exists k, object_program ("sys_enter_" +:+ t2_name t) = Some (SysEnter k) /\
     object_program ("sys_exit_" +:+ t2_name t) = Some (SysExit k) /\ decoded_as k (t2_name t) /\
     forall g h, is_Some (sys_enter g h k) /\ is_Some (sys_exit g h k)) TIER2 /\
  (forall id metadata i, collector id = Some metadata -> Z.of_nat i < maximum_attach_points metadata ->
     exists n p, program_name metadata i = Some n /\ attach_point_program id i = Some p /\
       object_program n = Some p).
Proof.
  split_and!.
  - apply known_load.
  - assert (H0 : Forall (fun t => exists k, object_program ("sys_enter_" +:+ t2_name t) = Some (SysEnter k) /\
      object_program ("sys_exit_" +:+ t2_name t) = Some (SysExit k) /\
      forall g h, is_Some (sys_enter g h k) /\ is_Some (sys_exit g h k)) TIER2).
    { repeat (apply Forall_cons; split; [eexists; split; [vm_compute; reflexivity|];
        split; [vm_compute; reflexivity|intros g h; split; by eexists]|]). by apply Forall_nil. }
    rewrite Forall_forall in H0 |- *. intros t Ht. destruct (H0 t Ht) as (k & E1 & E2 & Hk).
    exists k. split_and!; [done|done|by apply tier2_decoded|done].
  - intros id metadata i Hc Hi. apply List.find_some in Hc as [Hin Hid%String.eqb_eq]. subst id.
    assert (Hi8 : (i < 8)%nat) by (destruct Hin as [<-|[<-|[]]]; cbn in Hi; lia).
    destruct Hin as [<-|[<-|[]]]; do 2 eexists; (split; [reflexivity|]; split; [reflexivity|]);
      do 8 (destruct i as [|i]; [vm_compute; reflexivity|]); lia.
Qed.
