(* ===== verification/CollectorFacts.v ===== *)
(** * Which probes are attached

    A configuration can only select what is compiled in, a target is attached
    only when everything about it was verified, and an attachment that fails
    leaves nothing behind when its programs load. *)

From S2P Require Import Prelude Bytes Utf8 Json Event Usdt Elf ElfFacts Layout Records Common Btf Bpf Loader UsdtRegistry.

#[local] Set Warnings "-clear-no-such-hyp".
Local Open Scope string_scope.
Local Open Scope Z_scope.
Local Open Scope list_scope.

(** ** Targets *)

(** Everything the daemon demands of a target before it attaches [ps]. *)
Record target_ok (metadata : CollectorMetadata) (data : list byte) (ps : list StapsdtProbe) : Prop := {
  t_view : exists elf id all, elf_parse data = Done elf /\ machine elf = elf_machine (architecture metadata) /\
    build_id elf = Done (Some id) /\ id ∈ build_ids metadata /\ stapsdt_probes elf = Done all /\
    ps = List.filter (fun p => String.eqb (provider p) (col_provider metadata) &&
                               String.eqb (probe_name p) (col_probe metadata)) all /\
    Forall (probe_sound elf) ps;
  t_some : ps <> [];
  t_operands : Forall (fun p => operands p = col_operands metadata) ps }.

Lemma existsb_negb_forall {A} (f : A -> bool) l :
  existsb (fun x => negb (f x)) l = false -> Forall (fun x => f x = true) l.
Proof.
  induction l as [|x l IH]; cbn; [done|]. intros [H1 H2]%orb_false_iff. apply negb_false_iff in H1.
  constructor; [done|by apply IH].
Qed.

Lemma Forall_List_filter {A} (P : A -> Prop) f (l : list A) : Forall P l -> Forall P (List.filter f l).
Proof. induction 1 as [|x l Hx _ IH]; cbn; [done|]. case_match; [by constructor|done]. Qed.

Lemma verify_target_sound metadata data ps :
  verify_target metadata (Some data) = Verified ps -> target_ok metadata data ps.
Proof.
  unfold verify_target. destruct (elf_parse data) as [elf|e|] eqn:Eelf; try done.
  destruct (Z.eqb_spec (machine elf) (elf_machine (architecture metadata))) as [Em|]; [|done]. cbn [negb].
  destruct (build_id elf) as [[id|]|e|] eqn:Eid; try done.
  destruct (existsb _ (build_ids metadata)) eqn:Ein; [|done]. cbn [negb].
  destruct (stapsdt_probes elf) as [all|e|] eqn:Eall; try done.
  set (matching := List.filter _ all). destruct matching as [|p qs] eqn:Ematch; [done|]. rewrite <- Ematch.
  case_goal; [done|]. case_goal; [done|]. rename E into Eops.
  intros [= <-]. apply existsb_negb_forall in Eops. constructor.
  - exists elf, id, all. split_and!; try done.
    + apply existsb_exists in Ein as (x & Hx & ->%String.eqb_eq). by apply list_elem_of_In.
    + apply Forall_List_filter. apply (stapsdt_probes_sound elf); [by apply (elf_parse_count data)|done].
  - by rewrite Ematch.
  - eapply Forall_impl; [exact Eops|]. cbn. by intros q ->%String.eqb_eq.
Qed.


(** The reason for a semaphore without a file offset is never given: the note
    reader has failed before, and the target is reported as incompatible. *)
Theorem semaphore_unavailable_unreachable metadata data :
  verify_target metadata data <> Rejected SemaphoreUnavailable.
Proof.
  unfold verify_target. destruct data as [data|]; [|done].
  destruct (elf_parse data) as [elf|e|] eqn:Eelf; try done.
  destruct (negb _); [done|]. destruct (build_id elf) as [[id|]|e|]; try done.
  destruct (negb _); [done|]. destruct (stapsdt_probes elf) as [all|e|] eqn:Eall; try done.
  set (matching := List.filter _ all).
  assert (Hs : Forall (probe_sound elf) matching).
  { apply Forall_List_filter. apply (stapsdt_probes_sound elf); [by apply (elf_parse_count data)|done]. }
  destruct matching as [|p qs] eqn:Ematch; [done|]. rewrite <- Ematch in *.
  destruct (existsb _ matching); [done|]. destruct (existsb _ matching) eqn:Esem; [|done].
  apply existsb_exists in Esem as (q & Hq & [H1 H2]%andb_true_iff). apply bool_decide_eq_true in H2.
  rewrite Forall_forall in Hs. apply list_elem_of_In in Hq. destruct (Hs q Hq) as [_ Hsem].
  rewrite H2 in Hsem. by rewrite Hsem in H1.
Qed.

(** Whatever the file, the verification does not panic as long as its program
    headers have the size the format gives them. *)
Theorem verification_never_panics metadata data elf :
  elf_parse data = Done elf -> headers_long elf -> verify_target metadata (Some data) <> Panicked.
Proof.
  intros He Hl. unfold verify_target. rewrite He. destruct (negb _); [done|].
  pose proof (build_id_no_panic elf) as Hb. destruct (build_id elf) as [[id|]|e|]; try done.
  destruct (negb _); [done|]. pose proof (stapsdt_probes_no_panic elf Hl) as Hs.
  destruct (stapsdt_probes elf) as [all|e|]; try done. by repeat case_match.
Qed.

(** ** Selections *)

(** A line of the configuration, once cleaned. *)
Inductive declaration : Type := DCollector (id : string) | DEnabled (b : bool).

(** What a line declares: nothing when it is blank, [None] when it is wrong. *)
Definition declares (raw : list byte) : option (list declaration) :=
  match clean_line raw with
  | [] => Some []
  | line =>
      kv ← split_once 61 line;
      let key := bstr (trim kv.1) in
      let value := trim kv.2 in
      if String.eqb key "collector" then
        id ← unquote value;
        if (length id =? 0)%nat || existsb forbidden id then None else Some [DCollector (bstr id)]
      else if String.eqb key "enabled" then
        if String.eqb (bstr value) "true" then Some [DEnabled true]
        else if String.eqb (bstr value) "false" then Some [DEnabled false] else None
      else None
  end.

(** What the lines declare, in order; [None] when one is wrong. *)
Fixpoint declarations (lines : list (list byte)) : option (list declaration) :=
  match lines with
  | [] => Some []
  | l :: lines => d ← declares l; ds ← declarations lines; Some (d ++ ds)
  end.

(** Adding declarations to those made. *)
Fixpoint declare (d : Declared) (ds : list declaration) : option Declared :=
  match ds with
  | [] => Some d
  | DCollector id :: ds =>
      match d_collector d with Some _ => None | None => declare (mkDeclared (Some id) (d_enabled d)) ds end
  | DEnabled b :: ds =>
      match d_enabled d with Some _ => None | None => declare (mkDeclared (d_collector d) (Some b)) ds end
  end.

Lemma parse_line_declares d raw d' :
  parse_line d raw = Ok d' <-> exists ds, declares raw = Some ds /\ declare d ds = Some d'.
Proof.
  unfold parse_line, declares. destruct (clean_line raw) as [|b line]; [cbn; naive_solver|].
  destruct (split_once 61 (b :: line)) as [[k v]|]; cbn [with_context mbind result_bind option_bind fst snd]; [|naive_solver].
  destruct (String.eqb (bstr (trim k)) "collector").
  - destruct (d_collector d) eqn:Ec; cbn [bail_if mbind result_bind].
    + split; [done|]. intros (ds & H & Hd). destruct (unquote (trim v)); cbn in H; [|done].
      destruct (_ || _); [done|]. injection H as <-. cbn in Hd. by rewrite Ec in Hd.
    + destruct (unquote (trim v)) as [id|]; cbn [with_context mbind result_bind option_bind]; [|naive_solver].
      destruct (_ || _); cbn [bail_if mbind result_bind]; [naive_solver|].
      split; [intros [= <-]; eexists; split; [done|]; cbn; by rewrite Ec|].
      intros (ds & [= <-] & H). cbn in H. rewrite Ec in H. by injection H as <-.
  - destruct (String.eqb (bstr (trim k)) "enabled"); [|naive_solver].
    destruct (d_enabled d) eqn:Ee; cbn [bail_if mbind result_bind].
    + split; [done|]. intros (ds & H & Hd). repeat (case_match; try done); injection H as <-; cbn in Hd; by rewrite Ee in Hd.
    + repeat (case_match; cbn [mbind result_bind]); try naive_solver;
        (split; [intros [= <-]; eexists; split; [done|]; cbn; by rewrite Ee|];
         intros (ds & [= <-] & H'); cbn in H'; rewrite Ee in H'; by injection H' as <-).
Qed.

Lemma declare_app d a b : declare d (a ++ b) = d' ← declare d a; declare d' b.
Proof.
  revert d. induction a as [|[id|e] a IH]; intros d; cbn; [done| |].
  - by destruct (d_collector d).
  - by destruct (d_enabled d).
Qed.

Lemma parse_lines_declarations d lines d' :
  parse_lines d lines = Ok d' <-> exists ds, declarations lines = Some ds /\ declare d ds = Some d'.
Proof.
  revert d. induction lines as [|l lines IH]; intros d; cbn [parse_lines declarations]; [cbn; naive_solver|].
  rewrite result_bind_ok. setoid_rewrite parse_line_declares. setoid_rewrite IH. split.
  - intros (d1 & (a & Ea & Ha) & b & Eb & Hb). exists (a ++ b). rewrite Ea, Eb. split; [done|].
    by rewrite declare_app, Ha.
  - intros (ds & E & Hd). destruct (declares l) as [a|]; cbn in E; [|done].
    destruct (declarations lines) as [b|]; cbn in E; [|done]. injection E as <-.
    rewrite declare_app in Hd. destruct (declare d a) as [d1|] eqn:Ea; cbn in Hd; [|done].
    exists d1. split; [by exists a|by exists b].
Qed.

(** Declaring both, each once. *)
Lemma declare_both ds id b :
  declare (mkDeclared None None) ds = Some (mkDeclared (Some id) (Some b)) <->
  ds = [DCollector id; DEnabled b] \/ ds = [DEnabled b; DCollector id].
Proof.
  split; [|intros [-> | ->]; done].
  destruct ds as [|[i|e] [|[i'|e'] [|[|] ds]]]; cbn; try done; intros [= <- <-]; auto.
Qed.

(** The configuration is exactly a declaration of a registered
    collector and of whether it is enabled, each once and in either order, with
    comments and blank lines: any other key, a repeated or missing one, or an
    identifier that is not compiled in is refused. *)
Theorem selection_exact text id b :
  parse_selection text = Ok (mkSelection id b) <->
  (declarations (text_of_lines text) = Some [DCollector id; DEnabled b] \/
   declarations (text_of_lines text) = Some [DEnabled b; DCollector id]) /\ is_Some (collector id).
Proof.
  unfold parse_selection. rewrite result_bind_ok. split.
  - intros (d & Hd & H). ok_inv. simplify_eq.
    match goal with H : negb _ = false |- _ => apply negb_false_iff, bool_decide_eq_true in H end.
    split; [|done]. apply parse_lines_declarations in Hd as (ds & -> & Hd).
    destruct d as [oc oe]. cbn in *. simplify_eq. apply declare_both in Hd as [-> | ->]; auto.
  - intros (Hd & Hc). exists (mkDeclared (Some id) (Some b)). split.
    + apply parse_lines_declarations. destruct Hd as [Hd|Hd]; eexists; (split; [exact Hd|done]).
    + cbn. by rewrite bool_decide_true.
Qed.

(** ** Attachment *)

Section Attachment.
Context (loads : string -> bool) (attaches : string -> Z -> bool) (attaches_with : string -> Z -> Z -> bool)
        (detaches : string -> bool) (read_target : string -> option (list byte)).
Context (Hloads : forall name, loads name = true) (Hdetaches : forall name, detaches name = true).

Definition links_count (s : UsdtState) : nat := (length (attached (u_loader s)) + length (semaphore_links s))%nat.

(** Detaching from the last link to the first leaves those before. *)
Lemma delete_links {A} (l : list A) (aya : list (string * nat)) n :
  aya.*2 = seq n (length aya) -> length l = (n + length aya)%nat ->
  foldl (fun l (x : string * nat) => delete x.2 l) l (reverse aya) = take n l.
Proof.
  revert l. induction aya as [|x aya IH] using rev_ind; intros l Hs Hl.
  { cbn in *. by rewrite take_ge by lia. }
  rewrite length_app in Hs, Hl. cbn [length] in Hs, Hl. rewrite seq_app, fmap_app in Hs.
  apply app_inj_2 in Hs as [Hs Hx]; [|done]. injection Hx as Hx. rewrite reverse_snoc. cbn [foldl].
  rewrite Hx. assert (E : delete (n + length aya)%nat l = take (n + length aya) l).
  { rewrite delete_take_drop, (drop_ge l) by lia. apply app_nil_r. }
  rewrite E, IH; [|done|rewrite length_take; lia]. rewrite take_take. f_equal. lia.
Qed.

Lemma detach_all s (l : list (string * nat)) :
  let s' := foldl (detach_quietly detaches) s l in
  attached (u_loader s') = List.filter (fun p => negb (existsb (String.eqb p) l.*1)) (attached (u_loader s)) /\
  report (u_loader s') = report (u_loader s) /\ semaphore_links s' = semaphore_links s /\
  uprobe_links s' = foldl (fun k (x : string * nat) => delete x.2 k) (uprobe_links s) l.
Proof.
  revert s. induction l as [|x l IH]; intros s; cbn [foldl].
  { split; [|done]. cbn. induction (attached (u_loader s)) as [|y ys IHy]; [done|]. cbn. by rewrite <- IHy. }
  destruct (IH (detach_quietly detaches s x)) as (E1 & E2 & E3 & E4). rewrite E1, E2, E3, E4.
  assert (Hx : detach_quietly detaches s x = mkUsdt (mkLoader
    (List.filter (fun p => negb (String.eqb p x.1)) (attached (u_loader s))) (report (u_loader s)))
    (semaphore_links s) (delete x.2 (uprobe_links s)))
    by (unfold detach_quietly, detach; by rewrite Hdetaches).
  rewrite Hx. cbn [u_loader attached report semaphore_links uprobe_links]. split; [|done].
  clear E1 E2 E3 E4 Hx. induction (attached (u_loader s)) as [|y ys IHy]; [done|]. cbn. destruct (String.eqb y x.1); cbn; [done|].
  case_match; by rewrite IHy.
Qed.

(** What the loop adds to: links of before, and those of this collector. *)
Record attaching (metadata : CollectorMetadata) (s0 : UsdtState) (aya : list (string * nat)) (s : UsdtState) : Prop := {
  at_names : Forall (fun n => exists i, program_name metadata i = Some n) aya.*1;
  at_attached : attached (u_loader s) = attached (u_loader s0) ++ aya.*1;
  at_report : report (u_loader s) = report (u_loader s0);
  at_links : exists l, semaphore_links s = semaphore_links s0 ++ l;
  at_ids : aya.*2 = seq (length (uprobe_links s0)) (length aya);
  at_uprobes : exists l, uprobe_links s = uprobe_links s0 ++ l /\ length l = length aya }.

Lemma rollback_restores metadata s0 aya s :
  (forall i n, program_name metadata i = Some n -> n ∉ attached (u_loader s0)) -> attaching metadata s0 aya s ->
  rollback (checkpoint s0) (foldl (detach_quietly detaches) s (reverse aya)) = s0.
Proof.
  intros Hf [Hn Ha Hr [l Hl] Hi (u & Hu & Hul)]. destruct (detach_all s (reverse aya)) as (E1 & E2 & E3 & E4).
  rewrite (delete_links _ _ (length (uprobe_links s0))) in E4; [|done|rewrite Hu, length_app; lia].
  destruct (foldl _ s _) as [[att rep] links ups]. cbn in E1, E2, E3, E4. unfold rollback, checkpoint. cbn.
  assert (Hatt : att = attached (u_loader s0)).
  { rewrite E1, Ha, List.filter_app, fmap_reverse.
    assert (Hin : forall p, existsb (String.eqb p) (reverse aya.*1) = true <-> p ∈ aya.*1).
    { intros p. rewrite existsb_exists. setoid_rewrite <- list_elem_of_In. setoid_rewrite elem_of_reverse.
      split; [by intros (x & Hx & ->%String.eqb_eq)|]. intros. exists p. by rewrite String.eqb_refl. }
    rewrite (List.filter_ext_in _ (fun _ => true) (attached (u_loader s0))), (List.filter_ext_in _ (fun _ => false) aya.*1).
    - assert (Ht : forall k : list string, List.filter (fun _ => true) k = k /\ List.filter (fun _ => false) k = [])
        by (intros k; induction k as [|y k [IH1 IH2]]; cbn; [done|]; by rewrite IH1).
      destruct (Ht (attached (u_loader s0))) as [-> _], (Ht aya.*1) as [_ ->]. apply app_nil_r.
    - intros p Hp%list_elem_of_In. rewrite (proj2 (Hin p) Hp). done.
    - intros p Hp%list_elem_of_In. apply negb_true_iff, not_true_iff_false. rewrite Hin. intros Hpa.
      rewrite Forall_forall in Hn. destruct (Hn p Hpa) as [i Hpi]. by apply (Hf i p). }
  rewrite E2, Hr, Hatt, E3, Hl, take_app_length, E4, Hu, take_app_length. by destruct s0 as [[]].
Qed.

(** The links that carry the probes from the [i]-th on. *)
Definition linked (metadata : CollectorMetadata) (i : nat) (ps : list StapsdtProbe) (s : UsdtState) : Prop :=
  forall j p n, ps !! j = Some p -> program_name metadata (i + j) = Some n ->
    (n, file_offset p) ∈ match semaphore_file_offset p with
                         | Some _ => semaphore_links s
                         | None => uprobe_links s
                         end.
Definition keeps_links (s s' : UsdtState) : Prop :=
  (exists l, semaphore_links s' = semaphore_links s ++ l) /\ (exists l, uprobe_links s' = uprobe_links s ++ l).

Lemma linked_first metadata i p ps name s s' :
  program_name metadata i = Some name -> keeps_links s s' ->
  (name, file_offset p) ∈ match semaphore_file_offset p with
                          | Some _ => semaphore_links s | None => uprobe_links s end ->
  linked metadata (S i) ps s' -> linked metadata i (p :: ps) s'.
Proof.
  intros Hn [[l1 H1] [l2 H2]] Hp Hl [|j] q n Hq Hname; cbn in Hq.
  - injection Hq as <-. rewrite Nat.add_0_r, Hn in Hname. injection Hname as <-. rewrite H1, H2.
    destruct (semaphore_file_offset p); apply elem_of_app; by left.
  - apply (Hl j); [done|]. by replace (S i + j)%nat with (i + S j)%nat by lia.
Qed.

Lemma keeps_trans s1 s2 s3 : keeps_links s1 s2 -> keeps_links s2 s3 -> keeps_links s1 s3.
Proof.
  intros [[l1 H1] [u1 U1]] [[l2 H2] [u2 U2]]. split; [exists (l1 ++ l2)|exists (u1 ++ u2)].
  - by rewrite H2, H1, app_assoc.
  - by rewrite U2, U1, app_assoc.
Qed.

Lemma attach_probes_spec metadata s0 i ps aya s ok s' :
  (forall i n, program_name metadata i = Some n -> n ∉ attached (u_loader s0)) ->
  (forall i, is_Some (program_name metadata i)) -> attaching metadata s0 aya s ->
  attach_probes loads attaches attaches_with detaches metadata (checkpoint s0) i ps aya s = (ok, s') ->
  if ok then report (u_loader s') = report (u_loader s0) /\ links_count s' = (links_count s + length ps)%nat /\
    keeps_links s s' /\ linked metadata i ps s'
  else s' = s0.
Proof.
  intros Hf Hp. revert i aya s. induction ps as [|p ps IH]; intros i aya s Hat; cbn [attach_probes].
  { intros [= <- <-]. split_and!; [apply Hat|cbn; lia|split; exists []; by rewrite app_nil_r|done]. }
  destruct (Hp i) as [name Hname]. rewrite Hname, Hloads. cbn [negb].
  destruct (semaphore_file_offset p) as [so|] eqn:Eso;
    [destruct (attaches_with name (file_offset p) so)|destruct (attaches name (file_offset p))];
    try (intros [= <- <-]; by apply (rollback_restores metadata s0 aya s)).
  all: cbn [attach_uprobe]; set (s1 := mkUsdt _ _ _); intros H';
    assert (Hk : keeps_links s s1)
      by (split; [eexists; first [reflexivity|symmetry; apply app_nil_r]..]);
    eapply IH in H' as Hr.
  1,3: destruct ok; [|done]; destruct Hr as (-> & -> & Hk' & Hl);
    split_and!; [done|unfold links_count; cbn; rewrite length_app; cbn; lia|by eapply keeps_trans|];
    eapply linked_first; [done|exact Hk'| |done]; rewrite Eso; apply elem_of_app; right; by left.
  - destruct Hat as [Hn Ha Hr' [l Hl] Hi Hu]. constructor; cbn; try done. exists (l ++ [(name, file_offset p)]).
    by rewrite Hl, <- app_assoc.
  - destruct Hat as [Hn Ha Hr' Hl Hi (u & Hu & Hul)]. constructor; cbn; rewrite ?fmap_app; cbn; try done.
    + apply Forall_app. split; [done|]. repeat constructor. by exists i.
    + by rewrite Ha, <- app_assoc.
    + rewrite length_app, seq_app, Hi. cbn. by rewrite Hu, length_app, Hul.
    + exists (u ++ [(name, file_offset p)]). rewrite Hu, <- app_assoc, !length_app. cbn. by rewrite Hul.
Qed.

Lemma program_name_registered id metadata :
  collector id = Some metadata -> forall i, is_Some (program_name metadata i).
Proof.
  intros Hc i. apply List.find_some in Hc as [Hin _].
  destruct Hin as [<-|[<-|[]]]; unfold program_name; cbn; by eexists.
Qed.

(** C23: attaching a collector whose programs load and detach is all or
    nothing: either every probe of a verified target is attached, the program
    of its number at its offset, the report counts them and says the collector
    is available, and there is no diagnostic; or nothing is attached that was not before, there is exactly
    one diagnostic, and the report does not say that an enabled collector is
    available. *)
Theorem attachment_all_or_nothing now sel s ds s' :
  (forall metadata i n, collector (collector_id sel) = Some metadata -> program_name metadata i = Some n ->
     n ∉ attached (u_loader s)) ->
  attach_selected loads attaches attaches_with detaches read_target now sel s = Some (ds, s') ->
  let key := "usdt." +:+ collector_id sel in
  let r := report (u_loader s) in
  let r' := report (u_loader s') in
  (ds = [] /\ keys r' !! key = Some true /\
   exists metadata data ps, collector (collector_id sel) = Some metadata /\
     read_target (target_path metadata) = Some data /\ target_ok metadata data ps /\
     links_count s' = (links_count s + length ps)%nat /\ linked metadata 0 ps s' /\ probes r' = probes r + wrap 32 (len ps)) \/
  (length ds = 1%nat /\ attached (u_loader s') = attached (u_loader s) /\ semaphore_links s' = semaphore_links s /\
   uprobe_links s' = uprobe_links s /\ probes r' = probes r /\ (enabled sel = true -> keys r' !! key = Some false)).
Proof.
  intros Hf H key r r'. unfold attach_selected in H. destruct (enabled sel); cbn [negb] in H.
  2:{ injection H as <- <-. right. done. }
  set (s1 := update_usdt_report (insert_key ("usdt." +:+ collector_id sel) false) s) in H.
  assert (Hk : keys (report (u_loader s1)) !! key = Some false) by (cbn; by rewrite lookup_insert_eq).
  destruct (collector (collector_id sel)) as [metadata|] eqn:Ec; [|injection H as <- <-; right; done].
  destruct (read_target (target_path metadata)) as [data|] eqn:Ed.
  2:{ injection H as <- <-. right. done. }
  destruct (verify_target metadata (Some data)) as [ps|reason|] eqn:Ev; [|injection H as <- <-; right; done|done].
  apply verify_target_sound in Ev.
  destruct (maximum_attach_points metadata <? len ps); [injection H as <- <-; right; done|].
  destruct (attach_probes loads attaches attaches_with detaches metadata (checkpoint s1) 0 ps [] s1) as [ok s2] eqn:Ea.
  apply (attach_probes_spec metadata s1) in Ea; [|intros i n Hn; by apply (Hf metadata i n)
    |by apply (program_name_registered (collector_id sel))|by constructor; cbn; [| |done|exists []| |exists []]; rewrite ?app_nil_r].
  destruct ok; injection H as <- <-.
  - left. destruct Ea as (Er & El & _ & Hl). split; [done|]. cbn. rewrite lookup_insert_eq. split; [done|].
    exists metadata, data, ps. split_and!; try done. by rewrite Er.
  - right. subst s2. done.
Qed.
End Attachment.
