(* ===== verification/CollectorDemo.v ===== *)
(** * A probe target

    A small ELF file of the registered shell collector, on which the theorems
    about targets and attachment are instantiated, and two files and kernels on
    which the code misbehaves. *)

From S2P Require Import Prelude Bytes Utf8 Json Event Usdt Elf ElfFacts Layout Records Common Btf Bpf Loader UsdtRegistry CollectorFacts.

Local Open Scope string_scope.
Local Open Scope Z_scope.
Local Open Scope list_scope.

Definition w (n : nat) (z : Z) : list byte := enc_word true n z.
Definition cstr (s : string) : list byte := str_bytes s ++ [NUL].

Definition demo_names : list byte :=
  [NUL] ++ cstr ".shstrtab" ++ cstr ".note.gnu.build-id" ++ cstr ".note.stapsdt".

Definition demo_build_id : list byte :=
  byte.of_Z <$> [0x11; 0x22; 0x33; 0x44; 0x55; 0x66; 0x77; 0x88; 0x99; 0x00; 0xaa; 0xbb; 0xcc; 0xdd; 0xee; 0xff;
                 0x00; 0x11; 0x22; 0x33].
Definition build_note : Note := mkNote "GNU" 3 demo_build_id.

(** A probe at an address, with the address of its semaphore. *)
Definition probe_note (location semaphore : Z) : Note :=
  mkNote "stapsdt" 3 (w 8 location ++ w 8 0 ++ w 8 semaphore ++ cstr "abyss0_shell" ++
    cstr "simple_command_completed" ++ cstr "8@%rdi 8@%rsi 8@%rdx 8@%rcx 8@%r8 8@%r9").

Definition demo_probes : list byte := enc_notes true [probe_note 0x400010 0; probe_note 0x400020 0x400800].

(** One loadable segment: the first 4096 bytes at 0x400000. *)
Definition program_header : list byte :=
  w 4 1 ++ w 4 5 ++ w 8 0 ++ w 8 0x400000 ++ w 8 0x400000 ++ w 8 4096 ++ w 8 4096 ++ w 8 4096.

Definition section_header (name offset size : Z) : list byte :=
  w 4 name ++ w 4 1 ++ w 8 0 ++ w 8 0 ++ w 8 offset ++ w 8 size ++ w 4 0 ++ w 4 0 ++ w 8 1 ++ w 8 0.

(** The file, with program headers said to be [phentsize] long. *)
Definition demo_file (phentsize : Z) : list byte :=
  let notes := enc_notes true [build_note] in
  let o1 := 64 + len program_header in
  let o2 := o1 + len demo_names in
  let o3 := o2 + len notes in
  let o4 := o3 + len demo_probes in
  (ELF_MAGIC ++ [Byte.x02; Byte.x01; Byte.x01] ++ zeros 9 ++ w 2 2 ++ w 2 62 ++ w 4 1 ++ w 8 0x400000 ++ w 8 64 ++
   w 8 o4 ++ w 4 0 ++ w 2 64 ++ w 2 phentsize ++ w 2 1 ++ w 2 64 ++ w 2 4 ++ w 2 1) ++
  program_header ++ demo_names ++ notes ++ demo_probes ++
  section_header 0 0 0 ++ section_header 1 o1 (len demo_names) ++ section_header 11 o2 (len notes) ++
  section_header 30 o3 (len demo_probes).

Definition shell_collector : CollectorMetadata := nth 0 REGISTRY (mkCollector "" X86_64 "" [] "" "" 0 0 "" []).

Definition demo_found : list StapsdtProbe :=
  match verify_target shell_collector (Some (demo_file 56)) with Verified ps => ps | _ => [] end.

Lemma demo_target_accepted : verify_target shell_collector (Some (demo_file 56)) = Verified demo_found.
Proof. vm_compute. reflexivity. Qed.

Example demo_offsets : (fun p => (file_offset p, semaphore_file_offset p)) <$> demo_found =
  [(0x10, None); (0x20, Some 0x800)].
Proof. vm_compute. reflexivity. Qed.

Lemma notes_roundtrip_witness :
  parse_notes (enc_notes true [build_note; probe_note 1 2]) true = Done [build_note; probe_note 1 2].
Proof. apply notes_roundtrip; [apply (bool_decide_unpack _); vm_compute; exact I|vm_compute; discriminate]. Defined.


Definition demo_view : ElfView :=
  match elf_parse (demo_file 56) with Done e => e | _ => mkElf [] 0 true 0 0 0 0 0 0 0 0 end.

Lemma verification_never_panics_witness : verify_target shell_collector (Some (demo_file 56)) <> Panicked.
Proof.
  apply (verification_never_panics shell_collector (demo_file 56) demo_view); vm_compute; [reflexivity|discriminate].
Defined.

(** ** Selecting and attaching *)

Definition demo_config : list byte :=
  str_bytes "# the shell" ++ [Byte.x0a] ++ str_bytes "enabled = true " ++ [Byte.x0a] ++
  str_bytes "collector = " ++ [Byte.x22] ++ str_bytes "training-shell-v3" ++ [Byte.x22].

Definition demo_selection : Selection := mkSelection TRAINING_SHELL_V3_ID true.

Lemma selection_exact_witness : parse_selection demo_config = Ok demo_selection.
Proof. apply selection_exact. split; [right; vm_compute; reflexivity|vm_compute; by eexists]. Defined.

Definition demo_read (file : list byte) (path : string) : option (list byte) :=
  if String.eqb path (target_path shell_collector) then Some file else None.

Definition yes1 (_ : string) : bool := true.
Definition yes2 (_ : string) (_ : Z) : bool := true.
Definition yes3 (_ : string) (_ _ : Z) : bool := true.

Definition started : UsdtState := mkUsdt (mkLoader ["sys_enter_execve"] report_default) [] [].

Definition attach_demo (loads : string -> bool) : list BehaviorEvent * UsdtState :=
  default ([], started)
    (attach_selected loads yes2 yes3 yes1 (demo_read (demo_file 56)) 0 demo_selection started).

Lemma demo_attached :
  attach_selected yes1 yes2 yes3 yes1 (demo_read (demo_file 56)) 0 demo_selection started =
  Some ([], (attach_demo yes1).2) /\ links_count (attach_demo yes1).2 = 3%nat.
Proof. vm_compute. done. Qed.

Lemma shell_program_names i n :
  program_name shell_collector i = Some n -> exists m, n = "usdt_training_shell_v3_" +:+ m.
Proof. intros H. exists (dec_string (Z.of_nat i)). cbn in H. congruence. Qed.

Lemma attachment_all_or_nothing_witness :
  keys (report (u_loader (attach_demo yes1).2)) !! "usdt.training-shell-v3" = Some true.
Proof.
  destruct (attachment_all_or_nothing yes1 yes2 yes3 yes1 (demo_read (demo_file 56)) (fun _ => eq_refl)
    (fun _ => eq_refl) 0 demo_selection started [] (attach_demo yes1).2) as [(_ & Hk & _)|(Hl & _)].
  - intros metadata i n Hc Hn Hin. injection Hc as <-.
    apply shell_program_names in Hn as [m ->]. apply list_elem_of_singleton in Hin. discriminate Hin.
  - apply demo_attached.
  - exact Hk.
  - discriminate Hl.
Defined.

(** ** Misbehaviour *)

(** A file whose build id is right and whose program headers are said to be 32
    bytes long stops the daemon. *)
Theorem short_program_headers_panic :
  verify_target shell_collector (Some (demo_file 32)) = Panicked.
Proof. vm_compute. reflexivity. Qed.

(** When the second program does not load, the first probe stays attached
    although the collector is reported as unavailable. *)
Definition second_missing (name : string) : bool := negb (String.eqb name "usdt_training_shell_v3_1").

Theorem load_failure_leaves_probe :
  attached (u_loader (attach_demo second_missing).2) = ["sys_enter_execve"; "usdt_training_shell_v3_0"] /\
  keys (report (u_loader (attach_demo second_missing).2)) !! "usdt.training-shell-v3" = Some false /\
  length (attach_demo second_missing).1 = 1%nat.
Proof. vm_compute. done. Qed.
