(* ===== verification/Startup.v ===== *)
(** * Startup (bloodhound/src/main.rs, cli.rs, ready.rs, clock.rs)

    Everything [main] does before the concurrent part: the options are checked,
    the configuration files are read, the programs are loaded and attached, and
    the readiness event is built.  Files, clocks and the kernel are parameters;
    the cadence option is an IEEE double. *)

From Stdlib Require Import SpecFloat.
From S2P Require Import Prelude Layout Records Common Json Utf8 Event Usdt Deserializer Lifecycle Sequencer.
From S2P Require Import Bpf Btf Loader Elf UsdtRegistry.

Local Open Scope string_scope.
Local Open Scope Z_scope.
Local Open Scope list_scope.

(** ** The cadence (cli.rs) *)

Definition f64 : Type := spec_float.
Definition f64_mul : f64 -> f64 -> f64 := SFmul 53 1024.

(** [1000.0] *)
Definition THOUSAND : f64 := S754_finite false 8796093022208000 (-43).

(** [f64::round]: to the nearest integer, halves away from zero; [None] when
    the value is not finite. *)
Definition f64_round (x : f64) : option Z :=
  match x with
  | S754_zero _ => Some 0
  | S754_finite neg m e =>
      let magnitude :=
        if 0 <=? e then Zpos m * 2 ^ e else (Zpos m + 2 ^ (- e - 1)) / 2 ^ (- e) in
      Some (if neg then - magnitude else magnitude)
  | _ => None
  end.

(** [x.is_finite() && x >= 0.0] *)
Definition finite_nonnegative (x : f64) : bool :=
  match x with S754_zero _ | S754_finite false _ _ => true | _ => false end.

(** [x == 0.0] *)
Definition is_zero (x : f64) : bool := match x with S754_zero _ => true | _ => false end.

Definition heartbeat_interval_ms (seconds : f64) : result Z :=
  match f64_round (f64_mul seconds THOUSAND) with
  | Some millis =>
      if finite_nonnegative seconds && (millis <=? U32_MAX) && (is_zero seconds || (1 <=? millis))
      then Ok millis else Err "invalid --heartbeat-interval"
  | None => Err "invalid --heartbeat-interval"
  end.

(** ** Facts (ready.rs, clock.rs) *)

(** [u8::is_ascii_hexdigit] *)
Definition is_ascii_hexdigit (b : byte) : bool :=
  let v := byte.unsigned b in
  ((48 <=? v) && (v <=? 57)) || ((97 <=? v) && (v <=? 102)) || ((65 <=? v) && (v <=? 70)).

(** [text]: the kernel's file, if it could be read. *)
Definition boot_id (text : option (list byte)) : result string :=
  text ← with_context text "reading kernel boot ID";
  let value := trim text in
  let ok i b := if bool_decide (i ∈ [8; 13; 18; 23]%nat) then byte.unsigned b =? 45
                else is_ascii_hexdigit b in
  _ ← bail_if (negb ((length value =? 36)%nat && forallb id (imap ok value))) "invalid kernel boot ID";
  Ok (bstr value).

Definition NSFS_MAGIC : Z := 0x6e736673.

(** [fs_type]: what [fstatfs] of the opened file says; [dev]: its metadata. *)
Definition nsfs_dev_of (opened : bool) (fs_type dev : option Z) : option Z :=
  if negb opened then None else
  t ← fs_type;
  if negb (t =? NSFS_MAGIC) then None else dev.

(** [monotonic_now_ns]; [None] is the panic. *)
Definition monotonic_now_ns (rc tv_sec tv_nsec : Z) : option Z :=
  if negb (rc =? 0) then None else
  if (tv_sec <? 0) || (tv_nsec <? 0) then None else
  let base := tv_sec * 1000000000 in
  if U64_MAX <? base then None else
  if U64_MAX <? base + tv_nsec then None else Some (base + tv_nsec).

(** ** Selections *)

(** [text]: the file at the path, if it could be read as UTF-8.  An error is the
    chain as [{:#}] renders it, the cause after the context; the cause of a file
    that cannot be read, the text of the kernel's error, is left out. *)
Definition load_selection (path : string) (text : option (list byte)) : result Selection :=
  text ← with_context text ("reading trusted USDT configuration " +:+ path);
  match parse_selection text with
  | Ok selection => Ok selection
  | Err cause => Err ("validating trusted USDT configuration " +:+ path +:+ ": " +:+ cause)
  end.

(** [str::contains] *)
Definition contains (text s : string) : bool :=
  match String.index 0 s text with Some _ => true | None => false end.

(** Whether the rendered chain names an unknown collector. *)
Definition is_unknown_collector (msg : string) : bool := contains msg "unknown registered collector".

(** ** The environment *)

Record Args : Type := mkArgs {
  a_cli : Cli; a_heartbeat_interval : f64; a_usdt_config : list string }.

(** What startup reads and what the kernel and aya answer. *)
Record Env : Type := mkEnv {
  env_page_size : Z;                               (* sysconf(_SC_PAGESIZE) *)
  env_boot_id : option (list byte);
  env_pid : Z;
  env_config : string -> option (list byte);       (* read_to_string *)
  env_config_again : string -> option (list byte); (* the same, for the diagnostic *)
  env_now : Z;
  env_offsets : result TaskStructOffsets;          (* btf_offsets::resolve *)
  env_object : result unit;                        (* EbpfLoader::load *)
  env_ring_size : result Z;                        (* ring_buffer_size *)
  env_attach_error : string -> string -> option string;
  env_detaches : string -> bool;
  env_btf : bool;
  env_loads : string -> bool;
  env_attaches : string -> Z -> bool;
  env_attaches_with : string -> Z -> Z -> bool;
  env_read_target : string -> option (list byte);
  env_nsfs_dev : option Z }.

(** What [main] holds when it starts its tasks. *)
Record Running : Type := mkRunning {
  r_ready : BehaviorEvent; r_diagnostics : list BehaviorEvent; r_usdt : UsdtState;
  r_globals : Globals; r_interval_ms : Z }.

(** An error, a panic, or the running daemon. *)
Inductive start_result : Type :=
| StartErr (msg : string)
| StartPanic
| Started (r : Running).

Section Startup.
Context `{Base64} (env : Env) (writes : list BehaviorEvent -> BehaviorEvent -> bool) (flushes : bool).

(** The loop over the configuration files: the first bad one is reported on the
    admission path, the line is flushed, and startup ends. *)
Fixpoint load_selections (paths : list string) (q : Sequencer) : result (list Selection) * Sequencer :=
  match paths with
  | [] => (Ok [], q)
  | path :: paths =>
      match load_selection path (env_config env path) with
      | Ok selection =>
          match load_selections paths q with
          | (Ok selections, q) => (Ok (selection :: selections), q)
          | (Err m, q) => (Err m, q)
          end
      | Err error =>
          let event := selection_failure_diagnostic (env_now env) (env_config_again env path)
                         (is_unknown_collector error) in
          match accept (fun _ => env_now env) writes (Synthesized event) q with
          | (Err m, q) => (Err m, q)
          | (Ok _, q) => (Err (if flushes then error else "flush failed"), q)
          end
      end
  end.

(** [load_and_attach], whole: the checks before the object is loaded, the
    programs, then the USDT selections.  [None] is a panic. *)
Definition load_all (args : Cli) (selections : list Selection)
    : option (result (list BehaviorEvent * UsdtState * Globals)) :=
  match validate_selections selections, env_offsets env, env_object env, env_ring_size env with
  | Err m, _, _, _ | Ok _, Err m, _, _ | Ok _, Ok _, Err m, _ | Ok _, Ok _, Ok _, Err m => Some (Err m)
  | Ok _, Ok offsets, Ok _, Ok size =>
      match load_and_attach (env_attach_error env) (env_detaches env) args size (Btf.tty offsets)
              (env_btf env) (mkLoader [] report_default) with
      | (Err m, _) => Some (Err m)
      | (Ok _, l) =>
          match attach_selections (env_loads env) (env_attaches env) (env_attaches_with env)
                  (env_detaches env) (env_read_target env) (env_now env) selections (mkUsdt l [] []) with
          | None => None
          | Some (ds, u) => Some (Ok (ds, u, loader_globals args (env_pid env) offsets))
          end
      end
  end.

Definition start (args : Args) (q : Sequencer) : start_result * Sequencer :=
  let cli := a_cli args in
  if env_page_size env <=? 0 then (StartErr "failed to determine system page size", q) else
  match validate_ring_buffer_size (ring_buffer_size cli) (env_page_size env),
        heartbeat_interval_ms (a_heartbeat_interval args), boot_id (env_boot_id env) with
  | Err m, _, _ | Ok _, Err m, _ | Ok _, Ok _, Err m => (StartErr m, q)
  | Ok _, Ok ms, Ok boot =>
      match load_selections (a_usdt_config args) q with
      | (Err m, q) => (StartErr m, q)
      | (Ok selections, q) =>
          match load_all cli selections with
          | None => (StartPanic, q)
          | Some (Err m) => (StartErr m, q)
          | Some (Ok (ds, u, globals)) =>
              match env_ring_size env with
              | Err m => (StartErr m, q)
              | Ok size =>
                  let ready := ready_event (env_now env) (report (u_loader u)) size (env_nsfs_dev env)
                                 (mkFacts boot (uid cli) (env_pid env) ms) in
                  (Started (mkRunning ready ds u globals ms), q)
              end
          end
      end
  end.
End Startup.
