(* ===== verification/StartupFacts.v ===== *)
(** * Facts about startup

    The cadence is the nearest number of milliseconds; a failed startup leaves
    at most the one line that says which configuration was refused; a
    successful one leaves stdout to the readiness event. *)

From Stdlib Require Import SpecFloat.
From S2P Require Import Prelude Layout Records Common Json Utf8 Event Usdt Deserializer Lifecycle Sequencer.
From S2P Require Import Bpf Btf Loader Elf UsdtRegistry Admission Startup.

Local Open Scope string_scope.
Local Open Scope Z_scope.
Local Open Scope list_scope.

(** ** The cadence *)

(** [n] is a nearest integer of the double [x]. *)
Definition nearest (x : f64) (n : Z) : Prop :=
  match x with
  | S754_zero _ => n = 0
  | S754_finite false m e =>
      if 0 <=? e then n = Zpos m * 2 ^ e else 2 * Z.abs (n * 2 ^ (- e) - Zpos m) <= 2 ^ (- e)
  | _ => False
  end.

Lemma round_half_up m d : 0 < d -> 2 * Z.abs ((m + d) / (2 * d) * (2 * d) - m) <= 2 * d.
Proof.
  intros Hd. pose proof (Z.mod_pos_bound (m + d) (2 * d) ltac:(lia)).
  pose proof (Z.div_mod (m + d) (2 * d) ltac:(lia)). lia.
Qed.

Lemma magnitude_nonneg m e :
  0 <= (if 0 <=? e then Zpos m * 2 ^ e else (Zpos m + 2 ^ (- e - 1)) / 2 ^ (- e)).
Proof.
  destruct (Z.leb_spec 0 e).
  - apply Z.mul_nonneg_nonneg; [lia|apply Z.pow_nonneg; lia].
  - apply Z.div_pos; [pose proof (Z.pow_nonneg 2 (- e - 1)); lia|apply Z.pow_pos_nonneg; lia].
Qed.

Lemma round_nearest x n : f64_round x = Some n -> 1 <= n -> nearest x n.
Proof.
  destruct x as [s|s| |neg m e]; cbn; intros [= <-] Hn; try lia.
  pose proof (magnitude_nonneg m e) as Hp. destruct neg; [lia|].
  destruct (Z.leb_spec 0 e); [done|].
  assert (Hd : 2 ^ (- e) = 2 * 2 ^ (- e - 1)).
  { rewrite <- Z.pow_succ_r by lia. f_equal. lia. }
  rewrite Hd. apply round_half_up. apply Z.pow_pos_nonneg; lia.
Qed.

(** C32: an accepted cadence is the number of milliseconds nearest to a
    thousand times the option in double arithmetic, it fits 32 bits, and it is
    zero exactly when the option is a zero: no positive cadence is rounded to
    the value that turns heartbeats off. *)
Theorem cadence_quantized seconds ms :
  heartbeat_interval_ms seconds = Ok ms ->
  in_u 32 ms /\ nearest (f64_mul seconds THOUSAND) ms /\ (ms = 0 <-> is_zero seconds = true).
Proof.
  unfold heartbeat_interval_ms. destruct (f64_round _) as [millis|] eqn:Er; [|done].
  intros Hif. destruct (finite_nonnegative seconds && _ && _) eqn:Eg; [|done]. injection Hif as ->.
  rewrite !andb_true_iff, orb_true_iff, !Z.leb_le in Eg. destruct Eg as [[Hf Hu] Hz].
  destruct seconds as [s|s| |neg m e]; try done.
  - cbn in Er. injection Er as <-. split_and!; [unfold in_u; lia|done|done].
  - destruct Hz as [?|Hz]; [done|]. split_and!; [unfold in_u, U32_MAX in *; lia|by apply round_nearest|].
    split; [lia|done].
Qed.

(** The examples of the unit test: 0, 0.5 ms, 1 s and the largest cadence are
    accepted; 0.4 ms, a negative cadence and the infinities are not. *)
Definition double (neg : bool) (m : positive) (e : Z) : f64 := binary_normalize 53 1024 (if neg then Zneg m else Zpos m) e false.

Example cadence_examples :
  heartbeat_interval_ms (S754_zero true) = Ok 0 /\
  heartbeat_interval_ms (S754_finite false 4611686018427388 (-63)) = Ok 1 /\
  heartbeat_interval_ms (double false 1 0) = Ok 1000 /\
  is_ok (heartbeat_interval_ms (S754_finite false 7378697629483821 (-64))) = false /\
  is_ok (heartbeat_interval_ms (double true 1 (-10))) = false /\
  is_ok (heartbeat_interval_ms (S754_infinity false)) = false /\
  is_ok (heartbeat_interval_ms (double false 1 1023)) = false.
Proof. vm_compute. split_and!; reflexivity. Qed.

(** ** Selections *)

Lemma validate_from_nodup ss : forall seen,
  validate_from seen ss = Ok tt ->
  NoDup (collector_id <$> ss) /\ forall s, s ∈ ss -> collector_id s ∉ seen.
Proof.
  induction ss as [|s ss IH]; intros seen Hv; cbn in *; [split; [constructor|by intros ? ?%elem_of_nil]|].
  case_bool_decide as Hs; [done|]. cbn in Hv. destruct (IH _ Hv) as [Hn Hf]. split.
  - constructor; [|done]. intros (s' & E & Hs')%list_elem_of_fmap. apply (Hf s' Hs'). rewrite <- E. by left.
  - intros s' [->|Hs']%elem_of_cons; [done|]. intros Hin. apply (Hf s' Hs'). by right.
Qed.

Section Startup.
Context `{Base64} (env : Env) (writes : list BehaviorEvent -> BehaviorEvent -> bool) (flushes : bool).

(** The line of a refused configuration file. *)
Definition refusal (path msg : string) : BehaviorEvent :=
  selection_failure_diagnostic (env_now env) (env_config_again env path) (is_unknown_collector msg).

Lemma load_selections_spec paths : forall q,
  match load_selections env writes flushes paths q with
  | (Ok ss, q') => q' = q /\ Forall2 (fun p s => load_selection p (env_config env p) = Ok s) paths ss
  | (Err _, q') => exists path msg, path ∈ paths /\ load_selection path (env_config env path) = Err msg /\
      q' = (write writes (refusal path msg) q).2
  end.
Proof.
  induction paths as [|path paths IH]; intros q; cbn; [by split|].
  destruct (load_selection path (env_config env path)) as [s|msg] eqn:El.
  - specialize (IH q). destruct (load_selections env writes flushes paths q) as [[ss|m] q'].
    + destruct IH as [-> HF]. split; [done|by constructor].
    + destruct IH as (p & m' & Hp & Hl & ->). exists p, m'. split_and!; [by right|done|done].
  - assert (Hx : exists p m, p ∈ path :: paths /\ load_selection p (env_config env p) = Err m /\
      (write writes (refusal path msg) q).2 = (write writes (refusal p m) q).2)
      by (exists path, msg; split_and!; [by left|done|done]).
    unfold refusal in *. destruct (write writes _ q) as [[[]|m] q']; exact Hx.
Qed.

(** C25: startup writes a line only to refuse a configuration file, and
    then it fails: the line is the diagnostic of a file that could not be read
    or parsed, the only one on stdout.  A daemon that starts has written
    nothing, has read every file, runs no collector twice, and announces the
    report of what it attached. *)
Theorem startup_output args :
  match start env writes flushes args seq_new with
  | (Started r, q) =>
      lines q = [] /\
      exists selections,
        Forall2 (fun p s => load_selection p (env_config env p) = Ok s) (a_usdt_config args) selections /\
        NoDup (collector_id <$> selections) /\
        exists boot size, r_ready r = ready_event (env_now env) (report (u_loader (r_usdt r))) size
          (env_nsfs_dev env) (mkFacts boot (uid (a_cli args)) (env_pid env) (r_interval_ms r))
  | (StartPanic, q) => lines q = []
  | (StartErr _, q) =>
      lines q = [] \/
      exists path msg, path ∈ a_usdt_config args /\ load_selection path (env_config env path) = Err msg /\
        lines q = [refusal path msg]
  end.
Proof.
  unfold start. destruct (env_page_size env <=? 0); [by left|].
  destruct (validate_ring_buffer_size _ _) as [[]|m]; [|by left].
  destruct (heartbeat_interval_ms _) as [ms|m]; [|by left].
  destruct (boot_id _) as [boot|m]; [|by left].
  pose proof (load_selections_spec (a_usdt_config args) seq_new) as Hs.
  destruct (load_selections env writes flushes (a_usdt_config args) seq_new) as [[ss|m] q].
  2:{ destruct Hs as (path & msg & Hp & Hl & ->). unfold write.
      destruct (writes (lines seq_new) _); cbn; [right|by left]. by exists path, msg. }
  destruct Hs as [-> HF]. unfold load_all.
  destruct (validate_selections ss) as [[]|m] eqn:Ev; [|by left].
  destruct (env_offsets env) as [offsets|m]; [|by left]. destruct (env_object env) as [[]|m]; [|by left].
  destruct (env_ring_size env) as [size|m]; [|by left].
  destruct (load_and_attach _ _ _ _ _ _ _) as [[bitmaps|m] l]; [|by left].
  destruct (attach_selections _ _ _ _ _ _ _ _) as [[ds u]|]; [|done].
  split; [done|]. exists ss. split_and!; [done|by apply (validate_from_nodup ss [])|by exists boot, size].
Qed.
End Startup.

(** The lines the sequencer [q] has written after the inputs received so far. *)
Definition stdout_of `{Base64} (now : Z -> Z) (writes : list BehaviorEvent -> BehaviorEvent -> bool)
    (q : Sequencer) (s : Sys) : list BehaviorEvent :=
  lines (accept_all now writes (accepted s) q).2.

(** C8: from startup through every schedule of the tasks to the writer:
    the stdout of a daemon that started is empty or begins with its readiness
    event, whatever the kernel, the monitors and the writer do. *)
Theorem daemon_first_line `{Base64} env writes flushes args r q now s :
  start env writes flushes args seq_new = (Started r, q) ->
  reachable (sys_init (r_ready r) (r_diagnostics r)) s ->
  stdout_of now writes q s = [] \/ head (stdout_of now writes q s) = Some (r_ready r).
Proof.
  intros Hs Hr.
  assert (q = seq_new) as ->; [|by apply (readiness_line_first now writes (r_ready r) (r_diagnostics r))].
  unfold start in Hs. revert Hs.
  pose proof (load_selections_spec env writes flushes (a_usdt_config args) seq_new) as Hl.
  destruct (load_selections env writes flushes (a_usdt_config args) seq_new) as [[ss|m] q1];
    [destruct Hl as [-> _]|]; intros Hs; repeat case_match; simplify_eq; done.
Qed.
