(* ===== verification/StartupDemo.v ===== *)
(** * Startup and admission at concrete inputs

    A kernel that accepts every program, and short schedules; the theorems of
    Admission and StartupFacts applied there. *)

From Stdlib Require Import SpecFloat.
From S2P Require Import Prelude Layout Records Common Json Utf8 Event Usdt Deserializer Lifecycle Sequencer.
From S2P Require Import Bpf Btf Loader Elf UsdtRegistry Admission Startup StartupFacts.

Local Open Scope string_scope.
Local Open Scope Z_scope.
Local Open Scope list_scope.
#[local] Existing Instance identity_base64.

Definition demo_event (name : string) : BehaviorEvent :=
  mkEvent (mkHeader 1 0 0 0 None "" None None None) (mkEventType "META" name "behavior") None None None.

Definition demo_ready : BehaviorEvent := demo_event "ready".
Definition demo_record : list byte := [Byte.x01; Byte.x02].

(** Startup, two records, one of them received. *)
Definition demo_schedule : list Label :=
  [MSend; KProduce demo_record false; CStep; CStep; CStep; CStep; KProduce demo_record false; MStart; MSend;
   MRecv true; MRecv true].

Definition demo_sys : Sys :=
  mkSys [demo_record] true false [] CWait true MLoop [Synthesized demo_ready; Raw demo_record]
    [demo_record; demo_record].

Lemma demo_sys_reachable : reachable (sys_init demo_ready []) demo_sys.
Proof. exists demo_schedule. vm_compute. reflexivity. Qed.

Lemma admission_exact_witness :
  raws (accepted demo_sys ++ chan demo_sys) ++ ring demo_sys = produced demo_sys /\
  (forall i, head (accepted demo_sys) = Some i -> i = Synthesized demo_ready) /\
  (length (chan demo_sys) <= CHANNEL_CAPACITY)%nat /\
  (main demo_sys = MDone -> raws (accepted demo_sys) = produced demo_sys).
Proof. exact (admission_exact demo_ready [] demo_sys demo_sys_reachable). Defined.

Definition demo_quiet : Sys :=
  mkSys [] false false [] CWait true MLoop [Synthesized demo_ready; Raw demo_record; Raw demo_record]
    [demo_record; demo_record].

Lemma demo_quiescent : quiescent demo_quiet.
Proof. intros []; try discriminate; reflexivity. Qed.

(** The waiting consumer is woken and the second record arrives; then nothing
    can move and everything is delivered. *)
Lemma admission_progress_witness :
  (6 <= measure demo_sys)%nat /\ delivered demo_quiet.
Proof.
  destruct (admission_progress demo_ready [] demo_sys [CStep; CStep; CStep; CStep; MRecv true; CStep] demo_quiet
    demo_sys_reachable ltac:(by repeat constructor) ltac:(vm_compute; reflexivity)) as (Hm & _ & Hq).
  split; [exact Hm|]. destruct (Hq demo_quiescent) as [?|[[? _]|[?|[? ?]]]]; [assumption|discriminate..].
Defined.

Lemma cadence_quantized_witness :
  in_u 32 1000 /\ nearest (f64_mul (double false 1 0) THOUSAND) 1000 /\
  (1000 = 0 <-> is_zero (double false 1 0) = true).
Proof. apply (cadence_quantized (double false 1 0) 1000). vm_compute. reflexivity. Defined.

Definition demo_env : Env :=
  mkEnv 4096 (Some (str_bytes "01234567-89ab-cdef-0123-456789abcdef")) 7 (fun _ => None) (fun _ => None) 5
    (Ok (mkOffsets None None None (from_resolved (replicate 21 None) None) 16 32 48 64 80 96 112 128 144 0 8))
    (Ok tt) (Ok 4194304) (fun _ _ => None) (fun _ => true) true (fun _ => true) (fun _ _ => true)
    (fun _ _ _ => true) (fun _ => None) None.

Definition demo_args : Args := mkArgs (mkCli 1000 true 4194304 false) (double false 1 0) [].

Definition demo_running : Running :=
  match (start demo_env (fun _ _ => true) true demo_args seq_new).1 with
  | Started r => r
  | _ => mkRunning demo_ready [] (mkUsdt (mkLoader [] report_default) [] []) (loader_globals (a_cli demo_args) 7
           (mkOffsets None None None (from_resolved (replicate 21 None) None) 0 0 0 0 0 0 0 0 0 0 0)) 0
  end.

(** Startup of this environment succeeds, and its first line is the readiness
    event. *)
Lemma daemon_first_line_witness :
  exists s, reachable (sys_init (r_ready demo_running) (r_diagnostics demo_running)) s /\
    accepted s <> [] /\
    let out := stdout_of (fun _ => 0) (fun _ _ => true) seq_new s in
    out = [] \/ head out = Some (r_ready demo_running).
Proof.
  set (r := demo_running).
  assert (Hs : start demo_env (fun _ _ => true) true demo_args seq_new = (Started r, seq_new))
    by (vm_compute; reflexivity).
  assert (Hr : exists s, reachable (sys_init (r_ready r) (r_diagnostics r)) s /\ accepted s <> []).
  { exists (mkSys [] false false [] (CDrain false) true MLoop [Synthesized (r_ready r)] []).
    split; [|done]. exists [MSend; CStep; MStart; MSend; MRecv true]. vm_compute. reflexivity. }
  destruct Hr as (s & Hr & Ha). exists s. split_and!; [exact Hr|exact Ha|].
  exact (daemon_first_line demo_env (fun _ _ => true) true demo_args r seq_new (fun _ => 0) s Hs Hr).
Defined.

(** A configuration file that cannot be read. *)
Example refused_configuration :
  start demo_env (fun _ _ => true) true (mkArgs (a_cli demo_args) (double false 1 0) ["/missing"]) seq_new =
  (StartErr "reading trusted USDT configuration /missing",
   mkSequencer [usdt_diagnostic 5 "configuration" AbiIncompatible []] synth_new 1 0).
Proof. vm_compute. reflexivity. Qed.

(** The reason is looked for in the whole chain: a file with a key that is not
    permitted is refused for its incompatibility, or for an unknown collector
    when the text of that key, or the path, happens to say so. *)
Definition odd_key (key : string) : option (list byte) := Some (str_bytes (key +:+ " = 1")).

Definition refused_as_unknown (path key : string) : option bool :=
  match load_selection path (odd_key key) with Err msg => Some (is_unknown_collector msg) | Ok _ => None end.

Theorem reason_follows_text :
  refused_as_unknown "/etc/c.toml" "offset" = Some false /\
  refused_as_unknown "/etc/c.toml" "unknown registered collector" = Some true /\
  refused_as_unknown "/etc/unknown registered collector.toml" "offset" = Some true.
Proof. vm_compute. split_and!; reflexivity. Qed.
