(* ===== verification/Demo.v ===== *)
(** * A concrete kernel

    One invocation of a hook and one initial state, fully concrete, on which
    the hypotheses of the kernel-side theorems hold: every pointer, identifier
    and counter the programs read is 1000, except where a theorem needs another
    value.  The witnesses instantiate the theorems here. *)

From S2P Require Import Prelude Layout Records Common Bpf Task HookFacts Rich RichFacts Exec.

Local Open Scope string_scope.
Local Open Scope Z_scope.
Local Open Scope list_scope.

Definition demo_globals_for (daemon : Z) : Globals :=
  mkGlobals 1000 daemon 1 2 3 4 5 6 8 9 10 11 12 (replicate 14 16) 1 (replicate 8 16) 1
    [16; 20; 24] 1 (replicate 24 16) 127.

Definition demo_globals : Globals := demo_globals_for 7.

(** Kernel memory: 1000 everywhere, but no live thread, and the terminal driver
    at 1000 is the slave side of a pseudo-terminal. *)
Definition demo_kread (a : Z) (n : nat) : option (list byte) :=
  Some (le_split n (if a =? 1011 then 0 else if a =? 1020 then 4 else if a =? 1024 then 2 else 1000)).

(** User memory: an argument vector with one argument at 2000, and the socket
    address 127.0.0.1, port 8080, at 4000. *)
Definition demo_uread (a : Z) (n : nat) : option (list byte) :=
  Some (le_split n (if a =? 2000 then 3000 else if a =? 4000 then 2 else
                    if a =? 4002 then 0x901f else if a =? 4004 then 0x0100007f else 0)).

Definition demo_ustr (_ : Z) (n : nat) : option (list byte) :=
  if (2 <? n)%nat then Some (str_bytes "ls") else None.

Definition demo_hook_with (ctx : Z -> nat -> option (list byte)) (ret : option Z) : Hook :=
  mkHook 500 (Z.lor (Z.shiftl 5 32) 6) 1000 (Some (replicate 16 (byte.of_Z 97))) demo_kread demo_kread (-14)
    demo_uread demo_ustr ctx (fun _ => 1000) (fun _ => Some 40) ret (fun _ => true)
    (fun _ => None) (fun _ => None) (fun _ => true) (fun _ _ => true) (fun b => b) (fun _ => NUL).

(** Every context word is 2000. *)
Definition demo_hook : Hook := demo_hook_with (fun _ n => Some (le_split n 2000)) (Some 2000).

(** The syscall number and every argument are 60, the number of [exit]. *)
Definition demo_exit_hook : Hook := demo_hook_with (fun _ n => Some (le_split n 60)) (Some 60).
(** Every argument is 4000, the address of the socket address. *)
Definition demo_peer_hook : Hook := demo_hook_with (fun _ n => Some (le_split n 4000)) (Some 0).

Definition demo_raw_hook : Hook := demo_hook_with (fun _ n => Some (le_split n 39)) (Some 0).

Lemma demo_with_ok ctx ret :
  (forall a n b, ctx a n = Some b -> length b = n) -> (forall r, ret = Some r -> in_s 64 r) ->
  HookOk (demo_hook_with ctx ret).
Proof.
  intros Hc Hr. assert (Hl : forall n z (b : list byte), Some (le_split n z) = Some b -> length b = n).
  { intros n z b [= <-]. apply length_le_split. }
  constructor; cbn; try done.
  - intros c [= <-]. done.
  - intros a n b. apply Hl.
  - intros a n b. apply Hl.
  - intros a n b. unfold demo_ustr. destruct (Nat.ltb_spec 2 n); [|done]. intros [= <-].
    split; [cbn; lia|]. vm_compute. intros Hin. repeat (apply elem_of_cons in Hin as [Hin|Hin]; [done|]).
    by apply elem_of_nil in Hin.
  - by intros i v [= <-].
Qed.

Lemma demo_with_healthy ctx ret :
  (forall a n, is_Some (ctx a n)) -> Healthy (demo_hook_with ctx ret).
Proof. intros Hc. by constructor. Qed.

Lemma split_hook_ok z r : in_s 64 r -> HookOk (demo_hook_with (fun _ n => Some (le_split n z)) (Some r)).
Proof.
  intros Hr. apply demo_with_ok; [|by intros ? [= <-]]. intros a n b [= <-]. apply length_le_split.
Qed.
Lemma split_hook_healthy z r : Healthy (demo_hook_with (fun _ n => Some (le_split n z)) r).
Proof. apply demo_with_healthy. by eexists. Qed.

Lemma demo_ok : HookOk demo_hook.
Proof. apply split_hook_ok. unfold in_s. lia. Qed.
Lemma demo_healthy : Healthy demo_hook.
Proof. apply split_hook_healthy. Qed.
Lemma demo_exit_ok : HookOk demo_exit_hook.
Proof. apply split_hook_ok. unfold in_s. lia. Qed.
Lemma demo_exit_healthy : Healthy demo_exit_hook.
Proof. apply split_hook_healthy. Qed.
Lemma demo_peer_ok : HookOk demo_peer_hook.
Proof. apply split_hook_ok. unfold in_s. lia. Qed.
Lemma demo_peer_healthy : Healthy demo_peer_hook.
Proof. apply split_hook_healthy. Qed.
Lemma demo_raw_ok : HookOk demo_raw_hook.
Proof. apply split_hook_ok. unfold in_s. lia. Qed.
Lemma demo_raw_healthy : Healthy demo_raw_hook.
Proof. apply split_hook_healthy. Qed.

(** Empty maps, zero counters, zeroed scratch. *)
Definition demo_state : Bpf :=
  mkBpf [] 0 (mkFailures (replicate 4 0) (replicate 5 0) (replicate 5 0) (replicate 5 0)
                (replicate 5 0) (replicate 4 0))
    ∅ ∅ ∅ ∅ ∅ ∅ ∅ (replicate (Z.to_nat BITMAP_SIZE) 0) (replicate (Z.to_nat BITMAP_SIZE) 0)
    (let page := replicate (Z.to_nat MAX_PATH_SIZE) NUL in
     mkScratch (replicate 256 NUL) page page page page page
       (replicate (Z.to_nat ASSEMBLY_BUF_SIZE) NUL) (replicate 4 page)).

Lemma demo_scratch_ok : ScratchOk demo_state.
Proof.
  constructor; [done| |vm_compute; reflexivity].
  intros i Hi. do 4 (destruct i as [|i]; [vm_compute; reflexivity|]). lia.
Qed.
