(* ===== verification/Witnesses.v ===== *)
(** * Witnesses

    The theorems whose statements have hypotheses, applied at concrete inputs
    where the hypotheses hold. *)

From S2P Require Import Prelude Layout Records Common Json Utf8 Event Usdt Deserializer Lifecycle.
From S2P Require Import Sequencer Health Daemon Wire Bpf Task HookFacts Entries Rich RichFacts.
From S2P Require Import PathFacts Loss Raw ProcLifecycle Exec Tty Lsm Network Interleave Loader.
From S2P Require Import LoaderFacts Btf BtfFacts BtfFormat BtfSound UsdtProbes Demo.

Local Open Scope string_scope.
Local Open Scope Z_scope.
Local Open Scope list_scope.
#[local] Existing Instance identity_base64.

(** ** The daemon *)

(** An authoritative observation of process 5, started at 9. *)
Definition demo_observation : DecodedBehaviorEvent :=
  mkDecoded (mkEvent (mkHeader 1 1000 1 5 None "sh" (Some (mkProcessRef 5 9)) None None)
    (mkEventType "TRACEPOINT" "listen" "behavior") None None (Some 0)) Authoritative.

Lemma identity_diagnostics_bounded_witness :
  (length (List.filter is_identity_diag (observe_all synth_new [demo_observation]).2) <= 4)%nat.
Proof. apply (identity_diagnostics_bounded [demo_observation]). repeat constructor. Defined.

Lemma no_duplicate_start_witness :
  ~ synthesized demo_observation (observe_all (observe synth_new demo_observation).1 [demo_observation]).1.
Proof.
  apply (no_duplicate_start demo_observation [demo_observation] demo_observation (mkProcessRef 5 9));
    try reflexivity.
  constructor; [|constructor]. intros r' [= <-] _. split; reflexivity.
Defined.

Lemma rejection_reported_witness :
  contributes (fun n => n) (Raw []) synth_new 0 =
    (synth_new, 1, [deserialize_rejection_diagnostic 1 1]).
Proof.
  apply (rejection_reported (fun n => n) [] synth_new 0 "Event data too short");
    [reflexivity|unfold U64_MAX; lia].
Defined.

Lemma monitor_deltas_telescope_witness :
  reported "b" (monitor "tty" ["a"; "b"]
    [mkMonitorStep 1 [Some [0]; Some [1; 2]] (fun _ => true) false;
     mkMonitorStep 2 [None; Some [4; 2]] (fun _ => true) true]) = 6.
Proof.
  apply (monitor_deltas_telescope "tty" ["a"; "b"] 1 "b").
  - apply (bool_decide_unpack _). vm_compute. exact I.
  - reflexivity.
  - repeat constructor.
  - vm_compute. repeat split; discriminate.
Defined.

Lemma clean_exit_complete_witness :
  exists used rest cursor slots,
    [DRecv None; DProducers (Ok None)] = used ++ rest /\
    DRecv None ∈ used /\ DProducers (Ok cursor) ∈ used /\
    Ok (Some [3]) = Ok (Some slots) :> result (option (list Z)) /\ Ok tt = Ok tt :> result unit /\
    let out := (stream (fun n => n) (main_inputs [MShutdown] ++ drain_inputs used) synth_new 0).2 in
    [] = out ++ final_heartbeat 5 slots cursor (wrap 64 (len out)).
Proof.
  refine (clean_exit_complete (fun n => n) (fun _ _ => true) [MShutdown] [DRecv None; DProducers (Ok None)]
    (Ok (Some [3])) 5 (Ok tt) seq_new _). reflexivity.
Defined.

Lemma drain_returns_by_deadline_witness :
  is_Some (drain_until_closed (fun n => n) (fun _ _ => true) [DRecv None; @DDeadline unit] seq_new).
Proof.
  apply (drain_returns_by_deadline (fun n => n) (fun _ _ => true) [DRecv None; DDeadline] seq_new);
    [reflexivity|right; left].
Defined.

Lemma heartbeats_account_witness :
  exists h, lines (finish_output (fun n => n) (fun _ _ => true) 9 (Some [4; 3])
      (Some (mkCursor 5 2)) (Ok tt) (mkSequencer [] synth_new 6 0)).2 = [] ++ [h] /\
    sum_num "drop_count_delta" ([build_heartbeat 1 5 5 2] ++ [h]) = percpu_sum [4; 3] /\
    sum_num "events_emitted_delta" ([build_heartbeat 1 5 5 2] ++ [h]) = 6.
Proof.
  apply (heartbeats_account (fun n => n) (fun _ _ => true) 1000 [HbTick 1 5 2 SendOk; HbStop]
    [build_heartbeat 1 5 5 2] (mkCursor 5 2) 9 [4; 3] (Ok tt) (mkSequencer [] synth_new 6 0)).
  - cbn. lia.
  - reflexivity.
  - vm_compute. discriminate.
  - cbn. lia.
  - reflexivity.
Defined.

(** ** Wire records *)

Definition demo_record {P} `{ReprC P} (k : EventKind.t) (c : HeaderCapture.t) (p : P)
    (data : list byte) : list byte :=
  drop 1 (as_bytes (fun _ => NUL)
    (with_capture (get_task_info demo_globals demo_hook (EventKind.to_u8 k)) c) ++
  as_bytes (fun _ => NUL) p ++ data).

Definition demo_byte (k : EventKind.t) : byte := byte.of_Z (EventKind.to_u8 k).

(** The event of a record that decodes. *)
Definition demo_event (bs : list byte) : BehaviorEvent :=
  match deserialize bs with Ok e => e | Err _ => d_event demo_observation end.

Definition demo_tty : list byte :=
  demo_record EventKind.TtyRead (HeaderCapture.mk 1 1 0) (TtyPayload.mk 2 [NUL; NUL]) (str_bytes "ls").

Lemma tty_status_sound_witness :
  exists status,
    let d := after TtyPayload.t (after EventHeader.t (demo_byte EventKind.TtyRead :: demo_tty)) in
    arg "data" (demo_event (demo_byte EventKind.TtyRead :: demo_tty)) = Some (JStr (b64_encode d)) /\
    arg "data_status" (demo_event (demo_byte EventKind.TtyRead :: demo_tty)) = Some (JStr status) /\
    tty_status_means status d.
Proof.
  apply (tty_status_sound (demo_byte EventKind.TtyRead) demo_tty EventKind.TtyRead);
    [vm_compute; reflexivity|left; reflexivity|vm_compute; reflexivity|vm_compute; reflexivity].
Defined.

Definition demo_openat : list byte :=
  demo_record EventKind.Openat (HeaderCapture.mk 0 0 0) (OpenatPayload.mk 0 0 2 1 7 3 (-100) 2049 77)
    (str_bytes "ls").

Lemma openat_identity_honest_witness :
  let e := demo_event (demo_byte EventKind.Openat :: demo_openat) in
  exists rc, be_return_code e = Some rc /\
    arg "file_identity_status" e =
      Some (JStr (identity_status_of rc (arg "dev" e) (arg "ino" e))) /\
    (rc < 0 -> arg "dev" e = None /\ arg "ino" e = None /\ arg "dev_major" e = None).
Proof.
  cbv zeta. apply (openat_identity_honest (demo_byte EventKind.Openat) demo_openat);
    vm_compute; reflexivity.
Defined.

Definition demo_view : list byte :=
  demo_record EventKind.ExecView HeaderCapture.default
    (ExecViewPayload.mk 2 3 4 5 1 1 [NUL; NUL]) [].

Lemma exec_view_complete_or_absent_witness :
  let e := demo_event (demo_byte EventKind.ExecView :: demo_view) in
  (arg "view_status" e = Some (JStr "complete") /\
     exists ns id ino, arg "mount_namespace" e = Some (JNum ns) /\ 0 < ns /\
       arg "root_mount_id" e = Some (JNum id) /\ 0 < id /\ arg "root_inode" e = Some (JNum ino)) \/
  (arg "view_status" e <> Some (JStr "complete") /\
     arg "mount_namespace" e = None /\ arg "root_mount_id" e = None /\ arg "root_inode" e = None).
Proof.
  cbv zeta. apply (exec_view_complete_or_absent (demo_byte EventKind.ExecView) demo_view);
    vm_compute; reflexivity.
Defined.

(** ** Kernel side *)

Lemma namespace_slots_honest_witness :
  exists status inum,
    NsSnapshot.status (snapshot demo_globals demo_hook 1000) !! 6%nat = Some status /\
    NsSnapshot.inum (snapshot demo_globals demo_hook 1000) !! 6%nat = Some inum /\
    (status = NS_STATUS_UNSUPPORTED /\ inum = 0 /\ Z.testbit 127 6 = false \/
     status = NS_STATUS_UNAVAILABLE /\ inum = 0 /\ Z.testbit 127 6 = true \/
     status = NS_STATUS_COMPLETE /\ 0 < inum < 2 ^ 32 /\ Z.testbit 127 6 = true).
Proof. apply (namespace_slots_honest demo_globals demo_hook 1000 6 demo_ok). lia. Defined.

Lemma demo_reachable : reachable demo_globals demo_state.
Proof. exists demo_state, []. repeat split. Qed.

(** A raw entry and a security hook of the same task, and the entry of another
    syscall by another task. *)
Definition demo_other_hook : Hook :=
  mkHook 500 99 1000 None demo_kread demo_kread (-14) demo_uread demo_ustr
    (fun _ n => Some (le_split n 2000)) (fun _ => 1000) (fun _ => Some 40) (Some 0) (fun _ => true)
    (fun _ => None) (fun _ => None) (fun _ => true) (fun _ _ => true) (fun b => b) (fun _ => NUL).

Definition demo_between : trace :=
  [(demo_raw_hook, RawSysEnter); (demo_hook, LsmHook EventKind.LsmFileOpen);
   (demo_other_hook, SysEnter EventKind.Socket)].

Lemma rich_syscalls_refine_spec_witness :
  exists name args rc, rich_spec demo_globals demo_hook demo_hook EventKind.Listen =
      Some (name, args, rc) /\
    let s1 := (run_program demo_globals demo_hook (SysEnter EventKind.Listen) demo_state).2 in
    let s2 := run_trace demo_globals demo_between s1 in
    let s3 := (run_program demo_globals demo_hook (SysExit EventKind.Listen) s2).2 in
    exists rec, EVENTS s3 = EVENTS s2 ++ [rec] /\
      deserialize rec = Ok (mkEvent (header_json (get_task_info demo_globals demo_hook
                                       (EventKind.to_u8 EventKind.Listen)))
        (mkEventType "TRACEPOINT" name "behavior") None (Some args) (Some rc)).
Proof.
  destruct (rich_spec demo_globals demo_hook demo_hook EventKind.Listen) as [[[name args] rc]|] eqn:E;
    [|exfalso; vm_compute in E; discriminate E].
  exists name, args, rc. split; [reflexivity|].
  apply (rich_syscalls_refine_spec demo_globals demo_hook demo_hook EventKind.Listen name args rc
    demo_state demo_between demo_ok demo_ok demo_healthy demo_healthy eq_refl
    ltac:(vm_compute; reflexivity) E demo_reachable).
  - repeat split.
  - vm_compute. reflexivity.
Defined.

Lemma exit_reported_once_witness :
  (exits (ExitClaimKey_new 1000 1000) (EVENTS (run_trace demo_globals
     [(demo_hook, ProcessExit); (demo_hook, ProcessExit)] demo_state)) <= 1)%nat.
Proof.
  apply (exit_reported_once demo_globals demo_state [(demo_hook, ProcessExit); (demo_hook, ProcessExit)]
    (ExitClaimKey_new 1000 1000)).
  - repeat split.
  - reflexivity.
  - reflexivity.
  - constructor; [exact demo_ok|]. constructor; [exact demo_ok|constructor].
Defined.

Lemma path_syscalls_report_witness :
  exists enter exit, sys_enter demo_globals demo_hook EventKind.Chdir = Some enter /\
    sys_exit demo_globals demo_hook EventKind.Chdir = Some exit /\
    reports (hk_pid_tgid demo_hook) enter exit
      (mkEvent (header_json (get_task_info demo_globals demo_hook (EventKind.to_u8 EventKind.Chdir)))
         (mkEventType "TRACEPOINT" "chdir" "behavior") None
         (Some (obj [("filename", JStr "ls"); ("path_capture_version", JNum 1);
                     ("path_status", JStr "complete")])) (Some 2000)).
Proof.
  exact (path_syscalls_report demo_globals demo_hook demo_hook EventKind.Chdir "chdir" 0
    demo_ok demo_healthy demo_healthy eq_refl ltac:(vm_compute; reflexivity) eq_refl).
Defined.

Lemma two_path_syscalls_report_witness :
  exists enter exit, sys_enter demo_globals demo_hook EventKind.Rename = Some enter /\
    sys_exit demo_globals demo_hook EventKind.Rename = Some exit /\
    reports (hk_pid_tgid demo_hook) enter exit
      (mkEvent (header_json (get_task_info demo_globals demo_hook (EventKind.to_u8 EventKind.Rename)))
         (mkEventType "TRACEPOINT" "rename" "behavior") None
         (Some (obj [("oldpath", JStr "ls"); ("newpath", JStr "ls"); ("path_capture_version", JNum 1);
                     ("path1_status", JStr "complete"); ("path2_status", JStr "complete")]))
         (Some 2000)).
Proof.
  exact (two_path_syscalls_report demo_globals demo_hook demo_hook TP_Rename 0 1
    demo_ok demo_healthy demo_healthy eq_refl ltac:(vm_compute; reflexivity) eq_refl eq_refl).
Defined.

Lemma openat_reports_file_witness :
  exists e, reports (hk_pid_tgid demo_hook) (sys_enter_openat demo_globals demo_hook)
      (sys_exit_openat demo_globals demo_hook) e /\
    be_header e = header_json (get_task_info demo_globals demo_hook (EventKind.to_u8 EventKind.Openat)) /\
    openat_truthful demo_hook demo_hook (exit_identity demo_globals demo_hook) e.
Proof.
  apply (openat_reports_file demo_globals demo_hook demo_hook demo_ok demo_ok demo_healthy
    demo_healthy eq_refl). vm_compute. reflexivity.
Defined.

(** A state with a listen pending for the current task. *)
Definition demo_pending_state : Bpf :=
  set_rich_map {[ hk_pid_tgid demo_hook := mkRichEntry
    (get_task_info demo_globals demo_hook (EventKind.to_u8 EventKind.Listen)) (replicate 256 NUL) 8 ]}
    demo_state.

Lemma exits_never_lose_silently_witness :
  exists s', exit_result demo_hook (try_exit_listen demo_hook) demo_pending_state = (Some tt, s') /\
    accounted EventKind.Listen demo_pending_state s'.
Proof.
  apply (exits_never_lose_silently demo_globals demo_hook EventKind.Listen);
    [reflexivity|split; reflexivity|vm_compute; reflexivity].
Defined.

Lemma entries_never_lose_silently_witness :
  exists s', entry_result (try_enter_listen demo_globals demo_hook) demo_state = (Some tt, s') /\
    (recorded EventKind.Listen demo_hook s' \/
     counted_once EventKind.Listen SYSCALL_ENTRY_SAVE_FAILED demo_state s' \/
     counted_once EventKind.Listen SYSCALL_ENTRY_CAPTURE_FAILED demo_state s').
Proof.
  destruct (entries_never_lose_silently demo_globals demo_hook EventKind.Listen _ demo_state eq_refl
    ltac:(vm_compute; reflexivity) ltac:(split; reflexivity)) as (s' & E & H).
  exists s'. split; [exact E|]. destruct H as [H|[H|[H|[[H|H] _]]]]; [by left|by right; left|by right; right|..];
    discriminate H.
Defined.

Lemma raw_syscall_reported_witness :
  let s1 := demo_state in
  let s2 := (raw_sys_enter demo_globals demo_raw_hook s1).2 in
  EVENTS s2 = EVENTS s1 /\
  exists s3 rec, raw_sys_exit demo_raw_hook s2 = (Some tt, s3) /\ EVENTS s3 = EVENTS s2 ++ [rec] /\
    deserialize rec = Ok (raw_event demo_globals demo_raw_hook (sysret demo_raw_hook)) /\
    syscall_map s3 = delete (hk_pid_tgid demo_raw_hook) (syscall_map s2) /\ failures s3 = failures s2.
Proof.
  apply (raw_syscall_reported demo_globals demo_raw_hook demo_raw_hook demo_state
    (raw_sys_enter demo_globals demo_raw_hook demo_state).2 demo_raw_ok demo_raw_healthy
    demo_raw_healthy); vm_compute; reflexivity.
Defined.

Lemma raw_exit_reported_at_entry_witness :
  exists s' rec, raw_sys_enter demo_globals demo_exit_hook demo_state = (Some tt, s') /\
    EVENTS s' = EVENTS demo_state ++ [rec] /\
    deserialize rec = Ok (raw_event demo_globals demo_exit_hook 0) /\
    syscall_map s' = syscall_map demo_state.
Proof.
  apply (raw_exit_reported_at_entry demo_globals demo_exit_hook demo_state demo_exit_ok
    demo_exit_healthy); vm_compute; reflexivity.
Defined.

Definition demo_process : KernelProcessRef := mkKernelProcessRef 1000 1000 1000.

Lemma fork_reported_witness :
  exists s' start fork, sched_process_fork demo_globals demo_hook demo_state = (Some tt, s') /\
    EVENTS s' = EVENTS demo_state ++ [start; fork] /\
    deserialize start = Ok (start_event demo_globals demo_hook demo_process demo_process) /\
    deserialize fork = Ok (fork_event demo_globals demo_hook demo_process demo_process 0) /\
    exit_claims s' = exit_claims demo_state /\ failures s' = failures demo_state.
Proof.
  apply (fork_reported demo_globals demo_hook demo_state demo_process demo_process 1000 demo_ok
    demo_healthy); vm_compute; reflexivity.
Defined.

Lemma exit_releases_pending_witness :
  none_pending (hk_pid_tgid demo_hook)
    (sched_process_exit demo_globals demo_hook demo_pending_state).2.
Proof.
  apply (exit_releases_pending demo_globals demo_hook demo_pending_state demo_healthy).
Defined.

Lemma demo_last_thread : LastThread demo_globals demo_hook demo_process 1000 1000.
Proof.
  constructor; [vm_compute; reflexivity| |vm_compute; reflexivity].
  exists 1000. split; [done|]. split_and!; vm_compute; reflexivity.
Qed.

Lemma process_exit_reported_witness :
  exists rec, EVENTS (sched_process_exit demo_globals demo_hook demo_state).2 =
      EVENTS demo_state ++ [rec] /\
    exit_claims (sched_process_exit demo_globals demo_hook demo_state).2 !! ExitClaimKey_new 1000 1000 =
      Some 1 /\
    deserialize rec = Ok (exit_event demo_globals demo_hook demo_process 1000).
Proof.
  apply (process_exit_reported demo_globals demo_hook demo_state demo_process 1000 1000 demo_ok
    demo_healthy); [vm_compute; reflexivity|apply demo_last_thread].
Defined.

Lemma argv_capture_sound_witness :
  exists n status s' argv, read_argv demo_hook 2000 demo_state = (Some (n, status), s') /\
    argv_captured demo_hook 2000 status argv /\
    0 <= n < MAX_ARGV_SIZE /\ take (Z.to_nat n) (slot 1 s') = argv_bytes argv.
Proof. apply (argv_capture_sound demo_hook 2000 demo_state demo_ok demo_scratch_ok). lia. Defined.

Lemma demo_user_args : user_args demo_hook 2000 [str_bytes "ls"].
Proof.
  intros i a Hi. apply list_lookup_singleton_Some in Hi as [-> <-].
  exists 3000. split; [done|]. split; vm_compute; reflexivity.
Qed.

Lemma argv_capture_complete_witness :
  exists s', read_argv demo_hook 2000 demo_state = (Some (3, CaptureStatus.Complete), s') /\
    take 3 (slot 1 s') = str_bytes "ls" ++ [NUL].
Proof.
  apply (argv_capture_complete demo_hook 2000 demo_state [str_bytes "ls"] demo_ok demo_healthy
    demo_scratch_ok).
  - lia.
  - apply demo_user_args.
  - vm_compute. reflexivity.
  - vm_compute. lia.
  - repeat constructor.
  - vm_compute. discriminate.
Defined.

Lemma exec_reported_witness :
  exists s1' view status argv,
    enter_exec demo_globals demo_hook EventKind.Execve demo_state = (Some tt, s1') /\
    EVENTS s1' = EVENTS demo_state ++ [view] /\
    exec_argv demo_hook (sysarg demo_hook 1) status argv.
Proof.
  destruct (exec_reported demo_globals demo_hook demo_hook EventKind.Execve demo_state demo_ok
    demo_ok demo_healthy demo_healthy eq_refl ltac:(vm_compute; reflexivity) (or_introl eq_refl)
    demo_scratch_ok) as (s1' & view & status & argv & H1 & H2 & H3 & _).
  exists s1', view, status, argv. repeat split; assumption.
Defined.

Lemma exec_view_agrees_witness :
  exists s' rec e, exec_view_emit demo_globals demo_hook (exec_header demo_globals demo_hook
      EventKind.Execve CaptureStatus.Complete CaptureStatus.Complete) demo_state = (Some tt, s') /\
    EVENTS s' = EVENTS demo_state ++ [rec] /\ deserialize rec = Ok e /\
    arg "view_status" e = Some (JStr (view_status demo_globals demo_hook)) /\
    (view_status demo_globals demo_hook = "complete" -> arg "mount_namespace" e =
       Some (JNum (ExecViewPayload.mount_namespace (exec_view_payload demo_globals demo_hook)))).
Proof.
  apply (exec_view_agrees demo_globals demo_hook EventKind.Execve demo_state CaptureStatus.Complete
    CaptureStatus.Complete demo_ok demo_healthy).
Defined.

Lemma tty_write_reported_witness :
  exists s' rec, tty_write_probe demo_globals demo_hook demo_state = (Some tt, s') /\
    EVENTS s' = EVENTS demo_state ++ [rec] /\
    deserialize rec = Ok (tty_event demo_globals demo_hook EventKind.TtyWrite 40 40) /\
    failures s' = failures demo_state.
Proof.
  apply (tty_write_reported demo_globals demo_hook demo_state 40 40 40 demo_ok demo_healthy
    demo_scratch_ok); vm_compute; reflexivity.
Defined.

(** A state with a terminal read pending for the current task. *)
Definition demo_reading_state : Bpf :=
  set_tty_map {[ hk_pid_tgid demo_hook := mkTtyReadEntry 40 40 ]} demo_state.

Lemma demo_reading_scratch_ok : ScratchOk demo_reading_state.
Proof. destruct demo_scratch_ok. by constructor. Qed.

Lemma tty_read_reported_witness :
  EVENTS (tty_read_probe demo_globals demo_hook demo_state).2 = EVENTS demo_state /\
  exists s3, tty_read_ret_probe demo_globals demo_hook demo_reading_state = (Some tt, s3) /\
    tty_map s3 = delete (hk_pid_tgid demo_hook) (tty_map demo_reading_state) /\
    failures s3 = failures demo_reading_state /\
    exists rec, EVENTS s3 = EVENTS demo_reading_state ++ [rec] /\
      deserialize rec = Ok (tty_event demo_globals demo_hook EventKind.TtyRead 40 (Z.min 2000 40)).
Proof.
  apply (tty_read_reported demo_globals demo_hook demo_hook demo_state demo_reading_state 40 40 40 2000
    demo_ok demo_ok demo_healthy demo_healthy demo_reading_scratch_ok);
    try (vm_compute; reflexivity). discriminate.
Defined.

Lemma lsm_refuses_only_attacks_on_daemon_witness :
  exists s', task_kill (demo_globals_for 1000) demo_hook demo_state = (Some (-1), s') /\
    (EVENTS s' = EVENTS demo_state \/ exists rec, EVENTS s' = EVENTS demo_state ++ [rec]).
Proof.
  apply (lsm_refuses_only_attacks_on_daemon (demo_globals_for 1000) demo_hook EventKind.LsmTaskKill);
    [discriminate|reflexivity].
Defined.

Lemma lsm_decisions_reported_witness :
  exists s' rec e, task_kill (demo_globals_for 1000) demo_hook demo_state = (Some (-1), s') /\
    EVENTS s' = EVENTS demo_state ++ [rec] /\
    deserialize rec = Ok e /\ be_return_code e = Some (-1) /\
    (-1 = -1 -> arg "target_pid" e = Some (JNum 1000)).
Proof.
  apply (lsm_decisions_reported (demo_globals_for 1000) demo_hook EventKind.LsmTaskKill _ demo_state
    demo_ok demo_healthy); [unfold in_u; cbn; lia|discriminate|reflexivity|vm_compute; reflexivity].
Defined.

(** 127.0.0.1, port 8080 *)
Definition demo_peer : peer :=
  PeerV4 (byte.of_Z 0x1f) (byte.of_Z 0x90) (byte.of_Z <$> [127; 0; 0; 1]).

Lemma peer_addresses_reported_witness :
  peer_port demo_peer = 8080 /\ peer_text demo_peer = "1.0.0.127" /\
  exists enter exit, sys_enter demo_globals demo_peer_hook EventKind.Connect = Some enter /\
    sys_exit demo_globals demo_peer_hook EventKind.Connect = Some exit /\
    reports (hk_pid_tgid demo_peer_hook) enter exit
      (mkEvent (header_json (get_task_info demo_globals demo_peer_hook
                               (EventKind.to_u8 EventKind.Connect)))
         (mkEventType "TRACEPOINT" "connect" "behavior") None
         (Some (obj [("family", num (peer_family demo_peer)); ("port", num (peer_port demo_peer));
                     ("addr", JStr (peer_text demo_peer))])) (Some (swrap 32 (sysret demo_peer_hook)))).
Proof.
  split; [reflexivity|]. split; [vm_compute; reflexivity|].
  apply (peer_addresses_reported demo_globals demo_peer_hook demo_peer_hook EventKind.Connect "connect"
    demo_peer demo_peer_ok demo_peer_ok demo_peer_healthy demo_peer_healthy); try reflexivity.
  - left. reflexivity.
  - discriminate.
  - vm_compute. discriminate.
  - vm_compute. repeat split.
Defined.

(** ** Startup *)

(** A kernel without [sendto]: its entry program does not attach. *)
Definition demo_attach_error (prog _ : string) : option string :=
  if String.eqb prog "sys_enter_sendto" then Some "not found" else None.

Definition demo_cli : Cli := mkCli 1000 true 4096 false.

Definition demo_startup : result (list Z * list Z) * Loader :=
  load_and_attach demo_attach_error (fun _ => true) demo_cli 4096 (Some [1; 2; 3]) true
    (mkLoader [] report_default).

Definition demo_bitmaps : list Z * list Z :=
  match demo_startup.1 with Ok b => b | Err _ => ([], []) end.

Lemma demo_started :
  load_and_attach demo_attach_error (fun _ => true) demo_cli 4096 (Some [1; 2; 3]) true
    (mkLoader [] report_default) = (Ok (demo_bitmaps.1, demo_bitmaps.2), demo_startup.2).
Proof. vm_compute. reflexivity. Qed.

Lemma ring_size_valid_iff_witness :
  validate_ring_buffer_size 4096 4096 = Ok tt <-> 4096 <= 4096 /\ exists k, 0 <= k < 32 /\ 4096 = 2 ^ k.
Proof. apply (ring_size_valid_iff 4096 4096). lia. Defined.

Lemma readiness_truthful_witness :
  probes (report demo_startup.2) = len (attached demo_startup.2).
Proof.
  exact (proj1 (readiness_truthful demo_attach_error (fun _ => true) demo_cli 4096 (Some [1; 2; 3]) true
    demo_bitmaps.1 demo_bitmaps.2 demo_startup.2 demo_started)).
Defined.

Lemma suppression_exact_witness :
  bitmap_set demo_bitmaps.2 NR_SENDTO = true <->
   NR_SENDTO = NR_EXECVE \/
   exists t, t ∈ TIER2 /\ t2_nr t = NR_SENDTO /\ t2_dedup t <> Dedup_NoDedup /\
     pair_attached t demo_startup.2.
Proof.
  assert (Hn : 0 <= NR_SENDTO) by (vm_compute; discriminate).
  exact (proj2 (suppression_exact demo_attach_error (fun _ => true) demo_cli 4096 (Some [1; 2; 3]) true
    demo_bitmaps.1 demo_bitmaps.2 demo_startup.2 NR_SENDTO
    demo_started Hn)).
Defined.

Lemma consumers_attached_first_witness :
  exists rest, attached demo_startup.2 = base_programs ++ rest.
Proof.
  exact (proj1 (consumers_attached_first demo_attach_error (fun _ => true) demo_cli 4096 (Some [1; 2; 3]) true
    demo_bitmaps.1 demo_bitmaps.2 demo_startup.2 demo_started)).
Defined.

(** ** Kernel type information *)

Definition demo_names : list string :=
  ["task_struct"; "loginuid"; "sessionid"; "tgid"; "pid"; "group_leader"; "start_boottime"; "signal";
   "exit_code"; "comm"; "signal_struct"; "live"; "group_exit_code"].

Definition demo_strs : list byte := NUL :: concat ((fun n => str_bytes n ++ [NUL]) <$> demo_names).

(** Where a name is; the empty name is at the beginning. *)
Fixpoint name_position (names : list string) (pos : Z) (name : string) : Z :=
  match names with
  | [] => 0
  | n :: names => if String.eqb n name then pos else name_position names (pos + len (str_bytes n) + 1) name
  end.
Definition demo_off : string -> Z := name_position demo_names 1.

(** An integer, an enumeration of two values, a function of two parameters and
    one value of 64 bits come before a [task_struct] whose members are 16
    bytes apart and a [signal_struct] with a bit field. *)
Definition demo_types : list ktype :=
  [KInt "" 4 32; KEnum "" 4 false [("", 0); ("", 1)]; KFuncProto 1 [("", 1); ("", 1)];
   KEnum64 "" 8 true [("", 5, 0)]; KPtr 1;
   KStruct "task_struct" 200 false
     ((fun i => mkField (default "" (demo_names !! i)) 1 0 (Z.of_nat i * 128)) <$> seq 1 9);
   KStruct "signal_struct" 64 true [mkField "live" 1 0 0; mkField "group_exit_code" 1 4 67]].

Definition demo_offsets : TaskStructOffsets :=
  mkOffsets None None None (from_resolved (replicate 21 None) None) 16 32 48 64 80 96 112 128 144 0 8.

#[local] Instance ktype_wf_dec off t : Decision (ktype_wf off t).
Proof.
  unfold ktype_wf. destruct (head_of t) as [[[[? ?] ?] ?] ?]. unfold member_fits. destruct t; apply _.
Defined.

Lemma demo_types_wf : Forall (ktype_wf demo_off) demo_types.
Proof. apply (bool_decide_unpack _). vm_compute. exact I. Qed.

Lemma demo_texts : Forall (fun n => text_at demo_strs (demo_off n) n) demo_names.
Proof.
  repeat (apply Forall_cons; split;
    [split_and!; [vm_compute; discriminate|apply (bool_decide_unpack _); vm_compute; exact I|vm_compute; reflexivity|];
     eexists; vm_compute; reflexivity|]). constructor.
Qed.

Lemma demo_types_named : Forall (named_in demo_strs demo_off) demo_types.
Proof.
  assert (H : forall ns, forallb (fun n => bool_decide (n ∈ demo_names)) ns = true ->
    Forall (fun n => text_at demo_strs (demo_off n) n) ns).
  { intros ns Hn. apply Forall_forall. intros n Hin. pose proof demo_texts as Ht. rewrite Forall_forall in Ht.
    apply Ht. rewrite forallb_forall in Hn. apply list_elem_of_In in Hin.
    exact (bool_decide_eq_true_1 _ (Hn n Hin)). }
  repeat (apply Forall_cons; split; [first [exact I|apply H; reflexivity]|]). constructor.
Qed.

(** The members are there and the reader finds them. *)
Lemma btf_reader_correct_witness :
  complete (structs demo_types) /\ exists o,
    parse_task_offsets (encode demo_off false demo_types demo_strs) = Some (Ok o) /\
    offsets_of (structs demo_types) o.
Proof.
  destruct (btf_reader_correct demo_off false demo_types demo_strs demo_types_wf demo_types_named) as (r & E & Hc & Ho);
    [vm_compute; (split; [discriminate|reflexivity])..|].
  assert (Er : r = Ok demo_offsets)
    by (apply Some_inj; rewrite <- E; vm_compute; reflexivity).
  split; [apply Hc; eauto|]. exists demo_offsets. rewrite E, Er. split; [done|by apply Ho].
Defined.


Lemma namespace_support_exact_witness :
  Z.testbit (ns_supported (from_resolved (replicate 21 (Some 8)) (Some 16))) 6 = true <->
  slot_resolved (replicate 21 (Some 8)) (Some 16) [8; 9; 10; 11; 20; 13]%nat.
Proof. apply (namespace_support_exact (replicate 21 (Some 8)) (Some 16) 6). reflexivity. Defined.

(** ** USDT probes *)

Lemma shell_probe_reported_witness :
  exists s' rec, shell_attach_point demo_globals demo_hook 3 demo_state = (Some tt, s') /\
    EVENTS s' = EVENTS demo_state ++ [rec] /\
    deserialize rec = Ok (shell_event demo_globals demo_hook 3 (str_bytes "ls")) /\
    failures s' = failures demo_state.
Proof.
  apply (shell_probe_reported demo_globals demo_hook demo_state 3 demo_ok demo_healthy demo_scratch_ok).
  unfold in_u. lia.
Defined.

(** A shell whose command name is 62 letters and a letter of two bytes: the
    probe captures 63 of the 64 bytes. *)
Definition long_name : list byte :=
  replicate 62 (byte.of_Z 97) ++ [byte.of_Z 0xc3; byte.of_Z 0xa9].

Definition long_name_hook : Hook :=
  mkHook 500 (Z.lor (Z.shiftl 5 32) 6) 1000 None demo_kread demo_kread (-14) demo_uread
    (fun _ n => Some (take (n - 1) long_name)) (fun _ _ => None) (fun _ => 0) (fun _ => Some 40) None
    (fun _ => true) (fun _ => None) (fun _ => None) (fun _ => true) (fun _ _ => true) (fun b => b)
    (fun _ => NUL).

(** A command name cut inside a character is valid UTF-8 no longer, and the
    daemon refuses the whole event, truncation mark and raw bytes included. *)
Theorem cut_name_refused :
  utf8_valid long_name = true /\
  (deserialize <$> EVENTS (shell_attach_point demo_globals long_name_hook 0 demo_state).2) =
    [Err "USDT command-name is not UTF-8"].
Proof. split; vm_compute; reflexivity. Qed.
