(* ===== verification/Viewer.v ===== *)
(** * The terminal viewer's data (bloodhound-tui: event_model.rs, command_reconstructor.rs, correlator.rs)

    The viewer reads the daemon's lines back, reconstructs the commands typed at
    the terminal and assigns every event to a command.  Parsing a line is
    serde's.  The command buffer holds ASCII only, so it is a byte string. *)

From S2P Require Import Prelude Json.

Local Open Scope string_scope.
Local Open Scope Z_scope.
Local Open Scope list_scope.

(** ** Events (event_model.rs) *)

Record ProcessRef : Type := mkRef { v_tgid : Z; v_start_boottime_ns : Z }.

Record EventHeader : Type := mkVHeader {
  v_timestamp : Z; v_auid : Z; v_sessionid : Z; v_pid : Z; v_ppid : option Z; v_comm : string;
  v_process_ref : option ProcessRef }.

Record EventType : Type := mkVType { v_event_type : string; v_name : string; v_layer : string }.

Record ProcInfo : Type := mkVProc {
  v_main_executable : option string; v_cwd : option string; v_tty : option string }.

Record BehaviorEvent : Type := mkVEvent {
  v_header : EventHeader; v_event : EventType; v_proc : option ProcInfo; v_args : option json;
  v_return_code : option Z }.

Inductive EventCategory : Type := Process | Security | Files | Network | Hidden.
#[export] Instance EventCategory_eq_dec : EqDecision EventCategory.
Proof. solve_decision. Defined.

Definition one_of (names : list string) (s : string) : bool := existsb (String.eqb s) names.

Definition category (e : BehaviorEvent) : EventCategory :=
  let name := v_name (v_event e) in
  if one_of ["execve"; "execveat"; "clone"; "clone3"; "process_start"; "process_fork"; "process_exit"] name
  then Process
  else if one_of ["ingress"; "egress"; "connect"; "bind"; "listen"; "socket"; "sendto"; "recvfrom"] name
  then Network
  else if one_of ["openat"; "read"; "write"; "mkdir"; "mkdirat"; "rmdir"; "unlink"; "unlinkat"; "rename";
    "renameat2"; "symlink"; "symlinkat"; "link"; "linkat"; "chmod"; "fchmod"; "fchmodat"; "chown"; "fchown";
    "fchownat"; "truncate"; "ftruncate"; "chdir"; "fchdir"; "mount"; "umount2"; "mmap"; "dup"; "dup2"; "dup3";
    "fcntl"; "pread64"; "pwrite64"; "readv"; "writev"; "sendfile"; "splice"; "file_open"; "inode_unlink";
    "inode_rename"] name
  then Files
  else if one_of ["task_kill"; "bpf"; "ptrace_access_check"; "task_fix_setuid"] name then Security
  else Hidden.

Definition is_tty_write (e : BehaviorEvent) : bool := String.eqb (v_name (v_event e)) "tty_write".

Definition is_tty (e : BehaviorEvent) : bool :=
  String.eqb (v_name (v_event e)) "tty_read" || String.eqb (v_name (v_event e)) "tty_write".

Definition is_synthetic (e : BehaviorEvent) : bool :=
  one_of ["LIFECYCLE"; "HEARTBEAT"; "DIAGNOSTIC"] (v_event_type (v_event e)).

(** [Value::as_str], [Value::as_array] and a key of the arguments. *)
Definition as_str (v : json) : option string := match v with JStr s => Some s | _ => None end.
Definition as_array (v : json) : option (list json) := match v with JArr l => Some l | _ => None end.
Definition arg (e : BehaviorEvent) (key : string) : option json := v_args e ≫= json_get key.

(** ** Reconstructing commands (command_reconstructor.rs) *)

Record CommandEntry : Type := mkCommand { command : string; start_timestamp : Z; end_timestamp : Z }.

Definition SHELL_COMMS : list string := ["bash"; "sh"; "zsh"; "fish"; "dash"; "ksh"; "tcsh"; "csh"].

Definition is_ascii_alphabetic (b : byte) : bool :=
  let v := byte.unsigned b in ((65 <=? v) && (v <=? 90)) || ((97 <=? v) && (v <=? 122)).
Definition is_ascii_graphic (b : byte) : bool := let v := byte.unsigned b in (33 <=? v) && (v <=? 126).

(** White space of an ASCII string. *)
Definition is_space (b : byte) : bool := let v := byte.unsigned b in (v =? 32) || ((9 <=? v) && (v <=? 13)).

(** The last position whose suffix satisfies [p]. *)
Fixpoint rfind (p : list byte -> bool) (l : list byte) : option nat :=
  match l with
  | [] => None
  | _ :: r => match rfind p r with Some i => Some (S i) | None => if p l then Some 0%nat else None end
  end.

Definition starts_with (pat : list byte) (l : list byte) : bool := bool_decide (take (length pat) l = pat).

Definition strip_prompt (line : list byte) : list byte :=
  match rfind (starts_with [Byte.x24; Byte.x20]) line with
  | Some pos => drop (pos + 2) line
  | None =>
      match rfind (starts_with [Byte.x23; Byte.x20]) line with
      | Some pos => drop (pos + 2) line
      | None => line
      end
  end.

Fixpoint trim_end (l : list byte) : list byte :=
  match l with
  | [] => []
  | b :: r =>
      match trim_end r with
      | [] => if is_space b then [] else [b]
      | r => b :: r
      end
  end.

(** Ctrl-W: the last word goes, with the space before it kept. *)
Definition delete_word (buf : list byte) : list byte :=
  match rfind (starts_with [Byte.x20]) (trim_end buf) with
  | Some pos => take (pos + 1) buf
  | None => []
  end.

Definition pop (buf : list byte) : list byte := take (length buf - 1) buf.

(** The local variables of the loop. *)
Record Reconstruct : Type := mkRec {
  c_commands : list CommandEntry; c_buf : list byte; c_start_ts : Z; c_has_start : bool;
  c_in_escape : bool; c_in_osc : bool }.

Definition set_buf (buf : list byte) (s : Reconstruct) : Reconstruct :=
  mkRec (c_commands s) buf (c_start_ts s) (c_has_start s) (c_in_escape s) (c_in_osc s).
Definition set_modes (escape osc : bool) (s : Reconstruct) : Reconstruct :=
  mkRec (c_commands s) (c_buf s) (c_start_ts s) (c_has_start s) escape osc.

(** Push the command in the buffer, which ends at [ts]. *)
Definition flush (ts : Z) (marker : list byte) (s : Reconstruct) : Reconstruct :=
  mkRec (c_commands s ++ [mkCommand (bstr (strip_prompt (c_buf s ++ marker))) (c_start_ts s) ts])
    [] (c_start_ts s) false (c_in_escape s) (c_in_osc s).

Definition handle_byte (ts : Z) (s : Reconstruct) (b : byte) : Reconstruct :=
  let v := byte.unsigned b in
  if c_in_osc s then (if v =? 0x07 then set_modes (c_in_escape s) false s else s)
  else if c_in_escape s then
    if v =? 0x5d then set_modes false true s
    else if is_ascii_alphabetic b || (v =? 0x7e) then set_modes false (c_in_osc s) s
    else s
  else if (v =? 0x0d) || (v =? 0x0a) then flush ts [] s
  else if v =? 0x7f then set_buf (pop (c_buf s)) s
  else if v =? 0x03 then flush ts [Byte.x5e; Byte.x43] s
  else if v =? 0x04 then flush ts [Byte.x5e; Byte.x44] s
  else if v =? 0x1b then set_modes true (c_in_osc s) s
  else if v =? 0x09 then set_buf (c_buf s ++ [Byte.x09]) s
  else if v =? 0x15 then set_buf [] s
  else if v =? 0x17 then set_buf (delete_word (c_buf s)) s
  else if is_ascii_graphic b || (v =? 0x20) then set_buf (c_buf s ++ [b]) s
  else s.

(** A [tty_write] event: its timestamp, its data in base64, its process name. *)
Definition tty_event : Type := Z * string * string.

Section Reconstruction.
Context `{Base64}.

Definition handle_event (s : Reconstruct) (e : tty_event) : Reconstruct :=
  let '(ts, data, comm) := e in
  if negb (one_of SHELL_COMMS comm) then s else
  match b64_decode data with
  | None => s
  | Some raw =>
      let s := if c_has_start s then s
               else mkRec (c_commands s) (c_buf s) ts true (c_in_escape s) (c_in_osc s) in
      foldl (handle_byte ts) s raw
  end.

Definition reconstruct_commands (events : list tty_event) : list CommandEntry :=
  let s := foldl handle_event (mkRec [] [] 0 false false false) events in
  match c_buf s with
  | [] => c_commands s
  | buf =>
      let last_ts := match last events with Some (ts, _, _) => ts | None => c_start_ts s end in
      c_commands s ++ [mkCommand (bstr (strip_prompt buf)) (c_start_ts s) last_ts]
  end.
End Reconstruction.

(** ** Assigning events to commands (correlator.rs) *)

Record CommandGroup : Type := mkGroup { g_command : string; g_timestamp : Z; event_indices : list nat }.

Definition is_correlated (e : BehaviorEvent) : bool := negb (is_tty e) && negb (is_synthetic e).

(** The correlated events: position and timestamp. *)
Definition non_tty (events : list BehaviorEvent) : list (nat * Z) :=
  (fun p : nat * BehaviorEvent => (p.1, v_timestamp (v_header p.2))) <$>
  filter (fun p : nat * BehaviorEvent => is_correlated p.2 = true) (imap pair events).

Definition in_window (lo hi : Z) (l : list (nat * Z)) : list nat :=
  fst <$> filter (fun p : nat * Z => lo <= p.2 /\ p.2 < hi) l.

(** The groups of the commands; a window ends at the next command. *)
Fixpoint command_groups (commands : list CommandEntry) (l : list (nat * Z)) : list CommandGroup :=
  match commands with
  | [] => []
  | c :: rest =>
      let window_end := match rest with c' :: _ => end_timestamp c' | [] => U64_MAX end in
      mkGroup (command c) (end_timestamp c) (in_window (end_timestamp c) window_end l)
      :: command_groups rest l
  end.

Definition correlate (commands : list CommandEntry) (events : list BehaviorEvent) : list CommandGroup :=
  match commands with
  | [] =>
      [mkGroup "[no commands detected]"
         (match events with e :: _ => v_timestamp (v_header e) | [] => 0 end) (fst <$> non_tty events)]
  | c :: _ =>
      let l := non_tty events in
      let pre := fst <$> filter (fun p : nat * Z => p.2 < end_timestamp c) l in
      (match pre with
       | [] => []
       | _ => [mkGroup "[pre-session]" (match l with (_, ts) :: _ => ts | [] => 0 end) pre]
       end) ++ command_groups commands l
  end.
