(* ===== verification/ViewerFacts.v ===== *)
(** * Commands and their events

    What the command reconstructor computes, as three passes over the bytes the
    shells wrote, and that the correlator assigns every event to one command. *)

From stdpp Require Import sorting.
From S2P Require Import Prelude Json Viewer.

Local Open Scope string_scope.
Local Open Scope Z_scope.
Local Open Scope list_scope.

(** ** Escape sequences *)

Inductive mode : Type := Plain | Esc | Osc.

(** The bytes outside escape sequences. *)
Fixpoint outside (m : mode) (bs : list byte) : list byte :=
  match bs with
  | [] => []
  | b :: bs =>
      let v := byte.unsigned b in
      match m with
      | Plain => if v =? 0x1b then outside Esc bs else b :: outside Plain bs
      | Esc => if v =? 0x5d then outside Osc bs
               else if is_ascii_alphabetic b || (v =? 0x7e) then outside Plain bs else outside Esc bs
      | Osc => if v =? 0x07 then outside Plain bs else outside Osc bs
      end
  end.

(** ** Lines *)

(** What a byte that ends a command adds to it. *)
Definition terminator (b : byte) : option (list byte) :=
  let v := byte.unsigned b in
  if (v =? 0x0d) || (v =? 0x0a) then Some []
  else if v =? 0x03 then Some [Byte.x5e; Byte.x43]
  else if v =? 0x04 then Some [Byte.x5e; Byte.x44]
  else None.

(** The lines with what ended each, and what follows the last end. *)
Fixpoint split_lines (ks : list byte) : list (list byte * list byte) * list byte :=
  match ks with
  | [] => ([], [])
  | k :: ks =>
      match terminator k, split_lines ks with
      | Some m, (ls, rest) => (([], m) :: ls, rest)
      | None, ((l, m) :: ls, rest) => ((k :: l, m) :: ls, rest)
      | None, ([], rest) => ([], k :: rest)
      end
  end.

Fixpoint drop_while (p : byte -> bool) (l : list byte) : list byte :=
  match l with
  | [] => []
  | b :: r => if p b then drop_while p r else l
  end.

Definition is_sp (b : byte) : bool := byte.unsigned b =? 0x20.

(** What a key does to the line, the last byte typed first: DEL takes that byte
    back, Ctrl-U the line, Ctrl-W the white space typed last and the word
    before it up to a space. *)
Definition edit_key (typed : list byte) (b : byte) : list byte :=
  let v := byte.unsigned b in
  if v =? 0x7f then tail typed
  else if v =? 0x15 then []
  else if v =? 0x17 then drop_while (fun c => negb (is_sp c)) (drop_while is_space typed)
  else if (33 <=? v) && (v <=? 126) || (v =? 0x20) || (v =? 0x09) then b :: typed
  else typed.

Definition edit (line : list byte) : list byte := reverse (foldl edit_key [] line).

(** What follows the last [mark] and space of a line. *)
Fixpoint after_last (mark : Z) (line : list byte) : option (list byte) :=
  match line with
  | [] => None
  | b :: rest =>
      match after_last mark rest, rest with
      | Some text, _ => Some text
      | None, sp :: text => if (byte.unsigned b =? mark) && is_sp sp then Some text else None
      | None, [] => None
      end
  end.

(** A line without its prompt, which ends in a dollar and a space or else in a
    number sign and a space. *)
Definition without_prompt (line : list byte) : list byte :=
  match after_last 0x24 line, after_last 0x23 line with
  | Some text, _ | None, Some text => text
  | None, None => line
  end.

Definition line_text (l : list byte * list byte) : string := bstr (without_prompt (edit l.1 ++ l.2)).

Definition open_text (line : list byte) : list string :=
  match line with [] => [] | _ => [bstr (without_prompt line)] end.

(** The commands in what the shells wrote. *)
Definition command_texts (bs : list byte) : list string :=
  let '(ls, rest) := split_lines (outside Plain bs) in (line_text <$> ls) ++ open_text (edit rest).

(** ** The code's string functions against the reference *)

Lemma byte_unsigned_eq (b c : byte) : byte.unsigned b = byte.unsigned c -> b = c.
Proof. intros E. by rewrite <- (byte.of_Z_unsigned b), E, byte.of_Z_unsigned. Qed.

Lemma unsigned_eqb (b c : byte) : (byte.unsigned b =? byte.unsigned c) = bool_decide (b = c).
Proof.
  destruct (Z.eqb_spec (byte.unsigned b) (byte.unsigned c)) as [E|E].
  - rewrite bool_decide_true; [done|by apply byte_unsigned_eq].
  - rewrite bool_decide_false; [done|by intros ->].
Qed.

Lemma starts_with_two x y l :
  starts_with [x; y] l = match l with b :: c :: _ => bool_decide (b = x) && bool_decide (c = y) | _ => false end.
Proof.
  unfold starts_with. destruct l as [|b [|c l]]; cbn; [done| |]; repeat case_bool_decide; naive_solver.
Qed.

Lemma after_last_rfind mark line :
  after_last (byte.unsigned mark) line =
  (fun pos => drop (pos + 2) line) <$> rfind (starts_with [mark; Byte.x20]) line.
Proof.
  induction line as [|b rest IH]; [done|]. cbn [after_last rfind]. rewrite IH.
  destruct (rfind _ rest) as [pos|]; cbn [fmap option_fmap option_map]; [done|].
  rewrite starts_with_two. destruct rest as [|c rest]; [done|]. unfold is_sp.
  change 0x20 with (byte.unsigned Byte.x20). rewrite !unsigned_eqb. by destruct (_ && _).
Qed.

Lemma strip_prompt_spec line : strip_prompt line = without_prompt line.
Proof.
  unfold strip_prompt, without_prompt. change 0x24 with (byte.unsigned Byte.x24).
  change 0x23 with (byte.unsigned Byte.x23). rewrite !after_last_rfind.
  destruct (rfind _ line), (rfind _ line); done.
Qed.

Lemma pop_spec buf : reverse (pop buf) = tail (reverse buf).
Proof.
  unfold pop. destruct buf as [|b buf _] using rev_ind; [done|].
  rewrite length_app, reverse_snoc, take_app_le, take_ge by (cbn; lia). done.
Qed.

Lemma trim_end_snoc l b : trim_end (l ++ [b]) = if is_space b then trim_end l else l ++ [b].
Proof.
  induction l as [|c l IH]; [done|]. cbn [app trim_end]. rewrite IH.
  destruct (is_space b); [done|]. by destruct l.
Qed.

Lemma length_trim_end l : (length (trim_end l) <= length l)%nat.
Proof. induction l as [|b l IH]; [done|]. cbn. destruct (trim_end l); [destruct (is_space b)|]; cbn in *; lia. Qed.

Lemma rfind_lt p l pos : rfind p l = Some pos -> (pos < length l)%nat.
Proof.
  revert pos. induction l as [|b l IH]; intros pos; cbn [rfind]; [done|].
  destruct (rfind p l) as [i|]; [|case_match; [|done]]; intros [= <-]; cbn; [|lia].
  specialize (IH i eq_refl). lia.
Qed.

Lemma rfind_space_snoc l b :
  rfind (starts_with [Byte.x20]) (l ++ [b]) =
  if is_sp b then Some (length l) else rfind (starts_with [Byte.x20]) l.
Proof.
  induction l as [|c l IH]; cbn [app rfind].
  - unfold starts_with, is_sp. cbn. change 0x20 with (byte.unsigned Byte.x20). rewrite unsigned_eqb.
    repeat case_bool_decide; naive_solver.
  - rewrite IH. destruct (is_sp b); [done|]. by destruct (rfind _ l).
Qed.

(** Cutting after the last space. *)
Lemma cut_space l :
  reverse (match rfind (starts_with [Byte.x20]) l with Some pos => take (pos + 1) l | None => [] end) =
  drop_while (fun c => negb (is_sp c)) (reverse l).
Proof.
  induction l as [|b l IH] using rev_ind; [done|]. rewrite rfind_space_snoc, reverse_snoc. cbn [drop_while].
  destruct (is_sp b); cbn [negb].
  - rewrite take_ge by (rewrite length_app; cbn; lia). apply reverse_snoc.
  - rewrite <- IH. destruct (rfind _ l) as [pos|] eqn:E; [|done]. apply rfind_lt in E.
    by rewrite take_app_le by lia.
Qed.

Lemma delete_word_spec buf :
  reverse (delete_word buf) = drop_while (fun c => negb (is_sp c)) (drop_while is_space (reverse buf)).
Proof.
  unfold delete_word. induction buf as [|b buf IH] using rev_ind; [done|].
  rewrite trim_end_snoc, reverse_snoc. cbn [drop_while]. destruct (is_space b) eqn:Eb.
  - rewrite <- IH. destruct (rfind _ (trim_end buf)) as [pos|] eqn:E; [|done]. apply rfind_lt in E.
    pose proof (length_trim_end buf). by rewrite take_app_le by lia.
  - rewrite <- reverse_snoc. apply cut_space.
Qed.

(** ** One pass computes the three *)

(** The commands from a state of the line on. *)
Fixpoint texts_from (typed : list byte) (ks : list byte) : list string :=
  match ks with
  | [] => open_text (reverse typed)
  | k :: ks =>
      match terminator k with
      | Some m => bstr (without_prompt (reverse typed ++ m)) :: texts_from [] ks
      | None => texts_from (edit_key typed k) ks
      end
  end.

Lemma texts_from_split typed ks :
  texts_from typed ks =
  match split_lines ks with
  | ([], rest) => open_text (reverse (foldl edit_key typed rest))
  | ((l, m) :: ls, rest) =>
      bstr (without_prompt (reverse (foldl edit_key typed l) ++ m)) :: (line_text <$> ls) ++ open_text (edit rest)
  end.
Proof.
  revert typed. induction ks as [|k ks IH]; intros typed; [done|]. cbn [texts_from split_lines].
  destruct (terminator k) as [m|]; rewrite IH; destruct (split_lines ks) as [[|[l m'] ls] rest]; done.
Qed.

Lemma texts_from_nil ks :
  texts_from [] ks = let '(ls, rest) := split_lines ks in (line_text <$> ls) ++ open_text (edit rest).
Proof. rewrite texts_from_split. by destruct (split_lines ks) as [[|[l m] ls] rest]. Qed.

Definition mode_of (s : Reconstruct) : mode :=
  if c_in_osc s then Osc else if c_in_escape s then Esc else Plain.

(** Never inside both kinds of sequence. *)
Definition modes_ok (s : Reconstruct) : Prop := c_in_osc s = true -> c_in_escape s = false.

(** What a state will have produced after the bytes [bs]. *)
Definition future (s : Reconstruct) (bs : list byte) : list string :=
  (command <$> c_commands s) ++ texts_from (reverse (c_buf s)) (outside (mode_of s) bs).

(** The branch of the byte [c]. *)
Ltac key_case v c :=
  let E := fresh "E" in
  destruct (Z.eqb_spec v c) as [E|_];
  [rewrite ?E; cbn [Z.eqb Pos.eqb orb c_in_osc c_in_escape c_commands c_buf set_buf];
   split; [done|]; rewrite ?fmap_app, <- ?app_assoc, ?reverse_involutive, ?strip_prompt_spec, ?pop_spec,
     ?delete_word_spec, ?reverse_snoc, ?reverse_involutive; try done|].

Lemma future_step ts s b bs :
  modes_ok s -> modes_ok (handle_byte ts s b) /\ future (handle_byte ts s b) bs = future s (b :: bs).
Proof.
  destruct s as [cs buf st hs esc osc]. unfold modes_ok, future, mode_of, handle_byte.
  cbn [c_in_osc c_in_escape c_commands c_buf]. intros Hm. cbn [outside].
  destruct osc; [rewrite Hm by done|]; [by destruct (_ =? 0x07)|].
  destruct esc; [destruct (_ =? 0x5d); [done|]; by destruct (_ || _)|].
  destruct (Z.eqb_spec (byte.unsigned b) 0x1b) as [E|Hne]; [by rewrite E|].
  cbn [texts_from]. unfold terminator, edit_key, flush.
  assert (Hb : byte.unsigned b = 9 -> b = Byte.x09)
    by (intros E; rewrite <- (byte.of_Z_unsigned b), E; done).
  key_case (byte.unsigned b) 0x0d. key_case (byte.unsigned b) 0x0a. key_case (byte.unsigned b) 0x7f.
  key_case (byte.unsigned b) 0x03. key_case (byte.unsigned b) 0x04.
  key_case (byte.unsigned b) 0x09. { by rewrite Hb. }
  key_case (byte.unsigned b) 0x15. key_case (byte.unsigned b) 0x17. cbn [orb]. rewrite orb_false_r.
  unfold is_ascii_graphic. cbv zeta. destruct (_ || _); [|done]. cbn [c_in_osc c_in_escape c_commands c_buf set_buf].
  by rewrite reverse_snoc.
Qed.

Lemma future_bytes ts s bs rest :
  modes_ok s ->
  modes_ok (foldl (handle_byte ts) s bs) /\ future (foldl (handle_byte ts) s bs) rest = future s (bs ++ rest).
Proof.
  revert s. induction bs as [|b bs IH]; intros s Hm; [done|]. cbn [foldl app].
  destruct (future_step ts s b (bs ++ rest) Hm) as [Hm' <-]. by apply IH.
Qed.

Section Texts.
Context `{Base64}.

(** The bytes of an event, if it is a shell's and its data decodes. *)
Definition shell_bytes (e : tty_event) : list byte :=
  let '(_, data, comm) := e in if one_of SHELL_COMMS comm then default [] (b64_decode data) else [].

Lemma future_event s e rest :
  modes_ok s ->
  modes_ok (handle_event s e) /\ future (handle_event s e) rest = future s (shell_bytes e ++ rest).
Proof.
  destruct e as [[ts data] comm]. unfold handle_event, shell_bytes. intros Hm.
  destruct (one_of SHELL_COMMS comm); cbn [negb]; [|done].
  destruct (b64_decode data) as [raw|]; cbn [default]; [|done].
  destruct (c_has_start s); [by apply future_bytes|].
  destruct (future_bytes ts (mkRec (c_commands s) (c_buf s) ts true (c_in_escape s) (c_in_osc s)) raw rest Hm)
    as [Hm' ->]. done.
Qed.

Lemma future_events s es rest :
  modes_ok s -> future (foldl handle_event s es) rest = future s (concat (shell_bytes <$> es) ++ rest).
Proof.
  revert s. induction es as [|e es IH]; intros s Hm; [done|]. cbn [foldl fmap list_fmap concat].
  rewrite IH by apply (future_event s e [] Hm). rewrite <- app_assoc. by apply future_event.
Qed.

Lemma reconstruct_texts es :
  command <$> reconstruct_commands es = command_texts (concat (shell_bytes <$> es)).
Proof.
  unfold reconstruct_commands, command_texts. rewrite <- texts_from_nil.
  set (s0 := mkRec [] [] 0 false false false).
  pose proof (future_events s0 es [] ltac:(done)) as Hf. unfold future in Hf at 2.
  cbn [s0 c_commands c_buf fmap list_fmap app] in Hf. rewrite app_nil_r in Hf.
  change (mode_of s0) with Plain in Hf. change (reverse (@nil byte)) with (@nil byte) in Hf. rewrite <- Hf.
  unfold future. cbn [outside texts_from]. rewrite reverse_involutive.
  destruct (c_buf _) as [|b buf]; cbn [open_text]; rewrite ?app_nil_r, ?fmap_app, ?strip_prompt_spec; done.
Qed.

(** C26: the commands the reconstructor finds are those of the bytes the
    shells wrote, however these were cut into events and whatever other
    processes wrote in between: drop the escape sequences, split at Enter,
    Ctrl-C and Ctrl-D, replay the editing keys of each line on a stack of the
    bytes typed, and take what follows the last dollar and space, or else the
    last number sign and space.  The reference follows the code where its
    comments promise more: a title ends at BEL only, and a command with a
    dollar and a space in it is cut there. *)
Theorem reconstruct_commands_spec es :
  command <$> reconstruct_commands es = command_texts (concat (shell_bytes <$> es)).
Proof. apply reconstruct_texts. Qed.

(** ** Order of the commands *)

Definition event_ts (e : tty_event) : Z := e.1.1.

(** The commands so far are in order and none ends after [t]. *)
Definition ordered_until (t : Z) (s : Reconstruct) : Prop :=
  Sorted Z.le (end_timestamp <$> c_commands s) /\ Forall (fun c => end_timestamp c <= t) (c_commands s).

Lemma sorted_snoc (l : list Z) t : Sorted Z.le l -> Forall (fun x => x <= t) l -> Sorted Z.le (l ++ [t]).
Proof.
  induction 1 as [|x l Hs IH Hx]; intros Hf; [by repeat constructor|].
  apply Forall_cons in Hf as [H1 H2]. cbn. constructor; [by apply IH|].
  destruct Hx as [|y l]; cbn; by constructor.
Qed.

Lemma ordered_push t s c :
  ordered_until t s -> end_timestamp c = t ->
  Sorted Z.le (end_timestamp <$> c_commands s ++ [c]) /\
  Forall (fun c => end_timestamp c <= t) (c_commands s ++ [c]).
Proof.
  intros [Hs Hf] Ht. rewrite fmap_app. cbn [fmap list_fmap]. rewrite Ht. split.
  - apply sorted_snoc; [done|]. by apply Forall_fmap.
  - apply Forall_app. split; [done|]. repeat constructor. lia.
Qed.

Lemma ordered_byte t s b : ordered_until t s -> ordered_until t (handle_byte t s b).
Proof.
  intros Ho. unfold handle_byte. repeat case_match; try exact Ho; by apply (ordered_push t s).
Qed.

Lemma ordered_bytes t s bs : ordered_until t s -> ordered_until t (foldl (handle_byte t) s bs).
Proof. revert s. induction bs as [|b bs IH]; intros s Ho; [done|]. apply IH. by apply ordered_byte. Qed.

Lemma ordered_event t s e : ordered_until t s -> t <= event_ts e -> ordered_until (event_ts e) (handle_event s e).
Proof.
  destruct e as [[ts data] comm]. cbn. intros [Hs Hf] Ht.
  assert (Ho : ordered_until ts s) by (split; [done|]; eapply Forall_impl; [done|]; cbn; lia).
  repeat case_match; try done; by apply ordered_bytes.
Qed.

Lemma ordered_events t s es :
  ordered_until t s -> Sorted Z.le (t :: (event_ts <$> es)) ->
  ordered_until (default t (event_ts <$> last es)) (foldl handle_event s es).
Proof.
  revert t s. induction es as [|e es IH]; intros t s Ho Hs; [done|]. cbn [foldl].
  inversion Hs as [|? ? Hs' Hr]; subst. inversion Hr; subst.
  specialize (IH (event_ts e) (handle_event s e) (ordered_event t s e Ho ltac:(done)) Hs').
  rewrite last_cons. by destruct (last es).
Qed.

Lemma reconstruct_sorted es :
  Sorted Z.le (event_ts <$> es) -> Sorted Z.le (end_timestamp <$> reconstruct_commands es).
Proof.
  intros Hs. unfold reconstruct_commands. set (s0 := mkRec [] [] 0 false false false).
  destruct es as [|e es]; [by constructor|].
  assert (Ho : ordered_until (default (event_ts e) (event_ts <$> last (e :: es))) (foldl handle_event s0 (e :: es))).
  { apply ordered_events; [by split; constructor|]. constructor; [done|]. by constructor. }
  assert (Hl : exists x, last (e :: es) = Some x) by (rewrite last_cons; destruct (last es); eauto).
  destruct Hl as [[[t d] c] Hl]. rewrite Hl in Ho |- *. cbn [fmap option_fmap option_map default] in Ho.
  case_match; [apply Ho|]. by apply (ordered_push t).
Qed.
End Texts.

(** ** Every event in one window *)

Lemma filter_split {A} (P Q R : A -> Prop) `{!forall x, Decision (P x), !forall x, Decision (Q x),
    !forall x, Decision (R x)} (l : list A) :
  (forall x, x ∈ l -> (P x <-> Q x \/ R x) /\ ~ (Q x /\ R x)) ->
  filter P l ≡ₚ filter Q l ++ filter R l.
Proof.
  induction l as [|x l IH]; intros Hx; [done|]. rewrite !filter_cons.
  specialize (IH (fun y Hy => Hx y (list_elem_of_further y x l Hy))).
  destruct (Hx x (list_elem_of_here _ _)) as [Hor Hno].
  destruct (decide (P x)), (decide (Q x)), (decide (R x)); try tauto; cbn; [by f_equiv|].
  rewrite IH. apply Permutation_middle.
Qed.

Lemma filter_ext_in {A} (P Q : A -> Prop) `{!forall x, Decision (P x), !forall x, Decision (Q x)} (l : list A) :
  (forall x, x ∈ l -> P x <-> Q x) -> filter P l = filter Q l.
Proof.
  induction l as [|x l IH]; intros Hx; [done|]. rewrite !filter_cons.
  rewrite IH by (intros y Hy; apply Hx; by right).
  specialize (Hx x (list_elem_of_here _ _)). destruct (decide (P x)), (decide (Q x)); tauto.
Qed.

Lemma filter_all {A} (P : A -> Prop) `{!forall x, Decision (P x)} (l : list A) :
  (forall x, x ∈ l -> P x) -> filter P l = l.
Proof.
  induction l as [|x l IH]; intros Hx; [done|]. rewrite filter_cons_True by (apply Hx; by left).
  f_equal. apply IH. intros y Hy. apply Hx. by right.
Qed.

Lemma command_groups_partition c rest l :
  Sorted Z.le (end_timestamp <$> c :: rest) -> Forall (fun p : nat * Z => p.2 < U64_MAX) l ->
  concat (event_indices <$> command_groups (c :: rest) l) ≡ₚ
  fst <$> filter (fun p : nat * Z => end_timestamp c <= p.2) l.
Proof.
  revert c. induction rest as [|c' rest IH]; intros c Hs Hl.
  - cbn [command_groups fmap list_fmap concat event_indices]. rewrite app_nil_r. unfold in_window.
    apply fmap_Permutation. rewrite (filter_ext_in _ (fun p : nat * Z => end_timestamp c <= p.2)); [done|].
    intros p Hp. rewrite Forall_forall in Hl. specialize (Hl p Hp). cbn in Hl. tauto.
  - inversion Hs as [|? ? Hs' Hr]; subst. inversion Hr as [|? ? Hc]; subst.
    cbn [command_groups]. cbn [fmap list_fmap concat event_indices]. fold (fmap (M:=list) event_indices).
    change (event_indices <$> command_groups (c' :: rest) l) with
      (fmap (M:=list) event_indices (command_groups (c' :: rest) l)).
    etransitivity; [apply Permutation_app_head, (IH c' Hs' Hl)|]. unfold in_window. rewrite <- fmap_app.
    apply fmap_Permutation. symmetry. apply filter_split. intros p _. lia.
Qed.

(** The windows of commands in order are a partition. *)
Lemma correlate_partition commands events :
  Sorted Z.le (end_timestamp <$> commands) ->
  Forall (fun e => v_timestamp (v_header e) < U64_MAX) events ->
  concat (event_indices <$> correlate commands events) ≡ₚ fst <$> non_tty events.
Proof.
  intros Hs He. assert (Hl : Forall (fun p : nat * Z => p.2 < U64_MAX) (non_tty events)).
  { unfold non_tty. apply Forall_fmap, Forall_forall. intros [i e] [_ Hi]%list_elem_of_filter. cbn.
    apply elem_of_lookup_imap in Hi as (j & e' & [= -> ->] & Hj).
    rewrite Forall_lookup in He. exact (He _ _ Hj). }
  unfold correlate. destruct commands as [|c rest]; [cbn; by rewrite app_nil_r|].
  rewrite fmap_app, concat_app.
  assert (Hpre : forall ts pre, concat (event_indices <$> match pre with [] => [] | _ =>
    [mkGroup "[pre-session]" ts pre] end) = pre) by (intros ts [|i pre]; cbn; by rewrite ?app_nil_r).
  rewrite Hpre, command_groups_partition, <- fmap_app by done. apply fmap_Permutation.
  transitivity (filter (fun _ : nat * Z => True) (non_tty events)); [symmetry; apply filter_split; intros; lia|].
  by rewrite filter_all.
Qed.

(** ** Prompts and titles *)

Lemma rfind_app p l r i : rfind p r = Some i -> rfind p (l ++ r) = Some (length l + i)%nat.
Proof. intros Hr. induction l as [|b l IH]; [done|]. cbn. by rewrite IH. Qed.

(** The command is what follows the last dollar and space of the line, so that
    a command with a dollar and a space of its own loses what comes before. *)
Theorem prompt_stripped_at_last_dollar line cmd :
  rfind (starts_with [Byte.x24; Byte.x20]) cmd = None ->
  strip_prompt (line ++ [Byte.x24; Byte.x20] ++ cmd) = cmd.
Proof.
  intros Hc. unfold strip_prompt.
  assert (Hr : rfind (starts_with [Byte.x24; Byte.x20]) ([Byte.x24; Byte.x20] ++ cmd) = Some 0%nat).
  { cbn [app rfind]. rewrite Hc. done. }
  rewrite (rfind_app _ line _ _ Hr), Nat.add_0_r, app_assoc.
  replace (length line + 2)%nat with (length (line ++ [Byte.x24; Byte.x20])) by (by rewrite length_app).
  apply drop_app_length.
Qed.

Lemma outside_osc bs : Forall (fun b => byte.unsigned b <> 7) bs -> outside Osc bs = [].
Proof. induction 1 as [|b bs Hb _ IH]; [done|]. cbn. by rewrite (proj2 (Z.eqb_neq _ _) Hb). Qed.

(** A title set with a sequence that ends in ESC and a backslash is never seen
    to end: without a BEL, everything after it is dropped. *)
Theorem title_ended_by_st_swallows title cmds :
  Forall (fun b => byte.unsigned b <> 7) (title ++ cmds) ->
  command_texts ([Byte.x1b; Byte.x5d] ++ title ++ [Byte.x1b; Byte.x5c] ++ cmds) = [].
Proof.
  intros [Ht Hc]%Forall_app. unfold command_texts. cbn [app outside]. change (byte.unsigned Byte.x1b =? 0x1b) with true.
  change (byte.unsigned Byte.x5d =? 0x5d) with true. cbn [outside]. rewrite outside_osc; [done|].
  apply Forall_app. split; [done|]. by repeat constructor.
Qed.
