(* ===== verification/ViewerApp.v ===== *)
(** * The viewer's application state (bloodhound-tui: main.rs, app.rs, keybinds.rs)

    What the viewer builds from the events of a trace: the groups, the output
    of each command, the trees of executed programs and the table of
    descriptors; then the state the keys act on.  Clocks and drawing are left
    out. *)

From Stdlib Require Import Ascii.
From S2P Require Import Prelude Json Viewer.

Local Open Scope string_scope.
Local Open Scope Z_scope.
Local Open Scope list_scope.

(** ** Output of the commands (main.rs) *)

(** The local variables of [strip_ansi_escapes]. *)
Record Strip : Type := mkStrip { s_out : list byte; s_in_escape : bool; s_in_osc : bool }.

Definition strip_byte (s : Strip) (b : byte) : Strip :=
  let v := byte.unsigned b in
  if s_in_osc s then (if v =? 0x07 then mkStrip (s_out s) (s_in_escape s) false else s)
  else if s_in_escape s then
    if v =? 0x5d then mkStrip (s_out s) false true
    else if is_ascii_alphabetic b || (v =? 0x7e) then mkStrip (s_out s) false (s_in_osc s)
    else s
  else if v =? 0x1b then mkStrip (s_out s) true (s_in_osc s)
  else if v =? 0x0d then s
  else if is_ascii_graphic b || (v =? 0x20) || (v =? 0x0a) || (v =? 0x09)
       then mkStrip (s_out s ++ [b]) (s_in_escape s) (s_in_osc s)
  else s.

Definition strip_ansi_escapes (raw : list byte) : list byte :=
  s_out (foldl strip_byte (mkStrip [] false false) raw).

(** [str::lines] of a text without carriage returns. *)
Fixpoint lines_from (cur : list byte) (bs : list byte) : list (list byte) :=
  match bs with
  | [] => match cur with [] => [] | _ => [cur] end
  | b :: bs => if byte.unsigned b =? 0x0a then cur :: lines_from [] bs else lines_from (cur ++ [b]) bs
  end.
Definition text_lines (bs : list byte) : list string := bstr <$> lines_from [] bs.

Definition OUTPUT_EXCLUDE : list string :=
  ["bash"; "sh"; "zsh"; "fish"; "dash"; "ksh"; "tcsh"; "csh"; "sshd"].

Section Load.
Context `{Base64}.

(** The terminal writes that are output of a program. *)
Definition output_writes (events : list BehaviorEvent) : list (Z * list byte) :=
  omap (fun e =>
    if is_tty_write e && negb (one_of OUTPUT_EXCLUDE (v_comm (v_header e))) then
      data ← arg e "data" ≫= as_str;
      raw ← b64_decode data;
      Some (v_timestamp (v_header e), raw)
    else None) events.

Fixpoint build_tty_output_groups (groups : list CommandGroup) (writes : list (Z * list byte))
    : list (list string) :=
  match groups with
  | [] => []
  | g :: rest =>
      let window_end := match rest with g' :: _ => g_timestamp g' | [] => U64_MAX end in
      let raw := concat (snd <$> filter (fun w : Z * list byte => g_timestamp g <= w.1 /\ w.1 < window_end) writes) in
      text_lines (strip_ansi_escapes raw) :: build_tty_output_groups rest writes
  end.

Definition build_tty_output (groups : list CommandGroup) (events : list BehaviorEvent) : list (list string) :=
  build_tty_output_groups groups (output_writes events).

(** The terminal writes commands are reconstructed from. *)
Definition tty_writes (events : list BehaviorEvent) : list tty_event :=
  omap (fun e =>
    if is_tty_write e then
      data ← arg e "data" ≫= as_str;
      Some (v_timestamp (v_header e), data, v_comm (v_header e))
    else None) events.
End Load.

(** ** Descriptors *)

(** [rc as u32] of a result that is not negative. *)
Definition fd_step (table : gmap (Z * Z) string) (e : BehaviorEvent) : gmap (Z * Z) string :=
  if negb (String.eqb (v_name (v_event e)) "openat") then table else
  match v_return_code e with
  | Some rc =>
      if 0 <=? rc then
        let filename := default "" (arg e "filename" ≫= as_str) in
        if String.eqb filename "" then table
        else <[(v_pid (v_header e), wrap 32 rc) := filename]> table
      else table
  | None => table
  end.

Definition build_fd_table (events : list BehaviorEvent) : gmap (Z * Z) string := foldl fd_step ∅ events.

(** ** Trees of executed programs *)

Definition ProcId : Type := Z * Z.

Definition parse_process_ref (v : json) : option ProcId :=
  tgid ← json_get "tgid" v ≫= as_u64;
  start ← json_get "start_boottime_ns" v ≫= as_u64;
  Some (wrap 32 tgid, start).

Definition is_lifecycle (name : string) (e : BehaviorEvent) : bool :=
  String.eqb (v_event_type (v_event e)) "LIFECYCLE" && String.eqb (v_name (v_event e)) name.

Definition or_else {A} (a b : option A) : option A := match a with Some _ => a | None => b end.

(** The start times known after an event, by process id. *)
Definition live_step (live : gmap Z Z) (e : BehaviorEvent) : gmap Z Z :=
  if is_lifecycle "process_start" e then
    match or_else ((arg e "process_ref" ≫= json_get "start_boottime_ns") ≫= as_u64)
            (arg e "start_time_ns" ≫= as_u64) with
    | Some ns => <[v_pid (v_header e) := ns]> live
    | None => live
    end
  else if is_lifecycle "process_exit" e then delete (v_pid (v_header e)) live
  else live.

(** [start_time_per_event] *)
Fixpoint start_times (live : gmap Z Z) (events : list BehaviorEvent) : list Z :=
  match events with
  | [] => []
  | e :: events =>
      let live := live_step live e in
      default 0 (or_else (v_start_boottime_ns <$> v_process_ref (v_header e)) (live !! v_pid (v_header e)))
      :: start_times live events
  end.

(** An execve of a group: its position, the event and the start of its process. *)
Record ExecNode : Type := mkNode { x_idx : nat; x_ev : BehaviorEvent; x_ns : Z }.
Definition exec_id (x : ExecNode) : ProcId := (v_pid (v_header (x_ev x)), x_ns x).

(** A fork: parent, child, time. *)
Definition fork_edge (lo hi : Z) (e : BehaviorEvent) : option (ProcId * ProcId * Z) :=
  let ts := v_timestamp (v_header e) in
  let ref_or_pid key pid_key :=
    or_else (arg e key ≫= parse_process_ref) ((fun p => (wrap 32 p, 0)) <$> (arg e pid_key ≫= as_u64)) in
  if is_lifecycle "process_fork" e && (lo <=? ts) && (ts <=? hi) then
    parent ← ref_or_pid "parent_ref" "parent_pid";
    child ← ref_or_pid "child_ref" "child_pid";
    Some (parent, child, ts)
  else None.

(** [max_by]: the last of the latest. *)
Definition latest (forks : list (ProcId * ProcId * Z)) : option (ProcId * ProcId * Z) :=
  foldl (fun best f => match best with Some b => if b.2 <=? f.2 then Some f else best | None => Some f end)
    None forks.

Definition resolve_parent (forks : list (ProcId * ProcId * Z)) (id : ProcId) (ts : Z) (fallback : ProcId)
    : ProcId :=
  let of_id := filter (fun f : ProcId * ProcId * Z =>
    (f.1.2 = id \/ (f.1.2.2 = 0 /\ f.1.2.1 = id.1)) /\ f.2 <= ts) forks in
  match latest of_id with Some f => f.1.1 | None => fallback end.

Record ExecChild : Type := mkChild {
  label : string; child_pid : Z; start_time_ns : Z; depth : nat; event_index : nat; is_last : bool }.

Definition build_exec_label (e : BehaviorEvent) : string :=
  match v_args e with
  | Some args =>
      match json_get "argv" args ≫= as_array with
      | Some argv =>
          match omap as_str argv with
          | [] => default (v_comm (v_header e)) (json_get "filename" args ≫= as_str)
          | parts => join " " parts
          end
      | None => default (v_comm (v_header e)) (json_get "filename" args ≫= as_str)
      end
  | None => v_comm (v_header e)
  end.

(** A stable sort by position. *)
Fixpoint insert_node (x : ExecNode) (l : list ExecNode) : list ExecNode :=
  match l with
  | [] => [x]
  | y :: l' => if (x_idx x <=? x_idx y)%nat then x :: l else y :: insert_node x l'
  end.
Definition sort_nodes (l : list ExecNode) : list ExecNode := foldr insert_node [] l.

(** The depth-first walk.  The source recurses without a bound; [None] is a
    recursion deeper than the fuel. *)
Fixpoint exec_tree_dfs (children_of : gmap ProcId (list ExecNode)) (fuel : nat) (d : nat) (last : bool)
    (x : ExecNode) : option (list ExecChild) :=
  match fuel with
  | O => None
  | S fuel =>
      let children := default [] (children_of !! exec_id x) in
      below ← mapM (fun p : nat * ExecNode =>
        exec_tree_dfs children_of fuel (S d) (Nat.eqb p.1 (length children - 1)) p.2) (imap pair children);
      Some (mkChild (build_exec_label (x_ev x)) (exec_id x).1 (exec_id x).2 d (x_idx x) last :: concat below)
  end.

Section Tree.
Context (events : list BehaviorEvent) (starts : list Z).

(** The start of the process that last used [pid], up to position [idx]. *)
Definition nearest_start (idx : nat) (pid : Z) : Z :=
  default 0 (snd <$> last (filter (fun p : BehaviorEvent * Z => v_pid (v_header p.1) = pid)
                             (take (S idx) (zip events starts)))).

Definition group_execs (g : CommandGroup) : list ExecNode :=
  omap (fun idx =>
    e ← events !! idx;
    ns ← starts !! idx;
    if one_of ["execve"; "execveat"] (v_name (v_event e)) then Some (mkNode idx e ns) else None)
  (event_indices g).

Definition group_forks (g : CommandGroup) : list (ProcId * ProcId * Z) :=
  let ts_of := omap (fun idx => (fun e => v_timestamp (v_header e)) <$> events !! idx) (event_indices g) in
  omap (fork_edge (g_timestamp g) (foldl Z.max (g_timestamp g) ts_of)) events.

Definition parent_of (forks : list (ProcId * ProcId * Z)) (x : ExecNode) : ProcId :=
  let ppid := default 0 (v_ppid (v_header (x_ev x))) in
  let parent := resolve_parent forks (exec_id x) (v_timestamp (v_header (x_ev x)))
                  (ppid, nearest_start (x_idx x) ppid) in
  if parent.2 =? 0 then (parent.1, nearest_start (x_idx x) parent.1) else parent.

(** Children by parent, and roots: one execve after the other. *)
Definition attach_node (forks : list (ProcId * ProcId * Z)) (ids : list ProcId)
    (acc : gmap ProcId (list ExecNode) * list ExecNode) (x : ExecNode)
    : gmap ProcId (list ExecNode) * list ExecNode :=
  let p := parent_of forks x in
  if bool_decide (p ∈ ids) then (<[p := default [] (acc.1 !! p) ++ [x]]> acc.1, acc.2)
  else (acc.1, acc.2 ++ [x]).

Definition group_tree (fuel : nat) (g : CommandGroup) : option (list ExecChild) :=
  let execves := group_execs g in
  match execves with
  | [] => Some []
  | _ =>
      let '(children, roots) :=
        foldl (attach_node (group_forks g) (exec_id <$> execves)) (∅, []) execves in
      let roots := sort_nodes roots in
      let children_of := sort_nodes <$> children in
      trees ← mapM (fun p : nat * ExecNode =>
        exec_tree_dfs children_of fuel 1 (Nat.eqb p.1 (length roots - 1)) p.2) (imap pair roots);
      Some (concat trees)
  end.
End Tree.

Definition build_exec_trees (fuel : nat) (groups : list CommandGroup) (events : list BehaviorEvent)
    : option (list (list ExecChild)) :=
  mapM (group_tree events (start_times ∅ events) fuel) groups.

(** ** The application (app.rs) *)

Inductive Pane : Type := History | Output | Detail.
Inductive Tab : Type := TProcess | TSecurity | TFiles | TNetwork.

Definition ALL_TABS : list Tab := [TProcess; TSecurity; TFiles; TNetwork].
Definition tab_index (t : Tab) : nat :=
  match t with TProcess => 0 | TSecurity => 1 | TFiles => 2 | TNetwork => 3 end.
Definition tab_category (t : Tab) : EventCategory :=
  match t with TProcess => Process | TSecurity => Security | TFiles => Files | TNetwork => Network end.

Definition tab_matches (t : Tab) (c : EventCategory) : bool :=
  if bool_decide (c = Hidden) then false else bool_decide (c = tab_category t).

Inductive HistoryRow : Type := Command (gi : nat) | Exec (group child : nat).

Inductive ProcessTreeRow : Type :=
| Root (event_idx : nat) (has_children is_expanded : bool)
| Child (event_idx : nat) (is_last_child : bool).

Record App : Type := mkApp {
  a_commands : list CommandGroup; a_events : list BehaviorEvent; a_tty_output : list (list string);
  a_exec_trees : list (list ExecChild); a_expanded : list bool;
  history_cursor : nat; active_pane : Pane; active_tab : Tab; output_scroll : Z; detail_scroll : Z;
  should_quit : bool; a_fd_table : gmap (Z * Z) string; process_expanded : gset nat }.

(** [App::new] *)
Definition app_new (commands : list CommandGroup) (events : list BehaviorEvent)
    (tty_output : list (list string)) (exec_trees : list (list ExecChild))
    (fd_table : gmap (Z * Z) string) : App :=
  mkApp commands events tty_output exec_trees (replicate (length commands) false) 0 History TProcess 0 0
    false fd_table ∅.

(** The fields the keys change. *)
Definition set_cursor (n : nat) (a : App) : App :=
  mkApp (a_commands a) (a_events a) (a_tty_output a) (a_exec_trees a) (a_expanded a) n (active_pane a)
    (active_tab a) (output_scroll a) (detail_scroll a) (should_quit a) (a_fd_table a) (process_expanded a).
Definition set_expanded (l : list bool) (a : App) : App :=
  mkApp (a_commands a) (a_events a) (a_tty_output a) (a_exec_trees a) l (history_cursor a) (active_pane a)
    (active_tab a) (output_scroll a) (detail_scroll a) (should_quit a) (a_fd_table a) (process_expanded a).
Definition set_scrolls (out det : Z) (a : App) : App :=
  mkApp (a_commands a) (a_events a) (a_tty_output a) (a_exec_trees a) (a_expanded a) (history_cursor a)
    (active_pane a) (active_tab a) out det (should_quit a) (a_fd_table a) (process_expanded a).
Definition set_pane (p : Pane) (a : App) : App :=
  mkApp (a_commands a) (a_events a) (a_tty_output a) (a_exec_trees a) (a_expanded a) (history_cursor a)
    p (active_tab a) (output_scroll a) (detail_scroll a) (should_quit a) (a_fd_table a) (process_expanded a).
Definition set_tab (t : Tab) (a : App) : App :=
  mkApp (a_commands a) (a_events a) (a_tty_output a) (a_exec_trees a) (a_expanded a) (history_cursor a)
    (active_pane a) t (output_scroll a) 0 (should_quit a) (a_fd_table a) (process_expanded a).
Definition set_quit (a : App) : App :=
  mkApp (a_commands a) (a_events a) (a_tty_output a) (a_exec_trees a) (a_expanded a) (history_cursor a)
    (active_pane a) (active_tab a) (output_scroll a) (detail_scroll a) true (a_fd_table a) (process_expanded a).
Definition set_process_expanded (s : gset nat) (a : App) : App :=
  mkApp (a_commands a) (a_events a) (a_tty_output a) (a_exec_trees a) (a_expanded a) (history_cursor a)
    (active_pane a) (active_tab a) (output_scroll a) (detail_scroll a) (should_quit a) (a_fd_table a) s.

Definition group_rows (a : App) (gi : nat) : list HistoryRow :=
  Command gi ::
  (if default false (a_expanded a !! gi)
   then (fun ci => Exec gi ci) <$> seq 0 (length (default [] (a_exec_trees a !! gi)))
   else []).

Definition visible_rows (a : App) : list HistoryRow :=
  concat (group_rows a <$> seq 0 (length (a_commands a))).

Definition row_group (r : HistoryRow) : nat := match r with Command gi => gi | Exec group _ => group end.

Definition selected_group (a : App) : nat :=
  match visible_rows a !! history_cursor a with Some r => row_group r | None => 0%nat end.

Definition current_group (a : App) : option CommandGroup := a_commands a !! selected_group a.

(** The events of a group, with their positions. *)
Definition group_events (a : App) (g : CommandGroup) : list (nat * BehaviorEvent) :=
  omap (fun idx => pair idx <$> a_events a !! idx) (event_indices g).

Definition filtered_detail_events (a : App) : list (nat * BehaviorEvent) :=
  match current_group a with
  | None => []
  | Some g => filter (fun p : nat * BehaviorEvent => tab_matches (active_tab a) (category p.2) = true)
                (group_events a g)
  end.

(** ** The process tab *)

Definition is_root (p : nat * BehaviorEvent) : bool :=
  one_of ["execve"; "execveat"; "clone"; "clone3"] (v_name (v_event p.2)).

(** The process ids, in the order of their first events. *)
Fixpoint pid_order (seen : list Z) (l : list (nat * BehaviorEvent)) : list Z :=
  match l with
  | [] => []
  | p :: l =>
      let pid := v_pid (v_header p.2) in
      if bool_decide (pid ∈ seen) then pid_order seen l else pid :: pid_order (pid :: seen) l
  end.

(** Roots and children of one process. *)
Definition split_process (events : list (nat * BehaviorEvent))
    : list (nat * BehaviorEvent) * list (nat * BehaviorEvent) :=
  let roots := filter (fun p : nat * BehaviorEvent => is_root p = true) events in
  let children := filter (fun p : nat * BehaviorEvent => is_root p = false) events in
  match roots, children with
  | [], first :: children => ([first], children)
  | _, _ => (roots, children)
  end.

Definition root_rows (expanded : gset nat) (children : list (nat * BehaviorEvent)) (root : nat * BehaviorEvent)
    : list ProcessTreeRow :=
  let is_expanded := bool_decide (root.1 ∈ expanded) in
  Root root.1 (negb (Nat.eqb (length children) 0)) is_expanded ::
  (if is_expanded
   then imap (fun i (c : nat * BehaviorEvent) => Child c.1 (Nat.eqb i (length children - 1))) children
   else []).

Definition process_rows (expanded : gset nat) (events : list (nat * BehaviorEvent)) : list ProcessTreeRow :=
  let '(roots, children) := split_process events in
  concat (root_rows expanded children <$> roots).

Definition process_tree_rows (a : App) : list ProcessTreeRow :=
  match current_group a with
  | None => []
  | Some g =>
      let all := filter (fun p : nat * BehaviorEvent => category p.2 <> Hidden) (group_events a g) in
      concat ((fun pid => process_rows (process_expanded a)
                 (filter (fun p : nat * BehaviorEvent => v_pid (v_header p.2) = pid) all))
              <$> pid_order [] all)
  end.

(** The nearest root above position [i]. *)
Fixpoint root_above (rows : list ProcessTreeRow) (i : nat) : option (nat * nat) :=
  match i with
  | O => None
  | S i => match rows !! i with Some (Root idx _ _) => Some (i, idx) | _ => root_above rows i end
  end.

Definition toggle_process_expand (a : App) : App :=
  let rows := process_tree_rows a in
  match rows !! Z.to_nat (detail_scroll a) with
  | None => a
  | Some (Root idx has_children _) =>
      if has_children then
        if bool_decide (idx ∈ process_expanded a)
        then set_process_expanded (process_expanded a ∖ {[idx]}) a
        else set_process_expanded ({[idx]} ∪ process_expanded a) a
      else a
  | Some (Child _ _) =>
      match root_above rows (Z.to_nat (detail_scroll a)) with
      | Some (i, idx) =>
          set_scrolls (output_scroll a) (Z.of_nat i) (set_process_expanded (process_expanded a ∖ {[idx]}) a)
      | None => a
      end
  end.

(** ** The history pane *)

(** The first row of that command. *)
Fixpoint command_row (g : nat) (rows : list HistoryRow) : option nat :=
  match rows with
  | [] => None
  | Command gi :: rows => if Nat.eqb gi g then Some 0%nat else S <$> command_row g rows
  | _ :: rows => S <$> command_row g rows
  end.

Definition toggle_expand (a : App) : App :=
  match visible_rows a !! history_cursor a with
  | Some (Command gi) =>
      match default [] (a_exec_trees a !! gi) with
      | [] => a
      | _ => set_expanded (alter negb gi (a_expanded a)) a
      end
  | Some (Exec group _) =>
      let a := set_expanded (<[group := false]> (a_expanded a)) a in
      match command_row group (visible_rows a) with Some i => set_cursor i a | None => a end
  | None => a
  end.

Definition select_next (a : App) : App :=
  match active_pane a with
  | History =>
      if (S (history_cursor a) <? length (visible_rows a))%nat
      then set_scrolls 0 0 (set_cursor (S (history_cursor a)) a) else a
  | Output => set_scrolls (saturating_add (output_scroll a) 1) (detail_scroll a) a
  | Detail => set_scrolls (output_scroll a) (saturating_add (detail_scroll a) 1) a
  end.

Definition select_prev (a : App) : App :=
  match active_pane a with
  | History =>
      match history_cursor a with O => a | S n => set_scrolls 0 0 (set_cursor n a) end
  | Output => set_scrolls (saturating_sub (output_scroll a) 1) (detail_scroll a) a
  | Detail => set_scrolls (output_scroll a) (saturating_sub (detail_scroll a) 1) a
  end.

Definition jump_top (a : App) : App :=
  match active_pane a with
  | History => set_scrolls 0 0 (set_cursor 0 a)
  | Output => set_scrolls 0 (detail_scroll a) a
  | Detail => set_scrolls (output_scroll a) 0 a
  end.

Definition jump_bottom (a : App) : App :=
  match active_pane a with
  | History =>
      let count := length (visible_rows a) in
      set_scrolls 0 0 (if (0 <? count)%nat then set_cursor (count - 1) a else a)
  | Output =>
      set_scrolls (saturating_sub (len (default [] (a_tty_output a !! selected_group a))) 1) (detail_scroll a) a
  | Detail => set_scrolls (output_scroll a) (saturating_sub (len (filtered_detail_events a)) 1) a
  end.

Definition toggle_pane (a : App) : App :=
  set_pane (match active_pane a with History => Output | Output => Detail | Detail => History end) a.

Definition nth_tab (i : nat) : Tab := nth i ALL_TABS TProcess.
Definition next_tab (a : App) : App := set_tab (nth_tab (Nat.modulo (tab_index (active_tab a) + 1) 4)) a.
Definition prev_tab (a : App) : App :=
  set_tab (nth_tab (match tab_index (active_tab a) with O => 3 | S n => n end)%nat) a.

(** ** Keys (keybinds.rs) *)

Inductive KeyCode : Type :=
| KChar (c : Ascii.ascii) (control : bool) | KEsc | KEnter | KDown | KUp | KTab | KRight | KLeft | KOther.

Definition activate (a : App) : App :=
  match active_pane a, active_tab a with
  | History, _ => toggle_expand a
  | Detail, TProcess => toggle_process_expand a
  | _, _ => a
  end.

Definition in_detail (f : App -> App) (a : App) : App :=
  match active_pane a with Detail => f a | _ => a end.

Definition handle_char (c : Ascii.ascii) (control : bool) (a : App) : App :=
  if Ascii.eqb c "q"%char then set_quit a
  else if Ascii.eqb c "c"%char && control then set_quit a
  else if Ascii.eqb c " "%char then activate a
  else if Ascii.eqb c "j"%char then select_next a
  else if Ascii.eqb c "k"%char then select_prev a
  else if Ascii.eqb c "g"%char then jump_top a
  else if Ascii.eqb c "G"%char then jump_bottom a
  else if Ascii.eqb c "1"%char then set_tab TProcess a
  else if Ascii.eqb c "2"%char then set_tab TSecurity a
  else if Ascii.eqb c "3"%char then set_tab TFiles a
  else if Ascii.eqb c "4"%char then set_tab TNetwork a
  else if Ascii.eqb c "l"%char then in_detail next_tab a
  else if Ascii.eqb c "h"%char then in_detail prev_tab a
  else a.

Definition handle_key (a : App) (key : KeyCode) : App :=
  match key with
  | KChar c control => handle_char c control a
  | KEsc => set_quit a
  | KEnter => activate a
  | KDown => select_next a
  | KUp => select_prev a
  | KTab => toggle_pane a
  | KRight => in_detail next_tab a
  | KLeft => in_detail prev_tab a
  | KOther => a
  end.

(** ** From a trace to the application (main.rs) *)

Section Build.
Context `{Base64}.
(** [serde_json::from_str] of a line. *)
Context (parse : string -> option BehaviorEvent).

(** [c.command.trim().is_empty()] *)
Definition blank (s : string) : bool := forallb is_space (str_bytes s).

Definition trace_commands (events : list BehaviorEvent) : list CommandEntry :=
  filter (fun c => blank (command c) = false) (reconstruct_commands (tty_writes events)).

(** The lines of the file, trimmed; [None] is the unbounded recursion of the
    tree walk. *)
Definition build_app (fuel : nat) (lines : list string) : option (result App) :=
  let events := omap (fun l => if String.eqb l "" then None else parse l) lines in
  match events with
  | [] => Some (Err "No valid events found")
  | _ =>
      let groups := correlate (trace_commands events) events in
      let tty_output := build_tty_output groups events in
      exec_trees ← build_exec_trees fuel groups events;
      Some (Ok (app_new groups events tty_output exec_trees (build_fd_table events)))
  end.
End Build.
