(* ===== verification/ViewerAppFacts.v ===== *)
(** * What the viewer shows

    The groups of a trace, the output of its commands, the table of
    descriptors, and that navigation never leaves the visible rows. *)

From stdpp Require Import sorting.
From S2P Require Import Prelude Json Viewer ViewerFacts ViewerApp.

#[local] Set Warnings "-clear-no-such-hyp".
Local Open Scope string_scope.
Local Open Scope Z_scope.
Local Open Scope list_scope.

(** ** Output *)

(** What is shown of the bytes outside escape sequences. *)
Definition shown (b : byte) : bool :=
  let v := byte.unsigned b in is_ascii_graphic b || (v =? 0x20) || (v =? 0x0a) || (v =? 0x09).

Definition strip_mode (s : Strip) : mode := if s_in_osc s then Osc else if s_in_escape s then Esc else Plain.

Lemma strip_bytes s bs :
  (s_in_osc s = true -> s_in_escape s = false) ->
  s_out (foldl strip_byte s bs) = s_out s ++ List.filter shown (outside (strip_mode s) bs).
Proof.
  revert s. induction bs as [|b bs IH]; intros [out esc osc] Hm; cbn [foldl outside]; [by rewrite app_nil_r|].
  unfold strip_byte, strip_mode in *. cbn [s_in_osc s_in_escape s_out] in *.
  destruct osc; [rewrite Hm in * by done; destruct (_ =? 0x07); by rewrite IH|].
  destruct esc; [destruct (_ =? 0x5d); [by rewrite IH|]; destruct (_ || _); by rewrite IH|].
  destruct (Z.eqb_spec (byte.unsigned b) 0x1b) as [E|Hne]; [by rewrite IH|].
  cbn [List.filter]. unfold shown at 1. destruct (Z.eqb_spec (byte.unsigned b) 0x0d) as [E|_].
  { rewrite IH by done. unfold is_ascii_graphic. by rewrite E. }
  case_match; rewrite IH by done; cbn [s_out s_in_osc s_in_escape]; [by rewrite <- app_assoc|done].
Qed.

(** Both readers of terminal output skip the same escape sequences: what is
    shown of a command's output are the printable bytes outside them. *)
Theorem output_outside_escapes raw :
  strip_ansi_escapes raw = List.filter shown (outside Plain raw).
Proof. unfold strip_ansi_escapes. by rewrite strip_bytes. Qed.

(** ** Descriptors *)

(** The path an event binds the descriptor to. *)
Definition opens (e : BehaviorEvent) (pid fd : Z) (path : string) : Prop :=
  v_name (v_event e) = "openat" /\ v_pid (v_header e) = pid /\ path <> "" /\
  (exists rc, v_return_code e = Some rc /\ 0 <= rc /\ wrap 32 rc = fd) /\
  arg e "filename" = Some (JStr path).

Lemma fd_step_lookup table e pid fd path :
  fd_step table e !! (pid, fd) = Some path <->
  opens e pid fd path \/ (table !! (pid, fd) = Some path /\ forall p, ~ opens e pid fd p).
Proof.
  unfold fd_step, opens. destruct (String.eqb_spec (v_name (v_event e)) "openat") as [->|Hn]; cbn [negb]; [|naive_solver].
  destruct (v_return_code e) as [rc|]; [|naive_solver]. destruct (Z.leb_spec 0 rc); [|naive_solver lia].
  destruct (arg e "filename") as [[]|]; cbn [mbind option_bind as_str]; unfold default; cbn; try naive_solver.
  destruct (String.eqb_spec s "") as [->|Hs]; [naive_solver|].
  rewrite lookup_insert_Some. naive_solver.
Qed.

(** A descriptor is shown with the path of the last successful open of it by
    that process, and only with such a path. *)
Lemma fd_shown_with_last_open events pid fd path :
  build_fd_table events !! (pid, fd) = Some path <->
  exists before e after, events = before ++ e :: after /\ opens e pid fd path /\
    Forall (fun e' => forall p, ~ opens e' pid fd p) after.
Proof.
  unfold build_fd_table. induction events as [|e events IH] using rev_ind.
  { cbn. rewrite lookup_empty. split; [done|]. intros ([|] & ? & ? & ? & _); done. }
  rewrite foldl_snoc, fd_step_lookup, IH. split.
  - intros [Ho|[(b & e' & a & -> & Ho & Ha) Hn]].
    + exists events, e, []. done.
    + exists b, e', (a ++ [e]). rewrite <- app_assoc. split; [done|]. split; [done|].
      apply Forall_app. split; [done|]. by repeat constructor.
  - intros (b & e' & a & E & Ho & Ha). destruct a as [|e2 a _] using rev_ind.
    + left. apply app_inj_tail in E as [_ ->]. done.
    + right. rewrite app_comm_cons, app_assoc in E. apply app_inj_tail in E as [-> ->].
      apply Forall_app in Ha as [Ha He]. split; [by exists b, e', a|]. by inversion He.
Qed.

(** ** Groups *)

Section Groups.
Context `{Base64}.

Lemma tty_writes_ts events :
  event_ts <$> tty_writes events `sublist_of` (fun e => v_timestamp (v_header e)) <$> events.
Proof.
  unfold tty_writes. induction events as [|e events IH]; [done|]. cbn [omap list_omap fmap list_fmap].
  destruct (is_tty_write e); [|by apply sublist_cons].
  destruct (arg e "data" ≫= as_str); cbn; [by apply sublist_skip|by apply sublist_cons].
Qed.

Lemma sublist_sorted (l k : list Z) : l `sublist_of` k -> Sorted Z.le k -> Sorted Z.le l.
Proof.
  intros Hs Hk. apply (Sorted_StronglySorted _) in Hk. apply StronglySorted_Sorted.
  revert Hk. induction Hs as [|x l k Hs IH|x l k Hs IH]; intros Hk; [done| |]; inversion Hk; subst.
  - constructor; [by apply IH|]. rewrite Forall_forall in *. intros y Hy. by eauto using elem_of_sublist.
  - by apply IH.
Qed.

Lemma trace_commands_sorted events :
  Sorted Z.le ((fun e => v_timestamp (v_header e)) <$> events) ->
  Sorted Z.le (end_timestamp <$> trace_commands events).
Proof.
  intros Hs. eapply sublist_sorted; [apply fmap_sublist, sublist_filter|].
  apply reconstruct_sorted. eapply sublist_sorted; [apply tty_writes_ts|done].
Qed.

(** Neither terminal traffic nor synthesized. *)
Definition attributable (e : BehaviorEvent) : Prop := is_tty e = false /\ is_synthetic e = false.

(** How many commands had been entered at that time. *)
Definition entered (commands : list CommandEntry) (ts : Z) : nat :=
  length (filter (fun c => end_timestamp c <= ts) commands).

Lemma non_tty_elem events i ts :
  (i, ts) ∈ non_tty events <->
  exists e, events !! i = Some e /\ attributable e /\ v_timestamp (v_header e) = ts.
Proof.
  unfold non_tty, attributable, is_correlated. rewrite list_elem_of_fmap. split.
  - intros ([i' e] & [= -> ->] & [Hc (n & Hn)%list_elem_of_lookup_1]%list_elem_of_filter).
    rewrite list_lookup_imap in Hn. destruct (events !! n) as [x|] eqn:E; [|done]. injection Hn as -> ->.
    exists e. rewrite andb_true_iff, !negb_true_iff in Hc. done.
  - intros (e & He & [H1 H2] & <-). exists (i, e). split; [done|]. apply list_elem_of_filter.
    cbn [snd]. split; [by rewrite H1, H2|]. apply (list_elem_of_lookup_2 _ i). by rewrite list_lookup_imap, He.
Qed.

Lemma non_tty_nodup events : NoDup (fst <$> non_tty events).
Proof.
  unfold non_tty. rewrite <- list_fmap_compose.
  apply (sublist_NoDup _ (imap (fun i (_ : BehaviorEvent) => i) events)).
  - apply NoDup_alt. intros i j x Hi Hj. rewrite list_lookup_imap in Hi, Hj.
    destruct (events !! i), (events !! j); naive_solver.
  - replace (imap (fun i (_ : BehaviorEvent) => i) events) with (fst <$> imap pair events) by apply fmap_imap.
    apply fmap_sublist, sublist_filter.
Qed.

(** Nobody had entered a command that somebody enters later. *)
Lemma entered_none c rest ts :
  Sorted Z.le (end_timestamp <$> c :: rest) -> ts < end_timestamp c -> entered (c :: rest) ts = 0%nat.
Proof.
  intros Hs Hlt. apply Sorted_StronglySorted in Hs; [|intros ?; lia]. inversion Hs as [|? ? _ Hf]; subst.
  rewrite Forall_fmap in Hf. unfold entered. rewrite filter_cons_False by lia.
  induction Hf as [|c' rest Hc _ IH]; [done|]. cbn in Hc. rewrite filter_cons_False by lia. apply IH.
  fold (fmap (M:=list) end_timestamp) in Hs. inversion Hs as [|? ? Hs' Hf']; subst. inversion Hs'; subst.
  inversion Hf'; subst. by constructor.
Qed.

(** The window of the last command entered holds the event. *)
Lemma command_group_holds commands l i ts j :
  Sorted Z.le (end_timestamp <$> commands) -> (i, ts) ∈ l -> ts < U64_MAX -> entered commands ts = S j ->
  exists g, command_groups commands l !! j = Some g /\ i ∈ event_indices g.
Proof.
  revert j. induction commands as [|c rest IH]; intros j Hs Hin Hm He; [done|].
  destruct (Z.lt_ge_cases ts (end_timestamp c)) as [Hlt|Hge]; [by rewrite (entered_none c rest ts Hs Hlt) in He|].
  unfold entered in He. rewrite filter_cons_True in He by lia. injection He as He.
  inversion Hs as [|? ? Hs' _]; subst. cbn [command_groups].
  destruct (filter _ rest) as [|x xs] eqn:Ef; cbn [length].
  - eexists. split; [done|]. cbn [event_indices]. unfold in_window. apply list_elem_of_fmap. exists (i, ts).
    split; [done|]. apply list_elem_of_filter. split; [|done]. cbn. split; [lia|].
    destruct rest as [|c' rest]; [done|]. destruct (Z.lt_ge_cases ts (end_timestamp c')) as [|Hge']; [done|].
    by rewrite filter_cons_True in Ef by lia.
  - destruct (IH (length xs) Hs' Hin Hm) as (g & Hg & Hi); [unfold entered; by rewrite Ef|]. by exists g.
Qed.

Lemma command_groups_match commands l :
  Forall2 (fun g c => g_command g = command c /\ g_timestamp g = end_timestamp c) (command_groups commands l) commands.
Proof. induction commands as [|c rest IH]; cbn; by constructor. Qed.

(** C27: in a trace whose events are in the order of their timestamps, all
    below the largest 64-bit number, every event that is neither terminal
    traffic nor synthesized is in exactly one group and no other event is in
    any.  The groups are those of the commands, in their order, after at most
    one for what comes before them.  An event is in the group of the last
    command that had been entered when it happened; when none had, it is in
    the group before the commands, called [pre-session], or
    [no commands detected] when there are none. *)
Theorem events_assigned_once events :
  Sorted Z.le ((fun e => v_timestamp (v_header e)) <$> events) ->
  Forall (fun e => v_timestamp (v_header e) < U64_MAX) events ->
  let commands := trace_commands events in
  let groups := correlate commands events in
  NoDup (concat (event_indices <$> groups)) /\
  (forall i, i ∈ concat (event_indices <$> groups) <-> exists e, events !! i = Some e /\ attributable e) /\
  exists before named, groups = before ++ named /\ (length before <= 1)%nat /\
    Forall (fun g => g_command g = match commands with [] => "[no commands detected]" | _ => "[pre-session]" end)
      before /\
    Forall2 (fun g c => g_command g = command c /\ g_timestamp g = end_timestamp c) named commands /\
    forall i e, events !! i = Some e -> attributable e ->
      match entered commands (v_timestamp (v_header e)) with
      | O => exists g, before = [g] /\ i ∈ event_indices g
      | S j => exists g, named !! j = Some g /\ i ∈ event_indices g
      end.
Proof.
  intros Hs He commands groups. pose proof (trace_commands_sorted events Hs) as Hc. fold commands in Hc.
  pose proof (correlate_partition commands events Hc He) as Hp. fold groups in Hp. split_and!.
  - rewrite Hp. apply non_tty_nodup.
  - intros i. rewrite Hp. rewrite list_elem_of_fmap. split.
    + intros ([? ts] & -> & (e & H1 & H2 & _)%non_tty_elem). eauto.
    + intros (e & H1 & H2). exists (i, v_timestamp (v_header e)). split; [done|]. apply non_tty_elem. eauto.
  - unfold groups, correlate in *. destruct commands as [|c rest] eqn:Ec.
    { eexists [_], []. split; [by rewrite app_nil_r|]. split_and!; [done|by apply Forall_singleton|done|].
      intros i e Hi Ha. cbn. eexists. split; [done|]. cbn [event_indices]. apply list_elem_of_fmap.
      exists (i, v_timestamp (v_header e)). split; [done|]. apply non_tty_elem. eauto. }
    eexists _, (command_groups (c :: rest) (non_tty events)). split; [done|]. split_and!.
    + case_match; cbn; lia.
    + case_match; [done|]. by apply Forall_singleton.
    + apply command_groups_match.
    + intros i e Hi Ha. assert (Hin : (i, v_timestamp (v_header e)) ∈ non_tty events) by (apply non_tty_elem; eauto).
      destruct (entered (c :: rest) _) as [|j] eqn:Ee.
      * assert (Hpre : i ∈ fst <$> filter (fun p : nat * Z => p.2 < end_timestamp c) (non_tty events)).
        { apply list_elem_of_fmap. exists (i, v_timestamp (v_header e)). split; [done|].
          apply list_elem_of_filter. split; [|done]. cbn.
          destruct (Z.lt_ge_cases (v_timestamp (v_header e)) (end_timestamp c)) as [|Hge]; [done|].
          unfold entered in Ee. by rewrite filter_cons_True in Ee by lia. }
        destruct (fst <$> filter _ (non_tty events)) as [|k ks]; [by apply elem_of_nil in Hpre|]. by eexists.
      * apply (command_group_holds _ _ _ (v_timestamp (v_header e))); [done|done| |done].
        rewrite Forall_forall in He. apply He. by eapply list_elem_of_lookup_2.
Qed.
End Groups.

(** ** Navigation *)

(** A position of a concatenation is one of a part. *)
Lemma concat_seq_lookup {A} (f : nat -> list A) m n x :
  concat (f <$> seq 0 m) !! n = Some x ->
  exists gi k, (gi < m)%nat /\ n = (length (concat (f <$> seq 0 gi)) + k)%nat /\ f gi !! k = Some x.
Proof.
  induction m as [|m IH]; [done|]. rewrite seq_S, fmap_app, concat_app. cbn. rewrite app_nil_r.
  intros [Hn|[Hl Hn]]%lookup_app_Some.
  - destruct (IH Hn) as (gi & k & ? & ? & ?). exists gi, k. split; [lia|done].
  - exists m, (n - length (concat (f <$> seq 0 m)))%nat. split; [lia|]. split; [lia|done].
Qed.

Lemma concat_seq_split {A} (f : nat -> list A) m gi : (gi < m)%nat ->
  concat (f <$> seq 0 m) =
  concat (f <$> seq 0 gi) ++ f gi ++ concat (f <$> seq (S gi) (m - S gi)).
Proof.
  intros Hg. replace m with (gi + S (m - S gi))%nat at 1 by lia.
  rewrite seq_app, fmap_app, concat_app. done.
Qed.

Lemma group_rows_lookup a gi k r : group_rows a gi !! k = Some r ->
  row_group r = gi /\ (r = Command gi -> k = 0%nat).
Proof.
  unfold group_rows. destruct k as [|k]; cbn; [by intros [= <-]|]. case_match; [|done].
  intros (ci & -> & _)%list_lookup_fmap_Some. done.
Qed.

(** The row of a command is where the rows before it end. *)
Lemma visible_command a n gi : visible_rows a !! n = Some (Command gi) ->
  (gi < length (a_commands a))%nat /\ n = length (concat (group_rows a <$> seq 0 gi)).
Proof.
  intros Hn. apply concat_seq_lookup in Hn as (g & k & Hg & -> & Hk).
  apply group_rows_lookup in Hk as [Hr H0]. cbn in Hr. subst g. split; [done|]. by rewrite H0, Nat.add_0_r by done.
Qed.

Lemma visible_group a n r : visible_rows a !! n = Some r -> (row_group r < length (a_commands a))%nat.
Proof.
  intros Hn. apply concat_seq_lookup in Hn as (g & k & Hg & -> & Hk).
  by apply group_rows_lookup in Hk as [-> _].
Qed.

Lemma command_row_lookup g rows i : command_row g rows = Some i -> rows !! i = Some (Command g).
Proof.
  revert i. induction rows as [|[gi|gi ci] rows IH]; intros i; cbn; [done| |].
  - destruct (Nat.eqb_spec gi g) as [->|_]; [by intros [= <-]|].
    destruct (command_row g rows) as [j|]; [|done]. intros [= <-]. by apply IH.
  - destruct (command_row g rows) as [j|]; [|done]. intros [= <-]. by apply IH.
Qed.

Lemma command_row_found g rows : Command g ∈ rows -> is_Some (command_row g rows).
Proof.
  induction rows as [|[gi|gi ci] rows IH]; cbn; [by intros ?%elem_of_nil| |]; intros [E|Hr]%elem_of_cons.
  - injection E as ->. by rewrite Nat.eqb_refl.
  - destruct (Nat.eqb gi g); [done|]. by apply fmap_is_Some, IH.
  - done.
  - by apply fmap_is_Some, IH.
Qed.

Lemma command_visible a g : (g < length (a_commands a))%nat -> Command g ∈ visible_rows a.
Proof.
  intros Hg. unfold visible_rows. rewrite (concat_seq_split _ _ g Hg). apply elem_of_app. right.
  apply elem_of_app. left. by left.
Qed.

(** The rows before a group do not depend on whether it is expanded. *)
Lemma rows_before_stable a l gi :
  (forall i, (i < gi)%nat -> l !! i = a_expanded a !! i) ->
  concat (group_rows (set_expanded l a) <$> seq 0 gi) = concat (group_rows a <$> seq 0 gi).
Proof.
  intros Hl. f_equal. apply list_fmap_ext. intros k i Hi. apply lookup_seq in Hi as [-> Hi].
  unfold group_rows. cbn [a_expanded a_exec_trees set_expanded]. rewrite Hl by lia. done.
Qed.

(** The state the keys keep: the cursor is on a visible row and the data are
    those of the trace. *)
Record nav_ok (cs : list CommandGroup) (es : list BehaviorEvent) (a : App) : Prop := mkNav {
  nav_cursor : (history_cursor a < length (visible_rows a))%nat;
  nav_commands : a_commands a = cs;
  nav_events : a_events a = es;
  nav_scrolls : 0 <= output_scroll a /\ 0 <= detail_scroll a }.

Section Navigation.
Context (cs : list CommandGroup) (es : list BehaviorEvent).

Lemma nav_scroll a out det : nav_ok cs es a -> 0 <= out -> 0 <= det -> nav_ok cs es (set_scrolls out det a).
Proof. intros [Hc H1 H2 H3] Ho Hd. by constructor. Qed.

Lemma nav_set_cursor a n : nav_ok cs es a -> (n < length (visible_rows a))%nat -> nav_ok cs es (set_cursor n a).
Proof. intros [Hc H1 H2 H3] Hn. by constructor. Qed.

Lemma nav_set_tab a t : nav_ok cs es a -> nav_ok cs es (set_tab t a).
Proof. intros [Hc H1 H2 [H3 _]]. by constructor. Qed.

Lemma nav_set_quit a : nav_ok cs es a -> nav_ok cs es (set_quit a).
Proof. intros [Hc H1 H2 H3]. by constructor. Qed.

Lemma nav_toggle_pane a : nav_ok cs es a -> nav_ok cs es (toggle_pane a).
Proof. intros [Hc H1 H2 H3]. by constructor. Qed.

Lemma nav_set_process a s : nav_ok cs es a -> nav_ok cs es (set_process_expanded s a).
Proof. intros [Hc H1 H2 H3]. by constructor. Qed.

(** Expanding or collapsing the command under the cursor leaves it there;
    collapsing from a child goes to the command. *)
Lemma nav_toggle_expand a : nav_ok cs es a -> nav_ok cs es (toggle_expand a).
Proof.
  intros Hn. unfold toggle_expand. destruct (visible_rows a !! history_cursor a) as [[gi|g ci]|] eqn:E; [| |done].
  - case_match; [done|]. destruct Hn as [Hc H1 H2 H3]. constructor; try done.
    apply visible_command in E as [Hg E]. cbn [history_cursor set_expanded]. unfold visible_rows.
    cbn [a_commands set_expanded]. rewrite (concat_seq_split _ _ gi Hg), rows_before_stable, E.
    2:{ intros i Hi. rewrite list_lookup_alter. case_decide; [lia|done]. }
    rewrite !length_app. cbn. lia.
  - apply visible_group in E. cbn in E. set (a' := set_expanded _ a).
    destruct (command_row_found g (visible_rows a')) as [i Hi]; [by apply command_visible|].
    rewrite Hi. apply command_row_lookup, lookup_lt_Some in Hi. destruct Hn as [Hc H1 H2 H3]. by constructor.
Qed.

Lemma nav_toggle_process a : nav_ok cs es a -> nav_ok cs es (toggle_process_expand a).
Proof.
  intros Hn. unfold toggle_process_expand. pose proof (nav_scrolls _ _ _ Hn) as [Ho Hd].
  repeat case_match; try done; try by apply nav_set_process.
  apply nav_scroll; [by apply nav_set_process|done|lia].
Qed.

Lemma nav_activate a : nav_ok cs es a -> nav_ok cs es (activate a).
Proof.
  intros Hn. unfold activate. repeat case_match; try done; [by apply nav_toggle_expand..|by apply nav_toggle_process].
Qed.

Lemma nav_select_next a : nav_ok cs es a -> nav_ok cs es (select_next a).
Proof.
  intros Hn. unfold select_next. pose proof (nav_scrolls _ _ _ Hn) as [Ho Hd].
  case_match; [|apply nav_scroll; try done; unfold saturating_add, U64_MAX; lia..].
  destruct (Nat.ltb_spec (S (history_cursor a)) (length (visible_rows a))); [|done].
  apply nav_scroll; [by apply nav_set_cursor|done|done].
Qed.

Lemma nav_select_prev a : nav_ok cs es a -> nav_ok cs es (select_prev a).
Proof.
  intros Hn. unfold select_prev. pose proof (nav_scrolls _ _ _ Hn) as [Ho Hd].
  pose proof (nav_cursor _ _ _ Hn) as Hc.
  case_match; [|apply nav_scroll; try done; unfold saturating_sub; lia..].
  destruct (history_cursor a) as [|n]; [done|]. apply nav_scroll; [apply nav_set_cursor; [done|lia]|done|done].
Qed.

Lemma nav_jump_top a : nav_ok cs es a -> nav_ok cs es (jump_top a).
Proof.
  intros Hn. unfold jump_top. pose proof (nav_scrolls _ _ _ Hn) as [Ho Hd].
  pose proof (nav_cursor _ _ _ Hn) as Hc.
  case_match; apply nav_scroll; try done. apply nav_set_cursor; [done|lia].
Qed.

Lemma nav_jump_bottom a : nav_ok cs es a -> nav_ok cs es (jump_bottom a).
Proof.
  intros Hn. unfold jump_bottom. pose proof (nav_scrolls _ _ _ Hn) as [Ho Hd].
  pose proof (nav_cursor _ _ _ Hn) as Hc.
  case_match; apply nav_scroll; try done; try (unfold saturating_sub; lia).
  case_match; [|done]. apply nav_set_cursor; [done|lia].
Qed.

#[local] Hint Resolve nav_set_tab nav_set_quit nav_toggle_pane nav_activate nav_select_next nav_select_prev
  nav_jump_top nav_jump_bottom : core.

Lemma nav_in_detail f a : (forall a, nav_ok cs es a -> nav_ok cs es (f a)) -> nav_ok cs es a -> nav_ok cs es (in_detail f a).
Proof. intros Hf Hn. unfold in_detail. case_match; auto. Qed.

Lemma nav_handle_key a key : nav_ok cs es a -> nav_ok cs es (handle_key a key).
Proof.
  intros Hn. destruct key; cbn [handle_key]; auto; [|apply nav_in_detail; unfold next_tab, prev_tab; auto..].
  unfold handle_char. repeat (case_match; [by auto|]).
  repeat (case_match; [apply nav_in_detail; unfold next_tab, prev_tab; auto|]). done.
Qed.

Lemma nav_keys a keys : nav_ok cs es a -> nav_ok cs es (foldl handle_key a keys).
Proof. revert a. induction keys as [|k keys IH]; intros a Hn; [done|]. apply IH. by apply nav_handle_key. Qed.
End Navigation.

Lemma correlate_nonempty commands events : correlate commands events <> [].
Proof. destruct commands; [done|]. unfold correlate. intros [_ Hc]%app_nil. done. Qed.

Section Shown.
Context `{Base64} (parse : string -> option BehaviorEvent).

Lemma build_app_inv fuel lines app :
  build_app parse fuel lines = Some (Ok app) ->
  exists events trees, events = omap (fun l => if String.eqb l "" then None else parse l) lines /\
    let groups := correlate (trace_commands events) events in
    build_exec_trees fuel groups events = Some trees /\
    app = app_new groups events (build_tty_output groups events) trees (build_fd_table events).
Proof.
  unfold build_app. destruct (omap _ lines) as [|e es] eqn:E; [done|].
  destruct (build_exec_trees _ _ _) as [trees|] eqn:Et; cbn; [|done]. intros [= <-].
  exists (e :: es), trees. done.
Qed.

Lemma app_nav fuel lines app :
  build_app parse fuel lines = Some (Ok app) ->
  forall keys, nav_ok (a_commands app) (a_events app) (foldl handle_key app keys).
Proof.
  intros (events & trees & _ & _ & ->)%build_app_inv keys. set (app := app_new _ _ _ _ _).
  pose proof (correlate_nonempty (trace_commands events) events) as Hne.
  apply nav_keys. constructor; [|done..]. apply (lookup_lt_is_Some_1 (visible_rows app)).
  unfold visible_rows, app. cbn [a_commands app_new history_cursor].
  destruct (correlate _ events) as [|g gs]; [done|]. by eexists.
Qed.

(** Whatever keys are pressed after a trace was loaded, the cursor is
    on a visible row and selects a group of the trace: no key sequence of
    moving, expanding and collapsing leaves the rows, and the data stay those
    of the trace. *)
Theorem navigation_safe fuel lines app keys :
  build_app parse fuel lines = Some (Ok app) ->
  let a := foldl handle_key app keys in
  (exists row g, visible_rows a !! history_cursor a = Some row /\ a_commands app !! row_group row = Some g /\
     current_group a = Some g) /\
  a_commands a = a_commands app /\ a_events a = a_events app.
Proof.
  intros Hb a. pose proof (app_nav fuel lines app Hb keys) as Hn. fold a in Hn. destruct Hn as [Hc H1 H2 _].
  split; [|done]. destruct (lookup_lt_is_Some_2 _ _ Hc) as [row Hr].
  pose proof (visible_group _ _ _ Hr) as Hg. rewrite H1 in Hg.
  destruct (lookup_lt_is_Some_2 _ _ Hg) as [g Hg']. exists row, g. split; [done|]. split; [done|].
  unfold current_group, selected_group. by rewrite Hr, H1.
Qed.
End Shown.
