(* ===== verification/ViewerSummary.v ===== *)
(** * One line per event, and time zones (bloodhound-tui: event_model.rs, main.rs)

    The summaries of the detail pane, with descriptors resolved to paths, and
    the offset the clock is shown with. *)

From Stdlib Require Import Ascii.
From S2P Require Import Prelude Json Viewer ViewerApp ViewerAppFacts.

Local Open Scope string_scope.
Local Open Scope Z_scope.
Local Open Scope list_scope.

(** ** Summaries *)

Section Summary.
Context (e : BehaviorEvent).

Definition arg_str (key : string) : option string := arg e key ≫= as_str.
Definition arg_u64 (key : string) : option Z := arg e key ≫= as_u64.

(** The strings of an array argument. *)
Definition arg_strs (key : string) : option (list string) := match arg e key ≫= as_array with Some l => Some (omap as_str l) | None => None end.

Definition format_rw_detail (fd_table : option (gmap (Z * Z) string)) : string :=
  match v_args e with
  | None => ""
  | Some _ =>
      let fd := wrap 32 (default 0 (arg_u64 "fd")) in
      let size := dec_string (default 0 (arg_u64 "requested_size")) in
      match fd_table ≫= (fun table : gmap (Z * Z) string => table !! (v_pid (v_header e), fd)) with
      | Some path => " " +:+ path +:+ " (" +:+ size +:+ "b)"
      | None => " fd=" +:+ dec_string fd +:+ " (" +:+ size +:+ "b)"
      end
  end.

Definition format_path_detail : string :=
  match arg_str "filename" with Some f => " " +:+ f | None => "" end.

Definition format_fd_detail : string :=
  match arg_u64 "fd" with Some fd => " fd=" +:+ dec_string fd | None => "" end.

Definition format_two_path_detail : string :=
  match v_args e with
  | None => ""
  | Some _ => " " +:+ default "?" (arg_str "oldpath") +:+ " → " +:+ default "?" (arg_str "newpath")
  end.

(** A detail that is empty without arguments. *)
Definition with_args (detail : string) : string := match v_args e with Some _ => detail | None => "" end.

Definition u64_or_zero (key : string) : string := dec_string (default 0 (arg_u64 key)).

Definition action_detail (fd_table : option (gmap (Z * Z) string)) : string * string :=
  let name := v_name (v_event e) in
  if one_of ["execve"; "execveat"] name then
    (name, with_args (" " +:+ default "?" (arg_str "filename") +:+ " [" +:+
                      join " " (default [] (arg_strs "argv")) +:+ "]"))
  else if one_of ["clone"; "clone3"] name then
    let flags := join "|" (default [] (arg_strs "flags")) in
    ("FORK", if String.eqb flags "" then "" else " (" +:+ flags +:+ ")")
  else if String.eqb name "openat" then
    match v_args e with
    | Some _ =>
        let flags := default [] (arg_strs "flags") in
        (if one_of flags "O_WRONLY" || one_of flags "O_RDWR" then "WRITE" else "READ",
         " " +:+ default "?" (arg_str "filename"))
    | None => ("OPEN", "")
    end
  else if String.eqb name "read" then ("READ", format_rw_detail fd_table)
  else if String.eqb name "write" then ("WRITE", format_rw_detail fd_table)
  else if one_of ["mkdir"; "mkdirat"] name then ("CREATE", format_path_detail)
  else if one_of ["unlink"; "unlinkat"; "rmdir"] name then ("DELETE", format_path_detail)
  else if one_of ["rename"; "renameat2"] name then ("RENAME", format_two_path_detail)
  else if one_of ["symlink"; "symlinkat"; "link"; "linkat"] name then ("LINK", format_two_path_detail)
  else if one_of ["chmod"; "fchmodat"] name then ("PERM", format_path_detail)
  else if String.eqb name "fchmod" then ("PERM", format_fd_detail)
  else if one_of ["chown"; "fchownat"] name then ("OWNER", format_path_detail)
  else if String.eqb name "fchown" then ("OWNER", format_fd_detail)
  else if String.eqb name "truncate" then ("TRUNC", format_path_detail)
  else if String.eqb name "ftruncate" then ("TRUNC", format_fd_detail)
  else if String.eqb name "chdir" then ("CHDIR", format_path_detail)
  else if String.eqb name "fchdir" then ("CHDIR", format_fd_detail)
  else if String.eqb name "mount" then ("MOUNT", format_two_path_detail)
  else if String.eqb name "umount2" then ("UMOUNT", format_path_detail)
  else if String.eqb name "file_open" then ("OPEN", " (LSM)")
  else if String.eqb name "inode_unlink" then ("DELETE", " (LSM)")
  else if String.eqb name "inode_rename" then ("RENAME", " (LSM)")
  else if String.eqb name "task_kill" then
    ("KILL", with_args (" pid=" +:+ u64_or_zero "target_pid" +:+ " sig=" +:+ u64_or_zero "signal"))
  else if String.eqb name "bpf" then
    ("BPF", match arg_u64 "cmd" with Some c => " cmd=" +:+ dec_string c | None => "" end)
  else if String.eqb name "ptrace_access_check" then
    ("PTRACE", match arg_u64 "target_pid" with Some p => " pid=" +:+ dec_string p | None => "" end)
  else if String.eqb name "task_fix_setuid" then
    ("SETUID", with_args (" uid:" +:+ u64_or_zero "old_uid" +:+ "→" +:+ u64_or_zero "new_uid"))
  else if one_of ["connect"; "bind"; "sendto"; "recvfrom"] name then
    (name, with_args (" " +:+ default "?" (arg_str "addr") +:+ ":" +:+ u64_or_zero "port"))
  else if one_of ["ingress"; "egress"] name then (name, with_args (" if=" +:+ u64_or_zero "ifindex"))
  else (name, format_path_detail).

Definition summary_line (fd_table : option (gmap (Z * Z) string)) : string :=
  let rc := match v_return_code e with Some r => " rc=" +:+ dec_string r | None => "" end in
  let '(action, detail) := action_detail fd_table in
  action +:+ detail +:+ " (pid:" +:+ dec_string (v_pid (v_header e)) +:+ rc +:+ ")".
End Summary.

(** The summary of a read names the path of the last successful open of its
    descriptor by the process, when there was one. *)
Theorem read_summary_names_open events before opened after e fd size path :
  events = before ++ opened :: after -> opens opened (v_pid (v_header e)) fd path ->
  Forall (fun e' => forall p, ~ opens e' (v_pid (v_header e)) fd p) after ->
  v_name (v_event e) = "read" -> v_args e = Some (obj [("fd", JNum fd); ("requested_size", JNum size)]) ->
  in_u 32 fd -> in_u 64 size ->
  action_detail e (Some (build_fd_table events)) = ("READ", " " +:+ path +:+ " (" +:+ dec_string size +:+ "b)").
Proof.
  intros He Ho Ha Hn Hargs Hfd Hsize.
  assert (Er : forall t, action_detail e t = ("READ", format_rw_detail e t))
    by (intros t; unfold action_detail; rewrite Hn; reflexivity).
  rewrite Er. clear Er.
  assert (Hget : arg_u64 e "fd" = Some fd /\ arg_u64 e "requested_size" = Some size).
  { unfold arg_u64, arg. rewrite Hargs. unfold in_u in *.
    split; json_simpl; cbn [mbind option_bind]; json_simpl; cbn [mbind option_bind as_u64]; unfold U64_MAX;
      (rewrite !(proj2 (Z.leb_le _ _)) by lia; done). }
  destruct Hget as [Hf Hs]. unfold format_rw_detail. rewrite Hargs, Hf, Hs. cbn [default].
  rewrite wrap_id by done. cbn [mbind option_bind]. unfold id.
  rewrite (proj2 (fd_shown_with_last_open events (v_pid (v_header e)) fd path)); [done|].
  by exists before, opened, after.
Qed.

(** ** Time zones (main.rs) *)

Definition digit (b : byte) : option Z :=
  let v := byte.unsigned b in if (48 <=? v) && (v <=? 57) then Some (v - 48) else None.

(** The digits of a number, most significant first. *)
Fixpoint parse_digits (acc : Z) (bs : list byte) : option Z :=
  match bs with
  | [] => Some acc
  | b :: bs => d ← digit b; parse_digits (acc * 10 + d) bs
  end.

(** [str::parse::<i32>]: an optional sign, then at least one digit, in range. *)
Definition parse_i32 (bs : list byte) : option Z :=
  let '(sign, ds) :=
    match bs with
    | b :: ds => if byte.unsigned b =? 43 then (1, ds) else if byte.unsigned b =? 45 then (-1, ds) else (1, bs)
    | [] => (1, [])
    end in
  match ds with
  | [] => None
  | _ =>
      n ← parse_digits 0 ds;
      if (- 2 ^ 31 <=? sign * n) && (sign * n <? 2 ^ 31) then Some (sign * n) else None
  end.

(** [rest.split(':')] *)
Fixpoint split_colon (bs : list byte) : list (list byte) :=
  match bs with
  | [] => [[]]
  | b :: bs =>
      if byte.unsigned b =? 58 then [] :: split_colon bs
      else match split_colon bs with [] => [[b]] | p :: ps => (b :: p) :: ps end
  end.

(** The option, trimmed by the caller; sums and products of [i32]s wrap around
    in a release build. *)
Definition parse_tz_offset (s : list byte) : result Z :=
  if bool_decide (s = str_bytes "UTC") || bool_decide (s = str_bytes "utc") then Ok 0 else
  '(sign, rest) ←
    (match s with
     | b :: rest =>
         if byte.unsigned b =? 43 then Ok (1, rest)
         else if byte.unsigned b =? 45 then Ok (-1, rest)
         else Err "Timezone must start with '+' or '-'"
     | [] => Err "Timezone must start with '+' or '-'"
     end);
  match split_colon rest with
  | [h; m] =>
      hours ← with_context (parse_i32 h) "Invalid hours in timezone";
      minutes ← with_context (parse_i32 m) "Invalid minutes in timezone";
      Ok (swrap 32 (sign * swrap 32 (swrap 32 (hours * 3600) + swrap 32 (minutes * 60))))
  | _ => Err "Timezone format must be HH:MM"
  end.

(** [{:02}] of a number below a hundred *)
Definition two_digits (n : Z) : list byte := [byte.of_Z (48 + n / 10); byte.of_Z (48 + n mod 10)].

Lemma parse_two_digits n :
  0 <= n < 100 -> parse_i32 (two_digits n) = Some n /\
  Forall (fun b => byte.unsigned b <> 58) (two_digits n).
Proof.
  intros Hn. assert (Hc : (n ∈ seqZ 0 100)) by (apply elem_of_seqZ; lia).
  assert (Hall : Forall (fun n => parse_i32 (two_digits n) = Some n /\
    Forall (fun b => byte.unsigned b <> 58) (two_digits n)) (seqZ 0 100))
    by (apply (bool_decide_unpack _); vm_compute; exact I).
  rewrite Forall_forall in Hall. exact (Hall n Hc).
Qed.

Lemma split_colon_app a b :
  Forall (fun x => byte.unsigned x <> 58) a -> split_colon (a ++ [Byte.x3a] ++ b) = a :: split_colon b.
Proof.
  induction 1 as [|x a Hx _ IH]; [done|]. cbn [app split_colon].
  rewrite (proj2 (Z.eqb_neq _ _) Hx). cbn [app] in IH. by rewrite IH.
Qed.

Lemma split_colon_none a : Forall (fun x => byte.unsigned x <> 58) a -> split_colon a = [a].
Proof.
  induction 1 as [|x a Hx _ IH]; [done|]. cbn [split_colon]. rewrite (proj2 (Z.eqb_neq _ _) Hx). by rewrite IH.
Qed.

(** An offset written as a sign, two digits, a colon and two digits is read as
    that many hours and minutes. *)
Theorem timezone_read (east : bool) h m :
  0 <= h < 100 -> 0 <= m < 100 ->
  parse_tz_offset ((if east then [Byte.x2b] else [Byte.x2d]) ++ two_digits h ++ [Byte.x3a] ++ two_digits m) =
  Ok ((if east then 1 else -1) * (h * 3600 + m * 60)).
Proof.
  intros Hh Hm. destruct (parse_two_digits h Hh) as [Eh Ch], (parse_two_digits m Hm) as [Em Cm].
  unfold parse_tz_offset.   assert (Es : split_colon (two_digits h ++ [Byte.x3a] ++ two_digits m) = [two_digits h; two_digits m])
    by (by rewrite split_colon_app, split_colon_none).
  set (r := two_digits h ++ [Byte.x3a] ++ two_digits m) in *. clearbody r.
  rewrite !bool_decide_false by (destruct east; discriminate). cbn [orb].
  destruct east; cbn [app]; change (byte.unsigned Byte.x2b =? 43) with true; change (byte.unsigned Byte.x2d =? 43)
    with false; change (byte.unsigned Byte.x2d =? 45) with true; cbn [mbind result_bind];
    (rewrite Es; cbn [mbind]; rewrite Eh, Em; cbn [with_context mbind result_bind]; f_equal;
     rewrite (swrap_id 32 (h * 3600)), (swrap_id 32 (m * 60)), (swrap_id 32 (_ + _)), swrap_id
       by (unfold in_s; lia); lia).
Qed.
