(* ===== verification/ExecTreeFacts.v ===== *)
(** * Trees of executed programs

    When parents are older than their children the walk terminates, and when no
    process executes two programs in a group it lists every execve of the group
    once.  Without start times both can fail. *)

From S2P Require Import Prelude Json Viewer ViewerFacts ViewerApp.

#[local] Set Warnings "-clear-no-such-hyp".
Local Open Scope string_scope.
Local Open Scope Z_scope.
Local Open Scope list_scope.

(** ** Sorting *)

Lemma insert_node_perm x l : insert_node x l ≡ₚ x :: l.
Proof.
  induction l as [|y l IH]; [done|]. cbn. case_match; [done|]. rewrite IH. apply Permutation_swap.
Qed.

Lemma sort_nodes_perm l : sort_nodes l ≡ₚ l.
Proof. induction l as [|x l IH]; [done|]. cbn. by rewrite insert_node_perm, IH. Qed.

(** ** The walk over nodes *)

Section Walk.
Context (children_of : gmap ProcId (list ExecNode)).

Definition kids (x : ExecNode) : list ExecNode := default [] (children_of !! exec_id x).

(** The walk without the columns of its rows. *)
Fixpoint tree_nodes (fuel : nat) (x : ExecNode) : option (list ExecNode) :=
  match fuel with
  | O => None
  | S fuel => below ← mapM (tree_nodes fuel) (kids x); Some (x :: concat below)
  end.

Lemma mapM_imap {A B C D} (F : nat * A -> option (list B)) (T : A -> option (list C)) (g : B -> D) (h : C -> D)
    k (l : list A) :
  (forall i x, fmap (fmap (M:=list) g) (F (i, x)) = fmap (fmap (M:=list) h) (T x)) ->
  (fun r => g <$> concat r) <$> mapM F (imap (fun i x => (k i, x)) l) = (fun r => h <$> concat r) <$> mapM T l.
Proof.
  intros HF. revert k. induction l as [|x l IH]; intros k; [done|]. cbn [imap mapM].
  specialize (IH (k ∘ S)). specialize (HF (k 0%nat) x).
  change (imap ((fun i x => (k i, x)) ∘ S) l) with (imap (fun i x => ((k ∘ S) i, x)) l).
  destruct (F (k 0%nat, x)) as [b|], (T x) as [c|]; cbn in HF |- *; try done.
  destruct (mapM F _) as [bs|], (mapM T l) as [cs|]; cbn in IH |- *; try done.
  injection HF as HF. injection IH as IH. by rewrite !fmap_app, HF, IH.
Qed.

Lemma dfs_nodes fuel d last x :
  fmap (fmap (M:=list) event_index) (exec_tree_dfs children_of fuel d last x) =
  fmap (fmap (M:=list) x_idx) (tree_nodes fuel x).
Proof.
  revert d last x. induction fuel as [|fuel IH]; intros d last x; [done|]. cbn [exec_tree_dfs tree_nodes].
  fold (kids x).
  pose proof (mapM_imap (fun p : nat * ExecNode =>
    exec_tree_dfs children_of fuel (S d) (Nat.eqb p.1 (length (kids x) - 1)) p.2) (tree_nodes fuel)
    event_index x_idx id (kids x) (fun i y => IH _ _ _)) as HM.
  change (imap (fun i x => (id i, x)) (kids x)) with (imap pair (kids x)) in HM.
  destruct (mapM _ (imap pair (kids x))) as [bs|], (mapM (tree_nodes fuel) (kids x)) as [cs|]; cbn in HM |- *;
    try done.
  injection HM as HM. by rewrite HM.
Qed.

(** One level of the walk. *)
Lemma walk_level fuel l ts :
  mapM (tree_nodes (S fuel)) l = Some ts ->
  exists ts', mapM (tree_nodes fuel) (l ≫= kids) = Some ts' /\ concat ts ≡ₚ l ++ concat ts'.
Proof.
  intros Hts%mapM_Some_1. induction Hts as [|x t l ts Ht _ (ts' & Ets & Hp)]; [by exists []|].
  cbn [tree_nodes] in Ht. destruct (mapM (tree_nodes fuel) (kids x)) as [b|] eqn:Eb; cbn in Ht; [|done].
  injection Ht as <-. exists (b ++ ts'). split.
  - rewrite bind_cons. apply mapM_Some_2. apply mapM_Some_1 in Eb, Ets. by apply Forall2_app.
  - cbn. rewrite Hp, concat_app. solve_Permutation.
Qed.
End Walk.

(** ** Attaching *)

Section Attach.
Context (events : list BehaviorEvent) (starts : list Z) (forks : list (ProcId * ProcId * Z)) (ids : list ProcId).
Abbreviation par := (parent_of events starts forks).
Abbreviation attach := (attach_node events starts forks ids).

Lemma attach_spec l m r :
  let res := foldl attach (m, r) l in
  res.2 = r ++ filter (fun x => par x ∉ ids) l /\
  forall p, p ∈ ids -> default [] (res.1 !! p) = default [] (m !! p) ++ filter (fun x => par x = p) l.
Proof.
  revert m r. induction l as [|x l IH]; intros m r; [cbn; by rewrite app_nil_r; split; [|intros; rewrite app_nil_r]|].
  cbn [foldl]. unfold attach_node at 2 4. destruct (bool_decide_reflect (par x ∈ ids)) as [Hin|Hout]; cbn [fst snd];
    edestruct IH as [E1 E2]; rewrite E1, filter_cons; (split; [by case_decide; rewrite <- ?app_assoc|]);
    intros p Hp; rewrite (E2 p Hp), filter_cons.
  - destruct (decide (par x = p)) as [<-|Hne].
    + rewrite lookup_insert_eq. cbn. by rewrite <- app_assoc.
    + by rewrite lookup_insert_ne.
  - destruct (decide (par x = p)) as [<-|Hne]; done.
Qed.
End Attach.

Lemma filter_fewer {A} (P Q : A -> Prop) `{!forall x, Decision (P x), !forall x, Decision (Q x)} (l : list A) x :
  (forall y, P y -> Q y) -> x ∈ l -> Q x -> ~ P x -> (length (filter P l) < length (filter Q l))%nat.
Proof.
  intros HPQ Hx HQ HP. rewrite (filter_ext_in P (fun y => P y /\ Q y)) by naive_solver.
  rewrite <- (list_filter_filter P Q). apply (length_filter_lt _ _ x); [|done].
  by apply list_elem_of_filter.
Qed.

(** ** Every execve once *)

Section Complete.
Context (children_of : gmap ProcId (list ExecNode)) (par : ExecNode -> ProcId) (xs : list ExecNode).
Context (Hkids : forall x, x ∈ xs -> kids children_of x ≡ₚ filter (fun y => par y = exec_id x) xs).
Context (Holder : forall x, x ∈ xs -> par x ∈ exec_id <$> xs -> (par x).2 < x_ns x).

(** The execves of processes at least as young. *)
Definition younger (x : ExecNode) : list ExecNode := filter (fun y => x_ns x <= x_ns y) xs.

Lemma kid_younger x y : x ∈ xs -> y ∈ kids children_of x -> y ∈ xs /\ (length (younger y) < length (younger x))%nat.
Proof.
  intros Hx Hy. rewrite Hkids in Hy by done. apply list_elem_of_filter in Hy as [Hp Hy]. split; [done|].
  assert (Hlt : x_ns x < x_ns y).
  { specialize (Holder y Hy). rewrite Hp in Holder. apply Holder. apply list_elem_of_fmap. by exists x. }
  apply (filter_fewer _ _ xs x); [intros; lia|done|lia|lia].
Qed.

Lemma walk_total fuel x : x ∈ xs -> (length (younger x) <= fuel)%nat -> is_Some (tree_nodes children_of fuel x).
Proof.
  revert x. induction fuel as [|fuel IH]; intros x Hx Hf.
  { exfalso. assert (Hin : x ∈ younger x) by (apply list_elem_of_filter; split; [lia|done]).
    destruct (younger x); [by apply elem_of_nil in Hin|]. cbn in Hf. lia. }
  cbn [tree_nodes]. destruct (mapM_is_Some_2 (tree_nodes children_of fuel) (kids children_of x)) as [b ->]; [|done].
  apply Forall_forall. intros y Hy. destruct (kid_younger x y Hx Hy) as [Hy' Hl]. apply IH; [done|lia].
Qed.

Lemma kids_of_level l :
  NoDup (exec_id <$> l) -> l ⊆ xs -> l ≫= kids children_of ≡ₚ filter (fun y => par y ∈ exec_id <$> l) xs.
Proof.
  induction l as [|x l IH]; intros Hd Hs.
  { cbn. rewrite (filter_ext_in _ (fun _ => False)) by (intros y _; split; [by intros ?%elem_of_nil|done]).
    clear. by induction xs. }
  rewrite bind_cons. apply NoDup_cons in Hd as [Hx Hd]. rewrite IH, Hkids by (done || set_solver).
  symmetry. apply filter_split. intros y _. cbn. rewrite elem_of_cons. split; [tauto|].
  intros [E Hy]. rewrite E in Hy. done.
Qed.

(** The nodes of a set that have no parent in it. *)
Definition tops (s : list ExecNode) : list ExecNode := filter (fun x => par x ∉ exec_id <$> s) s.

Lemma tops_nonempty s : s ⊆ xs -> tops s = [] -> s = [].
Proof.
  intros Hs Ht. destruct s as [|x0 s0] eqn:E; [done|]. rewrite <- E in *. exfalso.
  assert (Hmin : forall n x, x ∈ s -> (length (filter (fun y => (x_ns y <= x_ns x)%Z) s) <= n)%nat -> False).
  { induction n as [|n IH]; intros x Hx Hn.
    - assert (Hin : x ∈ filter (fun y => x_ns y <= x_ns x) s) by (apply list_elem_of_filter; split; [lia|done]).
      destruct (filter _ s); [by apply elem_of_nil in Hin|]. cbn in Hn. lia.
    - destruct (decide (par x ∈ exec_id <$> s)) as [Hp|Hp].
      + apply list_elem_of_fmap in Hp as (y & Ey & Hy). apply (IH y Hy).
        assert (Hlt : x_ns y < x_ns x).
        { pose proof (Holder x (Hs x Hx)) as Ho. rewrite Ey in Ho. apply Ho. apply list_elem_of_fmap. by exists y; auto. }
        pose proof (filter_fewer (fun z => x_ns z <= x_ns y) (fun z => x_ns z <= x_ns x) s x) as Hf.
        apply Nat.lt_succ_r. eapply Nat.lt_le_trans; [apply Hf; [intros; lia|done|lia|lia]|done].
      + eapply (filter_nil_not_elem_of _ s x); [exact Ht| |exact Hx]. done. }
  apply (Hmin (length (filter (fun y => x_ns y <= x_ns x0) s)) x0); [rewrite E; by left|done].
Qed.

(** The trees of the tops of a set that is closed under children are the set. *)
Lemma walk_covers fuel l s ts :
  NoDup (exec_id <$> s) -> s ⊆ xs -> (forall x, x ∈ xs -> par x ∈ exec_id <$> s -> x ∈ s) -> NoDup xs ->
  l ≡ₚ tops s -> mapM (tree_nodes children_of fuel) l = Some ts -> concat ts ≡ₚ s.
Proof.
  revert l s ts. induction fuel as [|fuel IH]; intros l s ts Hd Hs Hcl Hxs Hl Hts.
  - assert (l = []) as ->.
    { destruct l as [|x l]; [done|]. cbn in Hts. done. }
    injection Hts as <-. symmetry in Hl. apply Permutation_nil_r in Hl. by rewrite (tops_nonempty s).
  - apply walk_level in Hts as (ts' & Hts & Hp). rewrite Hp.
    set (s' := filter (fun x => par x ∈ exec_id <$> s) s).
    assert (Hsplit : s ≡ₚ l ++ s').
    { rewrite Hl. unfold tops, s'. rewrite <- (filter_all (fun _ => True) s) at 1 by done.
      apply filter_split. intros x _. destruct (decide (par x ∈ exec_id <$> s)); tauto. }
    assert (Hls : l ⊆ xs) by (intros x Hx; apply Hs; rewrite Hsplit; set_solver).
    assert (Hss : s' ⊆ s) by (intros x Hx; by apply list_elem_of_filter in Hx as [_ Hx]).
    rewrite Hsplit, fmap_app in Hd. apply NoDup_app in Hd as (Hdl & Hdisj & Hds).
    rewrite (IH (l ≫= kids children_of) s' ts'); [done|done|set_solver| |done| |done].
    + intros x Hx Hpx. assert (Hps : par x ∈ exec_id <$> s) by set_solver.
      apply list_elem_of_filter. split; [done|]. by apply Hcl.
    + rewrite kids_of_level by done. apply NoDup_Permutation.
      { by apply NoDup_filter. }
      { apply NoDup_filter. by apply NoDup_fmap_1 in Hds. }
      assert (Hids : forall p, p ∈ exec_id <$> s <-> p ∈ exec_id <$> l \/ p ∈ exec_id <$> s')
        by (intros p; by rewrite Hsplit, fmap_app, elem_of_app).
      intros y. unfold tops. rewrite !list_elem_of_filter. split.
      * intros [Hpy Hy]. assert (par y ∈ exec_id <$> s) by (apply Hids; by left).
        split; [by apply Hdisj|]. apply list_elem_of_filter. split; [done|by apply Hcl].
      * intros (Hn & [Hps Hy]%list_elem_of_filter). split; [|by apply Hs]. apply Hids in Hps as [|]; done.
Qed.
End Complete.

(** ** The tree of a group *)

Section Group.
Context (events : list BehaviorEvent) (starts : list Z) (g : CommandGroup).
Abbreviation execs := (group_execs events starts g).
Abbreviation parent := (parent_of events starts (group_forks events g)).

(** Parents that executed a program in the group are older than their children. *)
Definition parents_older : Prop :=
  Forall (fun x => parent x ∈ exec_id <$> execs -> (parent x).2 < x_ns x) execs.

#[export] Instance parents_older_dec : Decision parents_older.
Proof. unfold parents_older. apply _. Defined.

Lemma group_tree_nodes fuel :
  exists children_of roots,
    (forall x, x ∈ execs -> kids children_of x ≡ₚ filter (fun y => parent y = exec_id x) execs) /\
    roots ≡ₚ tops parent execs /\
    fmap (fmap (M:=list) event_index) (group_tree events starts fuel g) =
    (fun ts => x_idx <$> concat ts) <$> mapM (tree_nodes children_of fuel) roots.
Proof.
  pose proof (attach_spec events starts (group_forks events g) (exec_id <$> execs) execs ∅ []) as Ha.
  unfold group_tree. set (acc := foldl _ _ _) in *. destruct Ha as [Hr Hc].
  exists (sort_nodes <$> acc.1), (sort_nodes acc.2). split_and!.
  - intros x Hx. unfold kids. rewrite lookup_fmap. specialize (Hc (exec_id x)).
    rewrite lookup_empty in Hc. cbn in Hc. rewrite <- Hc by (apply list_elem_of_fmap; by exists x).
    destruct (acc.1 !! exec_id x); cbn; [apply sort_nodes_perm|done].
  - by rewrite sort_nodes_perm, Hr.
  - destruct execs as [|x xs] eqn:E.
    { done. }
    destruct acc as [children roots]. cbn [fst snd].
    pose proof (mapM_imap (fun p : nat * ExecNode => exec_tree_dfs (fmap (M:=gmap ProcId) sort_nodes children) fuel 1
      (Nat.eqb p.1 (length (sort_nodes roots) - 1)) p.2) (tree_nodes (fmap (M:=gmap ProcId) sort_nodes children) fuel)
      event_index x_idx id (sort_nodes roots) (fun i y => dfs_nodes _ _ _ _ _)) as HM.
    change (imap (fun i x => (id i, x)) (sort_nodes roots)) with (imap pair (sort_nodes roots)) in HM.
    rewrite <- HM. by destruct (mapM _ (imap pair (sort_nodes roots))).
Qed.

(** C30: the tree walk terminates on any group whose parents are older than
    their children, as start times say of processes: its recursion is no deeper
    than the number of execves of the group. *)
Theorem exec_tree_terminates fuel :
  parents_older -> (length execs <= fuel)%nat -> is_Some (group_tree events starts fuel g).
Proof.
  intros Ho Hf. unfold parents_older in Ho. rewrite Forall_forall in Ho. destruct (group_tree_nodes fuel) as (children_of & roots & Hk & Hr & E).
  apply (fmap_is_Some (fmap (M:=list) event_index)). rewrite E. apply fmap_is_Some, mapM_is_Some_2, Forall_forall.
  intros x Hx. rewrite Hr in Hx. apply list_elem_of_filter in Hx as [_ Hx].
  apply (walk_total children_of parent execs Hk Ho); [done|].
  etransitivity; [apply length_filter|done].
Qed.

(** C29: when every resolved parent is older than its child and no process of
    the group executed two programs, so that the execves of the group have
    distinct identities, the rows are these execves, each exactly once.  A
    process that executes twice, as [env] then [make], is shown with its
    children under each of its rows: [exec_tree_duplicates]. *)
Theorem exec_tree_complete fuel :
  parents_older -> NoDup (exec_id <$> execs) -> (length execs <= fuel)%nat ->
  exists rows, group_tree events starts fuel g = Some rows /\ event_index <$> rows ≡ₚ x_idx <$> execs.
Proof.
  intros Ho Hd Hf. unfold parents_older in Ho. rewrite Forall_forall in Ho. destruct (group_tree_nodes fuel) as (children_of & roots & Hk & Hr & E).
  assert (Ht : is_Some (mapM (tree_nodes children_of fuel) roots)).
  { apply mapM_is_Some_2, Forall_forall. intros x Hx. rewrite Hr in Hx. apply list_elem_of_filter in Hx as [_ Hx].
    apply (walk_total children_of parent execs Hk Ho); [done|]. etransitivity; [apply length_filter|done]. }
  destruct Ht as [ts Hts]. rewrite Hts in E. destruct (group_tree events starts fuel g) as [rows|]; [|done].
  injection E as E. exists rows. split; [done|]. rewrite E. apply fmap_Permutation.
  apply (walk_covers children_of parent execs Hk Ho fuel roots execs ts); try done. by eapply NoDup_fmap_1.
Qed.
End Group.
