(* ===== verification/ViewerUi.v ===== *)
(** * Drawing (bloodhound-tui: ui.rs, and the clock of app.rs and main.rs)

    What the panes show: lines of styled text, the placeholder or list of each
    pane, and the selected row.  Laying the panes out and painting them is
    ratatui's.  Indexing out of range and [unreachable!] are [None]. *)

From Stdlib Require Import Ascii.
From S2P Require Import Prelude Json Viewer ViewerApp ViewerSummary.

Local Open Scope string_scope.
Local Open Scope Z_scope.
Local Open Scope list_scope.

#[export] Instance Pane_eq_dec : EqDecision Pane.
Proof. solve_decision. Defined.
#[export] Instance Tab_eq_dec : EqDecision Tab.
Proof. solve_decision. Defined.

(** ** The clock *)

Definition I64_MAX : Z := 2 ^ 63 - 1.

(** [i64::try_from(ns).unwrap_or(i64::MAX)] *)
Definition mono_i64 (mono_ns : Z) : Z := Z.min mono_ns I64_MAX.

(** The boot instant, in nanoseconds of UTC: the last event happened when the
    file was last written. *)
Definition boot_time_utc (file_mtime_ns : Z) (events : list BehaviorEvent) : Z :=
  file_mtime_ns - mono_i64 (default 0 ((fun e => v_timestamp (v_header e)) <$> last events)).

(** [%H:%M:%S] of a number of seconds of local time *)
Definition pad2 (n : Z) : string := if n <? 10 then "0" +:+ dec_string n else dec_string n.
Definition clock_string (seconds : Z) : string :=
  let day := seconds mod 86400 in
  pad2 (day / 3600) +:+ ":" +:+ pad2 (day mod 3600 / 60) +:+ ":" +:+ pad2 (day mod 60).

Definition format_timestamp (boot_ns tz_offset mono_ns : Z) : string :=
  clock_string ((boot_ns + mono_i64 mono_ns) / 1000000000 + tz_offset).

(** ** Styled text *)

Inductive Color : Type := Rgb (r g b : Z) | White | Black.
Definition HIGHLIGHT_COLOR : Color := Rgb 97 175 239.
Definition ACTIVE_BORDER : Color := Rgb 97 175 239.
Definition INACTIVE_BORDER : Color := Rgb 90 90 90.
Definition TAB_ACTIVE : Color := Rgb 97 175 239.
Definition PROCESS_COLOR : Color := Rgb 152 195 121.
Definition SECURITY_COLOR : Color := Rgb 198 120 221.
Definition FILES_COLOR : Color := Rgb 229 192 123.
Definition NETWORK_COLOR : Color := Rgb 224 108 117.
Definition DIM_TEXT : Color := Rgb 120 120 120.
Definition TIMESTAMP_COLOR : Color := Rgb 130 137 151.
Definition OUTPUT_COLOR : Color := Rgb 86 182 194.
Definition TREE_COLOR : Color := Rgb 152 195 121.

Record Style : Type := mkStyle { fg : option Color; bg : option Color; bold : bool; underlined : bool }.
Record Span : Type := mkSpan { content : string; style : Style }.
Definition Line : Type := list Span.

Definition fg_only (c : Color) : Style := mkStyle (Some c) None false false.
Definition styled (text : string) (c : Color) : Span := mkSpan text (fg_only c).
Definition raw (text : string) : Span := mkSpan text (mkStyle None None false false).
Definition line_text (l : Line) : string := String.concat "" (content <$> l).

(** The content of a pane: a message, or rows with the selected one. *)
Inductive Content : Type :=
| Message (text : string)
| Rows (items : list Line) (selected : option Z).

Record ListPane : Type := mkPane { title : string; border : Color; body : Content }.

Record Frame : Type := mkFrame {
  f_history : ListPane; f_output : ListPane; f_tabs : Line * nat; f_detail : ListPane; f_status : Line }.

Definition tab_label (t : Tab) : string :=
  match t with TProcess => "Process" | TSecurity => "Security" | TFiles => "Files" | TNetwork => "Network" end.

Definition category_color (c : EventCategory) : option Color :=
  match c with
  | Process => Some PROCESS_COLOR | Security => Some SECURITY_COLOR | Files => Some FILES_COLOR
  | Network => Some NETWORK_COLOR | Hidden => None
  end.

Definition category_tag (c : EventCategory) : option string :=
  match c with
  | Process => Some "PROC" | Security => Some "SEC " | Files => Some "FILE" | Network => Some "NET "
  | Hidden => None
  end.

(** [scroll.min(items.len().saturating_sub(1))], when the pane is active and
    has rows *)
Definition selection (is_active : bool) (scroll : Z) (items : list Line) : option Z :=
  if is_active && negb (Nat.eqb (length items) 0) then Some (Z.min scroll (len items - 1)) else None.

Section Draw.
Context (a : App) (file_path : string) (boot_ns tz_offset : Z).

Definition stamp (mono_ns : Z) : Span :=
  styled (format_timestamp boot_ns tz_offset mono_ns +:+ " ") TIMESTAMP_COLOR.

Definition pane_border (p : Pane) : Color :=
  if bool_decide (active_pane a = p) then ACTIVE_BORDER else INACTIVE_BORDER.

Definition arrow (has_children is_expanded : bool) : string :=
  if negb has_children then "  " else if is_expanded then "▾ " else "▸ ".

(** ** History *)

Definition row_style (is_selected : bool) (c : Color) : Style :=
  if is_selected then mkStyle (Some HIGHLIGHT_COLOR) None true false else fg_only c.

Definition history_line (row_idx : nat) (row : HistoryRow) : option Line :=
  let is_selected := Nat.eqb row_idx (history_cursor a) in
  match row with
  | Command gi =>
      group ← a_commands a !! gi;
      let children := default [] (a_exec_trees a !! gi) in
      let has_children := negb (Nat.eqb (length children) 0) in
      let is_expanded := default false (a_expanded a !! gi) in
      let cmd_display := if String.eqb (g_command group) "" then "(empty)" else g_command group in
      let event_count := dec_string (len (event_indices group)) in
      let counter :=
        if has_children then " (" +:+ dec_string (len children) +:+ "/" +:+ event_count +:+ ")"
        else " (" +:+ event_count +:+ ")" in
      let st := row_style is_selected White in
      Some [stamp (g_timestamp group); mkSpan (arrow has_children is_expanded) st; mkSpan cmd_display st;
            styled counter DIM_TEXT]
  | Exec group child =>
      children ← a_exec_trees a !! group;
      exec_child ← children !! child;
      event ← a_events a !! event_index exec_child;
      let indent := String.concat "" (replicate (depth exec_child) "  ") in
      let branch := if is_last exec_child then "└─ " else "├─ " in
      Some [stamp (v_timestamp (v_header event));
            mkSpan (indent +:+ branch) (row_style is_selected DIM_TEXT);
            mkSpan (label exec_child) (row_style is_selected TREE_COLOR);
            styled (" :" +:+ dec_string (child_pid exec_child)) DIM_TEXT]
  end.

Definition draw_history_pane : option ListPane :=
  items ← mapM (fun p : nat * HistoryRow => history_line p.1 p.2) (imap pair (visible_rows a));
  Some (mkPane (" History (" +:+ dec_string (len (a_commands a)) +:+ " commands) ") (pane_border History)
          (Rows items (Some (Z.of_nat (history_cursor a))))).

(** ** Output *)

Definition draw_output_pane : ListPane :=
  let lines := default [] (a_tty_output a !! selected_group a) in
  let items := (fun l => [styled (" " +:+ l) OUTPUT_COLOR]) <$> lines in
  mkPane (" Output (" +:+ dec_string (len lines) +:+ " lines) ") (pane_border Output)
    (match lines with
     | [] => Message "No terminal output for this command."
     | _ => Rows items (selection (bool_decide (active_pane a = Output)) (output_scroll a) items)
     end).

(** ** Details *)

Definition event_line (event : BehaviorEvent) (before_tag : Line) : option Line :=
  color ← category_color (category event);
  tag ← category_tag (category event);
  Some (stamp (v_timestamp (v_header event)) :: before_tag ++
        [mkSpan (" " +:+ tag +:+ " ") (mkStyle (Some Black) (Some color) true false); raw " ";
         styled (summary_line event (Some (a_fd_table a))) color]).

(** [shown]: how many events or rows there are to show. *)
Definition detail_body (shown : nat) (empty : string) (items : list Line) : Content :=
  if Nat.eqb shown 0
  then Message (if Nat.eqb (length (a_commands a)) 0 then "No events loaded." else empty)
  else Rows items (selection (bool_decide (active_pane a = Detail)) (detail_scroll a) items).

Definition process_row_line (row : ProcessTreeRow) : option Line :=
  match row with
  | Root event_idx has_children is_expanded =>
      event ← a_events a !! event_idx;
      Some [stamp (v_timestamp (v_header event));
            mkSpan " PROC " (mkStyle (Some Black) (Some PROCESS_COLOR) true false); raw " ";
            styled (arrow has_children is_expanded) DIM_TEXT;
            styled (summary_line event (Some (a_fd_table a))) PROCESS_COLOR]
  | Child event_idx is_last_child =>
      event ← a_events a !! event_idx;
      event_line event [styled (if is_last_child then "  └─ " else "  ├─ ") DIM_TEXT]
  end.

Definition draw_process_tree : option Content :=
  items ← mapM process_row_line (process_tree_rows a);
  Some (detail_body (length (process_tree_rows a)) "No process events for the selected command." items).

Definition draw_filtered : option Content :=
  items ← mapM (fun p : nat * BehaviorEvent => event_line p.2 [])
            (filter (fun p : nat * BehaviorEvent => category p.2 <> Hidden) (filtered_detail_events a));
  Some (detail_body (length (filtered_detail_events a)) "No events in this category for the selected command." items).

Definition tab_titles : Line :=
  (fun t =>
     mkSpan (dec_string (Z.of_nat (tab_index t) + 1) +:+ ":" +:+ tab_label t)
       (if bool_decide (t = active_tab a) then mkStyle (Some TAB_ACTIVE) None true true
        else fg_only DIM_TEXT)) <$> ALL_TABS.

Definition draw_detail_pane : option (Line * nat * ListPane) :=
  content ← (if bool_decide (active_tab a = TProcess) then draw_process_tree else draw_filtered);
  Some (tab_titles, tab_index (active_tab a), mkPane " Events " (pane_border Detail) content).

(** ** Status bar *)

Definition pane_name (p : Pane) : string :=
  match p with History => "History" | Output => "Output" | Detail => "Events" end.

Definition draw_status_bar : Line :=
  let cmd_info :=
    if Nat.eqb (length (a_commands a)) 0 then "No commands"
    else "Command " +:+ dec_string (Z.of_nat (selected_group a) + 1) +:+ "/" +:+
         dec_string (len (a_commands a)) in
  let event_count := default 0 ((fun g => len (event_indices g)) <$> current_group a) in
  let separator := styled " │ " DIM_TEXT in
  [mkSpan (" " +:+ file_path +:+ " ") (mkStyle (Some White) None true false); separator;
   styled (dec_string (len (a_events a)) +:+ " events total") White; separator;
   styled cmd_info HIGHLIGHT_COLOR; separator;
   styled (dec_string event_count +:+ " events") White; separator;
   mkSpan ("▶ " +:+ pane_name (active_pane a)) (mkStyle (Some HIGHLIGHT_COLOR) None true false);
   styled "   j/k:nav  ⏎:expand  Tab:pane  1-4:tab  q:quit " DIM_TEXT].

Definition draw : option Frame :=
  history ← draw_history_pane;
  '(tabs, tab, detail) ← draw_detail_pane;
  Some (mkFrame history draw_output_pane (tabs, tab) detail draw_status_bar).
End Draw.
