(* ===== verification/ViewerUiFacts.v ===== *)
(** * Drawing never panics

    Every index the drawing code uses is in range and no hidden event reaches
    its [unreachable!], for every trace and every sequence of keys; the clock
    shows the last event at the time the file was written. *)

From Stdlib Require Import Ascii.
From S2P Require Import Prelude Json Viewer ViewerFacts ViewerApp ViewerAppFacts ViewerSummary.
From S2P Require Import ExecTreeFacts ViewerUi.

Local Open Scope string_scope.
Local Open Scope Z_scope.
Local Open Scope list_scope.
#[local] Set Warnings "-clear-no-such-hyp".

(** ** The positions in the trees *)

Lemma tree_nodes_sub children_of xs fuel : forall x t,
  (forall y, y ∈ xs -> kids children_of y ⊆ xs) -> x ∈ xs ->
  tree_nodes children_of fuel x = Some t -> t ⊆ xs.
Proof.
  induction fuel as [|fuel IH]; intros x t Hk Hx Ht; [done|]. cbn [tree_nodes] in Ht.
  destruct (mapM (tree_nodes children_of fuel) (kids children_of x)) as [b|] eqn:Eb; cbn in Ht; [|done].
  injection Ht as <-. apply mapM_Some_1 in Eb. intros z [->|Hz]%elem_of_cons; [done|].
  apply elem_of_concat in Hz as (l & Hz & Hl).
  destruct (list_elem_of_lookup_1 _ _ Hl) as [i Hi].
  destruct (Forall2_lookup_r _ _ _ _ _ Eb Hi) as (y & Hy & Ht).
  apply (IH y l Hk); [|done|done]. apply (Hk x Hx). by eapply list_elem_of_lookup_2.
Qed.

Lemma exec_rows_indexed events starts fuel g rows c :
  group_tree events starts fuel g = Some rows -> c ∈ rows -> is_Some (events !! event_index c).
Proof.
  intros Hg Hc. destruct (group_tree_nodes events starts g fuel) as (children_of & roots & Hk & Hr & E).
  rewrite Hg in E. cbn in E. destruct (mapM _ roots) as [ts|] eqn:Ets; cbn in E; [|done]. injection E as E.
  assert (Hin : event_index c ∈ x_idx <$> concat ts) by (rewrite <- E; apply list_elem_of_fmap; by exists c).
  apply list_elem_of_fmap in Hin as (x & -> & Hx). apply elem_of_concat in Hx as (t & Hx & Ht).
  apply mapM_Some_1 in Ets. destruct (list_elem_of_lookup_1 _ _ Ht) as [i Hi].
  destruct (Forall2_lookup_r _ _ _ _ _ Ets Hi) as (r & Hri & Hrt).
  assert (Hrx : r ∈ group_execs events starts g).
  { apply list_elem_of_lookup_2 in Hri. rewrite Hr in Hri. by apply list_elem_of_filter in Hri as [_ ?]. }
  assert (Hxx : x ∈ group_execs events starts g).
  { apply (tree_nodes_sub children_of (group_execs events starts g) fuel r t); [|done..].
    intros y Hy z Hz. rewrite (Hk y Hy) in Hz. by apply list_elem_of_filter in Hz as [_ ?]. }
  unfold group_execs in Hxx. apply list_elem_of_omap in Hxx as (idx & _ & Hidx).
  destruct (events !! idx) as [e|] eqn:Ee; cbn in Hidx; [|done].
  destruct (starts !! idx); cbn in Hidx; [|done]. case_match; [|done]. injection Hidx as <-.
  cbn. by rewrite Ee.
Qed.

(** ** Keys keep the trees *)

Lemma key_trees a k : a_exec_trees (handle_key a k) = a_exec_trees a.
Proof.
  assert (Hc : forall c ctl, a_exec_trees (handle_char c ctl a) = a_exec_trees a).
  { intros c ctl. unfold handle_char, activate, in_detail, toggle_expand, toggle_process_expand, select_next,
      select_prev, jump_top, jump_bottom, next_tab, prev_tab, toggle_pane.
    repeat case_match; reflexivity. }
  unfold handle_key, activate, in_detail, toggle_expand, toggle_process_expand, select_next,
    select_prev, jump_top, jump_bottom, next_tab, prev_tab, toggle_pane.
  repeat case_match; try reflexivity; apply Hc.
Qed.

Lemma keys_trees keys : forall a, a_exec_trees (foldl handle_key a keys) = a_exec_trees a.
Proof. induction keys as [|k keys IH]; intros a; [done|]. cbn. by rewrite IH, key_trees. Qed.

(** ** Lines *)

Section Lines.
Context (a : App) (boot_ns tz_offset : Z).

(** The trees point into the events. *)
Definition trees_indexed : Prop :=
  forall g rows c, a_exec_trees a !! g = Some rows -> c ∈ rows -> is_Some (a_events a !! event_index c).

Lemma row_drawable i row :
  trees_indexed -> row ∈ visible_rows a -> is_Some (history_line a boot_ns tz_offset i row).
Proof.
  intros Ht (n & Hn)%list_elem_of_lookup_1. pose proof (visible_group a n row Hn) as Hg.
  destruct row as [gi|g c]; cbn in *.
  { destruct (lookup_lt_is_Some_2 _ _ Hg) as [grp ->]. by eexists. }
  assert (Hr : Exec g c ∈ group_rows a g).
  { unfold visible_rows in Hn. apply list_elem_of_lookup_2, elem_of_concat in Hn as (l & Hl & Hin).
    apply list_elem_of_fmap in Hin as (g' & -> & _). unfold group_rows in Hl |- *.
    apply elem_of_cons in Hl as [?|Hl]; [done|]. right.
    destruct (default false (a_expanded a !! g')) eqn:Ex; [|by apply elem_of_nil in Hl].
    apply list_elem_of_fmap in Hl as (c' & [= -> ->] & Hc). rewrite Ex. apply list_elem_of_fmap. by exists c'. }
  unfold group_rows in Hr. apply elem_of_cons in Hr as [?|Hr]; [done|]. case_match; [|by apply elem_of_nil in Hr].
  apply list_elem_of_fmap in Hr as (c' & [= ->] & Hc%elem_of_seq).
  destruct (a_exec_trees a !! g) as [rows|] eqn:Eg; cbn in Hc; [|lia].
  destruct (lookup_lt_is_Some_2 rows c' ltac:(lia)) as [child Hch]. cbn. rewrite Hch. cbn.
  destruct (Ht g rows child Eg) as [e ->]; [by eapply list_elem_of_lookup_2|]. by eexists.
Qed.

Lemma event_drawable e before : category e <> Hidden -> is_Some (event_line a boot_ns tz_offset e before).
Proof. intros Hc. unfold event_line. destruct (category e); try done; by eexists. Qed.

(** The events of the rows of the process tab. *)
Definition row_event (row : ProcessTreeRow) : nat := match row with Root i _ _ => i | Child i _ => i end.

Lemma process_rows_from expanded events row :
  row ∈ process_rows expanded events -> exists p, p ∈ events /\ row_event row = p.1.
Proof.
  unfold process_rows. destruct (split_process events) as [roots children] eqn:Es.
  assert (Hsub : roots ⊆ events /\ children ⊆ events).
  { unfold split_process in Es.
    assert (H1 : filter (fun p => is_root p = true) events ⊆ events)
      by (intros p [_ ?]%list_elem_of_filter; done).
    assert (H2 : filter (fun p => is_root p = false) events ⊆ events)
      by (intros p [_ ?]%list_elem_of_filter; done).
    repeat case_match; simplify_eq; split; set_solver. }
  destruct Hsub as [Hr Hc]. intros (l & Hrow & Hl)%elem_of_concat.
  apply list_elem_of_fmap in Hl as (root & -> & Hroot). unfold root_rows in Hrow.
  apply elem_of_cons in Hrow as [->|Hrow]; [exists root; auto|].
  case_match; [|by apply elem_of_nil in Hrow].
  apply elem_of_lookup_imap in Hrow as (i & c & -> & Hi). exists c. split; [|done].
  apply Hc. by eapply list_elem_of_lookup_2.
Qed.

Lemma process_row_drawable row :
  row ∈ process_tree_rows a -> is_Some (process_row_line a boot_ns tz_offset row).
Proof.
  unfold process_tree_rows. destruct (current_group a) as [g|]; [|by intros ?%elem_of_nil].
  intros (l & Hrow & Hl)%elem_of_concat. apply list_elem_of_fmap in Hl as (pid & -> & _).
  destruct (process_rows_from _ _ _ Hrow) as ([idx e] & Hp & Hi).
  apply list_elem_of_filter in Hp as [_ Hp]. apply list_elem_of_filter in Hp as [Hh Hp].
  unfold group_events in Hp. apply list_elem_of_omap in Hp as (idx' & _ & He).
  destruct (a_events a !! idx') as [e'|] eqn:Ee; cbn in He; [|done]. injection He as -> ->.
  cbn in Hi, Hh. destruct row; cbn in *; subst; rewrite Ee; cbn; [by eexists|by apply event_drawable].
Qed.

Lemma selection_in_range is_active scroll (items : list Line) n :
  0 <= scroll -> selection is_active scroll items = Some n -> 0 <= n < len items.
Proof.
  intros Hs. unfold selection. destruct is_active; [|done]. cbn [andb].
  destruct (Nat.eqb_spec (length items) 0); [done|]. intros [= <-]. unfold len. lia.
Qed.
End Lines.

(** A pane's selected row is one of its rows. *)
Definition selects_a_row (p : ListPane) : Prop :=
  match body p with Rows items (Some n) => 0 <= n < len items | _ => True end.

Section Drawing.
Context (a : App) (path : string) (boot_ns tz_offset : Z).
Context (cs : list CommandGroup) (es : list BehaviorEvent) (Hnav : nav_ok cs es a) (Hidx : trees_indexed a).

Lemma history_drawn :
  exists items, draw_history_pane a boot_ns tz_offset =
    Some (mkPane (" History (" +:+ dec_string (len (a_commands a)) +:+ " commands) ") (pane_border a History)
            (Rows items (Some (Z.of_nat (history_cursor a))))) /\
    length items = length (visible_rows a).
Proof.
  unfold draw_history_pane.
  destruct (mapM_is_Some_2 (fun p : nat * HistoryRow => history_line a boot_ns tz_offset p.1 p.2)
              (imap pair (visible_rows a))) as [items Hi].
  { apply Forall_forall. intros p (i & row & -> & Hrow)%elem_of_lookup_imap.
    apply row_drawable; [done|]. by eapply list_elem_of_lookup_2. }
  rewrite Hi. exists items. split; [done|]. apply mapM_Some_1, Forall2_length in Hi.
  by rewrite <- Hi, length_imap.
Qed.

Lemma detail_drawn :
  exists tabs tab p, draw_detail_pane a boot_ns tz_offset = Some (tabs, tab, p) /\ selects_a_row p.
Proof.
  assert (Hc : exists c, (if bool_decide (active_tab a = TProcess) then draw_process_tree a boot_ns tz_offset
      else draw_filtered a boot_ns tz_offset) = Some c /\ selects_a_row (mkPane "" White c)).
  { destruct (nav_scrolls cs es a Hnav) as [_ Hd].
    assert (Hb : forall n msg items, selects_a_row (mkPane "" White (detail_body a n msg items))).
    { intros n msg items. unfold selects_a_row, detail_body. cbn. destruct (Nat.eqb n 0); [done|].
      destruct (selection _ _ items) eqn:Es; [|done]. by apply selection_in_range in Es. }
    unfold draw_process_tree, draw_filtered. case_bool_decide.
    - destruct (mapM_is_Some_2 (process_row_line a boot_ns tz_offset) (process_tree_rows a)) as [items Hi].
      { apply Forall_forall, process_row_drawable. }
      rewrite Hi. eexists. split; [reflexivity|apply Hb].
    - destruct (mapM_is_Some_2 (fun p : nat * BehaviorEvent => event_line a boot_ns tz_offset p.2 [])
        (filter (fun p : nat * BehaviorEvent => category p.2 <> Hidden) (filtered_detail_events a))) as [items Hi].
      { apply Forall_forall. intros p [Hp _]%list_elem_of_filter. by apply event_drawable. }
      rewrite Hi. eexists. split; [reflexivity|apply Hb]. }
  destruct Hc as (c & Ec & Hs). unfold draw_detail_pane. rewrite Ec. by do 3 eexists.
Qed.

Lemma output_selects : selects_a_row (draw_output_pane a).
Proof.
  destruct (nav_scrolls cs es a Hnav) as [Ho _]. unfold selects_a_row, draw_output_pane. cbn.
  destruct (default [] _) as [|l ls]; [done|]. destruct (selection _ _ _) eqn:Es; [|done].
  by apply selection_in_range in Es.
Qed.
End Drawing.

(** Every state the keys reach can be drawn. *)
Lemma keys_drawn `{Base64} parse fuel lines app keys path boot_ns tz_offset :
  build_app parse fuel lines = Some (Ok app) ->
  let a := foldl handle_key app keys in
  exists frame items, draw a path boot_ns tz_offset = Some frame /\
    body (f_history frame) = Rows items (Some (Z.of_nat (history_cursor a))) /\
    length items = length (visible_rows a) /\
    Forall selects_a_row [f_history frame; f_output frame; f_detail frame].
Proof.
  intros Hb a. pose proof Hb as (events & trees & _ & Ht & Happ)%build_app_inv.
  pose proof (app_nav parse fuel lines app Hb keys) as Hn. fold a in Hn.
  assert (Hidx : trees_indexed a).
  { intros g rows c Hg Hc. unfold a in Hg. rewrite keys_trees, Happ in Hg. cbn in Hg.
    rewrite (nav_events _ _ _ Hn), Happ. cbn. apply mapM_Some_1 in Ht.
    destruct (Forall2_lookup_r _ _ _ _ _ Ht Hg) as (grp & _ & Hgt). by eapply exec_rows_indexed. }
  destruct (history_drawn a boot_ns tz_offset Hidx) as (items & Eh & Hl).
  destruct (detail_drawn a boot_ns tz_offset _ _ Hn) as (tabs & tab & p & Ed & Hp).
  eexists _, items. unfold draw. rewrite Eh. cbn [mbind option_bind]. rewrite Ed.
  split; [reflexivity|]. cbn. split_and!; [done|done|].
  pose proof (nav_cursor _ _ _ Hn) as Hc.
  apply Forall_cons. split; [unfold selects_a_row; cbn; unfold len; lia|].
  apply Forall_cons. split; [apply (output_selects a _ _ Hn)|].
  apply Forall_cons. by split; [|apply Forall_nil].
Qed.

(** Whatever keys are pressed after a trace was loaded, the screen can
    be drawn: no index is out of range and no hidden event reaches the code that
    declares it unreachable; the history shows one line per visible row, and
    the row selected in any pane is one of its rows. *)
Theorem drawing_never_panics `{Base64} parse fuel lines app keys path boot_ns tz_offset :
  build_app parse fuel lines = Some (Ok app) ->
  let a := foldl handle_key app keys in
  exists frame items, draw a path boot_ns tz_offset = Some frame /\
    body (f_history frame) = Rows items (Some (Z.of_nat (history_cursor a))) /\
    length items = length (visible_rows a) /\
    Forall selects_a_row [f_history frame; f_output frame; f_detail frame].
Proof. apply keys_drawn. Qed.

(** The last event of a trace is shown at the time its file was written. *)
Theorem last_event_at_mtime events e mtime_ns tz_offset :
  last events = Some e ->
  format_timestamp (boot_time_utc mtime_ns events) tz_offset (v_timestamp (v_header e)) =
  clock_string (mtime_ns / 1000000000 + tz_offset).
Proof.
  intros Hl. unfold format_timestamp, boot_time_utc. rewrite Hl. cbn. do 2 f_equal. f_equal. lia.
Qed.
