(* ===== verification/ViewerRun.v ===== *)
(** * The viewer's program (bloodhound-tui/src/main.rs)

    From the command line to the last frame: the question about a large file,
    the lines of the file, the application, and the loop that draws, waits for
    a key and handles it.  Files, the console and the terminal are parameters:
    every call that can fail has an answer. *)

From Stdlib Require Import Ascii.
From S2P Require Import Prelude Json Utf8 Elf UsdtRegistry Viewer ViewerFacts ViewerApp ViewerAppFacts.
From S2P Require Import ViewerSummary ViewerUi ViewerUiFacts.

Local Open Scope string_scope.
Local Open Scope Z_scope.
Local Open Scope list_scope.

(** ** Reading the file *)

(** One carriage return before a line end belongs to the line end. *)
Definition strip_cr (line : list byte) : list byte :=
  match last line with
  | Some b => if byte.unsigned b =? 0x0d then pop line else line
  | None => line
  end.

(** [str::lines] *)
Fixpoint content_lines (cur bs : list byte) : list (list byte) :=
  match bs with
  | [] => match cur with [] => [] | _ => [cur] end
  | b :: bs =>
      if byte.unsigned b =? 0x0a then strip_cr cur :: content_lines [] bs
      else content_lines (cur ++ [b]) bs
  end.

Definition file_lines (content : list byte) : list string :=
  (fun l => bstr (trim l)) <$> content_lines [] content.

(** [path.file_name()] of a Unix path, or else the whole path. *)
Fixpoint split_slash (bs : list byte) : list (list byte) :=
  match bs with
  | [] => [[]]
  | b :: bs =>
      if byte.unsigned b =? 0x2f then [] :: split_slash bs
      else match split_slash bs with [] => [[b]] | p :: ps => (b :: p) :: ps end
  end.

Definition file_display (path : string) : string :=
  let parts := filter (fun p => p <> [] /\ p <> [Byte.x2e]) (split_slash (str_bytes path)) in
  match last parts with
  | Some name => if bool_decide (name = [Byte.x2e; Byte.x2e]) then path else bstr name
  | None => path
  end.

(** What [App::new] is given besides the trace. *)
Record Session : Type := mkSession {
  s_app : App; s_path : string; s_boot_ns : Z; s_tz_offset : Z }.

Section Load.
Context `{Base64} (parse : string -> option BehaviorEvent).

(** The numbers of the lines that do not parse; the first five are reported. *)
Definition parse_errors (content : list byte) : list Z :=
  omap (fun p : nat * string =>
    if String.eqb p.2 "" then None
    else match parse p.2 with Some _ => None | None => Some (Z.of_nat p.1 + 1) end)
    (imap pair (file_lines content)).
Definition reported_errors (content : list byte) : list Z := take 5 (parse_errors content).

(** [content]: the file, if it can be read; [mtime]: its time of modification,
    if it can be told.  [None] is the unbounded recursion of the tree walk. *)
Definition build_app_from_path (fuel : nat) (path : string) (content : option (list byte)) (mtime : option Z)
    (tz_offset : Z) (boot_time_override : option Z) : option (result Session) :=
  match content with
  | None => Some (Err "Cannot read file")
  | Some bs =>
      if negb (utf8_valid bs) then Some (Err "Cannot read file") else
      r ← build_app parse fuel (file_lines bs);
      match r with
      | Err m => Some (Err m)
      | Ok app =>
          let session boot := Some (Ok (mkSession app (file_display path) boot tz_offset)) in
          match boot_time_override, mtime with
          | Some t, _ => session t
          | None, Some mtime => session (boot_time_utc mtime (a_events app))
          | None, None => Some (Err "no modification time")
          end
      end
  end.

(** ** [main] *)

Definition FILE_SIZE_WARNING_BYTES : Z := 50 * 1024 * 1024.

(** [b.eq_ignore_ascii_case("y")] *)
Definition is_yes (answer : list byte) : bool :=
  bool_decide (answer = [Byte.x79]) || bool_decide (answer = [Byte.x59]).

(** [FixedOffset::east_opt] *)
Definition east_opt (secs : Z) : option Z :=
  if (-86400 <? secs) && (secs <? 86400) then Some secs else None.

(** What the program finds: the size of the file, the line typed at the
    question, the file and its time. *)
Record Files : Type := mkFiles {
  file_len : option Z; typed : option (list byte); file_content : option (list byte); file_mtime : option Z }.

Inductive Begin : Type :=
| BeginErr (msg : string)
| BeginAborted           (* the question was not answered with yes *)
| BeginOverflow          (* the tree walk does not end *)
| BeginRun (s : Session).

Definition begin (fuel : nat) (file timezone : string) (fs : Files) : Begin :=
  match file_len fs with
  | None => BeginErr "Cannot read file"
  | Some size =>
      let go :=
        match parse_tz_offset (trim (str_bytes timezone)) with
        | Err m => BeginErr m
        | Ok secs =>
            match east_opt secs with
            | None => BeginErr "Invalid timezone offset"
            | Some tz =>
                match build_app_from_path fuel file (file_content fs) (file_mtime fs) tz None with
                | None => BeginOverflow
                | Some (Err m) => BeginErr m
                | Some (Ok s) => BeginRun s
                end
            end
        end in
      if FILE_SIZE_WARNING_BYTES <? size then
        match typed fs with
        | None => BeginErr "reading stdin"
        | Some answer =>
            if negb (utf8_valid answer) then BeginErr "reading stdin"
            else if is_yes (trim answer) then go else BeginAborted
        end
      else go
  end.
End Load.

(** ** [run_tui] *)

(** The state the program leaves the user's terminal in. *)
Record Term : Type := mkTerm { raw_mode : bool; alternate : bool; cursor_hidden : bool }.
Definition shell_term : Term := mkTerm false false false.

(** The answers of one round: [draw]; [poll], which fails, times out or has an
    event; [read], which fails, gives a key or another event. *)
Record Turn : Type := mkTurn {
  t_draw : bool; t_poll : option bool; t_read : option (option KeyCode) }.

Inductive Outcome : Type :=
| Quit                    (* break Ok(()) *)
| Failed                  (* an error returned with ? *)
| Panicked                (* drawing indexed out of range *)
| Running.                (* the rounds are over, the loop is not *)
#[export] Instance Outcome_eq_dec : EqDecision Outcome.
Proof. solve_decision. Defined.

(** The rest of a round once the frame is drawn: the application after the key,
    or an error. *)
Definition poll_and_read (t : Turn) (a : App) : option App :=
  match t_poll t with
  | None => None
  | Some false => Some a
  | Some true => match t_read t with None => None | Some None => Some a | Some (Some k) => Some (handle_key a k) end
  end.

Fixpoint main_loop (path : string) (boot_ns tz_offset : Z) (turns : list Turn) (a : App) (t : Term)
    : Outcome * App * Term :=
  match turns with
  | [] => (Running, a, t)
  | turn :: turns =>
      match draw a path boot_ns tz_offset with
      | None => (Panicked, a, t)
      | Some _ =>
          if negb (t_draw turn) then (Failed, a, t) else
          let t := mkTerm (raw_mode t) (alternate t) true in
          match poll_and_read turn a with
          | None => (Failed, a, t)
          | Some a =>
              if should_quit a then (Quit, a, t)
              else main_loop path boot_ns tz_offset turns a t
          end
      end
  end.

(** The calls before and after the loop, in order; each can fail. *)
Record Setup : Type := mkSetup {
  enable_ok : bool; enter_ok : bool; terminal_ok : bool; disable_ok : bool; leave_ok : bool; show_ok : bool }.

Definition run_tui (c : Setup) (turns : list Turn) (s : Session) : Outcome * App * Term :=
  let a := s_app s in
  if negb (enable_ok c) then (Failed, a, shell_term) else
  let t := mkTerm true false false in
  if negb (enter_ok c) then (Failed, a, t) else
  let t := mkTerm true true false in
  if negb (terminal_ok c) then (Failed, a, t) else
  match main_loop (s_path s) (s_boot_ns s) (s_tz_offset s) turns a t with
  | (Quit, a, t) =>
      if negb (disable_ok c) then (Failed, a, t) else
      let t := mkTerm false (alternate t) (cursor_hidden t) in
      if negb (leave_ok c) then (Failed, a, t) else
      let t := mkTerm false false (cursor_hidden t) in
      if negb (show_ok c) then (Failed, a, t) else
      (Quit, a, shell_term)
  | stop => stop
  end.

(** ** The loop *)

(** [q], Escape and Ctrl-C *)
Definition is_quit_key (k : KeyCode) : bool :=
  match k with
  | KEsc => true
  | KChar c control => Ascii.eqb c "q"%char || (Ascii.eqb c "c"%char && control)
  | _ => false
  end.

Ltac quit_cases :=
  repeat (case_goal || (progress cbn)); try done.

Lemma activate_quit a : should_quit (activate a) = should_quit a.
Proof. unfold activate, toggle_expand, toggle_process_expand. quit_cases. Qed.
Lemma select_next_quit a : should_quit (select_next a) = should_quit a.
Proof. unfold select_next. quit_cases. Qed.
Lemma select_prev_quit a : should_quit (select_prev a) = should_quit a.
Proof. unfold select_prev. quit_cases. Qed.
Lemma jump_top_quit a : should_quit (jump_top a) = should_quit a.
Proof. unfold jump_top. quit_cases. Qed.
Lemma jump_bottom_quit a : should_quit (jump_bottom a) = should_quit a.
Proof. unfold jump_bottom. quit_cases. Qed.
Create Rewrite HintDb quit.
#[local] Hint Rewrite activate_quit select_next_quit select_prev_quit jump_top_quit jump_bottom_quit : quit.

(** A key ends the program exactly when it is one of the quit keys. *)
Lemma handle_key_quit a k : should_quit (handle_key a k) = is_quit_key k || should_quit a.
Proof.
  destruct k as [c control| | | | | | | |]; cbn; autorewrite with quit; try done;
    unfold in_detail; try (by destruct (active_pane a)).
  unfold handle_char, in_detail.
  destruct (Ascii.eqb c "q"%char); [done|]. destruct (Ascii.eqb c "c"%char && control); [done|].
  repeat (case_goal; autorewrite with quit; try done).
Qed.

(** The key a round delivers, and whether every call of it succeeds. *)
Definition turn_key (t : Turn) : option KeyCode :=
  match t_poll t, t_read t with Some true, Some (Some k) => Some k | _, _ => None end.
Definition turn_ok (t : Turn) : bool :=
  t_draw t && match t_poll t, t_read t with Some false, _ | Some true, Some _ => true | _, _ => false end.

Fixpoint until_quit (ks : list KeyCode) : list KeyCode :=
  match ks with
  | [] => []
  | k :: ks => if is_quit_key k then [k] else k :: until_quit ks
  end.

Lemma until_quit_prefix ks : until_quit ks `prefix_of` ks.
Proof.
  induction ks as [|k ks IH]; cbn; [done|]. destruct (is_quit_key k); [|by apply prefix_cons].
  by apply prefix_cons, prefix_nil.
Qed.

Lemma poll_and_read_key t a :
  match poll_and_read t a with
  | Some a' => match turn_key t with Some k => a' = handle_key a k | None => a' = a end
  | None => turn_ok t = false
  end.
Proof. unfold poll_and_read, turn_key, turn_ok. destruct (t_draw t), (t_poll t) as [[]|], (t_read t) as [[]|]; done. Qed.

Section Loop.
Context (path : string) (boot_ns tz_offset : Z).

(** The loop leaves the modes of the terminal alone, however it ends. *)
Lemma main_loop_term turns : forall a t o a' t',
  main_loop path boot_ns tz_offset turns a t = (o, a', t') ->
  raw_mode t' = raw_mode t /\ alternate t' = alternate t.
Proof.
  induction turns as [|turn turns IH]; intros a t o a' t'; cbn; [by intros [= <- <- <-]|].
  destruct (draw a path boot_ns tz_offset); [|by intros [= <- <- <-]].
  destruct (t_draw turn); cbn; [|by intros [= <- <- <-]].
  destruct (poll_and_read turn a) as [a1|]; [|by intros [= <- <- <-]].
  destruct (should_quit a1); [by intros [= <- <- <-]|]. intros H. by apply IH in H.
Qed.

(** What the loop does to an application that has not quit and that can be
    drawn after any keys. *)
Lemma main_loop_spec turns : forall a t o a' t',
  should_quit a = false ->
  (forall ks, is_Some (draw (foldl handle_key a ks) path boot_ns tz_offset)) ->
  main_loop path boot_ns tz_offset turns a t = (o, a', t') ->
  let keys := omap turn_key turns in
  o <> Panicked /\
  (exists ks, ks `prefix_of` until_quit keys /\ a' = foldl handle_key a ks /\
     (o = Quit -> ks = until_quit keys /\ existsb is_quit_key keys = true)) /\
  (forallb turn_ok turns = true -> o = if existsb is_quit_key keys then Quit else Running) /\
  (o = Failed -> forallb turn_ok turns = false).
Proof.
  induction turns as [|turn turns IH]; intros a t o a' t' Hq Hd; cbn.
  - intros [= <- <- <-]. split_and!; try done. exists []. by split_and!; [apply prefix_nil| |].
  - destruct (Hd []) as [f Hf]. cbn in Hf. rewrite Hf. unfold turn_ok at 1 3.
    destruct (t_draw turn) eqn:Et; cbn [negb].
    2:{ intros [= <- <- <-]. split_and!; try done. exists []. by split_and!; [apply prefix_nil| |]. }
    pose proof (poll_and_read_key turn a) as Hp. unfold turn_ok in Hp. rewrite Et in Hp. cbn in Hp. cbn.
    destruct (poll_and_read turn a) as [a1|].
    2:{ rewrite Hp. intros [= <- <- <-]. cbn. split_and!; try done. exists []. by split_and!; [apply prefix_nil| |]. }
    destruct (turn_key turn) as [k|] eqn:Ek; subst a1; cbn.
    + rewrite handle_key_quit, Hq, orb_false_r. destruct (is_quit_key k) eqn:Eq; cbn.
      * intros [= <- <- <-]. split_and!; try done. by exists [k].
      * intros H. apply IH in H as (H1 & (ks & H4 & H5 & H6) & H7 & H8); cbn in *.
        -- split_and!; try done.
           ++ exists (k :: ks). split_and!; [by apply prefix_cons|done|]. intros Ho.
              destruct (H6 Ho) as [-> ->]. done.
           ++ by intros [_ H%H7]%andb_prop.
           ++ intros Ho. rewrite (H8 Ho). apply andb_false_r.
        -- by rewrite handle_key_quit, Eq, Hq.
        -- intros ks. exact (Hd (k :: ks)).
    + rewrite Hq. intros H. apply IH in H as (H1 & H4 & H7 & H8); try done.
      split_and!; try done; [by intros [_ H%H7]%andb_prop|]. intros Ho. rewrite (H8 Ho). apply andb_false_r.
Qed.
End Loop.

Section Run.
Context `{Base64} (parse : string -> option BehaviorEvent).

Lemma build_app_starts fuel lines app :
  build_app parse fuel lines = Some (Ok app) -> should_quit app = false.
Proof. by intros (events & trees & _ & _ & ->)%build_app_inv. Qed.

Definition setup_ok (c : Setup) : bool :=
  enable_ok c && enter_ok c && terminal_ok c && disable_ok c && leave_ok c && show_ok c.

(** C28: a session of the viewer on any trace it can load.  Whatever the terminal
    answers, drawing never panics and the application is in the state the keys
    pressed so far lead to.  The program ends well only on a quit key, having
    handled every key up to it, and then the terminal is as it was found.
    When no call fails it ends exactly if a quit key is pressed. *)
Theorem viewer_session fuel path content mtime tz boot s c turns :
  build_app_from_path parse fuel path content mtime tz boot = Some (Ok s) ->
  let keys := omap turn_key turns in
  let '(o, a, t) := run_tui c turns s in
  o <> Panicked /\
  (exists ks, ks `prefix_of` keys /\ a = foldl handle_key (s_app s) ks) /\
  (o = Quit -> t = shell_term /\ existsb is_quit_key keys = true /\
     a = foldl handle_key (s_app s) (until_quit keys)) /\
  (setup_ok c = true -> forallb turn_ok turns = true ->
   o = if existsb is_quit_key keys then Quit else Running).
Proof.
  intros Hb keys. unfold build_app_from_path in Hb. destruct content as [bs|]; [|done].
  destruct (negb (utf8_valid bs)); [done|].
  destruct (build_app parse fuel (file_lines bs)) as [[app|m]|] eqn:Ea; [|done|done]. cbn in Hb.
  assert (Hs : s_app s = app) by (by destruct boot as [b|], mtime as [m|]; simplify_eq).
  assert (Hq : should_quit (s_app s) = false) by (rewrite Hs; by eapply build_app_starts).
  unfold run_tui, setup_ok.
  assert (Hnil : exists ks, ks `prefix_of` keys /\ s_app s = foldl handle_key (s_app s) ks)
    by (exists []; split; [apply prefix_nil|done]).
  destruct (enable_ok c); cbn [negb andb]; [|by split_and!].
  destruct (enter_ok c); cbn [negb andb]; [|by split_and!].
  destruct (terminal_ok c); cbn [negb andb]; [|by split_and!].
  destruct (main_loop _ _ _ turns _ _) as [[o a] t] eqn:El.
  apply main_loop_spec in El as (H1 & (ks & H4 & H5 & H6) & H7 & H8); [|done|].
  2:{ intros ks. destruct (keys_drawn parse fuel _ app ks (s_path s) (s_boot_ns s) (s_tz_offset s) Ea)
        as (f & _ & Hf & _). rewrite Hs, Hf. done. }
  assert (Hks : exists ks, ks `prefix_of` keys /\ a = foldl handle_key (s_app s) ks).
  { exists ks. split; [|done]. etrans; [exact H4|apply until_quit_prefix]. }
  destruct o; [|by split_and!|done|by split_and!]. destruct (H6 eq_refl) as [-> Hk].
  destruct (disable_ok c); cbn [negb andb]; [|by split_and!].
  destruct (leave_ok c); cbn [negb andb]; [|by split_and!].
  destruct (show_ok c); cbn [negb andb]; by split_and!.
Qed.

(** Once the terminal is set up, an error inside the loop ends the program with
    the user's terminal in raw mode and on the alternate screen. *)
Theorem failed_loop_leaves_terminal c turns s a t :
  enable_ok c && enter_ok c && terminal_ok c = true ->
  main_loop (s_path s) (s_boot_ns s) (s_tz_offset s) turns (s_app s) (mkTerm true true false) = (Failed, a, t) ->
  run_tui c turns s = (Failed, a, t) /\ raw_mode t = true /\ alternate t = true.
Proof.
  intros Hc Hl. unfold run_tui. apply andb_prop in Hc as [[-> ->]%andb_prop ->]. cbn [negb].
  rewrite Hl. by apply main_loop_term in Hl as [-> ->].
Qed.
End Run.
