(* ===== verification/ReadBack.v ===== *)
(** * From the daemon's output to the viewer's events
    (bloodhound/src/deserializer.rs, bloodhound-tui/src/event_model.rs)

    The two programs share a file format through their derived serde
    implementations: the daemon's structs say how an event becomes a JSON
    object, the viewer's structs say how an object becomes an event again.
    This file models both and puts the programs end to end: what the viewer
    loads from the output of any run of the daemon.  The JSON text itself is
    serde's: an interface with the laws the format has. *)

From S2P Require Import Prelude Layout Records Common Json Utf8 Event Usdt Deserializer Lifecycle Sequencer Ranges.
From S2P Require Import Serializer Elf UsdtRegistry Viewer ViewerFacts ViewerApp ViewerAppFacts ViewerRun.

Local Open Scope string_scope.
Local Open Scope Z_scope.
Local Open Scope list_scope.

Abbreviation DaemonEvent := Event.BehaviorEvent.
Abbreviation ViewerEvent := Viewer.BehaviorEvent.

(** ** The daemon's side *)

(** [#[serde(skip_serializing_if = "Option::is_none")]] *)
Definition skip_none {A} (key : string) (f : A -> json) (o : option A) : list (string * json) :=
  match o with Some x => [(key, f x)] | None => [] end.

(** A field without that attribute *)
Definition or_null {A} (f : A -> json) (o : option A) : json := match o with Some x => f x | None => JNull end.

Definition slot_to_json (s : NamespaceSlotJson) : json :=
  obj [("status", JStr (slot_status s)); ("inode", or_null JNum (slot_inode s))].

Definition ns_to_json (n : NamespaceSnapshotJson) : json :=
  obj [("mnt", slot_to_json (ns_mnt n)); ("net", slot_to_json (ns_net n)); ("uts", slot_to_json (ns_uts n));
       ("ipc", slot_to_json (ns_ipc n)); ("cgroup", slot_to_json (ns_cgroup n));
       ("user", slot_to_json (ns_user n)); ("pid", slot_to_json (ns_pid n))].

Definition process_ref_to_json (r : ProcessRefJson) : json :=
  obj [("tgid", JNum (pr_tgid r)); ("start_boottime_ns", JNum (pr_start_boottime_ns r))].

Definition header_to_json (h : EventHeaderJson) : json :=
  obj ([("timestamp", JNum (h_timestamp h)); ("auid", JNum (h_auid h)); ("sessionid", JNum (h_sessionid h));
        ("pid", JNum (h_pid h))] ++ skip_none "ppid" JNum (h_ppid h) ++ [("comm", JStr (h_comm h))] ++
       skip_none "process_ref" process_ref_to_json (h_process_ref h) ++ skip_none "tid" JNum (h_tid h) ++
       skip_none "ns" ns_to_json (h_ns h)).

Definition event_type_to_json (t : EventTypeJson) : json :=
  obj [("type", JStr (ev_type t)); ("name", JStr (ev_name t)); ("layer", JStr (ev_layer t))].

Definition proc_to_json (p : Event.ProcInfo) : json :=
  obj (skip_none "main_executable" JStr (main_executable p) ++ skip_none "cwd" JStr (cwd p) ++
       skip_none "tty" JStr (tty p)).

Definition event_to_json (e : DaemonEvent) : json :=
  obj ([("header", header_to_json (be_header e)); ("event", event_type_to_json (be_event e))] ++
       skip_none "proc" proc_to_json (be_proc e) ++ skip_none "args" id (be_args e) ++
       skip_none "return_code" JNum (be_return_code e)).

(** ** The viewer's side *)

(** A number of an unsigned type, an [i64]. *)
Definition as_u (w : Z) (v : json) : option Z :=
  match v with JNum z => if (0 <=? z) && (z <? 2 ^ w) then Some z else None | _ => None end.
Definition as_i64 (v : json) : option Z :=
  match v with JNum z => if (- 2 ^ 63 <=? z) && (z <? 2 ^ 63) then Some z else None | _ => None end.

(** A required field, and one with [#[serde(default)]] of type [Option]: absent
    and null are [None], anything else has to be of the type. *)
Definition required {A} (f : json -> option A) (key : string) (v : json) : option A :=
  json_get key v ≫= f.
Definition optional {A} (f : json -> option A) (key : string) (v : json) : option (option A) :=
  match json_get key v with
  | None | Some JNull => Some None
  | Some x => Some <$> f x
  end.

Definition process_ref_of_json (v : json) : option ProcessRef :=
  tgid ← required (as_u 32) "tgid" v;
  start ← required (as_u 64) "start_boottime_ns" v;
  Some (mkRef tgid start).

Definition header_of_json (v : json) : option Viewer.EventHeader :=
  timestamp ← required (as_u 64) "timestamp" v;
  auid ← required (as_u 32) "auid" v;
  sessionid ← required (as_u 32) "sessionid" v;
  pid ← required (as_u 32) "pid" v;
  ppid ← optional (as_u 32) "ppid" v;
  comm ← required as_str "comm" v;
  process_ref ← optional process_ref_of_json "process_ref" v;
  Some (mkVHeader timestamp auid sessionid pid ppid comm process_ref).

Definition event_type_of_json (v : json) : option EventType :=
  event_type ← required as_str "type" v;
  name ← required as_str "name" v;
  layer ← required as_str "layer" v;
  Some (mkVType event_type name layer).

Definition proc_of_json (v : json) : option Viewer.ProcInfo :=
  if negb (is_obj v) then None else
  exe ← optional as_str "main_executable" v;
  cwd ← optional as_str "cwd" v;
  tty ← optional as_str "tty" v;
  Some (mkVProc exe cwd tty).

Definition event_of_json (v : json) : option ViewerEvent :=
  header ← required header_of_json "header" v;
  event ← required event_type_of_json "event" v;
  proc ← optional proc_of_json "proc" v;
  args ← optional Some "args" v;
  return_code ← optional as_i64 "return_code" v;
  Some (mkVEvent header event proc args return_code).

(** ** What the viewer sees of an event *)

Definition view_header (h : EventHeaderJson) : Viewer.EventHeader :=
  mkVHeader (h_timestamp h) (h_auid h) (h_sessionid h) (h_pid h) (h_ppid h) (h_comm h)
    ((fun r => mkRef (pr_tgid r) (pr_start_boottime_ns r)) <$> h_process_ref h).

Definition view (e : DaemonEvent) : ViewerEvent :=
  mkVEvent (view_header (be_header e))
    (mkVType (ev_type (be_event e)) (ev_name (be_event e)) (ev_layer (be_event e)))
    ((fun p => mkVProc (main_executable p) (cwd p) (tty p)) <$> be_proc e)
    (match be_args e with Some JNull => None | a => a end)
    (be_return_code e).

(** ** The structs agree *)

Lemma json_get_app k l1 l2 :
  json_get k (obj (l1 ++ l2)) = union (json_get k (obj l1)) (json_get k (obj l2)).
Proof. cbn. rewrite list_to_map_app. apply lookup_union. Qed.

Lemma json_get_skip_none {A} k k' (f : A -> json) o :
  json_get k (obj (skip_none k' f o)) = if String.eqb k' k then f <$> o else None.
Proof.
  destruct o as [x|]; cbn [skip_none]; rewrite ?json_get_obj_cons, ?json_get_obj_nil;
    by destruct (String.eqb k' k).
Qed.

Ltac fields :=
  repeat (rewrite ?json_get_app, ?json_get_skip_none, ?json_get_obj_cons, ?json_get_obj_nil;
          cbn [String.eqb Ascii.eqb Bool.eqb union option_union union_with option_union_with]).

Lemma as_u_in w z : in_u w z -> as_u w (JNum z) = Some z.
Proof. unfold in_u, as_u. intros. by rewrite (proj2 (Z.leb_le _ _)), (proj2 (Z.ltb_lt _ _)) by lia. Qed.

Lemma as_i64_in z : in_s 64 z -> as_i64 (JNum z) = Some z.
Proof.
  unfold in_s, as_i64. change (64 - 1) with 63. intros.
  by rewrite (proj2 (Z.leb_le _ _)), (proj2 (Z.ltb_lt _ _)) by lia.
Qed.

(** An optional field that was written when present and not null reads back. *)
Lemma optional_written {A B} (f : A -> json) (g : json -> option B) (h : A -> B) key v (o : option A) :
  json_get key v = f <$> o ->
  (forall x, o = Some x -> f x <> JNull /\ g (f x) = Some (h x)) ->
  optional g key v = Some (h <$> o).
Proof.
  unfold optional. intros -> H. destruct o as [x|]; [|done]. destruct (H x eq_refl) as [Hn Hg].
  cbn. destruct (f x) eqn:E; try done; by rewrite Hg.
Qed.

Lemma process_ref_round r :
  in_u 32 (pr_tgid r) -> in_u 64 (pr_start_boottime_ns r) ->
  process_ref_of_json (process_ref_to_json r) = Some (mkRef (pr_tgid r) (pr_start_boottime_ns r)).
Proof.
  intros H1 H2. unfold process_ref_of_json, process_ref_to_json, required. fields. cbn [mbind option_bind].
  by rewrite !as_u_in.
Qed.

Lemma header_round h :
  header_in_range h -> header_of_json (header_to_json h) = Some (view_header h).
Proof.
  intros (H1 & H2 & H3 & H4 & H5 & H6). unfold header_of_json.
  rewrite (optional_written JNum (as_u 32) id "ppid" _ (h_ppid h)).
  2:{ unfold header_to_json. fields. by destruct (h_ppid h). }
  2:{ intros p Hp. split; [done|]. apply as_u_in; eauto. }
  rewrite (optional_written process_ref_to_json process_ref_of_json
    (fun r => mkRef (pr_tgid r) (pr_start_boottime_ns r)) "process_ref" _ (h_process_ref h)).
  2:{ unfold header_to_json. fields. by destruct (h_ppid h), (h_process_ref h). }
  2:{ intros r Hr. split; [done|]. destruct (H6 r Hr). by apply process_ref_round. }
  unfold required, header_to_json. fields. cbn [mbind option_bind].
  rewrite !as_u_in by done. cbn. unfold view_header. by rewrite option_fmap_id.
Qed.

Lemma proc_round p :
  proc_of_json (proc_to_json p) = Some (mkVProc (main_executable p) (cwd p) (tty p)).
Proof.
  unfold proc_of_json. cbn [is_obj proc_to_json obj negb].
  rewrite (optional_written JStr as_str id "main_executable" _ (main_executable p)),
    (optional_written JStr as_str id "cwd" _ (cwd p)), (optional_written JStr as_str id "tty" _ (tty p));
    try done; try (unfold proc_to_json; fields; by destruct (main_executable p), (cwd p), (tty p)).
Qed.

(** Every event of the daemon is one the viewer can parse, and it sees the
    same event. *)
Lemma event_round e : event_in_range e -> event_of_json (event_to_json e) = Some (view e).
Proof.
  intros [Hh Hr]. unfold event_of_json.
  rewrite (optional_written proc_to_json proc_of_json
    (fun p => mkVProc (main_executable p) (cwd p) (tty p)) "proc" _ (be_proc e)).
  2:{ unfold event_to_json. fields. by destruct (be_proc e). }
  2:{ intros p _. split; [done|]. apply proc_round. }
  rewrite (optional_written JNum as_i64 id "return_code" _ (be_return_code e)).
  2:{ unfold event_to_json. fields. by destruct (be_proc e), (be_args e), (be_return_code e). }
  2:{ intros r E. split; [done|]. apply as_i64_in; eauto. }
  assert (Ha : optional Some "args" (event_to_json e) =
               Some (match be_args e with Some JNull => None | a => a end)).
  { unfold optional, event_to_json. fields. destruct (be_proc e), (be_args e) as [[]|]; done. }
  rewrite Ha. unfold required. unfold event_to_json at 1 2. fields. cbn [mbind option_bind].
  rewrite header_round by done. unfold event_type_of_json, event_type_to_json, required. fields. cbn.
  by rewrite option_fmap_id.
Qed.

(** ** Lines and their text *)

Definition LBRACE : byte := Byte.x7b.
Definition RBRACE : byte := Byte.x7d.

Lemma is_lf b : (byte.unsigned b =? 0x0a) = bool_decide (b = LF).
Proof. by destruct b. Qed.

Lemma content_lines_break l bs : forall cur,
  LF ∉ l -> content_lines cur (l ++ LF :: bs) = strip_cr (cur ++ l) :: content_lines [] bs.
Proof.
  induction l as [|b l IH]; intros cur Hl; cbn [app content_lines]; [by rewrite app_nil_r|].
  apply not_elem_of_cons in Hl as [Hb Hl]. rewrite is_lf, bool_decide_false by done.
  by rewrite IH, <- app_assoc.
Qed.

Lemma content_lines_open l : forall cur,
  LF ∉ l -> content_lines cur l = match cur ++ l with [] => [] | _ => [cur ++ l] end.
Proof.
  induction l as [|b l IH]; intros cur Hl; cbn [content_lines].
  - rewrite app_nil_r. by destruct cur.
  - apply not_elem_of_cons in Hl as [Hb Hl]. rewrite is_lf, bool_decide_false by done.
    by rewrite IH, <- app_assoc.
Qed.

Lemma drop_seqs_drop seqs fuel : forall bs, exists n, drop_seqs seqs fuel bs = drop n bs.
Proof.
  induction fuel as [|fuel IH]; intros bs; cbn [drop_seqs]; [by exists 0%nat|].
  destruct (List.find _ seqs) as [w|]; [|by exists 0%nat].
  destruct (IH (drop (length w) bs)) as [n ->]. rewrite drop_drop. by eexists.
Qed.

Lemma drop_seqs_brace seqs fuel b bs :
  forallb (fun w => match w with c :: _ => negb (bool_decide (c = b)) | [] => false end) seqs = true ->
  drop_seqs seqs fuel (b :: bs) = b :: bs.
Proof.
  intros H. destruct fuel; [done|]. cbn [drop_seqs].
  destruct (List.find _ seqs) as [w|] eqn:E; [|done]. apply List.find_some in E as [Hin E].
  apply bool_decide_eq_true in E. rewrite List.forallb_forall in H. specialize (H w Hin).
  destruct w as [|c w]; [done|]. cbn in E. injection E as -> _. by rewrite bool_decide_true in H.
Qed.

(** An object's text has no white space around it to trim, and trimming the
    beginning of one gives the beginning of one. *)
Lemma trim_object_prefix bs : exists n, trim (LBRACE :: bs) = take n (LBRACE :: bs).
Proof.
  unfold trim. rewrite drop_seqs_brace by done.
  destruct (drop_seqs_drop (reverse <$> WHITESPACE) (length (LBRACE :: bs)) (reverse (LBRACE :: bs))) as [n ->].
  eexists. rewrite drop_reverse, reverse_involutive. done.
Qed.

Lemma trim_object body : trim ([LBRACE] ++ body ++ [RBRACE]) = [LBRACE] ++ body ++ [RBRACE].
Proof.
  unfold trim. cbn [app]. rewrite drop_seqs_brace by done.
  assert (E : reverse (LBRACE :: body ++ [RBRACE]) = RBRACE :: reverse (LBRACE :: body))
    by (by rewrite app_comm_cons, reverse_app).
  rewrite E, drop_seqs_brace by done. rewrite <- E. apply reverse_involutive.
Qed.

Lemma utf8_valid_app a b : utf8_valid a = true -> utf8_valid (a ++ b) = utf8_valid b.
Proof.
  revert a. apply (well_founded_induction_type (Wf_nat.well_founded_ltof _ length)
    (fun a => utf8_valid a = true -> utf8_valid (a ++ b) = utf8_valid b)).
  intros a IH Ha. destruct a as [|x a]; [done|]. cbn in Ha |- *. unfold Wf_nat.ltof in IH.
  destruct (lead_of x); try done.
  - apply IH; [cbn; lia|done].
  - destruct a as [|c1 a]; [done|]. apply andb_prop in Ha as [H1 Ha]. cbn. rewrite H1.
    apply IH; [cbn; lia|done].
  - destruct a as [|c1 [|c2 a]]; [done|done|]. apply andb_prop in Ha as [[H1 H2]%andb_prop Ha].
    cbn. rewrite H1, H2. apply IH; [cbn; lia|done].
  - destruct a as [|c1 [|c2 [|c3 a]]]; [done|done|done|].
    apply andb_prop in Ha as [[[H1 H2]%andb_prop H3]%andb_prop Ha].
    cbn. rewrite H1, H2, H3. apply IH; [cbn; lia|done].
Qed.

(** ** The two programs end to end *)

(** The text of serde_json: an event is written as an object on one line of
    UTF-8; reading it back gives the value of every value it can represent
    (its numbers are machine integers); the beginning of an object is not JSON. *)
Class TraceText := {
  json_ok : json -> Prop;
  to_writer : DaemonEvent -> list (list byte);
  from_str : string -> option json;
  text_object e : exists body, concat (to_writer e) = [LBRACE] ++ body ++ [RBRACE] /\ LF ∉ body;
  text_utf8 e : utf8_valid (concat (to_writer e)) = true;
  from_str_text e :
    json_ok (event_to_json e) -> from_str (bstr (concat (to_writer e))) = Some (event_to_json e);
  from_str_cut e p :
    p `prefix_of` concat (to_writer e) -> p <> concat (to_writer e) -> from_str (bstr p) = None }.

Section Trace.
Context `{Base64, TraceText}.

(** [serde_json::from_str::<BehaviorEvent>] *)
Definition parse_event (l : string) : option ViewerEvent := from_str l ≫= event_of_json.

(** The events of a file: those of its lines that are not blank and parse. *)
Definition trace_events (content : list byte) : list ViewerEvent :=
  omap (fun l => if String.eqb l "" then None else parse_event l) (file_lines content).

(** What the daemon's types and serde ensure of an event. *)
Definition event_ok (e : DaemonEvent) : Prop := event_in_range e /\ json_ok (event_to_json e).

Lemma text_no_lf e : LF ∉ concat (to_writer e).
Proof.
  destruct (text_object e) as (body & -> & Hb). rewrite !not_elem_of_app, !list_elem_of_singleton.
  split_and!; done.
Qed.

Lemma text_kept e :
  trim (strip_cr (concat (to_writer e))) = concat (to_writer e) /\
  trim (concat (to_writer e)) = concat (to_writer e) /\ concat (to_writer e) <> [].
Proof.
  destruct (text_object e) as (body & -> & _).
  assert (Hs : strip_cr ([LBRACE] ++ body ++ [RBRACE]) = [LBRACE] ++ body ++ [RBRACE]).
  { unfold strip_cr. by rewrite app_assoc, last_snoc. }
  rewrite Hs, trim_object. done.
Qed.

Lemma bstr_nonempty bs : bs <> [] -> String.eqb (bstr bs) "" = false.
Proof. intros Hn. apply String.eqb_neq. intros E. apply Hn. by rewrite <- (str_bytes_bstr bs), E. Qed.

Lemma parse_text e : event_ok e -> parse_event (bstr (concat (to_writer e))) = Some (view e).
Proof. intros [Hr Hj]. unfold parse_event. rewrite from_str_text by done. by apply event_round. Qed.

Lemma trace_events_line e bs :
  event_ok e -> trace_events (line_of to_writer e ++ bs) = view e :: trace_events bs.
Proof.
  intros He. unfold trace_events, file_lines, line_of. rewrite <- app_assoc. cbn [app].
  rewrite content_lines_break by apply text_no_lf. cbn [fmap list_fmap omap list_omap].
  destruct (text_kept e) as (Hk & _ & Hn). cbn [app]. rewrite Hk, bstr_nonempty by done.
  by rewrite parse_text.
Qed.

Lemma trace_events_ndjson es bs :
  Forall event_ok es -> trace_events (ndjson to_writer es ++ bs) = (view <$> es) ++ trace_events bs.
Proof.
  induction 1 as [|e es He _ IH]; [done|].
  change (ndjson to_writer (e :: es)) with (line_of to_writer e ++ ndjson to_writer es).
  rewrite <- app_assoc, trace_events_line, IH by done. done.
Qed.

(** The beginning of a line gives its event, if it is all there, or none. *)
Lemma trace_events_torn e torn :
  event_ok e -> torn `prefix_of` line_of to_writer e ->
  trace_events torn = [] \/ trace_events torn = [view e].
Proof.
  intros He Ht. destruct (decide (torn = line_of to_writer e)) as [->|Hne].
  { right. rewrite <- (app_nil_r (line_of _ _)). by apply trace_events_line. }
  assert (Hp : torn `prefix_of` concat (to_writer e)).
  { destruct Ht as [k Hk]. destruct (last k) as [x|] eqn:El.
    - apply last_Some in El as [k' ->]. unfold line_of in Hk. rewrite app_assoc in Hk.
      apply app_inj_2 in Hk as [Hk _]; [|done]. by exists k'.
    - apply last_None in El as ->. by rewrite app_nil_r in Hk. }
  assert (Hlf : LF ∉ torn).
  { intros Hin. apply (text_no_lf e). destruct Hp as [k ->]. apply elem_of_app. by left. }
  unfold trace_events, file_lines. rewrite content_lines_open by done. cbn [app].
  destruct torn as [|b torn]; [by left|]. cbn [fmap list_fmap omap list_omap].
  destruct (String.eqb _ ""); [by left|].
  destruct (decide (b :: torn = concat (to_writer e))) as [E|Hcut].
  { right. destruct (text_kept e) as (_ & Hk & _). rewrite E, Hk, parse_text by done. done. }
  left. assert (Hb : b = LBRACE).
  { destruct (text_object e) as (body & E & _). rewrite E in Hp. by apply prefix_cons_inv_1 in Hp. }
  subst b. destruct (trim_object_prefix torn) as [n ->]. unfold parse_event.
  rewrite (from_str_cut e); [done| |].
  - etrans; [apply prefix_take|exact Hp].
  - intros E. apply Hcut. apply prefix_length_eq; [exact Hp|]. rewrite <- E, length_take. lia.
Qed.

Lemma ndjson_utf8 es : utf8_valid (ndjson to_writer es) = true.
Proof.
  induction es as [|e es IH]; [done|].
  change (ndjson to_writer (e :: es)) with (line_of to_writer e ++ ndjson to_writer es).
  unfold line_of. rewrite <- app_assoc, utf8_valid_app by apply text_utf8. done.
Qed.

(** What the viewer makes of a file, by the events in it. *)
Definition opened_with (fuel : nat) (path : string) (content : list byte) (mtime : option Z) (tz : Z)
    (boot : option Z) (events : list ViewerEvent) : Prop :=
  let r := build_app_from_path parse_event fuel path (Some content) mtime tz boot in
  (forall session, r = Some (Ok session) -> a_events (s_app session) = events) /\
  (utf8_valid content = false -> r = Some (Err "Cannot read file")) /\
  (utf8_valid content = true -> events = [] -> r = Some (Err "No valid events found")) /\
  (utf8_valid content = true -> events <> [] -> is_Some boot \/ is_Some mtime ->
   is_Some (build_exec_trees fuel (correlate (trace_commands events) events) events) ->
   exists session, r = Some (Ok session) /\ a_events (s_app session) = events /\ s_tz_offset session = tz).

Lemma opened_with_events fuel path content mtime tz boot :
  opened_with fuel path content mtime tz boot (trace_events content).
Proof.
  unfold opened_with, build_app_from_path. destruct (utf8_valid content); cbn [negb]; [|done].
  unfold build_app. fold (trace_events content). destruct (trace_events content) as [|e es] eqn:Ee; [done|].
  destruct (build_exec_trees fuel _ (e :: es)) as [trees|]; cbn; split_and!; try done.
  - intros session Hs. by destruct boot as [b|], mtime as [m|]; simplify_eq/=.
  - intros _ _ Hb _. destruct boot as [b|], mtime as [m|]; try (by eexists). by destruct Hb as [[? ?]|[? ?]].
Qed.

(** C9: the daemon's output read by the viewer.  Whatever was admitted and
    whatever stdout does, the file holds for the viewer the first events of the
    ideal stream: all the lines the daemon counted as written, and at most the
    one whose write failed; after a run without a failure the whole stream,
    in valid UTF-8.  The viewer refuses the file when it is not UTF-8, which
    only a failed write inside a character leaves, and when it holds no event;
    otherwise it opens it on exactly these events, if it can tell the time and
    the process trees end. *)
Theorem trace_read_back now replies inputs :
  let ideal := (stream now inputs synth_new 0).2 in
  (forall n, in_u 64 (now n)) -> (forall e, Synthesized e ∈ inputs -> event_in_range e) ->
  Forall (fun e => json_ok (event_to_json e)) ideal ->
  let '(r, s) := accept_all now (stdout_writes to_writer replies) inputs seq_new in
  let file := out (close (write_events to_writer ideal (line_writer replies)).2) in
  exists k, (length (lines s) <= k <= length (lines s) + 1)%nat /\ (k <= length ideal)%nat /\
    (r = Ok tt -> k = length ideal /\ utf8_valid file = true) /\
    forall fuel path mtime tz boot, opened_with fuel path file mtime tz boot (view <$> take k ideal).
Proof.
  intros ideal Hnow Hin Hjson.
  assert (Hok : Forall event_ok ideal) by (apply Forall_and; split; [by apply stream_range|done]).
  pose proof (stdout_framed now to_writer replies inputs) as Hf. fold ideal in Hf.
  destruct (accept_all now _ inputs seq_new) as [r s]. destruct Hf as (torn & Ho & Hr). cbn zeta.
  set (file := out _) in *. clearbody file.
  assert (Hopen : forall k, trace_events file = view <$> take k ideal -> forall fuel path mtime tz boot,
    opened_with fuel path file mtime tz boot (view <$> take k ideal)).
  { intros k <- fuel path mtime tz boot. apply opened_with_events. }
  subst file. destruct Hr as [(-> & El & -> & _ & _)|(e & rest & -> & El & Ht)].
  - exists (length ideal). rewrite app_nil_r in *. rewrite El in *. split; [lia|]. split; [lia|]. split.
    + intros _. split; [done|]. apply ndjson_utf8.
    + apply (Hopen (length ideal)). rewrite firstn_all.
      rewrite <- (app_nil_r (ndjson _ _)), trace_events_ndjson by done. apply app_nil_r.
  - rewrite El in Hok. apply Forall_app in Hok as [Hls He]. apply Forall_cons_1 in He as [He _].
    assert (Hlen : length ideal = (length (lines s) + S (length rest))%nat) by (rewrite El, length_app; done).
    destruct (trace_events_torn e torn He Ht) as [Et|Et];
      [exists (length (lines s))|exists (length (lines s) + 1)%nat]; (split; [lia|]; split; [lia|]; split; [done|]);
      apply Hopen; rewrite trace_events_ndjson, Et by done; rewrite El.
    + by rewrite take_app_length, app_nil_r.
    + rewrite take_app_add. cbn. by rewrite fmap_app.
Qed.

(** A file whose last line was cut inside a character is refused as a whole,
    with all the complete lines before it. *)
Theorem cut_character_refuses_trace es cut fuel path mtime tz boot :
  utf8_valid cut = false ->
  build_app_from_path parse_event fuel path (Some (ndjson to_writer es ++ cut)) mtime tz boot =
  Some (Err "Cannot read file").
Proof.
  intros Hc. unfold build_app_from_path. rewrite utf8_valid_app by apply ndjson_utf8. by rewrite Hc.
Qed.
End Trace.
