(* ===== verification/ViewerDemo.v ===== *)
(** * Traces for the viewer

    Concrete traces on which the viewer's theorems are instantiated, and three
    on which it misbehaves. *)

From stdpp Require Import sorting.
From S2P Require Import Prelude Json Viewer ViewerFacts ViewerApp ViewerAppFacts ExecTreeFacts ViewerUi ViewerUiFacts.

Local Open Scope string_scope.
Local Open Scope Z_scope.
Local Open Scope list_scope.

#[local] Existing Instance identity_base64.

Definition trace_event (ts pid ppid : Z) (comm type name : string) (args : list (string * json))
    (ref : option Z) : BehaviorEvent :=
  mkVEvent (mkVHeader ts 1000 1 pid (Some ppid) comm (mkRef pid <$> ref)) (mkVType type name "behavior") None
    (Some (obj args)) (Some 3).

Definition demo_execve (ts pid ppid : Z) (file : string) (ref : option Z) : BehaviorEvent :=
  trace_event ts pid ppid "bash" "TRACEPOINT" "execve" [("filename", JStr file)] ref.

Definition demo_tty (ts : Z) (comm data : string) : BehaviorEvent :=
  trace_event ts 5 1 comm "TTY" "tty_write" [("data", JStr data)] None.

Definition carriage_return : string := bstr [Byte.x0d].

(** A shell in which make is run, which runs cc; then the output is listed. *)
Definition session : list BehaviorEvent :=
  [demo_execve 5 9 1 "/bin/bash" (Some 50);
   demo_tty 10 "bash" ("user$ make" +:+ carriage_return);
   demo_execve 11 10 9 "/usr/bin/make" (Some 100);
   demo_execve 12 11 10 "/usr/bin/cc" (Some 110);
   trace_event 13 11 10 "cc" "TRACEPOINT" "openat" [("filename", JStr "main.c")] (Some 110);
   demo_tty 20 "bash" ("user$ ls" +:+ carriage_return);
   demo_execve 21 12 9 "/bin/ls" (Some 120)].

Example session_commands : command <$> trace_commands session = ["make"; "ls"].
Proof. vm_compute. reflexivity. Qed.

Definition session_groups : list CommandGroup := correlate (trace_commands session) session.

Example session_grouped : (fun g => (g_command g, event_indices g)) <$> session_groups =
  [("[pre-session]", [0%nat]); ("make", [2; 3; 4]%nat); ("ls", [6%nat])].
Proof. vm_compute. reflexivity. Qed.

Lemma events_assigned_once_witness :
  NoDup (concat (event_indices <$> session_groups)) /\
  exists before named, session_groups = before ++ named /\ g_command <$> before = ["[pre-session]"] /\
    g_command <$> named = ["make"; "ls"].
Proof.
  destruct (events_assigned_once session) as (Hn & _ & before & named & Eg & _ & Hb & Hm & _).
  - apply StronglySorted_Sorted. repeat constructor; cbn; lia.
  - apply (bool_decide_unpack _). vm_compute. exact I.
  - split; [exact Hn|]. exists before, named. split; [exact Eg|].
    assert (El : length named = 2%nat).
    { apply Forall2_length in Hm. rewrite Hm. vm_compute. reflexivity. }
    assert (E3 : g_command <$> before ++ named = ["[pre-session]"; "make"; "ls"])
      by (rewrite <- Eg; vm_compute; reflexivity).
    clear - El E3. destruct named as [|a [|b [|]]]; try discriminate El.
    destruct before as [|x [|y before]]; try discriminate E3; cbn in E3 |- *.
    + injection E3 as -> -> ->. split; reflexivity.
    + apply (f_equal length) in E3. cbn in E3. rewrite length_fmap, length_app in E3. cbn in E3. lia.
Defined.

Definition make_group : CommandGroup := nth 1 session_groups (mkGroup "" 0 []).
Definition session_starts : list Z := start_times ∅ session.

Lemma make_parents_older : parents_older session session_starts make_group.
Proof.
  apply (bool_decide_unpack _). vm_compute. exact I.
Qed.

Lemma exec_tree_terminates_witness : is_Some (group_tree session session_starts 2 make_group).
Proof.
  apply (exec_tree_terminates session session_starts make_group 2 make_parents_older). vm_compute. lia.
Defined.

Lemma exec_tree_complete_witness :
  exists rows, group_tree session session_starts 2 make_group = Some rows /\
    event_index <$> rows ≡ₚ [2; 3]%nat.
Proof.
  apply (exec_tree_complete session session_starts make_group 2 make_parents_older).
  - apply (bool_decide_unpack _). vm_compute. exact I.
  - vm_compute. lia.
Defined.

(** A reader for the lines: each is the number of an event of the session. *)
Definition demo_parse (l : string) : option BehaviorEvent :=
  nth_error session (String.length l - 1).
Definition demo_lines : list string := ["1"; ""; "12"; "123"; "1234"; "12345"; "123456"; "1234567"].
Definition demo_app : App :=
  match build_app demo_parse 3 demo_lines with
  | Some (Ok a) => a
  | _ => app_new [] [] [] [] ∅
  end.

Lemma demo_app_built : build_app demo_parse 3 demo_lines = Some (Ok demo_app).
Proof. vm_compute. reflexivity. Qed.

Lemma navigation_safe_witness :
  let a := foldl handle_key demo_app [KDown; KEnter; KDown; KDown; KEnter; KDown; KUp] in
  a_commands a = a_commands demo_app /\ current_group a = Some make_group.
Proof.
  pose proof (navigation_safe demo_parse 3 demo_lines demo_app
    [KDown; KEnter; KDown; KDown; KEnter; KDown; KUp] demo_app_built) as (_ & Hc & _).
  split; [exact Hc|]. vm_compute. reflexivity.
Defined.

Lemma drawing_never_panics_witness :
  let a := foldl handle_key demo_app [KDown; KEnter; KDown; KTab; KTab; KEnter; KDown] in
  exists frame items, draw a "trace.ndjson" 0 3600 = Some frame /\
    body (f_history frame) = Rows items (Some (Z.of_nat (history_cursor a))) /\
    length items = length (visible_rows a) /\
    Forall selects_a_row [f_history frame; f_output frame; f_detail frame].
Proof.
  exact (drawing_never_panics demo_parse 3 demo_lines demo_app
    [KDown; KEnter; KDown; KTab; KTab; KEnter; KDown] "trace.ndjson" 0 3600 demo_app_built).
Defined.

Lemma prompt_stripped_at_last_dollar_witness :
  strip_prompt (str_bytes "user$ echo 5" ++ [Byte.x24; Byte.x20] ++ str_bytes "each") = str_bytes "each".
Proof. apply prompt_stripped_at_last_dollar. reflexivity. Defined.

Lemma title_ended_by_st_swallows_witness :
  command_texts ([Byte.x1b; Byte.x5d] ++ str_bytes "0;title" ++ [Byte.x1b; Byte.x5c] ++
                 str_bytes ("ls" +:+ carriage_return)) = [].
Proof. apply title_ended_by_st_swallows. repeat constructor; vm_compute; discriminate. Defined.

(** ** Misbehaviour *)

(** A process that executes two programs: its children are listed under both. *)
Definition wrapper_session : list BehaviorEvent :=
  [demo_execve 1 10 1 "/usr/bin/env" (Some 100); demo_execve 2 10 1 "/usr/bin/make" (Some 100);
   demo_execve 3 11 10 "/usr/bin/cc" (Some 110)].

Theorem exec_tree_duplicates :
  fmap (fmap (M:=list) (fmap (M:=list) event_index))
    (build_exec_trees 3 (correlate [] wrapper_session) wrapper_session) = Some [[0; 2; 1; 2]%nat].
Proof. vm_compute. reflexivity. Qed.

(** Without start times a process id used again by a descendant makes the
    parents a cycle, and the walk recurses for ever. *)
Definition reuse_session : list BehaviorEvent :=
  [demo_execve 1 10 1 "/bin/a" None; demo_execve 2 20 10 "/bin/b" None; demo_execve 3 10 20 "/bin/c" None].
Definition reuse_group : CommandGroup := mkGroup "[no commands detected]" 1 [0; 1; 2]%nat.
Definition reuse_node (i : nat) : ExecNode := nth i (group_execs reuse_session [0; 0; 0] reuse_group)
  (mkNode 0 (demo_execve 0 0 0 "" None) 0).

Lemma reuse_cycle children_of fuel :
  kids children_of (reuse_node 0) = [reuse_node 1] -> kids children_of (reuse_node 1) = [reuse_node 2] ->
  kids children_of (reuse_node 2) = [reuse_node 1] ->
  tree_nodes children_of fuel (reuse_node 1) = None /\ tree_nodes children_of fuel (reuse_node 2) = None /\
  tree_nodes children_of fuel (reuse_node 0) = None.
Proof.
  intros E0 E1 E2. induction fuel as [|fuel (IH1 & IH2 & _)]; [done|]. cbn [tree_nodes].
  rewrite E0, E1, E2. cbn [mapM]. rewrite IH1, IH2. done.
Qed.

(** No bound on the recursion is enough for this trace. *)
Theorem exec_tree_diverges fuel :
  build_exec_trees fuel (correlate [] reuse_session) reuse_session = None.
Proof.
  change (correlate [] reuse_session) with [reuse_group]. unfold build_exec_trees.
  change (start_times ∅ reuse_session) with [0; 0; 0]. cbn [mapM].
  destruct (group_tree_nodes reuse_session [0; 0; 0] reuse_group fuel) as (ch & roots & Hk & Hr & E).
  assert (Hn : forall i j, (i < 3)%nat -> filter (fun y => parent_of reuse_session [0; 0; 0]
      (group_forks reuse_session reuse_group) y = exec_id (reuse_node i))
      (group_execs reuse_session [0; 0; 0] reuse_group) = [reuse_node j] -> kids ch (reuse_node i) = [reuse_node j]).
  { intros i j Hi Hf. apply Permutation_singleton_r. rewrite Hk, Hf; [done|].
    destruct i as [|[|[|]]]; [left|right; left|right; right; left|lia]. }
  destruct (reuse_cycle ch fuel) as (_ & _ & Hnone); [apply Hn; [lia|vm_compute; reflexivity]..|].
  assert (Hroot : roots = [reuse_node 0]) by (apply Permutation_singleton_r; rewrite Hr; vm_compute; reflexivity).
  rewrite Hroot in E. cbn [mapM] in E. rewrite Hnone in E.
  by destruct (group_tree reuse_session [0; 0; 0] fuel reuse_group).
Qed.

(** In the process tab the last row is a child; jumping to the bottom counts
    the process events only and stops one row above. *)
Definition tree_app : App :=
  set_process_expanded {[3%nat]} (set_pane Detail (set_cursor 1 demo_app)).

Theorem jump_bottom_misses_last_row :
  length (process_tree_rows (jump_bottom tree_app)) = 3%nat /\ detail_scroll (jump_bottom tree_app) = 1.
Proof. vm_compute. done. Qed.
