(* ===== verification/ReadBackDemo.v ===== *)
(** * Concrete runs of the writer and of the viewer

    A text format for two events that has the laws [ReadBack] asks for, a
    writer that fails in the middle of a line, and a session on a terminal. *)

From Stdlib Require Import Ascii.
From S2P Require Import Prelude Layout Records Common Json Utf8 Event Usdt Deserializer Lifecycle Sequencer Ranges.
From S2P Require Import Serializer Elf UsdtRegistry Viewer ViewerApp ViewerUi ViewerRun ReadBack ViewerDemo.

Local Open Scope string_scope.
Local Open Scope Z_scope.
Local Open Scope list_scope.
#[local] Existing Instance identity_base64.

Definition demo_event (name : string) : DaemonEvent :=
  mkEvent (sentinel_header 7) (mkEventType "DIAGNOSTIC" name "behavior") None None (Some 3).

(** The name in the JSON of an event. *)
Definition json_name (v : json) : option string :=
  e ← json_get "event" v;
  n ← json_get "name" e;
  as_str n.

(** One text for events called [first], one for the others. *)
Definition demo_text (e : DaemonEvent) : list (list byte) :=
  [[LBRACE]; [if bool_decide (json_name (event_to_json e) = Some "first") then Byte.x31 else Byte.x32]; [RBRACE]].

Definition demo_from_str (s : string) : option json :=
  if String.eqb s "{1}" then Some (event_to_json (demo_event "first"))
  else if String.eqb s "{2}" then Some (event_to_json (demo_event "second"))
  else None.

#[export, refine] Instance demo_format : TraceText := {|
  json_ok v := v = event_to_json (demo_event "first") \/ v = event_to_json (demo_event "second");
  to_writer := demo_text;
  from_str := demo_from_str |}.
Proof.
  - intros e. eexists [_]. split; [reflexivity|]. unfold demo_text.
    case_bool_decide; by rewrite list_elem_of_singleton.
  - intros e. unfold demo_text. by case_bool_decide.
  - intros e. unfold demo_text. intros [->| ->]; reflexivity.
  - intros e p [k Hk] Hne. unfold demo_text in *.
    destruct (bool_decide _); destruct p as [|b1 [|b2 [|b3 p]]]; cbn in Hk |- *; simplify_eq/=; try done;
      by destruct p, k.
Defined.

(** The second event breaks off after one byte of its text. *)
Definition demo_replies : list Answer := [Took 0; Took 5; Took 0; Took 0; Took 0; Broke 1 0].
Definition demo_inputs : list SequencedInput :=
  [Synthesized (demo_event "first"); Synthesized (demo_event "second")].

Lemma demo_in_range name : event_in_range (demo_event name).
Proof. split; [split_and!|]; cbn; try done. by intros r [= <-]. Qed.

Lemma demo_inputs_range e : Synthesized e ∈ demo_inputs -> event_in_range e.
Proof.
  intros He. repeat (apply elem_of_cons in He as [[= ->]|He]; [apply demo_in_range|]).
  by apply not_elem_of_nil in He.
Qed.

Lemma demo_json_ok :
  Forall (fun e => json_ok (event_to_json e)) (stream (fun _ => 0) demo_inputs synth_new 0).2.
Proof.
  change (Forall (fun e => json_ok (event_to_json e)) [demo_event "first"; demo_event "second"]).
  apply Forall_cons. split; [by left|]. apply Forall_singleton. by right.
Qed.

Definition demo_file : list byte := [LBRACE; Byte.x31; RBRACE; LF; LBRACE].

(** The viewer opens what this run leaves on the one event that was written. *)
Lemma trace_read_back_witness :
  exists session,
    build_app_from_path parse_event 3 "/var/log/trace.ndjson" (Some demo_file) (Some 1000) 3600 None =
      Some (Ok session) /\
    a_events (s_app session) = [view (demo_event "first")].
Proof.
  pose proof (trace_read_back (fun _ => 0) demo_replies demo_inputs (fun _ => ltac:(unfold in_u; lia)) demo_inputs_range
    demo_json_ok) as H.
  destruct (accept_all _ _ demo_inputs seq_new) as [r s] eqn:E.
  assert (Hs : lines s = [demo_event "first"]) by (vm_compute in E; by injection E as _ <-).
  destruct H as (k & Hk & Hk2 & _ & Hopen). rewrite Hs in Hk. cbn [length] in Hk.
  destruct (Hopen 3%nat "/var/log/trace.ndjson" (Some 1000) 3600 None) as (_ & _ & _ & Hok).
  assert (Hcases : k = 1%nat \/ k = 2%nat) by lia.
  assert (Ho : exists session,
    build_app_from_path parse_event 3 "/var/log/trace.ndjson" (Some demo_file) (Some 1000) 3600 None =
      Some (Ok session) /\ a_events (s_app session) = view <$> take k [demo_event "first"; demo_event "second"]).
  { destruct Hok as (session & Hb & He & _).
    - vm_compute. reflexivity.
    - by destruct Hcases as [-> | ->].
    - right. by eexists.
    - destruct Hcases as [-> | ->]; vm_compute; by eexists.
    - exists session. split; [exact Hb|exact He]. }
  destruct Ho as (session & Hb & He). exists session. split; [exact Hb|].
  assert (Hl : length (a_events (s_app session)) = 1%nat)
    by (vm_compute in Hb; injection Hb as <-; reflexivity).
  destruct Hcases as [-> | ->]; rewrite He in Hl |- *; [reflexivity|discriminate Hl].
Defined.

(** ** A session of the viewer *)

Definition demo_content : list byte := concat ((fun l => str_bytes l ++ [LF]) <$> demo_lines).
Definition demo_session : Session :=
  match build_app_from_path demo_parse 3 "/var/log/trace.ndjson" (Some demo_content) (Some 1000) 3600 None with
  | Some (Ok s) => s
  | _ => mkSession demo_app "" 0 0
  end.

Lemma demo_session_built :
  build_app_from_path demo_parse 3 "/var/log/trace.ndjson" (Some demo_content) (Some 1000) 3600 None =
  Some (Ok demo_session).
Proof. vm_compute. reflexivity. Qed.

Example demo_session_path : s_path demo_session = "trace.ndjson".
Proof. vm_compute. reflexivity. Qed.

Definition pressed (k : KeyCode) : Turn := mkTurn true (Some true) (Some (Some k)).
Definition idle : Turn := mkTurn true (Some false) None.
Definition all_fine : Setup := mkSetup true true true true true true.

Lemma viewer_session_witness :
  let '(o, a, t) := run_tui all_fine [idle; pressed KDown; pressed (KChar "q" false); pressed KUp] demo_session in
  o = Quit /\ t = shell_term /\ a = foldl handle_key (s_app demo_session) [KDown; KChar "q" false].
Proof.
  pose proof (viewer_session demo_parse 3 "/var/log/trace.ndjson" (Some demo_content) (Some 1000) 3600 None
    demo_session all_fine [idle; pressed KDown; pressed (KChar "q" false); pressed KUp] demo_session_built) as H.
  destruct (run_tui all_fine _ demo_session) as [[o a] t]. destruct H as (_ & _ & Hq & Ho).
  specialize (Ho eq_refl eq_refl). change (o = Quit) in Ho. destruct (Hq Ho) as (Ht & _ & Ha).
  split; [exact Ho|]. split; [exact Ht|exact Ha].
Defined.

(** The terminal after a key could not be read: raw mode, alternate screen. *)
Lemma failed_loop_leaves_terminal_witness :
  let '(o, _, t) := run_tui all_fine [idle; mkTurn true None None] demo_session in
  o = Failed /\ raw_mode t = true /\ alternate t = true.
Proof.
  destruct (main_loop (s_path demo_session) (s_boot_ns demo_session) (s_tz_offset demo_session)
              [idle; mkTurn true None None] (s_app demo_session) (mkTerm true true false)) as [[o a] t] eqn:E.
  assert (o = Failed) as -> by (vm_compute in E; by injection E as <- _ _).
  destruct (failed_loop_leaves_terminal all_fine [idle; mkTurn true None None] demo_session a t eq_refl E)
    as (Er & H1 & H2).
  rewrite Er. exact (conj eq_refl (conj H1 H2)).
Defined.

(** A large file is opened only after a yes. *)
Example large_file_asks :
  begin demo_parse 3 "trace.ndjson" "+09:00" (mkFiles (Some 60000000) (Some [LF]) (Some demo_content) (Some 0)) =
    BeginAborted /\
  (exists s, begin demo_parse 3 "trace.ndjson" "+09:00"
    (mkFiles (Some 60000000) (Some [Byte.x59; LF]) (Some demo_content) (Some 0)) = BeginRun s) /\
  (exists m, begin demo_parse 3 "trace.ndjson" "+24:00"
    (mkFiles (Some 6) None (Some demo_content) (Some 0)) = BeginErr m).
Proof. vm_compute. split_and!; [done|by eexists|by eexists]. Qed.
